(* ===== verification/_CoqProject ===== *)
-Q . S2P
Prelude.v
ScxCommon.v
Kernel.v
BpfMacros.v
HelperDefs.v
BpfTracing.v
K8sSched.v
Entry.v
Vtime.v
SchedFacts.v
Demo.v
SchedSpec.v
SchedSystem.v
VclockRace.v
Fairness.v
GoStrings.v
Pods.v
NodeFs.v
AgentMaps.v
MapsSpec.v
CelCache.v
Policy.v
PolicySpec.v
PolicySync.v
Agent.v
AgentSpec.v
EndToEnd.v
StatsFlow.v
Reconcile.v
SweepRace.v
Handover.v
