(* ===== verification/Prelude.v ===== *)
(** * k8s-sched: a verification development

    ** The program

    k8s-sched gives Kubernetes pods CPU weights and time-slice budgets.  It has
    two halves that meet in BPF maps.

    - The scheduler, bpf/k8s_sched.bpf.c, is a sched_ext program in the kernel.
      Runnable tasks wait on one custom dispatch queue ordered by virtual time;
      a task that ran is charged the time it used times 10000 over its weight.
      A task's weight and budget are looked up under its process id and then
      under its cgroup id.  The headers bpf/scx_common.bpf.h, bpf_helpers.h,
      bpf_tracing.h and bpf_helper_defs.h (include/bpf) supply constants, entry
      macros and helper declarations.
    - The agent, a Go program on every node, watches pods
      (internal/k8s/watcher.go), merges SchedulingPolicy objects and annotations
      into parameters (internal/policy/resolver.go, with compiled CEL conditions
      cached by internal/cel/cache.go), finds the pod's cgroups and processes in
      the node's file system, writes the maps (internal/maps/maps.go), and
      attaches the scheduler, sweeps stale entries, exports statistics and
      writes match counts back (internal/sched/agent.go, started and stopped by
      cmd/agent/main.go).

    ** The files

    The scheduler:
    - [Prelude]: machine words, the fault monad of BPF programs, tactics.
    - [ScxCommon]: scx_common.bpf.h, constants and kfunc names per kernel.
    - [Kernel]: the kernel side.  [Kfuncs] are the kernel functions the program
      calls, [ScxObs] what can be observed of the kernel, [ScxLaws] what the
      scheduler relies on, all three parameters; [RefKernel] is an instance.
    - [BpfMacros], [BpfTracing], [HelperDefs]: the three libbpf headers.  A
      macro is a function from argument lists to the call it expands to; a
      helper is its number, signature and failure convention.
    - [K8sSched]: k8s_sched.bpf.c, one definition per helper and callback, each
      a program over [sched_state] (the three maps, [vtime_now], kernel memory)
      that faults on a dead pointer.
    - [Entry]: the entry points the BPF_STRUCT_OPS macro generates.
    - [Vtime]: arithmetic of virtual time on the 64-bit circle.
    - [SchedFacts], [SchedSpec]: what each callback does, on every branch, and
      the invariant [wf_state]; [Demo] is a concrete node for the examples.
    - [SchedSystem]: events, the step relation [sched_steps], invariants.
    - [VclockRace]: [k8s_running] split into load and store, on several CPUs.
    - [Fairness]: rounds of competing tasks, shares and waiting times.

    The agent:
    - [GoStrings]: strconv and strings as far as the agent uses them.
    - [Pods]: pods and their annotations.
    - [NodeFs]: a file-system snapshot and the resolution of cgroups and PIDs.
    - [AgentMaps], [MapsSpec]: the operations of maps.go and their contracts.
    - [CelCache]: the LRU cache, sequential and under concurrent callers.
    - [Policy], [PolicySpec]: the resolver and its specification [matches].
    - [PolicySync]: the informer handlers and polling that feed the resolver,
      against a history of the API server.
    - [Agent], [AgentSpec]: watcher, pod callbacks, attach loop, export and
      status write-back.
    - [EndToEnd]: the agent's maps as the scheduler sees them.
    - [StatsFlow]: from the callbacks' counters to the exported metrics.
    - [Reconcile]: whole histories of the agent against a map of wanted
      parameters.
    - [SweepRace]: the cleanup sweep interleaved with the pod callbacks, map
      operation by map operation.
    - [Handover]: main.go and [Run], loading, pinning, attaching and shutting
      down, as a step relation over any number of agent processes.

    ** The theorems

    - Shares: under competition the virtual times charged to two tasks stay
      within a constant of each other, and so do their CPU times divided by the
      weights up to one nanosecond of rounding per turn ([weighted_fairness]);
      nobody waits for ever ([no_starvation]).  Wrap-around of the 64-bit clock
      is included.
    - Safety: no interleaving of callbacks, kernel steps and agent writes makes
      a callback fault ([scheduler_never_faults]); the clock moves forwards, and
      under races between CPUs a value behind it and behind all loaded copies
      stays behind ([clock_race]); the counters count what they say; no cgroup
      reference leaks.
    - Lifecycle: of the agent processes whose scheduler the kernel did not eject
      at most one has a scheduler attached, and a ready one is attached or was
      ejected ([one_scheduler]); starting and stopping terminate and, undisturbed,
      succeed ([attempt_terminates]); two interleavings of an upgrade end without
      a usable scheduler ([handover_can_fail]).
    - Contracts of the callbacks, of the map operations, of the resolver, of the
      cache, each on every branch, refused writes and errors included.
    - Concurrency: single-flight compilation under any interleaving
      ([singleflight_correct]); the cleanup sweep beside the pod callbacks
      ([sweep_race]), which also shows the entry a sweep can lose.
    - Synchronisation: informer and polling leave the same policies, those of the
      API server ([informer_equals_polling]).
    - Round trips: update and removal of a pod, cgroup.procs, decoding of entry
      point arguments.
    - Parsing and bounds: annotations, the weighted charge, the 64-bit product
      that wraps for huge budgets.
    - End to end: parameters resolved for a pod are what the scheduler uses for
      its tasks unless their process has an entry of its own, are gone after its
      removal, and are hidden by an entry left under a PID; through whole
      histories on good snapshots the cgroup map is the wanted one
      ([agent_reconciles]); the exported metrics count the scheduler's decisions
      ([metrics_count_decisions]).

    ** Bounds and fuel

    Integers are kept at their C or Go width: [u64], [u32], [s64], [s32] are
    written out where the source wraps.  Recursion that is not structural has
    fuel: the eviction loop of the cache gets one more than the number of
    entries, and each iteration removes one; the attach loop of the agent may
    retry for ever, and its theorem says that the fuel needed is the index of
    the first deciding round plus one; the iterator loops of bpf_helpers.h need
    one round more than the iterator has elements; running an
    agent process alone takes as much fuel as the rank of its phase.  Metrics are exact up to
    2^53 decisions, the integers a float64 holds.  The race of the clock assumes
    virtual times within half of the circle, less one slice.  Fairness asks for a spread of
    at most 2^62 ns between virtual times, so that the kernel's signed
    comparison orders them; a single slice charges at most 50 s.

    ** Parameters

    Code outside the repository is a parameter with named assumptions, and each
    has a concrete instance in the examples: the kernel functions ([Kfuncs] with
    [ScxLaws]), the eBPF library (which updates and deletions the kernel
    accepts, what an iteration yields, how a collection is loaded and pinned), the CEL compiler and evaluator, label
    selectors, the conversion of unstructured objects, the order in which Go
    visits a map, the API server's merge patch, what the attach attempts meet,
    and whether the kernel accepts an attach ([attach_ok]: never a second one).

    ** Not modelled

    The construction of clients, informers and the event broadcaster, the bodies
    of HTTP responses, event recording beyond the fact that an event of a pod or
    a policy was emitted, logging, the declarations of metrics
    (internal/metrics/metrics.go only registers collectors), generated deep
    copies, the chart and scripts, vmlinux.h.  File systems have no symbolic
    links; [TrimSpace] is the ASCII one.  Except for the clock in [VclockRace]
    callbacks are atomic; pod callbacks are too, which the watcher's single
    event queue gives, except beside the sweep in [SweepRace].

    ** Next

    The tasks' view of a map that changes between the two
    lookups of a callback; the /proc scan in whole histories. *)

From stdpp Require Import base gmap list strings numbers.
From Stdlib Require Import ZArith Lia.

Open Scope Z_scope.

(** ** Machine words

    A w-bit unsigned integer is a [Z] in [0, 2^w); every C operation on it
    is the mathematical one followed by a reduction modulo [2^w].  Signed
    views are two's complement. *)

Declare Scope word_scope.
Delimit Scope word_scope with word.

Definition u64_mod : Z := 18446744073709551616.
Definition s64_half : Z := 9223372036854775808.
Definition u32_mod : Z := 4294967296.
Definition s32_half : Z := 2147483648.

Definition u64 (z : Z) : Z := z mod u64_mod.
Definition u32 (z : Z) : Z := z mod u32_mod.
(** The cast [(s64)x] of an unsigned value. *)
Definition s64 (z : Z) : Z :=
  let r := u64 z in if r <? s64_half then r else r - u64_mod.
Definition s32 (z : Z) : Z :=
  let r := u32 z in if r <? s32_half then r else r - u32_mod.

Definition u64_add (a b : Z) : Z := u64 (a + b).
Definition u64_sub (a b : Z) : Z := u64 (a - b).
Definition u64_mul (a b : Z) : Z := u64 (a * b).
(** Division of unsigned words never wraps; the callers guard a zero divisor. *)
Definition u64_div (a b : Z) : Z := a / b.

Notation "a +w b" := (u64_add a b) (at level 50, left associativity) : word_scope.
Notation "a -w b" := (u64_sub a b) (at level 50, left associativity) : word_scope.
Notation "a *w b" := (u64_mul a b) (at level 40, left associativity) : word_scope.
Notation "a /w b" := (u64_div a b) (at level 40, left associativity) : word_scope.

Definition is_u64 (z : Z) : Prop := 0 <= z < u64_mod.
Definition is_u32 (z : Z) : Prop := 0 <= z < u32_mod.
#[global] Instance is_u64_dec z : Decision (is_u64 z).
Proof. unfold is_u64. apply _. Defined.
#[global] Instance is_u32_dec z : Decision (is_u32 z).
Proof. unfold is_u32. apply _. Defined.

(** Congruence modulo 2^64: the relation that wrap-around preserves. *)
Definition eq64 (a b : Z) : Prop := u64 a = u64 b.
Infix "≡w" := eq64 (at level 70, no associativity) : word_scope.

Create HintDb words.
Create Rewrite HintDb words.
Create HintDb kmem.

(** ** The BPF program monad

    A BPF program runs against a state and either finishes with a result or
    faults.  A fault is what the in-kernel verifier must exclude: a read or
    write through a pointer that does not point to a live object. *)

Definition bpf (S A : Type) : Type := S -> option (A * S).

#[global] Instance bpf_ret S : MRet (bpf S) := fun A a s => Some (a, s).
#[global] Instance bpf_bind S : MBind (bpf S) :=
  fun A B (f : A -> bpf S B) (m : bpf S A) s =>
    match m s with Some (a, s') => f a s' | None => None end.
#[global] Instance bpf_fmap S : FMap (bpf S) :=
  fun A B (f : A -> B) (m : bpf S A) s =>
    match m s with Some (a, s') => Some (f a, s') | None => None end.

Definition get_state {S} : bpf S S := fun s => Some (s, s).
Definition put_state {S} (s : S) : bpf S unit := fun _ => Some (tt, s).
Definition modify {S} (f : S -> S) : bpf S unit := fun s => Some (tt, f s).
Definition fault {S A} : bpf S A := fun _ => None.
(** Dereference: a missing object is a fault. *)
Definition deref {S A} (o : option A) : bpf S A :=
  match o with Some a => mret a | None => fault end.

(** ** Tactics *)

(** Unfold the word layer down to [mod] on literals. *)
Ltac unfold_words :=
  unfold u64_add, u64_sub, u64_mul, u64_div, s64, s32, eq64, u64, u32,
    is_u64, is_u32, u64_mod, s64_half, u32_mod, s32_half in *.

(** Split on every boolean comparison of [Z] and every [decide] in sight. *)
Ltac case_bool :=
  repeat match goal with
  | |- context [Z.ltb ?a ?b] => destruct (Z.ltb_spec a b)
  | |- context [Z.leb ?a ?b] => destruct (Z.leb_spec a b)
  | |- context [Z.eqb ?a ?b] => destruct (Z.eqb_spec a b)
  | H : context [Z.ltb ?a ?b] |- _ => destruct (Z.ltb_spec a b)
  | H : context [Z.leb ?a ?b] |- _ => destruct (Z.leb_spec a b)
  | H : context [Z.eqb ?a ?b] |- _ => destruct (Z.eqb_spec a b)
  end.

(** Arithmetic on words: unfold, then linear arithmetic with div and mod. *)
Ltac words :=
  unfold_words; Z.div_mod_to_equations; case_bool; lia.

(** ** Words: shared facts *)

Section Words.

Lemma u64_range z : is_u64 (u64 z).
Proof. unfold is_u64, u64. apply Z.mod_pos_bound. reflexivity. Qed.

Lemma u64_small z : is_u64 z -> u64 z = z.
Proof. intros H. unfold u64. by apply Z.mod_small. Qed.

Lemma u64_idem z : u64 (u64 z) = u64 z.
Proof. apply u64_small, u64_range. Qed.

Lemma u64_add_range a b : is_u64 (u64_add a b).
Proof. apply u64_range. Qed.

Lemma u64_sub_range a b : is_u64 (u64_sub a b).
Proof. apply u64_range. Qed.

Lemma u64_mul_range a b : is_u64 (u64_mul a b).
Proof. apply u64_range. Qed.

Lemma u64_add_l a b : u64 (u64 a + b) = u64 (a + b).
Proof. unfold u64. by rewrite Zplus_mod_idemp_l. Qed.

Lemma u64_add_r a b : u64 (a + u64 b) = u64 (a + b).
Proof. unfold u64. by rewrite Zplus_mod_idemp_r. Qed.

Lemma u64_sub_l a b : u64 (u64 a - b) = u64 (a - b).
Proof. unfold u64. by rewrite Zminus_mod_idemp_l. Qed.

Lemma u64_sub_r a b : u64 (a - u64 b) = u64 (a - b).
Proof. unfold u64. by rewrite Zminus_mod_idemp_r. Qed.

(** The signed view of a difference is the difference when it fits. *)
Lemma s64_small z : - s64_half <= z < s64_half -> s64 z = z.
Proof. intros H. words. Qed.

Lemma s64_u64 z : s64 (u64 z) = s64 z.
Proof. unfold s64. by rewrite u64_idem. Qed.

Lemma s64_range z : - s64_half <= s64 z < s64_half.
Proof. words. Qed.

Lemma u64_s64 z : u64 (s64 z) = u64 z.
Proof. words. Qed.

(** The opposite of a word that reads as negative is at most half the circle. *)
Lemma u64_opp_neg z : s64 z < 0 -> 0 <= u64 (- z) <= s64_half.
Proof.
  unfold s64. pose proof (u64_range z) as Hr. unfold is_u64 in Hr.
  destruct (Z.ltb_spec (u64 z) s64_half) as [Hl|Hl]; [lia|]. intros _.
  unfold u64 in *. rewrite Z_mod_nz_opp_full; unfold u64_mod, s64_half in *; lia.
Qed.

End Words.

#[export] Hint Resolve u64_range u64_add_range u64_sub_range u64_mul_range : words.
#[export] Hint Rewrite u64_idem u64_add_l u64_add_r u64_sub_l u64_sub_r s64_u64 : words.

(** [≡w] is an equivalence, and addition and subtraction respect it. *)
#[global] Instance eq64_equivalence : Equivalence eq64.
Proof.
  split; unfold eq64; red; [done | by intros | intros ? ? ?; congruence].
Qed.

#[global] Instance eq64_add : Proper (eq64 ==> eq64 ==> eq64) Z.add.
Proof.
  intros a a' Ha b b' Hb. unfold eq64 in *.
  by rewrite <- u64_add_l, Ha, u64_add_l, <- u64_add_r, Hb, u64_add_r.
Qed.

#[global] Instance eq64_sub : Proper (eq64 ==> eq64 ==> eq64) Z.sub.
Proof.
  intros a a' Ha b b' Hb. unfold eq64 in *.
  by rewrite <- u64_sub_l, Ha, u64_sub_l, <- u64_sub_r, Hb, u64_sub_r.
Qed.

Lemma eq64_u64 z : eq64 (u64 z) z.
Proof. unfold eq64. apply u64_idem. Qed.

(** ** The BPF program monad: its laws *)

Section MonadLaws.
Context {S : Type}.

Lemma bpf_bind_ret_l {A B} (a : A) (f : A -> bpf S B) s : (mret a ≫= f) s = f a s.
Proof. done. Qed.

Lemma bpf_bind_ret_r {A} (m : bpf S A) s : (m ≫= mret) s = m s.
Proof. unfold mbind, bpf_bind, mret, bpf_ret. by destruct (m s) as [[? ?]|]. Qed.

Lemma bpf_bind_assoc {A B C} (m : bpf S A) (f : A -> bpf S B) (g : B -> bpf S C) s :
  ((m ≫= f) ≫= g) s = (m ≫= fun a => f a ≫= g) s.
Proof. unfold mbind, bpf_bind. by destruct (m s) as [[? ?]|]. Qed.

(** Running a bind whose first part is known. *)
Lemma bpf_bind_run {A B} (m : bpf S A) (f : A -> bpf S B) s a s' :
  m s = Some (a, s') -> (m ≫= f) s = f a s'.
Proof. intros E. unfold mbind, bpf_bind. by rewrite E. Qed.

End MonadLaws.

(** ** Maps: shared facts *)

(** Updating a present key in place is an insertion. *)
Lemma alter_insert_map {A} (f : A -> A) (i : Z) (m : gmap Z A) (x : A) :
  m !! i = Some x -> alter f i m = <[i := f x]> m.
Proof.
  intros E. apply map_eq. intros j. destruct (decide (i = j)) as [->|Hne].
  - by rewrite lookup_alter_eq, lookup_insert_eq, E.
  - by rewrite lookup_alter_ne, lookup_insert_ne.
Qed.
