(* ===== verification/ScxCommon.v ===== *)
(** * bpf/scx_common.bpf.h

    The constants of the sched_ext shim, the choice of kfunc names per
    kernel generation and the section names the [BPF_STRUCT_OPS] macros
    produce. *)

From stdpp Require Import base list strings.
From Stdlib Require Import ZArith Lia.
From S2P Require Import Prelude.

Open Scope Z_scope.

(** ** Kernel generations and kfunc names *)

(** The two preprocessor symbols of the build scripts, each possibly undefined. *)
Record kernel_version := KernelVersion {
  SCX_KERNEL_MAJOR : option Z;
  SCX_KERNEL_MINOR : option Z
}.

(** [__SCX_LEGACY_KFUNCS]: both symbols defined and below 6.13. *)
Definition SCX_LEGACY_KFUNCS (v : kernel_version) : bool :=
  match SCX_KERNEL_MAJOR v, SCX_KERNEL_MINOR v with
  | Some maj, Some min => (maj <? 6) || ((maj =? 6) && (min <? 13))
  | _, _ => false
  end.

(** The unified names the scheduler calls. *)
Inductive unified_kfunc := scx_dsq_insert | scx_dsq_insert_vtime | scx_dsq_move_to_local.

(** What each unified name expands to. *)
Definition kfunc_alias (v : kernel_version) (f : unified_kfunc) : string :=
  if SCX_LEGACY_KFUNCS v then
    match f with
    | scx_dsq_insert => "scx_bpf_dispatch"
    | scx_dsq_insert_vtime => "scx_bpf_dispatch_vtime"
    | scx_dsq_move_to_local => "scx_bpf_consume"
    end
  else
    match f with
    | scx_dsq_insert => "scx_bpf_dsq_insert"
    | scx_dsq_insert_vtime => "scx_bpf_dsq_insert_vtime"
    | scx_dsq_move_to_local => "scx_bpf_dsq_move_to_local"
    end.

(** C types that occur in the kfunc prototypes. *)
Inductive kty := KVoid | KBool | KS32 | KU64 | KTask | KCgroup | KBoolPtr.
#[global] Instance kty_eq_dec : EqDecision kty.
Proof. solve_decision. Defined.

(** A prototype: name, result type, parameter types. *)
Record kfunc_decl := KfuncDecl { kf_name : string; kf_ret : kty; kf_args : list kty }.

(** The [extern ... __ksym] declarations, in order, for a kernel generation. *)
Definition kfunc_decls (v : kernel_version) : list kfunc_decl :=
  [ KfuncDecl "scx_bpf_create_dsq" KS32 [KU64; KS32];
    KfuncDecl "scx_bpf_destroy_dsq" KVoid [KU64] ] ++
  (if SCX_LEGACY_KFUNCS v then
    [ KfuncDecl "scx_bpf_dispatch" KVoid [KTask; KU64; KU64; KU64];
      KfuncDecl "scx_bpf_dispatch_vtime" KVoid [KTask; KU64; KU64; KU64; KU64];
      KfuncDecl "scx_bpf_consume" KBool [KU64] ]
  else
    [ KfuncDecl "scx_bpf_dsq_insert" KVoid [KTask; KU64; KU64; KU64];
      KfuncDecl "scx_bpf_dsq_insert_vtime" KVoid [KTask; KU64; KU64; KU64; KU64];
      KfuncDecl "scx_bpf_dsq_move_to_local" KBool [KU64] ]) ++
  [ KfuncDecl "scx_bpf_kick_cpu" KVoid [KS32; KU64];
    KfuncDecl "scx_bpf_select_cpu_dfl" KS32 [KTask; KS32; KU64; KBoolPtr] ].

(** The cgroup helpers declared further down. *)
Definition cgroup_kfunc_decls : list kfunc_decl :=
  [ KfuncDecl "scx_bpf_task_cgroup" KCgroup [KTask];
    KfuncDecl "bpf_cgroup_release" KVoid [KCgroup] ].

(** ** DSQ identifiers and flags *)

Definition SCX_DSQ_FLAG_BUILTIN : Z := Z.shiftl 1 63.
Definition SCX_DSQ_INVALID : Z := Z.lor SCX_DSQ_FLAG_BUILTIN 0.
Definition SCX_DSQ_GLOBAL : Z := Z.lor SCX_DSQ_FLAG_BUILTIN 1.
Definition SCX_DSQ_LOCAL : Z := Z.lor SCX_DSQ_FLAG_BUILTIN 2.
Definition SCX_DSQ_LOCAL_ON : Z := Z.lor SCX_DSQ_FLAG_BUILTIN 3.

(** "Built-in DSQ IDs have the high bit set; user DSQs must keep it clear." *)
Definition is_builtin_dsq (id : Z) : bool := Z.testbit id 63.

Definition SCX_SLICE_DFL : Z := 20000000.

Definition SCX_ENQ_WAKEUP : Z := 1.
Definition SCX_ENQ_HEAD : Z := Z.shiftl 1 4.

Definition SCX_KICK_IDLE : Z := 1.
Definition SCX_KICK_PREEMPT : Z := Z.shiftl 1 1.

(** ** Struct-ops macros: the ELF section a callback is placed in *)

Definition BPF_STRUCT_OPS (name : string) : string := "struct_ops/" +:+ name.
Definition BPF_STRUCT_OPS_SLEEPABLE (name : string) : string := "struct_ops.s/" +:+ name.
Definition SCX_OPS_DEFINE_section : string := ".struct_ops.link".

(** ** Properties *)

(** What a unified call site needs: argument and result types. *)
Definition unified_signature (f : unified_kfunc) : kty * list kty :=
  match f with
  | scx_dsq_insert => (KVoid, [KTask; KU64; KU64; KU64])
  | scx_dsq_insert_vtime => (KVoid, [KTask; KU64; KU64; KU64; KU64])
  | scx_dsq_move_to_local => (KBool, [KU64])
  end.

(** Whether a released kernel still has the names of v6.12. *)
Definition before_6_13 (v : kernel_version) : Prop :=
  exists maj min, SCX_KERNEL_MAJOR v = Some maj /\ SCX_KERNEL_MINOR v = Some min /\
    (maj < 6 \/ (maj = 6 /\ min < 13)).

Lemma legacy_before_6_13 v : SCX_LEGACY_KFUNCS v = true <-> before_6_13 v.
Proof.
  unfold SCX_LEGACY_KFUNCS, before_6_13.
  destruct (SCX_KERNEL_MAJOR v) as [maj|], (SCX_KERNEL_MINOR v) as [min|]; [|naive_solver..].
  rewrite orb_true_iff, andb_true_iff, !Z.ltb_lt, Z.eqb_eq. naive_solver.
Qed.

(** Looking a kfunc up among the declarations. *)
Definition find_decl (n : string) (ds : list kfunc_decl) : list kfunc_decl :=
  filter (fun d => kf_name d = n) ds.

(** C36: whatever the build passes as kernel version, each unified name the
    scheduler calls expands to a kfunc that the same build declares exactly
    once, with the argument and result types of the call sites; the old names
    are chosen exactly when both version symbols are given and are below
    6.13. *)
Theorem alias_declared_once v f :
  find_decl (kfunc_alias v f) (kfunc_decls v ++ cgroup_kfunc_decls) =
    [KfuncDecl (kfunc_alias v f) (fst (unified_signature f)) (snd (unified_signature f))] /\
  (kfunc_alias v f = kfunc_alias (KernelVersion (Some 6) (Some 12)) f <-> before_6_13 v).
Proof.
  split.
  - unfold kfunc_alias, kfunc_decls.
    destruct (SCX_LEGACY_KFUNCS v); destruct f; vm_compute; reflexivity.
  - rewrite <- legacy_before_6_13. unfold kfunc_alias at 2. simpl. unfold kfunc_alias.
    by destruct (SCX_LEGACY_KFUNCS v), f.
Qed.

Theorem builtin_dsqs_distinct :
  Forall (fun id => is_builtin_dsq id = true)
    [SCX_DSQ_INVALID; SCX_DSQ_GLOBAL; SCX_DSQ_LOCAL; SCX_DSQ_LOCAL_ON] /\
  NoDup [SCX_DSQ_INVALID; SCX_DSQ_GLOBAL; SCX_DSQ_LOCAL; SCX_DSQ_LOCAL_ON].
Proof.
  split; [repeat constructor|].
  apply (bool_decide_unpack _). vm_compute. reflexivity.
Qed.
