(* ===== verification/Kernel.v ===== *)
(** * The kernel side of the sched_ext interface

    The sched_ext core, the BPF map implementation and the default idle-CPU
    picker are the kernel's: they are not part of the repository.  They enter
    the development as the operations of the class [Kfuncs]; the facts the
    scheduler relies on are the fields of [ScxLaws], each one documented
    behaviour of the sched_ext kfuncs.  [RefKernel] is a concrete kernel that
    satisfies them.

    The task and cgroup structures are vmlinux.h's, cut down to the fields the
    scheduler reads and writes. *)

From stdpp Require Import base gmap list strings.
From Stdlib Require Import ZArith Lia.
From S2P Require Import Prelude ScxCommon.

Open Scope Z_scope.

(** ** Kernel memory *)

(** [struct task_struct]: [pid], [tgid] and the [scx] entity's [slice] and
    [dsq_vtime]. *)
Record task_struct := TaskStruct {
  t_pid : Z;
  t_tgid : Z;
  t_slice : Z;
  t_dsq_vtime : Z
}.

Definition set_slice (z : Z) (t : task_struct) : task_struct :=
  TaskStruct (t_pid t) (t_tgid t) z (t_dsq_vtime t).
Definition set_dsq_vtime (z : Z) (t : task_struct) : task_struct :=
  TaskStruct (t_pid t) (t_tgid t) (t_slice t) z.

(** [struct scx_exit_info]: the field [k8s_exit] prints. *)
Record scx_exit_info := ScxExitInfo { ei_kind : Z }.

(** Kernel memory as the callbacks see it: the live tasks by address, the CPU
    the callback runs on, and the rest of the kernel as an opaque [P]. *)
Record kmem (P : Type) := KMem {
  k_tasks : gmap Z task_struct;
  k_cpu : Z;
  k_priv : P
}.
Arguments KMem {P}.
Arguments k_tasks {P}.
Arguments k_cpu {P}.
Arguments k_priv {P}.

Definition upd_task {P} (p : Z) (f : task_struct -> task_struct) (k : kmem P) : kmem P :=
  KMem (alter f p (k_tasks k)) (k_cpu k) (k_priv k).

(** ** The kfuncs the scheduler calls *)

Class Kfuncs (P : Type) := {
  (** [scx_bpf_create_dsq(dsq_id, node)] *)
  kf_create_dsq : Z -> Z -> kmem P -> Z * kmem P;
  (** [scx_bpf_dsq_insert(p, dsq_id, slice, enq_flags)] *)
  kf_dsq_insert : Z -> Z -> Z -> Z -> kmem P -> kmem P;
  (** [scx_bpf_dsq_insert_vtime(p, dsq_id, slice, vtime, enq_flags)] *)
  kf_dsq_insert_vtime : Z -> Z -> Z -> Z -> Z -> kmem P -> kmem P;
  (** [scx_bpf_dsq_move_to_local(dsq_id)] *)
  kf_dsq_move_to_local : Z -> kmem P -> bool * kmem P;
  (** [scx_bpf_select_cpu_dfl(p, prev_cpu, wake_flags, &is_idle)] *)
  kf_select_cpu_dfl : Z -> Z -> Z -> kmem P -> (Z * bool) * kmem P;
  (** [scx_bpf_task_cgroup(p)]: a referenced cgroup, or NULL *)
  kf_task_cgroup : Z -> kmem P -> option Z * kmem P;
  (** [cgrp->kn->id] *)
  kf_cgroup_kn_id : Z -> kmem P -> Z;
  (** [bpf_cgroup_release(cgrp)] *)
  kf_cgroup_release : Z -> kmem P -> kmem P;
  (** [bpf_trace_printk(fmt, size, args...)] *)
  kf_trace_printk : string -> Z -> list Z -> kmem P -> kmem P;
  (** The sched_ext core taking the next task off the current CPU's local DSQ *)
  core_pick_local : kmem P -> option Z * kmem P;
  (** The core charging [d] nanoseconds of run time to the task's slice *)
  core_account : Z -> Z -> kmem P -> kmem P;
  (** The core after [ops.select_cpu] returned [cpu] for task [p]: a direct
      insert the callback asked for takes effect *)
  core_place : Z -> Z -> kmem P -> kmem P
}.

(** ** What the scheduler relies on *)

(** The virtual times [f] takes on a set of tasks lie within half the 64-bit
    circle, so that the kernel's signed comparison orders them. *)
Definition vt_of {P} (k : kmem P) (p : Z) : Z :=
  from_option t_dsq_vtime 0 (k_tasks k !! p).

Definition within_window (vt : Z -> Z) (q : gset Z) : Prop :=
  forall a b c, a ∈ q -> b ∈ q -> c ∈ q ->
    s64 (vt a - vt b) = s64 (vt a - vt c) + s64 (vt c - vt b).

(** Observations of the kernel's private state: whether a user DSQ was created,
    the tasks waiting on it, the tasks on the local DSQ of a CPU, the DSQ a
    task was directly inserted to by the callback that is running (its
    [ddsp_dsq_id]), the CPUs a task may run on, the cgroup of a task and the
    number of references the program holds on a cgroup. *)
Class ScxObs (P : Type) := {
  dsq_exists : kmem P -> Z -> bool;
  dsq_queue : kmem P -> Z -> gset Z;
  local_queue : kmem P -> Z -> list Z;
  direct_dsq : kmem P -> Z -> option Z;
  task_allowed : kmem P -> Z -> Z -> bool;
  task_cgroup_of : kmem P -> Z -> option Z;
  cgroup_refs : kmem P -> Z -> Z
}.

(** The tasks of a DSQ that may run on the current CPU. *)
Definition runnable_here {P} `{ScxObs P} (k : kmem P) (d : Z) : gset Z :=
  filter (fun p => task_allowed k p (k_cpu k) = true) (dsq_queue k d).

(** Two kernel states that differ in neither the current CPU, the set of DSQs,
    the affinities nor the cgroups. *)
Record env_eq {P} `{Kfuncs P} `{ScxObs P} (k k' : kmem P) : Prop := EnvEq {
  env_cpu : k_cpu k' = k_cpu k;
  env_dsqs d : dsq_exists k' d = dsq_exists k d;
  env_allowed p c : task_allowed k' p c = task_allowed k p c;
  env_cgroup p : task_cgroup_of k' p = task_cgroup_of k p;
  env_kn_id c : kf_cgroup_kn_id c k' = kf_cgroup_kn_id c k
}.

(** Two kernel states with the same queues. *)
Record queues_eq {P} `{ScxObs P} (k k' : kmem P) : Prop := QueuesEq {
  queues_dsq d : dsq_queue k' d = dsq_queue k d;
  queues_local c : local_queue k' c = local_queue k c;
  queues_direct p : direct_dsq k' p = direct_dsq k p
}.

(** Two kernel states with the same references held. *)
Definition refs_eq {P} `{ScxObs P} (k k' : kmem P) : Prop :=
  forall c, cgroup_refs k' c = cgroup_refs k c.

Class ScxLaws (P : Type) `{Kfuncs P} `{ScxObs P} := {
  (** A plain store into a task structure changes no queue and no cgroup. *)
  law_store_env p f k : env_eq k (upd_task p f k);
  law_store_queues p f k : queues_eq k (upd_task p f k);

  (** The DSQs belong to the scheduler, neither to a CPU nor to a task. *)
  law_dsqs_shared ts c k d : dsq_exists (KMem ts c (k_priv k)) d = dsq_exists k d;

  (** Creating a DSQ returns 0 and leaves an empty one, or a negative error. *)
  law_create d node k :
    fst (kf_create_dsq d node k) < 0 \/
    fst (kf_create_dsq d node k) = 0 /\
    dsq_exists (snd (kf_create_dsq d node k)) d = true /\
    dsq_queue (snd (kf_create_dsq d node k)) d = ∅;

  (** Inserting by vtime sets the slice and the vtime of the task and queues it. *)
  law_insert_vtime_tasks p d sl v fl k :
    0 < sl ->
    k_tasks (kf_dsq_insert_vtime p d sl v fl k) =
      alter (fun t => set_dsq_vtime v (set_slice sl t)) p (k_tasks k);
  law_insert_vtime_env p d sl v fl k : env_eq k (kf_dsq_insert_vtime p d sl v fl k);
  law_insert_vtime_queue p d sl v fl k d' :
    is_builtin_dsq d = false -> dsq_exists k d = true ->
    dsq_queue (kf_dsq_insert_vtime p d sl v fl k) d' =
      if decide (d' = d) then {[p]} ∪ dsq_queue k d' else dsq_queue k d';
  law_insert_vtime_local p d sl v fl k c :
    is_builtin_dsq d = false -> dsq_exists k d = true ->
    local_queue (kf_dsq_insert_vtime p d sl v fl k) c = local_queue k c;

  (** Inserting on a FIFO DSQ sets the slice only.  An insert to the local DSQ
      is recorded, and takes effect when [ops.select_cpu] has returned: the task
      goes to the tail of the local DSQ of the CPU it returned. *)
  law_insert_tasks p d sl fl k :
    0 < sl -> k_tasks (kf_dsq_insert p d sl fl k) = alter (set_slice sl) p (k_tasks k);
  law_insert_env p d sl fl k : env_eq k (kf_dsq_insert p d sl fl k);
  law_insert_dsq p sl fl k d : dsq_queue (kf_dsq_insert p SCX_DSQ_LOCAL sl fl k) d = dsq_queue k d;
  law_insert_local p sl fl k c :
    local_queue (kf_dsq_insert p SCX_DSQ_LOCAL sl fl k) c = local_queue k c;
  law_insert_direct p sl fl k q :
    direct_dsq (kf_dsq_insert p SCX_DSQ_LOCAL sl fl k) q =
      if decide (q = p) then Some SCX_DSQ_LOCAL else direct_dsq k q;
  law_place_tasks p c k : k_tasks (core_place p c k) = k_tasks k;
  law_place_env p c k : env_eq k (core_place p c k);
  law_place_dsq p c k d : dsq_queue (core_place p c k) d = dsq_queue k d;
  law_place_local p c k c' :
    local_queue (core_place p c k) c' =
      if decide (direct_dsq k p = Some SCX_DSQ_LOCAL /\ c' = c)
      then local_queue k c' ++ [p] else local_queue k c';
  law_place_direct p c k : direct_dsq (core_place p c k) p = None;

  (** Moving to the local DSQ: nothing when no queued task may run on this CPU;
      otherwise, of those that may, a task of least vtime goes to the tail of
      this CPU's local DSQ. *)
  law_move_tasks d k : k_tasks (snd (kf_dsq_move_to_local d k)) = k_tasks k;
  law_move_env d k : env_eq k (snd (kf_dsq_move_to_local d k));
  law_move_empty d k :
    dsq_exists k d = true -> runnable_here k d = ∅ -> kf_dsq_move_to_local d k = (false, k);
  law_move_some d k :
    dsq_exists k d = true -> runnable_here k d <> ∅ ->
    within_window (vt_of k) (dsq_queue k d) ->
    exists p, p ∈ runnable_here k d /\
      fst (kf_dsq_move_to_local d k) = true /\
      dsq_queue (snd (kf_dsq_move_to_local d k)) d = dsq_queue k d ∖ {[p]} /\
      local_queue (snd (kf_dsq_move_to_local d k)) (k_cpu k) =
        local_queue k (k_cpu k) ++ [p] /\
      (forall q, q ∈ runnable_here k d -> 0 <= s64 (vt_of k q - vt_of k p));

  (** The default CPU picker touches neither the tasks nor the cgroups. *)
  law_select_tasks p c f k : k_tasks (snd (kf_select_cpu_dfl p c f k)) = k_tasks k;
  law_select_env p c f k : env_eq k (snd (kf_select_cpu_dfl p c f k));

  (** Getting the cgroup of a task takes one reference on it, if there is one;
      releasing drops one; nothing else changes. *)
  law_cgroup_result p k : fst (kf_task_cgroup p k) = task_cgroup_of k p;
  law_cgroup_tasks p k : k_tasks (snd (kf_task_cgroup p k)) = k_tasks k;
  law_cgroup_env p k : env_eq k (snd (kf_task_cgroup p k));
  law_cgroup_queues p k : queues_eq k (snd (kf_task_cgroup p k));
  law_cgroup_refs p k c :
    cgroup_refs (snd (kf_task_cgroup p k)) c =
      cgroup_refs k c + (if decide (fst (kf_task_cgroup p k) = Some c) then 1 else 0);
  law_release_tasks c k : k_tasks (kf_cgroup_release c k) = k_tasks k;
  law_release_env c k : env_eq k (kf_cgroup_release c k);
  law_release_queues c k : queues_eq k (kf_cgroup_release c k);
  law_release_refs c k c' :
    cgroup_refs (kf_cgroup_release c k) c' =
      cgroup_refs k c' - (if decide (c = c') then 1 else 0);

  (** The core's own steps: picking the next task of the local DSQ and
      accounting run time against the remaining slice. *)
  law_pick_tasks k : k_tasks (snd (core_pick_local k)) = k_tasks k;
  law_pick_env k : env_eq k (snd (core_pick_local k));
  law_pick_dsq k d : dsq_queue (snd (core_pick_local k)) d = dsq_queue k d;
  law_pick_cons k p rest :
    local_queue k (k_cpu k) = p :: rest ->
    fst (core_pick_local k) = Some p /\
    local_queue (snd (core_pick_local k)) (k_cpu k) = rest;
  law_account_tasks p d k :
    k_tasks (core_account p d k) =
      alter (fun t => set_slice (t_slice t - Z.min (t_slice t) d) t) p (k_tasks k);
  law_account_env p d k : env_eq k (core_account p d k);
  law_account_queues p d k : queues_eq k (core_account p d k)
}.

(** ** The reference kernel *)

Module RefKernel.

Record priv := Priv {
  dsqs : gmap Z (gset Z);
  locals : gmap Z (list Z);
  direct : gmap Z Z;         (* task -> DSQ of a pending direct insert *)
  pinned : gmap Z Z;         (* task -> the only CPU it may run on *)
  cgroups : gmap Z Z;        (* task -> cgroup *)
  kn_ids : gmap Z Z;         (* cgroup -> kernfs id *)
  refs : gmap Z Z;           (* references held by the program *)
  trace : list (string * list Z)
}.

Definition dget (k : kmem priv) (d : Z) : gset Z := default ∅ (dsqs (k_priv k) !! d).
Definition lget (k : kmem priv) (c : Z) : list Z := default [] (locals (k_priv k) !! c).
Definition rget (k : kmem priv) (c : Z) : Z := default 0 (refs (k_priv k) !! c).

Definition with_tasks (t : gmap Z task_struct) (k : kmem priv) : kmem priv :=
  KMem t (k_cpu k) (k_priv k).
Definition with_dsqs (d : gmap Z (gset Z)) (k : kmem priv) : kmem priv :=
  KMem (k_tasks k) (k_cpu k)
    (Priv d (locals (k_priv k)) (direct (k_priv k)) (pinned (k_priv k)) (cgroups (k_priv k)) (kn_ids (k_priv k))
       (refs (k_priv k)) (trace (k_priv k))).
Definition with_locals (l : gmap Z (list Z)) (k : kmem priv) : kmem priv :=
  KMem (k_tasks k) (k_cpu k)
    (Priv (dsqs (k_priv k)) l (direct (k_priv k)) (pinned (k_priv k)) (cgroups (k_priv k)) (kn_ids (k_priv k))
       (refs (k_priv k)) (trace (k_priv k))).
Definition with_direct (m : gmap Z Z) (k : kmem priv) : kmem priv :=
  KMem (k_tasks k) (k_cpu k)
    (Priv (dsqs (k_priv k)) (locals (k_priv k)) m (pinned (k_priv k)) (cgroups (k_priv k))
       (kn_ids (k_priv k)) (refs (k_priv k)) (trace (k_priv k))).
Definition with_refs (r : gmap Z Z) (k : kmem priv) : kmem priv :=
  KMem (k_tasks k) (k_cpu k)
    (Priv (dsqs (k_priv k)) (locals (k_priv k)) (direct (k_priv k)) (pinned (k_priv k)) (cgroups (k_priv k))
       (kn_ids (k_priv k)) r (trace (k_priv k))).
Definition with_trace (t : list (string * list Z)) (k : kmem priv) : kmem priv :=
  KMem (k_tasks k) (k_cpu k)
    (Priv (dsqs (k_priv k)) (locals (k_priv k)) (direct (k_priv k)) (pinned (k_priv k)) (cgroups (k_priv k))
       (kn_ids (k_priv k)) (refs (k_priv k)) t).

Definition allowed (k : kmem priv) (p c : Z) : bool :=
  match pinned (k_priv k) !! p with Some c' => c =? c' | None => true end.
Definition exists_dsq (k : kmem priv) (d : Z) : bool :=
  match dsqs (k_priv k) !! d with Some _ => true | None => false end.
Definition here (k : kmem priv) (d : Z) : gset Z :=
  filter (fun p => allowed k p (k_cpu k) = true) (dget k d).

(** The task of least vtime in signed 64-bit order. *)
Fixpoint least (vt : Z -> Z) (best : Z) (l : list Z) : Z :=
  match l with
  | [] => best
  | x :: l' => least vt (if s64 (vt x - vt best) <? 0 then x else best) l'
  end.

#[global] Instance kfuncs : Kfuncs priv := {
  kf_create_dsq d node k := (0, with_dsqs (<[d := ∅]> (dsqs (k_priv k))) k);
  kf_dsq_insert p d sl fl k :=
    with_direct (<[p := d]> (direct (k_priv k)))
      (with_tasks (alter (set_slice sl) p (k_tasks k)) k);
  kf_dsq_insert_vtime p d sl v fl k :=
    with_dsqs (alter (fun q => {[p]} ∪ q) d (dsqs (k_priv k)))
      (with_tasks (alter (fun t => set_dsq_vtime v (set_slice sl t)) p (k_tasks k)) k);
  kf_dsq_move_to_local d k :=
    match elements (here k d) with
    | [] => (false, k)
    | x :: l =>
        let p := least (vt_of k) x l in
        (true, with_locals (<[k_cpu k := lget k (k_cpu k) ++ [p]]> (locals (k_priv k)))
                 (with_dsqs (alter (fun q => q ∖ {[p]}) d (dsqs (k_priv k))) k))
    end;
  kf_select_cpu_dfl p c f k :=
    ((c, bool_decide (lget k c = [])), k);
  kf_task_cgroup p k :=
    match cgroups (k_priv k) !! p with
    | Some c => (Some c, with_refs (<[c := rget k c + 1]> (refs (k_priv k))) k)
    | None => (None, k)
    end;
  kf_cgroup_kn_id c k := default 0 (kn_ids (k_priv k) !! c);
  kf_cgroup_release c k := with_refs (<[c := rget k c - 1]> (refs (k_priv k))) k;
  kf_trace_printk fmt sz args k := with_trace (trace (k_priv k) ++ [(fmt, args)]) k;
  core_pick_local k :=
    match lget k (k_cpu k) with
    | [] => (None, k)
    | p :: rest => (Some p, with_locals (<[k_cpu k := rest]> (locals (k_priv k))) k)
    end;
  core_account p d k :=
    with_tasks (alter (fun t => set_slice (t_slice t - Z.min (t_slice t) d) t) p (k_tasks k)) k;
  core_place p c k :=
    with_direct (delete p (direct (k_priv k)))
      (if decide (direct (k_priv k) !! p = Some SCX_DSQ_LOCAL)
       then with_locals (<[c := lget k c ++ [p]]> (locals (k_priv k))) k else k)
}.

#[global] Instance obs : ScxObs priv := {
  dsq_exists := exists_dsq;
  dsq_queue := dget;
  local_queue := lget;
  direct_dsq k p := direct (k_priv k) !! p;
  task_allowed := allowed;
  task_cgroup_of k p := cgroups (k_priv k) !! p;
  cgroup_refs := rget
}.

Lemma least_in vt best l : least vt best l = best \/ least vt best l ∈ l.
Proof.
  revert best. induction l as [|x l IH]; intros best; simpl; [by left|].
  case_bool; destruct (IH (if s64 (vt x - vt best) <? 0 then x else best)) as [E|E];
    case_bool; try lia; try (rewrite E); set_solver.
Qed.

Lemma within_window_swap vt q a b :
  within_window vt q -> a ∈ q -> b ∈ q -> s64 (vt b - vt a) = - s64 (vt a - vt b).
Proof.
  intros W Ha Hb. pose proof (W a a b Ha Ha Hb) as E.
  rewrite Z.sub_diag in E. change (s64 0) with 0 in E. lia.
Qed.

Lemma least_le vt q best l :
  within_window vt q -> best ∈ q -> (forall x, x ∈ l -> x ∈ q) ->
  0 <= s64 (vt best - vt (least vt best l)) /\
  forall x, x ∈ l -> 0 <= s64 (vt x - vt (least vt best l)).
Proof.
  intros W. revert best. induction l as [|y l IH]; intros best Hb Hl; simpl.
  - split; [by rewrite Z.sub_diag | set_solver].
  - assert (Hy : y ∈ q) by set_solver.
    set (b' := if s64 (vt y - vt best) <? 0 then y else best).
    assert (Hb' : b' ∈ q) by (unfold b'; case_bool; done).
    destruct (IH b' Hb' ltac:(set_solver)) as [I1 I2].
    assert (Hm : least vt b' l ∈ q).
    { destruct (least_in vt b' l) as [->|?]; set_solver. }
    set (m := least vt b' l) in *.
    pose proof (W best m b' Hb Hm Hb') as E1.
    pose proof (W y m b' Hy Hm Hb') as E2.
    pose proof (within_window_swap vt q best y W Hb Hy) as E3.
    unfold b' in *. split; [case_bool; [lia | done]|].
    intros x [->|Hx]%elem_of_cons; [|by apply I2].
    case_bool; [done | lia].
Qed.

Lemma exists_alter (k k' : kmem priv) f d d' :
  dsqs (k_priv k') = alter f d (dsqs (k_priv k)) -> exists_dsq k' d' = exists_dsq k d'.
Proof.
  unfold exists_dsq. intros ->. destruct (decide (d = d')) as [->|Hne].
  - rewrite lookup_alter_eq. by destruct (dsqs (k_priv k) !! d').
  - by rewrite lookup_alter_ne.
Qed.

Lemma dget_alter (k k' : kmem priv) f d d' :
  exists_dsq k d = true -> dsqs (k_priv k') = alter f d (dsqs (k_priv k)) ->
  dget k' d' = if decide (d' = d) then f (dget k d') else dget k d'.
Proof.
  unfold exists_dsq, dget. intros He ->. case_decide as D.
  - subst. rewrite lookup_alter_eq. by destruct (dsqs (k_priv k) !! d).
  - by rewrite lookup_alter_ne.
Qed.

Lemma move_env d k : env_eq k (snd (kf_dsq_move_to_local d k)).
Proof.
  simpl. destruct (elements (here k d)) as [|x l]; [by split|].
  split; try done. intros d'. simpl. by eapply exists_alter.
Qed.

Lemma move_some d k :
  exists_dsq k d = true -> here k d <> ∅ -> within_window (vt_of k) (dget k d) ->
  exists p, p ∈ here k d /\
    fst (kf_dsq_move_to_local d k) = true /\
    dget (snd (kf_dsq_move_to_local d k)) d = dget k d ∖ {[p]} /\
    lget (snd (kf_dsq_move_to_local d k)) (k_cpu k) = lget k (k_cpu k) ++ [p] /\
    (forall q, q ∈ here k d -> 0 <= s64 (vt_of k q - vt_of k p)).
Proof.
  intros He Hne W. simpl. destruct (elements (here k d)) as [|x l] eqn:E.
  { destruct Hne. by apply elements_empty_inv, leibniz_equiv in E. }
  assert (Hin : forall z, z ∈ x :: l <-> z ∈ here k d)
    by (intros z; rewrite <- E; by rewrite elem_of_elements).
  assert (Hsub : forall z, z ∈ here k d -> z ∈ dget k d)
    by (intros z; unfold here; rewrite elem_of_filter; tauto).
  exists (least (vt_of k) x l). split_and!.
  - apply Hin. destruct (least_in (vt_of k) x l) as [->|?]; set_solver.
  - done.
  - simpl. erewrite (dget_alter k _ _ d d) by done. by rewrite decide_True.
  - unfold lget. simpl. by simplify_map_eq.
  - intros q Hq. destruct (least_le (vt_of k) (dget k d) x l) as [I1 I2];
      [done | apply Hsub, Hin; set_solver | intros; apply Hsub, Hin; set_solver |].
    apply Hin in Hq as [->|Hq]%elem_of_cons; auto.
Qed.

Lemma place_local p c k c' :
  lget (core_place p c k) c' =
    if decide (direct (k_priv k) !! p = Some SCX_DSQ_LOCAL /\ c' = c)
    then lget k c' ++ [p] else lget k c'.
Proof.
  simpl. destruct (decide (direct (k_priv k) !! p = Some SCX_DSQ_LOCAL)) as [D|D].
  - unfold lget. simpl. destruct (decide (c = c')) as [->|Hne].
    + rewrite decide_True by done. by simplify_map_eq.
    + rewrite decide_False by naive_solver. by rewrite lookup_insert_ne.
  - rewrite decide_False by naive_solver. done.
Qed.

#[global] Instance laws : ScxLaws priv.
Proof.
  split; intros; simpl; try done.
  - right. split; [done|]. unfold exists_dsq, dget. simpl. by simplify_map_eq.
  - split; try done. intros d'. simpl. by eapply exists_alter.
  - simpl. by erewrite (dget_alter k).
  - case_decide; subst; by simplify_map_eq.
  - case_decide; done.
  - case_decide; by split.
  - case_decide; done.
  - apply place_local.
  - by rewrite lookup_delete_eq.
  - destruct (elements (here k d)); done.
  - apply move_env.
  - unfold runnable_here in *. simpl in *. unfold here. by rewrite H0, elements_empty.
  - by apply move_some.
  - by destruct (cgroups (k_priv k) !! p).
  - by destruct (cgroups (k_priv k) !! p).
  - by destruct (cgroups (k_priv k) !! p).
  - by destruct (cgroups (k_priv k) !! p).
  - destruct (cgroups (k_priv k) !! p) as [c'|]; simpl; unfold rget; simpl.
    + case_decide; simplify_eq; [by simplify_map_eq|].
      rewrite lookup_insert_ne by congruence. lia.
    + destruct (decide (None = Some c)); [done | lia].
  - unfold rget. simpl. case_decide; subst; [by simplify_map_eq|].
    rewrite lookup_insert_ne by congruence. lia.
  - by destruct (lget k (k_cpu k)).
  - by destruct (lget k (k_cpu k)).
  - by destruct (lget k (k_cpu k)).
  - simpl in *. rewrite H. unfold lget. simpl. by simplify_map_eq.
Qed.

End RefKernel.
