(* ===== verification/BpfMacros.v ===== *)
(** * include/bpf/bpf_helpers.h

    The macros of libbpf's helper header that compute something: argument
    counting and dispatch ([___bpf_nth], [___bpf_narg], [___bpf_apply]), the
    variadic printing wrappers, the map-definition macros, [KERNEL_VERSION],
    [container_of] and the open-coded iterator loops.

    A macro invocation is modelled by what the preprocessor substitutes: an
    argument list is a list of tokens, and a call expression that the macro
    produces is a value of [helper_call]. *)

From stdpp Require Import base list strings numbers.
From Stdlib Require Import ZArith Lia.
From S2P Require Import Prelude.

Open Scope Z_scope.

(** ** Map definitions: [__uint], [__type], [__array], [__ulong] *)

(** The C types those macros build. *)
Inductive cty :=
| TVoid | TBool | TChar | TInt | TLong | TULong
| TU8 | TU16 | TU32 | TU64 | TS32 | TS64
| TBe16 | TBe32 | TWsum | TSizeT
| TStruct (tag : string)
| TConst (t : cty)
| TPtr (t : cty)
| TArray (t : cty) (n : Z)
| TFlexArray (t : cty)
| TEnumVal (v : Z).
#[global] Instance cty_eq_dec : EqDecision cty.
Proof. solve_decision. Defined.

(** [int ( *name)[val]] *)
Definition m_uint (val : Z) : cty := TPtr (TArray TInt val).
(** [typeof(val) *name] *)
Definition m_type (val : cty) : cty := TPtr val.
(** [typeof(val) *name[]] *)
Definition m_array (val : cty) : cty := TFlexArray (TPtr val).
(** [enum { unique = val } name] *)
Definition m_ulong (val : Z) : cty := TEnumVal val.

(** ** Small expressions *)

(** [!!(x)] *)
Definition bang_bang (x : Z) : Z := if x =? 0 then 0 else 1.
(** [__builtin_expect] returns its first argument. *)
Definition likely (x : Z) : Z := bang_bang x.
Definition unlikely (x : Z) : Z := bang_bang x.
Definition bpf_ksym_exists (sym : Z) : Z := bang_bang sym.

Definition KERNEL_VERSION (a b c : Z) : Z :=
  Z.shiftl a 16 + Z.shiftl b 8 + (if 255 <? c then 255 else c).

(** [offsetof(type, member)]: the address of the member of an object at 0. *)
Definition member_addr (base off : Z) : Z := u64 (base + off).
Definition offsetof (off : Z) : Z := member_addr 0 off.
Definition container_of (ptr off : Z) : Z := u64 (ptr - offsetof off).

(** [enum libbpf_pin_type] and [enum libbpf_tristate] *)
Inductive libbpf_pin_type := LIBBPF_PIN_NONE | LIBBPF_PIN_BY_NAME.
Definition libbpf_pin_type_val (t : libbpf_pin_type) : Z :=
  match t with LIBBPF_PIN_NONE => 0 | LIBBPF_PIN_BY_NAME => 1 end.
Inductive libbpf_tristate := TRI_NO | TRI_YES | TRI_MODULE.
Definition libbpf_tristate_val (t : libbpf_tristate) : Z :=
  match t with TRI_NO => 0 | TRI_YES => 1 | TRI_MODULE => 2 end.

(** ** Registers set by [bpf_tail_call_static] *)

(** The inline assembly: r1, r2, r3 and the called helper number; a slot that
    is not a compile-time constant traps. *)
Definition bpf_tail_call_static (slot_constant : bool) (ctx map slot : Z)
    : option (list (Z * Z) * Z) :=
  if slot_constant then Some ([(1, ctx); (2, map); (3, slot)], 12) else None.

(** ** Argument counting *)

(** [___bpf_nth(_, _1, ..., _c, N, ...)] expands to its fourteenth argument. *)
Definition bpf_nth {T} (args : list T) : option T := args !! 13%nat.

(** Tokens of an expanded argument list: the caller's and the macro's own. *)
Inductive tok (A : Type) := Arg (a : A) | Num (n : Z) | Und.
Arguments Arg {A}.
Arguments Num {A}.
Arguments Und {A}.

Definition countdown : list Z := [12; 11; 10; 9; 8; 7; 6; 5; 4; 3; 2; 1; 0].

(** [___bpf_narg(...)]; the [##] removes the comma of an empty list. *)
Definition bpf_narg {A} (args : list A) : option (tok A) :=
  bpf_nth (Und :: (Arg <$> args) ++ (Num <$> countdown)).

(** ** Filling a parameter array *)

(** [___bpf_fillN(arr, p, x, args...)]: the N-th macro of the chain. *)
Fixpoint bpf_fill_n (n : nat) (arr : list Z) (p : nat) (args : list Z) : list Z :=
  match n, args with
  | O, _ => arr
  | S n', x :: args' => bpf_fill_n n' (<[p := x]> arr) (S p) args'
  | S _, [] => arr
  end.

(** [___bpf_apply(___bpf_fill, ___bpf_narg(args))(arr, 0, args)]; an argument
    count that is not a number names no macro. *)
Definition bpf_fill (arr : list Z) (args : list Z) : option (list Z) :=
  match bpf_narg args with
  | Some (Num n) => Some (bpf_fill_n (Z.to_nat n) arr 0 args)
  | _ => None
  end.

(** [unsigned long long ___param[___bpf_narg(args)]; ___bpf_fill(___param, args);] *)
Definition bpf_params (args : list Z) : option (list Z) :=
  match bpf_narg args with
  | Some (Num n) => bpf_fill (replicate (Z.to_nat n) 0) args
  | _ => None
  end.

(** ** Printing wrappers *)

(** The helper calls the wrappers expand to. *)
Inductive helper_call :=
| call_trace_printk (fmt : string) (fmt_size : Z) (args : list Z)
| call_trace_vprintk (fmt : string) (fmt_size : Z) (data : list Z) (data_len : Z)
| call_seq_printf (seq : Z) (fmt : string) (fmt_size : Z) (data : list Z) (data_len : Z)
| call_snprintf (out out_size : Z) (fmt : string) (data : list Z) (data_len : Z)
| call_stream_vprintk (stream : Z) (fmt : string) (data : list Z) (data_len : Z).

(** [sizeof] of a string literal counts its terminator; of an array of
    [unsigned long long], eight bytes per element. *)
Definition sizeof_str (s : string) : Z := Z.of_nat (String.length s) + 1.
Definition sizeof_params (l : list Z) : Z := 8 * Z.of_nat (length l).

Definition BPF_SEQ_PRINTF (seq : Z) (fmt : string) (args : list Z) : option helper_call :=
  l ← bpf_params args; Some (call_seq_printf seq fmt (sizeof_str fmt) l (sizeof_params l)).

Definition BPF_SNPRINTF (out out_size : Z) (fmt : string) (args : list Z) : option helper_call :=
  l ← bpf_params args; Some (call_snprintf out out_size fmt l (sizeof_params l)).

(** [__bpf_printk] *)
Definition m_bpf_printk (fmt : string) (args : list Z) : option helper_call :=
  Some (call_trace_printk fmt (sizeof_str fmt) args).

(** [__bpf_vprintk] *)
Definition m_bpf_vprintk (fmt : string) (args : list Z) : option helper_call :=
  l ← bpf_params args; Some (call_trace_vprintk fmt (sizeof_str fmt) l (sizeof_params l)).

Definition bpf_stream_printk (stream : Z) (fmt : string) (args : list Z) : option helper_call :=
  l ← bpf_params args; Some (call_stream_vprintk stream fmt l (sizeof_params l)).

(** Which of the two wrappers. *)
Inductive printk_macro := use_printk | use_vprintk.

(** The candidates [___bpf_pick_printk] appends after the caller's arguments. *)
Definition printk_candidates : list printk_macro :=
  [ use_vprintk; use_vprintk; use_vprintk; use_vprintk; use_vprintk; use_vprintk;
    use_vprintk; use_vprintk; use_vprintk;
    use_printk (* 3 *); use_printk (* 2 *); use_printk (* 1 *); use_printk (* 0 *) ].

Definition bpf_pick_printk {A} (args : list A) : option (A + printk_macro) :=
  match bpf_nth (None :: ((fun a => Some (inl a)) <$> args)
                   ++ ((fun m => Some (inr m)) <$> printk_candidates)) with
  | Some (Some r) => Some r
  | _ => None
  end.

(** [bpf_printk(fmt, args...)] *)
Definition bpf_printk (fmt : string) (args : list Z) : option helper_call :=
  match bpf_pick_printk args with
  | Some (inr use_printk) => m_bpf_printk fmt args
  | Some (inr use_vprintk) => m_bpf_vprintk fmt args
  | _ => None
  end.

(** ** Open-coded iterator loops

    The numeric iterator is three kernel functions; the loop macros are the
    repository's.  [num_iter] is their interface. *)

Class NumIter (It : Type) := {
  (** [bpf_iter_num_new(&it, start, end)]: return value and initialised iterator *)
  iter_num_new : Z -> Z -> Z * It;
  (** [bpf_iter_num_next(&it)]: [None] is the NULL pointer *)
  iter_num_next : It -> option Z * It;
  (** [bpf_iter_num_destroy(&it)]: what the cleanup attribute leaves *)
  iter_num_destroy : It -> It
}.

(** What the iterator documents: the integers it will still produce. *)
Class NumIterLaws (It : Type) `{NumIter It} := {
  iter_rest : It -> list Z;
  iter_max : Z;
  law_iter_new_ok s e :
    s <= e -> e - s <= iter_max -> iter_rest (snd (iter_num_new s e)) = seqZ s (e - s);
  law_iter_new_err s e :
    e < s \/ iter_max < e - s -> iter_rest (snd (iter_num_new s e)) = [];
  law_iter_next_nil it : iter_rest it = [] -> fst (iter_num_next it) = None;
  law_iter_next_cons it x l :
    iter_rest it = x :: l ->
    fst (iter_num_next it) = Some x /\ iter_rest (snd (iter_num_next it)) = l
}.

(** How a loop body ends: fall through (or [continue]), or [break]. *)
Inductive flow := Continue | Break.

Section Loops.
Context {It : Type} `{NumIter It} {St : Type}.

(** The rounds of [bpf_for(i, start, end) body]: the condition fetches the
    next element and re-checks the bounds. *)
Fixpoint bpf_for_loop (fuel : nat) (start stop : Z) (body : Z -> St -> flow * St)
    (it : It) (st : St) : option (It * St) :=
  match fuel with
  | O => None
  | S fuel' =>
      let '(t, it') := iter_num_next it in
      match t with
      | Some i =>
          if (start <=? i) && (i <? stop) then
            match body i st with
            | (Continue, st') => bpf_for_loop fuel' start stop body it' st'
            | (Break, st') => Some (it', st')
            end
          else Some (it', st)
      | None => Some (it', st)
      end
  end.

(** The iterator is created once and destroyed when the loop is left. *)
Definition bpf_for (fuel : nat) (start stop : Z) (body : Z -> St -> flow * St)
    (st : St) : option (It * St) :=
  '(it, st') ← bpf_for_loop fuel start stop body (snd (iter_num_new start stop)) st;
  Some (iter_num_destroy it, st').

(** [bpf_for_each(num, cur, start, end)]: no bounds re-check. *)
Fixpoint bpf_for_each_loop (fuel : nat) (body : Z -> St -> flow * St)
    (it : It) (st : St) : option (It * St) :=
  match fuel with
  | O => None
  | S fuel' =>
      let '(t, it') := iter_num_next it in
      match t with
      | Some i =>
          match body i st with
          | (Continue, st') => bpf_for_each_loop fuel' body it' st'
          | (Break, st') => Some (it', st')
          end
      | None => Some (it', st)
      end
  end.

Definition bpf_for_each_num (fuel : nat) (start stop : Z) (body : Z -> St -> flow * St)
    (st : St) : option (It * St) :=
  '(it, st') ← bpf_for_each_loop fuel body (snd (iter_num_new start stop)) st;
  Some (iter_num_destroy it, st').

(** [bpf_repeat(N) body]: the iteration number is not exposed. *)
Definition bpf_repeat (fuel : nat) (n : Z) (body : St -> flow * St)
    (st : St) : option (It * St) :=
  bpf_for_each_num fuel 0 n (fun _ => body) st.

(** The reference loop: the body on each element until it breaks. *)
Fixpoint for_list (body : Z -> St -> flow * St) (l : list Z) (st : St) : St :=
  match l with
  | [] => st
  | i :: l' =>
      match body i st with
      | (Continue, st') => for_list body l' st'
      | (Break, st') => st'
      end
  end.

End Loops.

(** ** Argument counting: facts *)

(** [bpf_nth] behind a list of [n] caller tokens reads candidate [12 - n]. *)
Lemma bpf_nth_candidates {T} (u : T) (args cands : list T) :
  (length args <= 12)%nat ->
  bpf_nth (u :: args ++ cands) = cands !! (12 - length args)%nat.
Proof.
  intros Hl. unfold bpf_nth.
  change (u :: args ++ cands) with ((u :: args) ++ cands).
  by rewrite lookup_app_r by (simpl; lia).
Qed.

(** Past twelve arguments the fourteenth token is the caller's own. *)
Lemma bpf_nth_overflow {T} (u : T) (args cands : list T) :
  (12 < length args)%nat -> bpf_nth (u :: args ++ cands) = args !! 12%nat.
Proof. intros Hl. unfold bpf_nth. simpl. by rewrite lookup_app_l by lia. Qed.

Lemma countdown_lookup n : (n <= 12)%nat -> countdown !! (12 - n)%nat = Some (Z.of_nat n).
Proof. intros H. do 13 (destruct n as [|n]; [reflexivity|]). lia. Qed.

(** [___bpf_narg] counts up to twelve arguments. *)
Lemma narg_of_length {A} (args : list A) :
  (length args <= 12)%nat -> bpf_narg args = Some (Num (Z.of_nat (length args))).
Proof.
  intros Hl. unfold bpf_narg. rewrite bpf_nth_candidates by by rewrite length_fmap.
  by rewrite length_fmap, list_lookup_fmap, countdown_lookup.
Qed.

Lemma narg_overflow {A} (args : list A) :
  (12 < length args)%nat -> exists a, bpf_narg args = Some (Arg a).
Proof.
  intros Hl. unfold bpf_narg. rewrite bpf_nth_overflow by by rewrite length_fmap.
  destruct (lookup_lt_is_Some_2 args 12 Hl) as [a Ha].
  exists a. by rewrite list_lookup_fmap, Ha.
Qed.

Lemma fill_n_spec args : forall pre,
  bpf_fill_n (length args) (pre ++ replicate (length args) 0) (length pre) args = pre ++ args.
Proof.
  induction args as [|x args IH]; intros pre; simpl; [done|].
  rewrite insert_app_r_alt by lia. rewrite Nat.sub_diag. simpl.
  specialize (IH (pre ++ [x])). rewrite length_app in IH. simpl in IH.
  rewrite Nat.add_1_r, <- !app_assoc in IH. exact IH.
Qed.

Lemma params_exact args : (length args <= 12)%nat -> bpf_params args = Some args.
Proof.
  intros Hl. unfold bpf_params, bpf_fill. rewrite narg_of_length by done.
  rewrite Nat2Z.id. f_equal. exact (fill_n_spec args []).
Qed.

Lemma params_overflow args : (12 < length args)%nat -> bpf_params args = None.
Proof. intros Hl. unfold bpf_params. by destruct (narg_overflow args Hl) as [a ->]. Qed.

Lemma pick_printk_spec {A} (args : list A) :
  (length args <= 12)%nat ->
  bpf_pick_printk args =
    Some (inr (if decide (length args <= 3)%nat then use_printk else use_vprintk)).
Proof.
  intros Hl. unfold bpf_pick_printk.
  rewrite bpf_nth_candidates by by rewrite length_fmap. rewrite length_fmap.
  do 13 (destruct args as [|? args]; [reflexivity|]). simpl in Hl. lia.
Qed.

Lemma pick_printk_overflow {A} (args : list A) :
  (12 < length args)%nat -> exists a, bpf_pick_printk args = Some (inl a).
Proof.
  intros Hl. unfold bpf_pick_printk.
  rewrite bpf_nth_overflow by (rewrite length_fmap; lia).
  destruct (lookup_lt_is_Some_2 args 12 Hl) as [a Ha].
  exists a. by rewrite list_lookup_fmap, Ha.
Qed.

(** What [bpf_printk] is meant to print. *)
Definition printk_spec (fmt : string) (args : list Z) : option helper_call :=
  if decide (length args <= 3)%nat then
    Some (call_trace_printk fmt (sizeof_str fmt) args)
  else if decide (length args <= 12)%nat then
    Some (call_trace_vprintk fmt (sizeof_str fmt) args (8 * Z.of_nat (length args)))
  else None.

(** [bpf_printk] passes every argument, in order, to the right helper: up
    to three values travel in registers to [bpf_trace_printk], four to twelve in
    an array with its exact size to [bpf_trace_vprintk], and more than twelve
    are refused. *)
Theorem printk_meets_spec fmt args : bpf_printk fmt args = printk_spec fmt args.
Proof.
  unfold bpf_printk, printk_spec.
  destruct (decide (length args <= 12)%nat) as [Hl|Hl].
  - rewrite pick_printk_spec by done. case_decide; [done|].
    unfold m_bpf_vprintk. by rewrite params_exact.
  - rewrite decide_False by lia.
    by destruct (pick_printk_overflow args) as [a ->]; [lia|].
Qed.

(** The wrappers over a parameter array hand the helper exactly the arguments. *)
Theorem array_printers_exact seq out out_size stream fmt args :
  (length args <= 12)%nat ->
  BPF_SEQ_PRINTF seq fmt args =
    Some (call_seq_printf seq fmt (sizeof_str fmt) args (8 * Z.of_nat (length args))) /\
  BPF_SNPRINTF out out_size fmt args =
    Some (call_snprintf out out_size fmt args (8 * Z.of_nat (length args))) /\
  bpf_stream_printk stream fmt args =
    Some (call_stream_vprintk stream fmt args (8 * Z.of_nat (length args))).
Proof.
  intros Hl. unfold BPF_SEQ_PRINTF, BPF_SNPRINTF, bpf_stream_printk.
  by rewrite params_exact.
Qed.

(** ** Small expressions: facts *)

(** [KERNEL_VERSION] orders releases lexicographically, with the sublevel
    saturating at 255. *)
Theorem kernel_version_order a b c a' b' c' :
  0 <= b <= 255 -> 0 <= b' <= 255 -> 0 <= c -> 0 <= c' ->
  KERNEL_VERSION a b c < KERNEL_VERSION a' b' c' <->
  a < a' \/ (a = a' /\ (b < b' \/ (b = b' /\ Z.min c 255 < Z.min c' 255))).
Proof.
  intros. unfold KERNEL_VERSION. rewrite !Z.shiftl_mul_pow2 by lia.
  change (2 ^ 16) with 65536. change (2 ^ 8) with 256.
  case_bool; lia.
Qed.

(** [container_of] undoes taking the address of a member. *)
Theorem container_of_member base off :
  is_u64 base -> container_of (member_addr base off) off = base.
Proof.
  intros H. unfold container_of, offsetof, member_addr.
  rewrite u64_sub_l, u64_sub_r. rewrite u64_small; [lia|].
  replace (base + off - (0 + off)) with base by lia. done.
Qed.

(** ** Loops: facts *)

Section LoopFacts.
Context {It : Type} `{NumIter It} `{!NumIterLaws It} {St : Type}.

Lemma for_loop_spec (body : Z -> St -> flow * St) start stop l : forall fuel it st,
  iter_rest it = l -> Forall (fun i => start <= i < stop) l -> (length l < fuel)%nat ->
  exists it', bpf_for_loop fuel start stop body it st = Some (it', for_list body l st).
Proof.
  induction l as [|i l IH]; intros [|fuel] it st Hr Hb Hf; simpl in *; try lia.
  - pose proof (law_iter_next_nil it Hr) as E.
    destruct (iter_num_next it) as [t it']. simpl in E. subst t. eauto.
  - destruct (law_iter_next_cons it i l Hr) as [E1 E2].
    destruct (iter_num_next it) as [t it']. simpl in *. subst t.
    inversion Hb as [|? ? Hi Hb']; subst.
    rewrite (proj2 (Z.leb_le start i)), (proj2 (Z.ltb_lt i stop)) by lia. simpl.
    destruct (body i st) as [[|] st']; [|eauto]. apply IH; [done | done | lia].
Qed.

Lemma for_each_loop_spec (body : Z -> St -> flow * St) l : forall fuel it st,
  iter_rest it = l -> (length l < fuel)%nat ->
  exists it', bpf_for_each_loop fuel body it st = Some (it', for_list body l st).
Proof.
  induction l as [|i l IH]; intros [|fuel] it st Hr Hf; simpl in *; try lia.
  - pose proof (law_iter_next_nil it Hr) as E.
    destruct (iter_num_next it) as [t it']. simpl in E. subst t. eauto.
  - destruct (law_iter_next_cons it i l Hr) as [E1 E2].
    destruct (iter_num_next it) as [t it']. simpl in *. subst t.
    destruct (body i st) as [[|] st']; [|eauto]. apply IH; [done | lia].
Qed.

Lemma iter_new_rest s e :
  iter_rest (snd (iter_num_new s e)) =
    if decide (s <= e /\ e - s <= iter_max) then seqZ s (e - s) else [].
Proof.
  case_decide as D; [apply law_iter_new_ok; lia|].
  apply law_iter_new_err. lia.
Qed.

(** [bpf_for] terminates and runs the body on start, ..., end-1 in order
    until it breaks; on a range the iterator refuses it runs no round. *)
Theorem bpf_for_visits (body : Z -> St -> flow * St) start stop fuel st :
  (Z.to_nat (stop - start) < fuel)%nat ->
  exists it, bpf_for fuel start stop body st =
    Some (it, for_list body
      (if decide (start <= stop /\ stop - start <= iter_max)
       then seqZ start (stop - start) else []) st).
Proof.
  intros Hf. pose proof (iter_new_rest start stop) as E.
  edestruct (for_loop_spec body start stop _ fuel _ st E) as [it' Hrun].
  - case_decide; [|constructor]. apply Forall_forall.
    intros i Hi%list_elem_of_In. apply elem_of_seqZ in Hi. lia.
  - case_decide; [rewrite length_seqZ; lia | simpl; lia].
  - unfold bpf_for. rewrite Hrun. simpl. eauto.
Qed.

(** The body of [bpf_repeat] runs N times unless it breaks. *)
Theorem bpf_repeat_count (body : St -> flow * St) n fuel st :
  0 <= n <= iter_max -> (Z.to_nat n < fuel)%nat ->
  exists it, bpf_repeat fuel n body st =
    Some (it, for_list (fun _ => body) (seqZ 0 n) st).
Proof.
  intros Hn Hf. pose proof (iter_new_rest 0 n) as E.
  rewrite decide_True in E by lia. rewrite Z.sub_0_r in E.
  edestruct (for_each_loop_spec (fun _ => body) _ fuel _ st E) as [it' Hrun].
  - rewrite length_seqZ. lia.
  - unfold bpf_repeat, bpf_for_each_num. rewrite Hrun. simpl. eauto.
Qed.

End LoopFacts.

(** A concrete iterator: the list of the integers still to come, at most 8 Mi. *)
Module RefIter.

#[global] Instance num_iter : NumIter (list Z) := {
  iter_num_new s e :=
    if decide (e < s) then (-22, [])
    else if decide (8388608 < e - s) then (-7, [])
    else (0, seqZ s (e - s));
  iter_num_next l := (head l, tail l);
  iter_num_destroy _ := []
}.

#[global] Instance num_iter_laws : NumIterLaws (list Z).
Proof.
  refine {| iter_rest := fun l => l; iter_max := 8388608 |}; simpl.
  - intros. rewrite decide_False by lia. by rewrite decide_False by lia.
  - intros s e Hs. case_decide; [done|]. case_decide; [done | simpl; lia].
  - by intros it ->.
  - by intros it x l ->.
Defined.

End RefIter.

(** Summing 3 + 4 + 5 and stopping there. *)
Lemma bpf_for_visits_witness :
  exists it, bpf_for (It := list Z) 20 3 10
    (fun i s => (if i =? 5 then Break else Continue, s + i)) 0 = Some (it, 12).
Proof.
  destruct (bpf_for_visits (It := list Z)
    (fun i s => (if i =? 5 then Break else Continue, s + i)) 3 10 20 0) as [it E].
  - simpl. lia.
  - exists it. rewrite E. reflexivity.
Defined.
