(* ===== verification/HelperDefs.v ===== *)
(** * The helper table: include/bpf/bpf_helper_defs.h

    The header declares each BPF helper as a constant function pointer whose
    value is the helper's number.  One definition per declaration keeps what
    the declaration and its comment say: the number, the C signature, the
    [__bpf_fastcall] attribute, how the helper reports failure and the error
    numbers its comment lists.  [call_accepted] is what a call needs to be
    compiled to registers r1 to r5.  The theorems: the numbering is the gap
    free sequence the kernel's call instruction expects; the header declares
    every struct it mentions; the printing macros of bpf_helpers.h emit only
    calls these declarations accept. *)

From Stdlib Require Import ZArith Lia.
From stdpp Require Import base list strings numbers.
From S2P Require Import Prelude BpfMacros.

Local Open Scope string_scope.
Local Open Scope list_scope.
Local Open Scope Z_scope.

(** How the comment of a helper says that it failed: a NULL pointer, a
    negative value, or neither. *)
Inductive failure := FailNull | FailNeg | FailNone.
#[global] Instance failure_eq_dec : EqDecision failure.
Proof. solve_decision. Defined.

(** One declaration [static ret ( * const name)(args) = (void * ) id;]. *)
Record helper_def := helper {
  h_name : string;
  h_id : Z;
  h_ret : cty;
  h_args : list (string * cty);
  h_variadic : bool;
  h_fastcall : bool;
  h_fail : failure;
  h_errnos : list string
}.


(** The structs the header declares forward. *)
Definition forward_structs : list string :=
  [ "bpf_fib_lookup"; "bpf_sk_lookup"; "bpf_perf_event_data"; "bpf_perf_event_value";
    "bpf_pidns_info"; "bpf_redir_neigh"; "bpf_sock"; "bpf_sock_addr"; "bpf_sock_ops";
    "bpf_sock_tuple"; "bpf_spin_lock"; "bpf_sysctl"; "bpf_tcp_sock"; "bpf_tunnel_key";
    "bpf_xfrm_state"; "linux_binprm"; "pt_regs"; "sk_reuseport_md"; "sockaddr"; "tcphdr";
    "seq_file"; "tcp6_sock"; "tcp_sock"; "tcp_timewait_sock"; "tcp_request_sock";
    "udp6_sock"; "unix_sock"; "task_struct"; "cgroup"; "__sk_buff"; "sk_msg_md"; "xdp_md";
    "path"; "btf_ptr"; "inode"; "socket"; "file"; "bpf_timer"; "mptcp_sock"; "bpf_dynptr";
    "iphdr"; "ipv6hdr" ].

(** ** The declarations *)

Definition bpf_map_lookup_elem : helper_def :=
  helper "bpf_map_lookup_elem" 1 (TPtr TVoid)
    [("map", TPtr TVoid); ("key", TPtr (TConst TVoid))]
    false false FailNull [].

Definition bpf_map_update_elem : helper_def :=
  helper "bpf_map_update_elem" 2 TLong
    [("map", TPtr TVoid); ("key", TPtr (TConst TVoid)); ("value", TPtr (TConst TVoid));
     ("flags", TU64)]
    false false FailNeg [].

Definition bpf_map_delete_elem : helper_def :=
  helper "bpf_map_delete_elem" 3 TLong
    [("map", TPtr TVoid); ("key", TPtr (TConst TVoid))]
    false false FailNeg [].

Definition bpf_probe_read : helper_def :=
  helper "bpf_probe_read" 4 TLong
    [("dst", TPtr TVoid); ("size", TU32); ("unsafe_ptr", TPtr (TConst TVoid))]
    false false FailNeg [].

Definition bpf_ktime_get_ns : helper_def :=
  helper "bpf_ktime_get_ns" 5 TU64
    []
    false false FailNone [].

Definition bpf_trace_printk : helper_def :=
  helper "bpf_trace_printk" 6 TLong
    [("fmt", TPtr (TConst TChar)); ("fmt_size", TU32)]
    true false FailNeg [].

Definition bpf_get_prandom_u32 : helper_def :=
  helper "bpf_get_prandom_u32" 7 TU32
    []
    false false FailNone [].

Definition bpf_get_smp_processor_id : helper_def :=
  helper "bpf_get_smp_processor_id" 8 TU32
    []
    false true FailNone [].

Definition bpf_skb_store_bytes : helper_def :=
  helper "bpf_skb_store_bytes" 9 TLong
    [("skb", TPtr (TStruct "__sk_buff")); ("offset", TU32); ("from", TPtr (TConst TVoid));
     ("len", TU32); ("flags", TU64)]
    false false FailNeg [].

Definition bpf_l3_csum_replace : helper_def :=
  helper "bpf_l3_csum_replace" 10 TLong
    [("skb", TPtr (TStruct "__sk_buff")); ("offset", TU32); ("from", TU64); ("to", TU64);
     ("size", TU64)]
    false false FailNeg [].

Definition bpf_l4_csum_replace : helper_def :=
  helper "bpf_l4_csum_replace" 11 TLong
    [("skb", TPtr (TStruct "__sk_buff")); ("offset", TU32); ("from", TU64); ("to", TU64);
     ("flags", TU64)]
    false false FailNeg [].

Definition bpf_tail_call : helper_def :=
  helper "bpf_tail_call" 12 TLong
    [("ctx", TPtr TVoid); ("prog_array_map", TPtr TVoid); ("index", TU32)]
    false false FailNeg [].

Definition bpf_clone_redirect : helper_def :=
  helper "bpf_clone_redirect" 13 TLong
    [("skb", TPtr (TStruct "__sk_buff")); ("ifindex", TU32); ("flags", TU64)]
    false false FailNeg [].

Definition bpf_get_current_pid_tgid : helper_def :=
  helper "bpf_get_current_pid_tgid" 14 TU64
    []
    false false FailNone [].

Definition bpf_get_current_uid_gid : helper_def :=
  helper "bpf_get_current_uid_gid" 15 TU64
    []
    false false FailNone [].

Definition bpf_get_current_comm : helper_def :=
  helper "bpf_get_current_comm" 16 TLong
    [("buf", TPtr TVoid); ("size_of_buf", TU32)]
    false false FailNeg [].

Definition bpf_get_cgroup_classid : helper_def :=
  helper "bpf_get_cgroup_classid" 17 TU32
    [("skb", TPtr (TStruct "__sk_buff"))]
    false false FailNone [].

Definition bpf_skb_vlan_push : helper_def :=
  helper "bpf_skb_vlan_push" 18 TLong
    [("skb", TPtr (TStruct "__sk_buff")); ("vlan_proto", TBe16); ("vlan_tci", TU16)]
    false false FailNeg [].

Definition bpf_skb_vlan_pop : helper_def :=
  helper "bpf_skb_vlan_pop" 19 TLong
    [("skb", TPtr (TStruct "__sk_buff"))]
    false false FailNeg [].

Definition bpf_skb_get_tunnel_key : helper_def :=
  helper "bpf_skb_get_tunnel_key" 20 TLong
    [("skb", TPtr (TStruct "__sk_buff")); ("key", TPtr (TStruct "bpf_tunnel_key"));
     ("size", TU32); ("flags", TU64)]
    false false FailNeg [].

Definition bpf_skb_set_tunnel_key : helper_def :=
  helper "bpf_skb_set_tunnel_key" 21 TLong
    [("skb", TPtr (TStruct "__sk_buff")); ("key", TPtr (TStruct "bpf_tunnel_key"));
     ("size", TU32); ("flags", TU64)]
    false false FailNeg [].

Definition bpf_perf_event_read : helper_def :=
  helper "bpf_perf_event_read" 22 TU64
    [("map", TPtr TVoid); ("flags", TU64)]
    false false FailNeg [].

Definition bpf_redirect : helper_def :=
  helper "bpf_redirect" 23 TLong
    [("ifindex", TU32); ("flags", TU64)]
    false false FailNone [].

Definition bpf_get_route_realm : helper_def :=
  helper "bpf_get_route_realm" 24 TU32
    [("skb", TPtr (TStruct "__sk_buff"))]
    false false FailNone [].

Definition bpf_perf_event_output : helper_def :=
  helper "bpf_perf_event_output" 25 TLong
    [("ctx", TPtr TVoid); ("map", TPtr TVoid); ("flags", TU64); ("data", TPtr TVoid);
     ("size", TU64)]
    false false FailNeg [].

Definition bpf_skb_load_bytes : helper_def :=
  helper "bpf_skb_load_bytes" 26 TLong
    [("skb", TPtr (TConst TVoid)); ("offset", TU32); ("to", TPtr TVoid); ("len", TU32)]
    false false FailNeg [].

Definition bpf_get_stackid : helper_def :=
  helper "bpf_get_stackid" 27 TLong
    [("ctx", TPtr TVoid); ("map", TPtr TVoid); ("flags", TU64)]
    false false FailNeg [].

Definition bpf_csum_diff : helper_def :=
  helper "bpf_csum_diff" 28 TS64
    [("from", TPtr TBe32); ("from_size", TU32); ("to", TPtr TBe32); ("to_size", TU32);
     ("seed", TWsum)]
    false false FailNeg [].

Definition bpf_skb_get_tunnel_opt : helper_def :=
  helper "bpf_skb_get_tunnel_opt" 29 TLong
    [("skb", TPtr (TStruct "__sk_buff")); ("opt", TPtr TVoid); ("size", TU32)]
    false false FailNone [].

Definition bpf_skb_set_tunnel_opt : helper_def :=
  helper "bpf_skb_set_tunnel_opt" 30 TLong
    [("skb", TPtr (TStruct "__sk_buff")); ("opt", TPtr TVoid); ("size", TU32)]
    false false FailNeg [].

Definition bpf_skb_change_proto : helper_def :=
  helper "bpf_skb_change_proto" 31 TLong
    [("skb", TPtr (TStruct "__sk_buff")); ("proto", TBe16); ("flags", TU64)]
    false false FailNeg [].

Definition bpf_skb_change_type : helper_def :=
  helper "bpf_skb_change_type" 32 TLong
    [("skb", TPtr (TStruct "__sk_buff")); ("type", TU32)]
    false false FailNeg [].

Definition bpf_skb_under_cgroup : helper_def :=
  helper "bpf_skb_under_cgroup" 33 TLong
    [("skb", TPtr (TStruct "__sk_buff")); ("map", TPtr TVoid); ("index", TU32)]
    false false FailNeg [].

Definition bpf_get_hash_recalc : helper_def :=
  helper "bpf_get_hash_recalc" 34 TU32
    [("skb", TPtr (TStruct "__sk_buff"))]
    false false FailNone [].

Definition bpf_get_current_task : helper_def :=
  helper "bpf_get_current_task" 35 TU64
    []
    false false FailNone [].

Definition bpf_probe_write_user : helper_def :=
  helper "bpf_probe_write_user" 36 TLong
    [("dst", TPtr TVoid); ("src", TPtr (TConst TVoid)); ("len", TU32)]
    false false FailNeg [].

Definition bpf_current_task_under_cgroup : helper_def :=
  helper "bpf_current_task_under_cgroup" 37 TLong
    [("map", TPtr TVoid); ("index", TU32)]
    false false FailNeg [].

Definition bpf_skb_change_tail : helper_def :=
  helper "bpf_skb_change_tail" 38 TLong
    [("skb", TPtr (TStruct "__sk_buff")); ("len", TU32); ("flags", TU64)]
    false false FailNeg [].

Definition bpf_skb_pull_data : helper_def :=
  helper "bpf_skb_pull_data" 39 TLong
    [("skb", TPtr (TStruct "__sk_buff")); ("len", TU32)]
    false false FailNeg [].

Definition bpf_csum_update : helper_def :=
  helper "bpf_csum_update" 40 TS64
    [("skb", TPtr (TStruct "__sk_buff")); ("csum", TWsum)]
    false false FailNeg [].

Definition bpf_set_hash_invalid : helper_def :=
  helper "bpf_set_hash_invalid" 41 TVoid
    [("skb", TPtr (TStruct "__sk_buff"))]
    false false FailNone [].

Definition bpf_get_numa_node_id : helper_def :=
  helper "bpf_get_numa_node_id" 42 TLong
    []
    false false FailNone [].

Definition bpf_skb_change_head : helper_def :=
  helper "bpf_skb_change_head" 43 TLong
    [("skb", TPtr (TStruct "__sk_buff")); ("len", TU32); ("flags", TU64)]
    false false FailNeg [].

Definition bpf_xdp_adjust_head : helper_def :=
  helper "bpf_xdp_adjust_head" 44 TLong
    [("xdp_md", TPtr (TStruct "xdp_md")); ("delta", TInt)]
    false false FailNeg [].

Definition bpf_probe_read_str : helper_def :=
  helper "bpf_probe_read_str" 45 TLong
    [("dst", TPtr TVoid); ("size", TU32); ("unsafe_ptr", TPtr (TConst TVoid))]
    false false FailNeg [].

Definition bpf_get_socket_cookie : helper_def :=
  helper "bpf_get_socket_cookie" 46 TU64
    [("ctx", TPtr TVoid)]
    false false FailNone [].

Definition bpf_get_socket_uid : helper_def :=
  helper "bpf_get_socket_uid" 47 TU32
    [("skb", TPtr (TStruct "__sk_buff"))]
    false false FailNone [].

Definition bpf_set_hash : helper_def :=
  helper "bpf_set_hash" 48 TLong
    [("skb", TPtr (TStruct "__sk_buff")); ("hash", TU32)]
    false false FailNone [].

Definition bpf_setsockopt : helper_def :=
  helper "bpf_setsockopt" 49 TLong
    [("bpf_socket", TPtr TVoid); ("level", TInt); ("optname", TInt); ("optval", TPtr TVoid);
     ("optlen", TInt)]
    false false FailNeg [].

Definition bpf_skb_adjust_room : helper_def :=
  helper "bpf_skb_adjust_room" 50 TLong
    [("skb", TPtr (TStruct "__sk_buff")); ("len_diff", TS32); ("mode", TU32);
     ("flags", TU64)]
    false false FailNeg [].

Definition bpf_redirect_map : helper_def :=
  helper "bpf_redirect_map" 51 TLong
    [("map", TPtr TVoid); ("key", TU64); ("flags", TU64)]
    false false FailNone [].

Definition bpf_sk_redirect_map : helper_def :=
  helper "bpf_sk_redirect_map" 52 TLong
    [("skb", TPtr (TStruct "__sk_buff")); ("map", TPtr TVoid); ("key", TU32);
     ("flags", TU64)]
    false false FailNone [].

Definition bpf_sock_map_update : helper_def :=
  helper "bpf_sock_map_update" 53 TLong
    [("skops", TPtr (TStruct "bpf_sock_ops")); ("map", TPtr TVoid); ("key", TPtr TVoid);
     ("flags", TU64)]
    false false FailNeg [].

Definition bpf_xdp_adjust_meta : helper_def :=
  helper "bpf_xdp_adjust_meta" 54 TLong
    [("xdp_md", TPtr (TStruct "xdp_md")); ("delta", TInt)]
    false false FailNeg [].

Definition bpf_perf_event_read_value : helper_def :=
  helper "bpf_perf_event_read_value" 55 TLong
    [("map", TPtr TVoid); ("flags", TU64); ("buf", TPtr (TStruct "bpf_perf_event_value"));
     ("buf_size", TU32)]
    false false FailNeg [].

Definition bpf_perf_prog_read_value : helper_def :=
  helper "bpf_perf_prog_read_value" 56 TLong
    [("ctx", TPtr (TStruct "bpf_perf_event_data"));
     ("buf", TPtr (TStruct "bpf_perf_event_value")); ("buf_size", TU32)]
    false false FailNeg [].

Definition bpf_getsockopt : helper_def :=
  helper "bpf_getsockopt" 57 TLong
    [("bpf_socket", TPtr TVoid); ("level", TInt); ("optname", TInt); ("optval", TPtr TVoid);
     ("optlen", TInt)]
    false false FailNeg [].

Definition bpf_override_return : helper_def :=
  helper "bpf_override_return" 58 TLong
    [("regs", TPtr (TStruct "pt_regs")); ("rc", TU64)]
    false false FailNone [].

Definition bpf_sock_ops_cb_flags_set : helper_def :=
  helper "bpf_sock_ops_cb_flags_set" 59 TLong
    [("bpf_sock", TPtr (TStruct "bpf_sock_ops")); ("argval", TInt)]
    false false FailNeg ["EINVAL"].

Definition bpf_msg_redirect_map : helper_def :=
  helper "bpf_msg_redirect_map" 60 TLong
    [("msg", TPtr (TStruct "sk_msg_md")); ("map", TPtr TVoid); ("key", TU32);
     ("flags", TU64)]
    false false FailNone [].

Definition bpf_msg_apply_bytes : helper_def :=
  helper "bpf_msg_apply_bytes" 61 TLong
    [("msg", TPtr (TStruct "sk_msg_md")); ("bytes", TU32)]
    false false FailNone [].

Definition bpf_msg_cork_bytes : helper_def :=
  helper "bpf_msg_cork_bytes" 62 TLong
    [("msg", TPtr (TStruct "sk_msg_md")); ("bytes", TU32)]
    false false FailNone [].

Definition bpf_msg_pull_data : helper_def :=
  helper "bpf_msg_pull_data" 63 TLong
    [("msg", TPtr (TStruct "sk_msg_md")); ("start", TU32); ("end", TU32); ("flags", TU64)]
    false false FailNeg [].

Definition bpf_bind : helper_def :=
  helper "bpf_bind" 64 TLong
    [("ctx", TPtr (TStruct "bpf_sock_addr")); ("addr", TPtr (TStruct "sockaddr"));
     ("addr_len", TInt)]
    false false FailNeg [].

Definition bpf_xdp_adjust_tail : helper_def :=
  helper "bpf_xdp_adjust_tail" 65 TLong
    [("xdp_md", TPtr (TStruct "xdp_md")); ("delta", TInt)]
    false false FailNeg [].

Definition bpf_skb_get_xfrm_state : helper_def :=
  helper "bpf_skb_get_xfrm_state" 66 TLong
    [("skb", TPtr (TStruct "__sk_buff")); ("index", TU32);
     ("xfrm_state", TPtr (TStruct "bpf_xfrm_state")); ("size", TU32); ("flags", TU64)]
    false false FailNeg [].

Definition bpf_get_stack : helper_def :=
  helper "bpf_get_stack" 67 TLong
    [("ctx", TPtr TVoid); ("buf", TPtr TVoid); ("size", TU32); ("flags", TU64)]
    false false FailNeg [].

Definition bpf_skb_load_bytes_relative : helper_def :=
  helper "bpf_skb_load_bytes_relative" 68 TLong
    [("skb", TPtr (TConst TVoid)); ("offset", TU32); ("to", TPtr TVoid); ("len", TU32);
     ("start_header", TU32)]
    false false FailNeg [].

Definition bpf_fib_lookup : helper_def :=
  helper "bpf_fib_lookup" 69 TLong
    [("ctx", TPtr TVoid); ("params", TPtr (TStruct "bpf_fib_lookup")); ("plen", TInt);
     ("flags", TU32)]
    false false FailNeg [].

Definition bpf_sock_hash_update : helper_def :=
  helper "bpf_sock_hash_update" 70 TLong
    [("skops", TPtr (TStruct "bpf_sock_ops")); ("map", TPtr TVoid); ("key", TPtr TVoid);
     ("flags", TU64)]
    false false FailNeg [].

Definition bpf_msg_redirect_hash : helper_def :=
  helper "bpf_msg_redirect_hash" 71 TLong
    [("msg", TPtr (TStruct "sk_msg_md")); ("map", TPtr TVoid); ("key", TPtr TVoid);
     ("flags", TU64)]
    false false FailNone [].

Definition bpf_sk_redirect_hash : helper_def :=
  helper "bpf_sk_redirect_hash" 72 TLong
    [("skb", TPtr (TStruct "__sk_buff")); ("map", TPtr TVoid); ("key", TPtr TVoid);
     ("flags", TU64)]
    false false FailNone [].

Definition bpf_lwt_push_encap : helper_def :=
  helper "bpf_lwt_push_encap" 73 TLong
    [("skb", TPtr (TStruct "__sk_buff")); ("type", TU32); ("hdr", TPtr TVoid); ("len", TU32)]
    false false FailNeg [].

Definition bpf_lwt_seg6_store_bytes : helper_def :=
  helper "bpf_lwt_seg6_store_bytes" 74 TLong
    [("skb", TPtr (TStruct "__sk_buff")); ("offset", TU32); ("from", TPtr (TConst TVoid));
     ("len", TU32)]
    false false FailNeg [].

Definition bpf_lwt_seg6_adjust_srh : helper_def :=
  helper "bpf_lwt_seg6_adjust_srh" 75 TLong
    [("skb", TPtr (TStruct "__sk_buff")); ("offset", TU32); ("delta", TS32)]
    false false FailNeg [].

Definition bpf_lwt_seg6_action : helper_def :=
  helper "bpf_lwt_seg6_action" 76 TLong
    [("skb", TPtr (TStruct "__sk_buff")); ("action", TU32); ("param", TPtr TVoid);
     ("param_len", TU32)]
    false false FailNeg [].

Definition bpf_rc_repeat : helper_def :=
  helper "bpf_rc_repeat" 77 TLong
    [("ctx", TPtr TVoid)]
    false false FailNone [].

Definition bpf_rc_keydown : helper_def :=
  helper "bpf_rc_keydown" 78 TLong
    [("ctx", TPtr TVoid); ("protocol", TU32); ("scancode", TU64); ("toggle", TU32)]
    false false FailNone [].

Definition bpf_skb_cgroup_id : helper_def :=
  helper "bpf_skb_cgroup_id" 79 TU64
    [("skb", TPtr (TStruct "__sk_buff"))]
    false false FailNone [].

Definition bpf_get_current_cgroup_id : helper_def :=
  helper "bpf_get_current_cgroup_id" 80 TU64
    []
    false false FailNone [].

Definition bpf_get_local_storage : helper_def :=
  helper "bpf_get_local_storage" 81 (TPtr TVoid)
    [("map", TPtr TVoid); ("flags", TU64)]
    false false FailNone [].

Definition bpf_sk_select_reuseport : helper_def :=
  helper "bpf_sk_select_reuseport" 82 TLong
    [("reuse", TPtr (TStruct "sk_reuseport_md")); ("map", TPtr TVoid); ("key", TPtr TVoid);
     ("flags", TU64)]
    false false FailNeg [].

Definition bpf_skb_ancestor_cgroup_id : helper_def :=
  helper "bpf_skb_ancestor_cgroup_id" 83 TU64
    [("skb", TPtr (TStruct "__sk_buff")); ("ancestor_level", TInt)]
    false false FailNone [].

Definition bpf_sk_lookup_tcp : helper_def :=
  helper "bpf_sk_lookup_tcp" 84 (TPtr (TStruct "bpf_sock"))
    [("ctx", TPtr TVoid); ("tuple", TPtr (TStruct "bpf_sock_tuple")); ("tuple_size", TU32);
     ("netns", TU64); ("flags", TU64)]
    false false FailNull [].

Definition bpf_sk_lookup_udp : helper_def :=
  helper "bpf_sk_lookup_udp" 85 (TPtr (TStruct "bpf_sock"))
    [("ctx", TPtr TVoid); ("tuple", TPtr (TStruct "bpf_sock_tuple")); ("tuple_size", TU32);
     ("netns", TU64); ("flags", TU64)]
    false false FailNull [].

Definition bpf_sk_release : helper_def :=
  helper "bpf_sk_release" 86 TLong
    [("sock", TPtr TVoid)]
    false false FailNeg [].

Definition bpf_map_push_elem : helper_def :=
  helper "bpf_map_push_elem" 87 TLong
    [("map", TPtr TVoid); ("value", TPtr (TConst TVoid)); ("flags", TU64)]
    false false FailNeg [].

Definition bpf_map_pop_elem : helper_def :=
  helper "bpf_map_pop_elem" 88 TLong
    [("map", TPtr TVoid); ("value", TPtr TVoid)]
    false false FailNeg [].

Definition bpf_map_peek_elem : helper_def :=
  helper "bpf_map_peek_elem" 89 TLong
    [("map", TPtr TVoid); ("value", TPtr TVoid)]
    false false FailNeg [].

Definition bpf_msg_push_data : helper_def :=
  helper "bpf_msg_push_data" 90 TLong
    [("msg", TPtr (TStruct "sk_msg_md")); ("start", TU32); ("len", TU32); ("flags", TU64)]
    false false FailNeg [].

Definition bpf_msg_pop_data : helper_def :=
  helper "bpf_msg_pop_data" 91 TLong
    [("msg", TPtr (TStruct "sk_msg_md")); ("start", TU32); ("len", TU32); ("flags", TU64)]
    false false FailNeg [].

Definition bpf_rc_pointer_rel : helper_def :=
  helper "bpf_rc_pointer_rel" 92 TLong
    [("ctx", TPtr TVoid); ("rel_x", TS32); ("rel_y", TS32)]
    false false FailNone [].

Definition bpf_spin_lock : helper_def :=
  helper "bpf_spin_lock" 93 TLong
    [("lock", TPtr (TStruct "bpf_spin_lock"))]
    false false FailNone [].

Definition bpf_spin_unlock : helper_def :=
  helper "bpf_spin_unlock" 94 TLong
    [("lock", TPtr (TStruct "bpf_spin_lock"))]
    false false FailNone [].

Definition bpf_sk_fullsock : helper_def :=
  helper "bpf_sk_fullsock" 95 (TPtr (TStruct "bpf_sock"))
    [("sk", TPtr (TStruct "bpf_sock"))]
    false false FailNull [].

Definition bpf_tcp_sock : helper_def :=
  helper "bpf_tcp_sock" 96 (TPtr (TStruct "bpf_tcp_sock"))
    [("sk", TPtr (TStruct "bpf_sock"))]
    false false FailNull [].

Definition bpf_skb_ecn_set_ce : helper_def :=
  helper "bpf_skb_ecn_set_ce" 97 TLong
    [("skb", TPtr (TStruct "__sk_buff"))]
    false false FailNone [].

Definition bpf_get_listener_sock : helper_def :=
  helper "bpf_get_listener_sock" 98 (TPtr (TStruct "bpf_sock"))
    [("sk", TPtr (TStruct "bpf_sock"))]
    false false FailNull [].

Definition bpf_skc_lookup_tcp : helper_def :=
  helper "bpf_skc_lookup_tcp" 99 (TPtr (TStruct "bpf_sock"))
    [("ctx", TPtr TVoid); ("tuple", TPtr (TStruct "bpf_sock_tuple")); ("tuple_size", TU32);
     ("netns", TU64); ("flags", TU64)]
    false false FailNull [].

Definition bpf_tcp_check_syncookie : helper_def :=
  helper "bpf_tcp_check_syncookie" 100 TLong
    [("sk", TPtr TVoid); ("iph", TPtr TVoid); ("iph_len", TU32);
     ("th", TPtr (TStruct "tcphdr")); ("th_len", TU32)]
    false false FailNeg [].

Definition bpf_sysctl_get_name : helper_def :=
  helper "bpf_sysctl_get_name" 101 TLong
    [("ctx", TPtr (TStruct "bpf_sysctl")); ("buf", TPtr TChar); ("buf_len", TULong);
     ("flags", TU64)]
    false false FailNeg ["E2BIG"].

Definition bpf_sysctl_get_current_value : helper_def :=
  helper "bpf_sysctl_get_current_value" 102 TLong
    [("ctx", TPtr (TStruct "bpf_sysctl")); ("buf", TPtr TChar); ("buf_len", TULong)]
    false false FailNeg ["E2BIG"; "EINVAL"; "EIO"].

Definition bpf_sysctl_get_new_value : helper_def :=
  helper "bpf_sysctl_get_new_value" 103 TLong
    [("ctx", TPtr (TStruct "bpf_sysctl")); ("buf", TPtr TChar); ("buf_len", TULong)]
    false false FailNeg ["E2BIG"; "EINVAL"].

Definition bpf_sysctl_set_new_value : helper_def :=
  helper "bpf_sysctl_set_new_value" 104 TLong
    [("ctx", TPtr (TStruct "bpf_sysctl")); ("buf", TPtr (TConst TChar)); ("buf_len", TULong)]
    false false FailNeg ["E2BIG"; "EINVAL"].

Definition bpf_strtol : helper_def :=
  helper "bpf_strtol" 105 TLong
    [("buf", TPtr (TConst TChar)); ("buf_len", TULong); ("flags", TU64); ("res", TPtr TLong)]
    false false FailNeg ["EINVAL"; "ERANGE"].

Definition bpf_strtoul : helper_def :=
  helper "bpf_strtoul" 106 TLong
    [("buf", TPtr (TConst TChar)); ("buf_len", TULong); ("flags", TU64);
     ("res", TPtr TULong)]
    false false FailNeg ["EINVAL"; "ERANGE"].

Definition bpf_sk_storage_get : helper_def :=
  helper "bpf_sk_storage_get" 107 (TPtr TVoid)
    [("map", TPtr TVoid); ("sk", TPtr TVoid); ("value", TPtr TVoid); ("flags", TU64)]
    false false FailNull [].

Definition bpf_sk_storage_delete : helper_def :=
  helper "bpf_sk_storage_delete" 108 TLong
    [("map", TPtr TVoid); ("sk", TPtr TVoid)]
    false false FailNeg ["ENOENT"; "EINVAL"].

Definition bpf_send_signal : helper_def :=
  helper "bpf_send_signal" 109 TLong
    [("sig", TU32)]
    false false FailNeg ["EBUSY"; "EINVAL"; "EPERM"; "EAGAIN"].

Definition bpf_tcp_gen_syncookie : helper_def :=
  helper "bpf_tcp_gen_syncookie" 110 TS64
    [("sk", TPtr TVoid); ("iph", TPtr TVoid); ("iph_len", TU32);
     ("th", TPtr (TStruct "tcphdr")); ("th_len", TU32)]
    false false FailNeg ["EINVAL"; "ENOENT"; "EOPNOTSUPP"; "EPROTONOSUPPORT"].

Definition bpf_skb_output : helper_def :=
  helper "bpf_skb_output" 111 TLong
    [("ctx", TPtr TVoid); ("map", TPtr TVoid); ("flags", TU64); ("data", TPtr TVoid);
     ("size", TU64)]
    false false FailNeg [].

Definition bpf_probe_read_user : helper_def :=
  helper "bpf_probe_read_user" 112 TLong
    [("dst", TPtr TVoid); ("size", TU32); ("unsafe_ptr", TPtr (TConst TVoid))]
    false false FailNeg [].

Definition bpf_probe_read_kernel : helper_def :=
  helper "bpf_probe_read_kernel" 113 TLong
    [("dst", TPtr TVoid); ("size", TU32); ("unsafe_ptr", TPtr (TConst TVoid))]
    false false FailNeg [].

Definition bpf_probe_read_user_str : helper_def :=
  helper "bpf_probe_read_user_str" 114 TLong
    [("dst", TPtr TVoid); ("size", TU32); ("unsafe_ptr", TPtr (TConst TVoid))]
    false false FailNeg [].

Definition bpf_probe_read_kernel_str : helper_def :=
  helper "bpf_probe_read_kernel_str" 115 TLong
    [("dst", TPtr TVoid); ("size", TU32); ("unsafe_ptr", TPtr (TConst TVoid))]
    false false FailNeg [].

Definition bpf_tcp_send_ack : helper_def :=
  helper "bpf_tcp_send_ack" 116 TLong
    [("tp", TPtr TVoid); ("rcv_nxt", TU32)]
    false false FailNeg [].

Definition bpf_send_signal_thread : helper_def :=
  helper "bpf_send_signal_thread" 117 TLong
    [("sig", TU32)]
    false false FailNeg ["EBUSY"; "EINVAL"; "EPERM"; "EAGAIN"].

Definition bpf_jiffies64 : helper_def :=
  helper "bpf_jiffies64" 118 TU64
    []
    false false FailNone [].

Definition bpf_read_branch_records : helper_def :=
  helper "bpf_read_branch_records" 119 TLong
    [("ctx", TPtr (TStruct "bpf_perf_event_data")); ("buf", TPtr TVoid); ("size", TU32);
     ("flags", TU64)]
    false false FailNeg ["EINVAL"; "ENOENT"].

Definition bpf_get_ns_current_pid_tgid : helper_def :=
  helper "bpf_get_ns_current_pid_tgid" 120 TLong
    [("dev", TU64); ("ino", TU64); ("nsdata", TPtr (TStruct "bpf_pidns_info"));
     ("size", TU32)]
    false false FailNeg ["EINVAL"; "ENOENT"].

Definition bpf_xdp_output : helper_def :=
  helper "bpf_xdp_output" 121 TLong
    [("ctx", TPtr TVoid); ("map", TPtr TVoid); ("flags", TU64); ("data", TPtr TVoid);
     ("size", TU64)]
    false false FailNeg [].

Definition bpf_get_netns_cookie : helper_def :=
  helper "bpf_get_netns_cookie" 122 TU64
    [("ctx", TPtr TVoid)]
    false false FailNone [].

Definition bpf_get_current_ancestor_cgroup_id : helper_def :=
  helper "bpf_get_current_ancestor_cgroup_id" 123 TU64
    [("ancestor_level", TInt)]
    false false FailNone [].

Definition bpf_sk_assign : helper_def :=
  helper "bpf_sk_assign" 124 TLong
    [("ctx", TPtr TVoid); ("sk", TPtr TVoid); ("flags", TU64)]
    false false FailNeg ["EINVAL"; "ENOENT"; "ENETUNREACH"; "EOPNOTSUPP"].

Definition bpf_ktime_get_boot_ns : helper_def :=
  helper "bpf_ktime_get_boot_ns" 125 TU64
    []
    false false FailNone [].

Definition bpf_seq_printf : helper_def :=
  helper "bpf_seq_printf" 126 TLong
    [("m", TPtr (TStruct "seq_file")); ("fmt", TPtr (TConst TChar)); ("fmt_size", TU32);
     ("data", TPtr (TConst TVoid)); ("data_len", TU32)]
    false false FailNeg ["EBUSY"; "EINVAL"; "E2BIG"; "EOVERFLOW"].

Definition bpf_seq_write : helper_def :=
  helper "bpf_seq_write" 127 TLong
    [("m", TPtr (TStruct "seq_file")); ("data", TPtr (TConst TVoid)); ("len", TU32)]
    false false FailNeg ["EOVERFLOW"].

Definition bpf_sk_cgroup_id : helper_def :=
  helper "bpf_sk_cgroup_id" 128 TU64
    [("sk", TPtr TVoid)]
    false false FailNone [].

Definition bpf_sk_ancestor_cgroup_id : helper_def :=
  helper "bpf_sk_ancestor_cgroup_id" 129 TU64
    [("sk", TPtr TVoid); ("ancestor_level", TInt)]
    false false FailNone [].

Definition bpf_ringbuf_output : helper_def :=
  helper "bpf_ringbuf_output" 130 TLong
    [("ringbuf", TPtr TVoid); ("data", TPtr TVoid); ("size", TU64); ("flags", TU64)]
    false false FailNeg [].

Definition bpf_ringbuf_reserve : helper_def :=
  helper "bpf_ringbuf_reserve" 131 (TPtr TVoid)
    [("ringbuf", TPtr TVoid); ("size", TU64); ("flags", TU64)]
    false false FailNull [].

Definition bpf_ringbuf_submit : helper_def :=
  helper "bpf_ringbuf_submit" 132 TVoid
    [("data", TPtr TVoid); ("flags", TU64)]
    false false FailNone [].

Definition bpf_ringbuf_discard : helper_def :=
  helper "bpf_ringbuf_discard" 133 TVoid
    [("data", TPtr TVoid); ("flags", TU64)]
    false false FailNone [].

Definition bpf_ringbuf_query : helper_def :=
  helper "bpf_ringbuf_query" 134 TU64
    [("ringbuf", TPtr TVoid); ("flags", TU64)]
    false false FailNone [].

Definition bpf_csum_level : helper_def :=
  helper "bpf_csum_level" 135 TLong
    [("skb", TPtr (TStruct "__sk_buff")); ("level", TU64)]
    false false FailNeg ["EACCES"].

Definition bpf_skc_to_tcp6_sock : helper_def :=
  helper "bpf_skc_to_tcp6_sock" 136 (TPtr (TStruct "tcp6_sock"))
    [("sk", TPtr TVoid)]
    false false FailNull [].

Definition bpf_skc_to_tcp_sock : helper_def :=
  helper "bpf_skc_to_tcp_sock" 137 (TPtr (TStruct "tcp_sock"))
    [("sk", TPtr TVoid)]
    false false FailNull [].

Definition bpf_skc_to_tcp_timewait_sock : helper_def :=
  helper "bpf_skc_to_tcp_timewait_sock" 138 (TPtr (TStruct "tcp_timewait_sock"))
    [("sk", TPtr TVoid)]
    false false FailNull [].

Definition bpf_skc_to_tcp_request_sock : helper_def :=
  helper "bpf_skc_to_tcp_request_sock" 139 (TPtr (TStruct "tcp_request_sock"))
    [("sk", TPtr TVoid)]
    false false FailNull [].

Definition bpf_skc_to_udp6_sock : helper_def :=
  helper "bpf_skc_to_udp6_sock" 140 (TPtr (TStruct "udp6_sock"))
    [("sk", TPtr TVoid)]
    false false FailNull [].

Definition bpf_get_task_stack : helper_def :=
  helper "bpf_get_task_stack" 141 TLong
    [("task", TPtr (TStruct "task_struct")); ("buf", TPtr TVoid); ("size", TU32);
     ("flags", TU64)]
    false false FailNeg [].

Definition bpf_load_hdr_opt : helper_def :=
  helper "bpf_load_hdr_opt" 142 TLong
    [("skops", TPtr (TStruct "bpf_sock_ops")); ("searchby_res", TPtr TVoid); ("len", TU32);
     ("flags", TU64)]
    false false FailNeg ["EINVAL"; "ENOMSG"; "ENOENT"; "ENOSPC"; "EFAULT"; "EPERM"].

Definition bpf_store_hdr_opt : helper_def :=
  helper "bpf_store_hdr_opt" 143 TLong
    [("skops", TPtr (TStruct "bpf_sock_ops")); ("from", TPtr (TConst TVoid)); ("len", TU32);
     ("flags", TU64)]
    false false FailNeg ["EINVAL"; "ENOSPC"; "EEXIST"; "EFAULT"; "EPERM"].

Definition bpf_reserve_hdr_opt : helper_def :=
  helper "bpf_reserve_hdr_opt" 144 TLong
    [("skops", TPtr (TStruct "bpf_sock_ops")); ("len", TU32); ("flags", TU64)]
    false false FailNeg ["EINVAL"; "ENOSPC"; "EPERM"].

Definition bpf_inode_storage_get : helper_def :=
  helper "bpf_inode_storage_get" 145 (TPtr TVoid)
    [("map", TPtr TVoid); ("inode", TPtr TVoid); ("value", TPtr TVoid); ("flags", TU64)]
    false false FailNull [].

Definition bpf_inode_storage_delete : helper_def :=
  helper "bpf_inode_storage_delete" 146 TInt
    [("map", TPtr TVoid); ("inode", TPtr TVoid)]
    false false FailNeg ["ENOENT"].

Definition bpf_d_path : helper_def :=
  helper "bpf_d_path" 147 TLong
    [("path", TPtr (TConst (TStruct "path"))); ("buf", TPtr TChar); ("sz", TU32)]
    false false FailNeg [].

Definition bpf_copy_from_user : helper_def :=
  helper "bpf_copy_from_user" 148 TLong
    [("dst", TPtr TVoid); ("size", TU32); ("user_ptr", TPtr (TConst TVoid))]
    false false FailNeg [].

Definition bpf_snprintf_btf : helper_def :=
  helper "bpf_snprintf_btf" 149 TLong
    [("str", TPtr TChar); ("str_size", TU32); ("ptr", TPtr (TStruct "btf_ptr"));
     ("btf_ptr_size", TU32); ("flags", TU64)]
    false false FailNeg [].

Definition bpf_seq_printf_btf : helper_def :=
  helper "bpf_seq_printf_btf" 150 TLong
    [("m", TPtr (TStruct "seq_file")); ("ptr", TPtr (TStruct "btf_ptr"));
     ("ptr_size", TU32); ("flags", TU64)]
    false false FailNeg [].

Definition bpf_skb_cgroup_classid : helper_def :=
  helper "bpf_skb_cgroup_classid" 151 TU64
    [("skb", TPtr (TStruct "__sk_buff"))]
    false false FailNone [].

Definition bpf_redirect_neigh : helper_def :=
  helper "bpf_redirect_neigh" 152 TLong
    [("ifindex", TU32); ("params", TPtr (TStruct "bpf_redir_neigh")); ("plen", TInt);
     ("flags", TU64)]
    false false FailNone [].

Definition bpf_per_cpu_ptr : helper_def :=
  helper "bpf_per_cpu_ptr" 153 (TPtr TVoid)
    [("percpu_ptr", TPtr (TConst TVoid)); ("cpu", TU32)]
    false false FailNull [].

Definition bpf_this_cpu_ptr : helper_def :=
  helper "bpf_this_cpu_ptr" 154 (TPtr TVoid)
    [("percpu_ptr", TPtr (TConst TVoid))]
    false false FailNone [].

Definition bpf_redirect_peer : helper_def :=
  helper "bpf_redirect_peer" 155 TLong
    [("ifindex", TU32); ("flags", TU64)]
    false false FailNone [].

Definition bpf_task_storage_get : helper_def :=
  helper "bpf_task_storage_get" 156 (TPtr TVoid)
    [("map", TPtr TVoid); ("task", TPtr (TStruct "task_struct")); ("value", TPtr TVoid);
     ("flags", TU64)]
    false false FailNull [].

Definition bpf_task_storage_delete : helper_def :=
  helper "bpf_task_storage_delete" 157 TLong
    [("map", TPtr TVoid); ("task", TPtr (TStruct "task_struct"))]
    false false FailNeg ["ENOENT"].

Definition bpf_get_current_task_btf : helper_def :=
  helper "bpf_get_current_task_btf" 158 (TPtr (TStruct "task_struct"))
    []
    false false FailNone [].

Definition bpf_bprm_opts_set : helper_def :=
  helper "bpf_bprm_opts_set" 159 TLong
    [("bprm", TPtr (TStruct "linux_binprm")); ("flags", TU64)]
    false false FailNeg ["EINVAL"].

Definition bpf_ktime_get_coarse_ns : helper_def :=
  helper "bpf_ktime_get_coarse_ns" 160 TU64
    []
    false false FailNone [].

Definition bpf_ima_inode_hash : helper_def :=
  helper "bpf_ima_inode_hash" 161 TLong
    [("inode", TPtr (TStruct "inode")); ("dst", TPtr TVoid); ("size", TU32)]
    false false FailNeg ["EOPNOTSUPP"; "EINVAL"].

Definition bpf_sock_from_file : helper_def :=
  helper "bpf_sock_from_file" 162 (TPtr (TStruct "socket"))
    [("file", TPtr (TStruct "file"))]
    false false FailNull [].

Definition bpf_check_mtu : helper_def :=
  helper "bpf_check_mtu" 163 TLong
    [("ctx", TPtr TVoid); ("ifindex", TU32); ("mtu_len", TPtr TU32); ("len_diff", TS32);
     ("flags", TU64)]
    false false FailNeg [].

Definition bpf_for_each_map_elem : helper_def :=
  helper "bpf_for_each_map_elem" 164 TLong
    [("map", TPtr TVoid); ("callback_fn", TPtr TVoid); ("callback_ctx", TPtr TVoid);
     ("flags", TU64)]
    false false FailNeg ["EINVAL"].

Definition bpf_snprintf : helper_def :=
  helper "bpf_snprintf" 165 TLong
    [("str", TPtr TChar); ("str_size", TU32); ("fmt", TPtr (TConst TChar));
     ("data", TPtr TU64); ("data_len", TU32)]
    false false FailNeg ["EBUSY"].

Definition bpf_sys_bpf : helper_def :=
  helper "bpf_sys_bpf" 166 TLong
    [("cmd", TU32); ("attr", TPtr TVoid); ("attr_size", TU32)]
    false false FailNone [].

Definition bpf_btf_find_by_name_kind : helper_def :=
  helper "bpf_btf_find_by_name_kind" 167 TLong
    [("name", TPtr TChar); ("name_sz", TInt); ("kind", TU32); ("flags", TInt)]
    false false FailNone [].

Definition bpf_sys_close : helper_def :=
  helper "bpf_sys_close" 168 TLong
    [("fd", TU32)]
    false false FailNone [].

Definition bpf_timer_init : helper_def :=
  helper "bpf_timer_init" 169 TLong
    [("timer", TPtr (TStruct "bpf_timer")); ("map", TPtr TVoid); ("flags", TU64)]
    false false FailNeg ["EBUSY"; "EINVAL"; "EPERM"].

Definition bpf_timer_set_callback : helper_def :=
  helper "bpf_timer_set_callback" 170 TLong
    [("timer", TPtr (TStruct "bpf_timer")); ("callback_fn", TPtr TVoid)]
    false false FailNeg ["EINVAL"; "EPERM"].

Definition bpf_timer_start : helper_def :=
  helper "bpf_timer_start" 171 TLong
    [("timer", TPtr (TStruct "bpf_timer")); ("nsecs", TU64); ("flags", TU64)]
    false false FailNeg ["EINVAL"].

Definition bpf_timer_cancel : helper_def :=
  helper "bpf_timer_cancel" 172 TLong
    [("timer", TPtr (TStruct "bpf_timer"))]
    false false FailNeg ["EINVAL"; "EDEADLK"].

Definition bpf_get_func_ip : helper_def :=
  helper "bpf_get_func_ip" 173 TU64
    [("ctx", TPtr TVoid)]
    false false FailNone [].

Definition bpf_get_attach_cookie : helper_def :=
  helper "bpf_get_attach_cookie" 174 TU64
    [("ctx", TPtr TVoid)]
    false false FailNone [].

Definition bpf_task_pt_regs : helper_def :=
  helper "bpf_task_pt_regs" 175 TLong
    [("task", TPtr (TStruct "task_struct"))]
    false false FailNone [].

Definition bpf_get_branch_snapshot : helper_def :=
  helper "bpf_get_branch_snapshot" 176 TLong
    [("entries", TPtr TVoid); ("size", TU32); ("flags", TU64)]
    false false FailNeg ["EINVAL"; "ENOENT"].

Definition bpf_trace_vprintk : helper_def :=
  helper "bpf_trace_vprintk" 177 TLong
    [("fmt", TPtr (TConst TChar)); ("fmt_size", TU32); ("data", TPtr (TConst TVoid));
     ("data_len", TU32)]
    false false FailNeg [].

Definition bpf_skc_to_unix_sock : helper_def :=
  helper "bpf_skc_to_unix_sock" 178 (TPtr (TStruct "unix_sock"))
    [("sk", TPtr TVoid)]
    false false FailNull [].

Definition bpf_kallsyms_lookup_name : helper_def :=
  helper "bpf_kallsyms_lookup_name" 179 TLong
    [("name", TPtr (TConst TChar)); ("name_sz", TInt); ("flags", TInt); ("res", TPtr TU64)]
    false false FailNeg ["EINVAL"; "ENOENT"; "EPERM"].

Definition bpf_find_vma : helper_def :=
  helper "bpf_find_vma" 180 TLong
    [("task", TPtr (TStruct "task_struct")); ("addr", TU64); ("callback_fn", TPtr TVoid);
     ("callback_ctx", TPtr TVoid); ("flags", TU64)]
    false false FailNeg ["ENOENT"; "EBUSY"; "EINVAL"].

Definition bpf_loop : helper_def :=
  helper "bpf_loop" 181 TLong
    [("nr_loops", TU32); ("callback_fn", TPtr TVoid); ("callback_ctx", TPtr TVoid);
     ("flags", TU64)]
    false false FailNeg ["EINVAL"; "E2BIG"].

Definition bpf_strncmp : helper_def :=
  helper "bpf_strncmp" 182 TLong
    [("s1", TPtr (TConst TChar)); ("s1_sz", TU32); ("s2", TPtr (TConst TChar))]
    false false FailNone [].

Definition bpf_get_func_arg : helper_def :=
  helper "bpf_get_func_arg" 183 TLong
    [("ctx", TPtr TVoid); ("n", TU32); ("value", TPtr TU64)]
    false false FailNeg ["EINVAL"].

Definition bpf_get_func_ret : helper_def :=
  helper "bpf_get_func_ret" 184 TLong
    [("ctx", TPtr TVoid); ("value", TPtr TU64)]
    false false FailNeg ["EOPNOTSUPP"].

Definition bpf_get_func_arg_cnt : helper_def :=
  helper "bpf_get_func_arg_cnt" 185 TLong
    [("ctx", TPtr TVoid)]
    false false FailNone [].

Definition bpf_get_retval : helper_def :=
  helper "bpf_get_retval" 186 TInt
    []
    false false FailNone [].

Definition bpf_set_retval : helper_def :=
  helper "bpf_set_retval" 187 TInt
    [("retval", TInt)]
    false false FailNeg [].

Definition bpf_xdp_get_buff_len : helper_def :=
  helper "bpf_xdp_get_buff_len" 188 TU64
    [("xdp_md", TPtr (TStruct "xdp_md"))]
    false false FailNone [].

Definition bpf_xdp_load_bytes : helper_def :=
  helper "bpf_xdp_load_bytes" 189 TLong
    [("xdp_md", TPtr (TStruct "xdp_md")); ("offset", TU32); ("buf", TPtr TVoid);
     ("len", TU32)]
    false false FailNeg [].

Definition bpf_xdp_store_bytes : helper_def :=
  helper "bpf_xdp_store_bytes" 190 TLong
    [("xdp_md", TPtr (TStruct "xdp_md")); ("offset", TU32); ("buf", TPtr TVoid);
     ("len", TU32)]
    false false FailNeg [].

Definition bpf_copy_from_user_task : helper_def :=
  helper "bpf_copy_from_user_task" 191 TLong
    [("dst", TPtr TVoid); ("size", TU32); ("user_ptr", TPtr (TConst TVoid));
     ("tsk", TPtr (TStruct "task_struct")); ("flags", TU64)]
    false false FailNeg [].

Definition bpf_skb_set_tstamp : helper_def :=
  helper "bpf_skb_set_tstamp" 192 TLong
    [("skb", TPtr (TStruct "__sk_buff")); ("tstamp", TU64); ("tstamp_type", TU32)]
    false false FailNeg ["EINVAL"; "EOPNOTSUPP"].

Definition bpf_ima_file_hash : helper_def :=
  helper "bpf_ima_file_hash" 193 TLong
    [("file", TPtr (TStruct "file")); ("dst", TPtr TVoid); ("size", TU32)]
    false false FailNeg ["EOPNOTSUPP"; "EINVAL"].

Definition bpf_kptr_xchg : helper_def :=
  helper "bpf_kptr_xchg" 194 (TPtr TVoid)
    [("dst", TPtr TVoid); ("ptr", TPtr TVoid)]
    false false FailNull [].

Definition bpf_map_lookup_percpu_elem : helper_def :=
  helper "bpf_map_lookup_percpu_elem" 195 (TPtr TVoid)
    [("map", TPtr TVoid); ("key", TPtr (TConst TVoid)); ("cpu", TU32)]
    false false FailNull [].

Definition bpf_skc_to_mptcp_sock : helper_def :=
  helper "bpf_skc_to_mptcp_sock" 196 (TPtr (TStruct "mptcp_sock"))
    [("sk", TPtr TVoid)]
    false false FailNull [].

Definition bpf_dynptr_from_mem : helper_def :=
  helper "bpf_dynptr_from_mem" 197 TLong
    [("data", TPtr TVoid); ("size", TU64); ("flags", TU64);
     ("ptr", TPtr (TStruct "bpf_dynptr"))]
    false false FailNeg ["E2BIG"; "EINVAL"].

Definition bpf_ringbuf_reserve_dynptr : helper_def :=
  helper "bpf_ringbuf_reserve_dynptr" 198 TLong
    [("ringbuf", TPtr TVoid); ("size", TU32); ("flags", TU64);
     ("ptr", TPtr (TStruct "bpf_dynptr"))]
    false false FailNeg [].

Definition bpf_ringbuf_submit_dynptr : helper_def :=
  helper "bpf_ringbuf_submit_dynptr" 199 TVoid
    [("ptr", TPtr (TStruct "bpf_dynptr")); ("flags", TU64)]
    false false FailNone [].

Definition bpf_ringbuf_discard_dynptr : helper_def :=
  helper "bpf_ringbuf_discard_dynptr" 200 TVoid
    [("ptr", TPtr (TStruct "bpf_dynptr")); ("flags", TU64)]
    false false FailNone [].

Definition bpf_dynptr_read : helper_def :=
  helper "bpf_dynptr_read" 201 TLong
    [("dst", TPtr TVoid); ("len", TU64); ("src", TPtr (TConst (TStruct "bpf_dynptr")));
     ("offset", TU64); ("flags", TU64)]
    false false FailNeg ["E2BIG"; "EINVAL"].

Definition bpf_dynptr_write : helper_def :=
  helper "bpf_dynptr_write" 202 TLong
    [("dst", TPtr (TConst (TStruct "bpf_dynptr"))); ("offset", TU64); ("src", TPtr TVoid);
     ("len", TU64); ("flags", TU64)]
    false false FailNeg ["E2BIG"; "EINVAL"].

Definition bpf_dynptr_data : helper_def :=
  helper "bpf_dynptr_data" 203 (TPtr TVoid)
    [("ptr", TPtr (TConst (TStruct "bpf_dynptr"))); ("offset", TU64); ("len", TU64)]
    false false FailNull [].

Definition bpf_tcp_raw_gen_syncookie_ipv4 : helper_def :=
  helper "bpf_tcp_raw_gen_syncookie_ipv4" 204 TS64
    [("iph", TPtr (TStruct "iphdr")); ("th", TPtr (TStruct "tcphdr")); ("th_len", TU32)]
    false false FailNeg ["EINVAL"].

Definition bpf_tcp_raw_gen_syncookie_ipv6 : helper_def :=
  helper "bpf_tcp_raw_gen_syncookie_ipv6" 205 TS64
    [("iph", TPtr (TStruct "ipv6hdr")); ("th", TPtr (TStruct "tcphdr")); ("th_len", TU32)]
    false false FailNeg ["EINVAL"; "EPROTONOSUPPORT"].

Definition bpf_tcp_raw_check_syncookie_ipv4 : helper_def :=
  helper "bpf_tcp_raw_check_syncookie_ipv4" 206 TLong
    [("iph", TPtr (TStruct "iphdr")); ("th", TPtr (TStruct "tcphdr"))]
    false false FailNeg ["EACCES"].

Definition bpf_tcp_raw_check_syncookie_ipv6 : helper_def :=
  helper "bpf_tcp_raw_check_syncookie_ipv6" 207 TLong
    [("iph", TPtr (TStruct "ipv6hdr")); ("th", TPtr (TStruct "tcphdr"))]
    false false FailNeg ["EACCES"; "EPROTONOSUPPORT"].

Definition bpf_ktime_get_tai_ns : helper_def :=
  helper "bpf_ktime_get_tai_ns" 208 TU64
    []
    false false FailNone [].

Definition bpf_user_ringbuf_drain : helper_def :=
  helper "bpf_user_ringbuf_drain" 209 TLong
    [("map", TPtr TVoid); ("callback_fn", TPtr TVoid); ("ctx", TPtr TVoid); ("flags", TU64)]
    false false FailNeg ["EBUSY"; "EINVAL"; "E2BIG"].

Definition bpf_cgrp_storage_get : helper_def :=
  helper "bpf_cgrp_storage_get" 210 (TPtr TVoid)
    [("map", TPtr TVoid); ("cgroup", TPtr (TStruct "cgroup")); ("value", TPtr TVoid);
     ("flags", TU64)]
    false false FailNull [].

Definition bpf_cgrp_storage_delete : helper_def :=
  helper "bpf_cgrp_storage_delete" 211 TLong
    [("map", TPtr TVoid); ("cgroup", TPtr (TStruct "cgroup"))]
    false false FailNeg ["ENOENT"].

Definition helper_defs : list helper_def :=
  [ bpf_map_lookup_elem; bpf_map_update_elem; bpf_map_delete_elem; bpf_probe_read;
    bpf_ktime_get_ns; bpf_trace_printk; bpf_get_prandom_u32; bpf_get_smp_processor_id;
    bpf_skb_store_bytes; bpf_l3_csum_replace; bpf_l4_csum_replace; bpf_tail_call;
    bpf_clone_redirect; bpf_get_current_pid_tgid; bpf_get_current_uid_gid;
    bpf_get_current_comm; bpf_get_cgroup_classid; bpf_skb_vlan_push; bpf_skb_vlan_pop;
    bpf_skb_get_tunnel_key; bpf_skb_set_tunnel_key; bpf_perf_event_read; bpf_redirect;
    bpf_get_route_realm; bpf_perf_event_output; bpf_skb_load_bytes; bpf_get_stackid;
    bpf_csum_diff; bpf_skb_get_tunnel_opt; bpf_skb_set_tunnel_opt; bpf_skb_change_proto;
    bpf_skb_change_type; bpf_skb_under_cgroup; bpf_get_hash_recalc; bpf_get_current_task;
    bpf_probe_write_user; bpf_current_task_under_cgroup; bpf_skb_change_tail;
    bpf_skb_pull_data; bpf_csum_update; bpf_set_hash_invalid; bpf_get_numa_node_id;
    bpf_skb_change_head; bpf_xdp_adjust_head; bpf_probe_read_str; bpf_get_socket_cookie;
    bpf_get_socket_uid; bpf_set_hash; bpf_setsockopt; bpf_skb_adjust_room;
    bpf_redirect_map; bpf_sk_redirect_map; bpf_sock_map_update; bpf_xdp_adjust_meta;
    bpf_perf_event_read_value; bpf_perf_prog_read_value; bpf_getsockopt;
    bpf_override_return; bpf_sock_ops_cb_flags_set; bpf_msg_redirect_map;
    bpf_msg_apply_bytes; bpf_msg_cork_bytes; bpf_msg_pull_data; bpf_bind;
    bpf_xdp_adjust_tail; bpf_skb_get_xfrm_state; bpf_get_stack;
    bpf_skb_load_bytes_relative; bpf_fib_lookup; bpf_sock_hash_update;
    bpf_msg_redirect_hash; bpf_sk_redirect_hash; bpf_lwt_push_encap;
    bpf_lwt_seg6_store_bytes; bpf_lwt_seg6_adjust_srh; bpf_lwt_seg6_action; bpf_rc_repeat;
    bpf_rc_keydown; bpf_skb_cgroup_id; bpf_get_current_cgroup_id; bpf_get_local_storage;
    bpf_sk_select_reuseport; bpf_skb_ancestor_cgroup_id; bpf_sk_lookup_tcp;
    bpf_sk_lookup_udp; bpf_sk_release; bpf_map_push_elem; bpf_map_pop_elem;
    bpf_map_peek_elem; bpf_msg_push_data; bpf_msg_pop_data; bpf_rc_pointer_rel;
    bpf_spin_lock; bpf_spin_unlock; bpf_sk_fullsock; bpf_tcp_sock; bpf_skb_ecn_set_ce;
    bpf_get_listener_sock; bpf_skc_lookup_tcp; bpf_tcp_check_syncookie;
    bpf_sysctl_get_name; bpf_sysctl_get_current_value; bpf_sysctl_get_new_value;
    bpf_sysctl_set_new_value; bpf_strtol; bpf_strtoul; bpf_sk_storage_get;
    bpf_sk_storage_delete; bpf_send_signal; bpf_tcp_gen_syncookie; bpf_skb_output;
    bpf_probe_read_user; bpf_probe_read_kernel; bpf_probe_read_user_str;
    bpf_probe_read_kernel_str; bpf_tcp_send_ack; bpf_send_signal_thread; bpf_jiffies64;
    bpf_read_branch_records; bpf_get_ns_current_pid_tgid; bpf_xdp_output;
    bpf_get_netns_cookie; bpf_get_current_ancestor_cgroup_id; bpf_sk_assign;
    bpf_ktime_get_boot_ns; bpf_seq_printf; bpf_seq_write; bpf_sk_cgroup_id;
    bpf_sk_ancestor_cgroup_id; bpf_ringbuf_output; bpf_ringbuf_reserve; bpf_ringbuf_submit;
    bpf_ringbuf_discard; bpf_ringbuf_query; bpf_csum_level; bpf_skc_to_tcp6_sock;
    bpf_skc_to_tcp_sock; bpf_skc_to_tcp_timewait_sock; bpf_skc_to_tcp_request_sock;
    bpf_skc_to_udp6_sock; bpf_get_task_stack; bpf_load_hdr_opt; bpf_store_hdr_opt;
    bpf_reserve_hdr_opt; bpf_inode_storage_get; bpf_inode_storage_delete; bpf_d_path;
    bpf_copy_from_user; bpf_snprintf_btf; bpf_seq_printf_btf; bpf_skb_cgroup_classid;
    bpf_redirect_neigh; bpf_per_cpu_ptr; bpf_this_cpu_ptr; bpf_redirect_peer;
    bpf_task_storage_get; bpf_task_storage_delete; bpf_get_current_task_btf;
    bpf_bprm_opts_set; bpf_ktime_get_coarse_ns; bpf_ima_inode_hash; bpf_sock_from_file;
    bpf_check_mtu; bpf_for_each_map_elem; bpf_snprintf; bpf_sys_bpf;
    bpf_btf_find_by_name_kind; bpf_sys_close; bpf_timer_init; bpf_timer_set_callback;
    bpf_timer_start; bpf_timer_cancel; bpf_get_func_ip; bpf_get_attach_cookie;
    bpf_task_pt_regs; bpf_get_branch_snapshot; bpf_trace_vprintk; bpf_skc_to_unix_sock;
    bpf_kallsyms_lookup_name; bpf_find_vma; bpf_loop; bpf_strncmp; bpf_get_func_arg;
    bpf_get_func_ret; bpf_get_func_arg_cnt; bpf_get_retval; bpf_set_retval;
    bpf_xdp_get_buff_len; bpf_xdp_load_bytes; bpf_xdp_store_bytes; bpf_copy_from_user_task;
    bpf_skb_set_tstamp; bpf_ima_file_hash; bpf_kptr_xchg; bpf_map_lookup_percpu_elem;
    bpf_skc_to_mptcp_sock; bpf_dynptr_from_mem; bpf_ringbuf_reserve_dynptr;
    bpf_ringbuf_submit_dynptr; bpf_ringbuf_discard_dynptr; bpf_dynptr_read;
    bpf_dynptr_write; bpf_dynptr_data; bpf_tcp_raw_gen_syncookie_ipv4;
    bpf_tcp_raw_gen_syncookie_ipv6; bpf_tcp_raw_check_syncookie_ipv4;
    bpf_tcp_raw_check_syncookie_ipv6; bpf_ktime_get_tai_ns; bpf_user_ringbuf_drain;
    bpf_cgrp_storage_get; bpf_cgrp_storage_delete ].

(** ** Reading the table *)

(** The declaration a name or a call instruction's immediate refers to. *)
Definition helper_by_name (n : string) : option helper_def :=
  List.find (fun h => String.eqb (h_name h) n) helper_defs.
Definition helper_by_id (i : Z) : option helper_def :=
  List.find (fun h => h_id h =? i) helper_defs.

Fixpoint struct_tags (t : cty) : list string :=
  match t with
  | TStruct tag => [tag]
  | TConst t | TPtr t | TArray t _ | TFlexArray t => struct_tags t
  | _ => []
  end.

Definition signature_tags (h : helper_def) : list string :=
  struct_tags (h_ret h) ++ (h_args h ≫= fun a => struct_tags a.2).

Definition is_signed (t : cty) : bool :=
  match t with TInt | TLong | TS32 | TS64 => true | _ => false end.

(** A call with [n] actual arguments: the count the prototype asks for, and
    one register of r1 to r5 each. *)
Definition call_accepted (h : helper_def) (n : nat) : bool :=
  (if h_variadic h then Nat.leb (length (h_args h)) n else Nat.eqb (length (h_args h)) n)
  && Nat.leb n 5.

(** The helper and the number of actual arguments of an expanded call; the
    stream printer is a kernel function of its own, not a helper. *)
Definition call_target (c : helper_call) : option (string * nat) :=
  match c with
  | call_trace_printk _ _ args => Some ("bpf_trace_printk", (2 + length args)%nat)
  | call_trace_vprintk _ _ _ _ => Some ("bpf_trace_vprintk", 4%nat)
  | call_seq_printf _ _ _ _ _ => Some ("bpf_seq_printf", 5%nat)
  | call_snprintf _ _ _ _ _ => Some ("bpf_snprintf", 5%nat)
  | call_stream_vprintk _ _ _ _ => None
  end.

Definition call_declared (c : helper_call) : bool :=
  match call_target c with
  | Some (name, n) =>
      match helper_by_name name with Some h => call_accepted h n | None => false end
  | None => true
  end.

(** ** Facts of the table *)

Definition helper_count : nat := 211.

Lemma ids_in_order : h_id <$> helper_defs = seqZ 1 (Z.of_nat helper_count).
Proof. vm_compute. reflexivity. Qed.

Lemma names_nodup : NoDup (h_name <$> helper_defs).
Proof. apply (bool_decide_eq_true_1 (NoDup (h_name <$> helper_defs))). vm_compute. reflexivity. Qed.

Lemma ids_nodup : NoDup (h_id <$> helper_defs).
Proof. rewrite ids_in_order. apply NoDup_seqZ. Qed.

(** A search by a key that no two entries share finds exactly the entry. *)
Lemma find_unique {A K} (key : A -> K) (eqb : K -> K -> bool) (l : list A) k a :
  (forall x y, eqb x y = true <-> x = y) -> NoDup (key <$> l) ->
  (List.find (fun x => eqb (key x) k) l = Some a <-> a ∈ l /\ key a = k).
Proof.
  intros Heqb. induction l as [|x l IH]; simpl; intros Hnd.
  - split; [done|]. intros [H _]. by apply not_elem_of_nil in H.
  - apply list.NoDup_cons in Hnd as [Hx Hnd]. specialize (IH Hnd).
    destruct (eqb (key x) k) eqn:E.
    + apply Heqb in E. split.
      * intros [= <-]. split; [apply list_elem_of_here|done].
      * intros [Ha Hk]. apply elem_of_cons in Ha as [->|Ha]; [done|].
        exfalso. apply Hx. rewrite E, <- Hk. by apply list_elem_of_fmap_2.
    + rewrite IH. split; intros [Ha Hk]; split; try done; [by apply list_elem_of_further|].
      apply elem_of_cons in Ha as [->|Ha]; [|done].
      rewrite (proj2 (Heqb _ _) Hk) in E. done.
Qed.

Lemma id_in_table i : i ∈ h_id <$> helper_defs <-> 1 <= i <= 211.
Proof. rewrite ids_in_order, elem_of_seqZ. unfold helper_count. lia. Qed.

Lemma trace_printk_declared fmt sz args :
  call_declared (call_trace_printk fmt sz args) = true <-> (length args <= 3)%nat.
Proof.
  unfold call_declared, call_target.
  replace (helper_by_name "bpf_trace_printk") with (Some bpf_trace_printk)
    by (vm_compute; reflexivity).
  unfold call_accepted. simpl. rewrite Nat.leb_le. lia.
Qed.

(** ** Theorems *)

(** The table numbers the helpers 1, 2, ..., 211 without gap or repetition:
    a declared helper is found under its name and under its number and under
    no other, and every number in range has a declaration, so the pointer
    constant written in the header and the immediate of the call instruction
    determine each other. *)
Theorem helper_numbering :
  (forall h, h ∈ helper_defs <-> helper_by_id (h_id h) = Some h) /\
  (forall h, h ∈ helper_defs <-> helper_by_name (h_name h) = Some h) /\
  (forall i, (exists h, helper_by_id i = Some h) <-> 1 <= i <= 211).
Proof.
  split; [|split].
  - intros h. unfold helper_by_id.
    rewrite (find_unique h_id Z.eqb) by (auto using Z.eqb_eq, ids_nodup). naive_solver.
  - intros h. unfold helper_by_name.
    rewrite (find_unique h_name String.eqb) by (auto using String.eqb_eq, names_nodup).
    naive_solver.
  - intros i. transitivity (i ∈ h_id <$> helper_defs); [|exact (id_in_table i)].
    rewrite list_elem_of_fmap. unfold helper_by_id.
    setoid_rewrite (find_unique h_id Z.eqb); [|apply Z.eqb_eq|exact ids_nodup]. naive_solver.
Qed.

(** The header declares every struct its prototypes mention. *)
Lemma structs_declared :
  Forall (fun h => Forall (fun tag => tag ∈ forward_structs) (signature_tags h)) helper_defs.
Proof. apply (bool_decide_unpack _). vm_compute. exact I. Qed.

(** The comment of [bpf_perf_event_read] promises a negative error code, its
    return type is unsigned. *)
Example perf_event_read_unsigned :
  h_fail bpf_perf_event_read = FailNeg /\ is_signed (h_ret bpf_perf_event_read) = false.
Proof. split; reflexivity. Qed.

(** C39: the printing macros of bpf_helpers.h only expand to calls the helper
    declarations accept: whatever the number of values, the count of actual
    arguments is the one the prototype asks for and fits r1 to r5.  Above
    three values [bpf_printk] must therefore leave the variadic helper. *)
Theorem macro_calls_declared fmt args :
  (forall c, bpf_printk fmt args = Some c -> call_declared c = true) /\
  (forall seq c, BPF_SEQ_PRINTF seq fmt args = Some c -> call_declared c = true) /\
  (forall out n c, BPF_SNPRINTF out n fmt args = Some c -> call_declared c = true) /\
  (call_declared (call_trace_printk fmt (sizeof_str fmt) args) = true <->
     (length args <= 3)%nat).
Proof.
  split_and!.
  - intros c. unfold bpf_printk.
    destruct (decide (length args <= 12)%nat) as [Hl|Hl].
    + rewrite pick_printk_spec by done. case_decide as Hd.
      * intros [= <-]. by apply trace_printk_declared.
      * unfold m_bpf_vprintk. rewrite params_exact by done. by intros [= <-].
    + by destruct (pick_printk_overflow args) as [a ->]; [lia|].
  - intros seq c. unfold BPF_SEQ_PRINTF. destruct (bpf_params args); [|done]. by intros [= <-].
  - intros out n c. unfold BPF_SNPRINTF. destruct (bpf_params args); [|done]. by intros [= <-].
  - apply trace_printk_declared.
Qed.

(** The raw call that [bpf_tail_call_static] assembles is the call its prototype
    describes: the helper number is that of [bpf_tail_call], and the registers
    are r1, r2, r3 in the order of the prototype's parameters. *)
Lemma tail_call_matches_prototype ctx map slot regs id :
  bpf_tail_call_static true ctx map slot = Some (regs, id) ->
  helper_by_id id = Some bpf_tail_call /\
  regs.*1 = seqZ 1 (Z.of_nat (length (h_args bpf_tail_call))) /\
  regs.*2 = [ctx; map; slot].
Proof. intros [= <- <-]. split_and!; reflexivity. Qed.
