(* ===== verification/BpfTracing.v ===== *)
(** * include/bpf/bpf_tracing.h

    Selection of the target architecture, the register tables of the calling
    conventions, and the macros that unpack a context into the named arguments
    of a BPF program ([BPF_PROG], which declares every callback of the
    scheduler, [BPF_PROG2], [BPF_KPROBE], [BPF_KRETPROBE], [BPF_KSYSCALL]).

    The preprocessor's environment is the set of defined symbols; a use that
    does not compile (an unsupported register, no target) is [None]. *)

From stdpp Require Import base list strings numbers.
From Stdlib Require Import ZArith Lia.
From S2P Require Import Prelude BpfMacros.

Open Scope Z_scope.

(** ** Target selection *)

Inductive target :=
| x86 | s390 | arm | arm64 | mips | powerpc | sparc | riscv | arc | loongarch.
#[global] Instance target_eq_dec : EqDecision target.
Proof. solve_decision. Defined.

(** The preprocessor's environment. *)
Record cpp_env := CppEnv {
  defined : string -> bool;
  riscv_xlen : Z              (* the value of [__riscv_xlen] *)
}.

(** The first branch of an [#if]/[#elif] chain whose condition holds. *)
Fixpoint first_true {A} (l : list (bool * A)) : option A :=
  match l with
  | [] => None
  | (b, a) :: l' => if b then Some a else first_true l'
  end.

Definition arch_option (e : cpp_env) : option target :=
  first_true
    [ (defined e "__TARGET_ARCH_x86", x86);
      (defined e "__TARGET_ARCH_s390", s390);
      (defined e "__TARGET_ARCH_arm", arm);
      (defined e "__TARGET_ARCH_arm64", arm64);
      (defined e "__TARGET_ARCH_mips", mips);
      (defined e "__TARGET_ARCH_powerpc", powerpc);
      (defined e "__TARGET_ARCH_sparc", sparc);
      (defined e "__TARGET_ARCH_riscv", riscv);
      (defined e "__TARGET_ARCH_arc", arc);
      (defined e "__TARGET_ARCH_loongarch", loongarch) ].

Definition arch_compiler (e : cpp_env) : option target :=
  first_true
    [ (defined e "__x86_64__", x86);
      (defined e "__s390__", s390);
      (defined e "__arm__", arm);
      (defined e "__aarch64__", arm64);
      (defined e "__mips__", mips);
      (defined e "__powerpc__", powerpc);
      (defined e "__sparc__", sparc);
      (defined e "__riscv" && (riscv_xlen e =? 64), riscv);
      (defined e "__arc__", arc);
      (defined e "__loongarch__", loongarch) ].

(** [bpf_target_*]; [bpf_target_defined] is [is_Some] of it. *)
Definition bpf_target (e : cpp_env) : option target :=
  match arch_option e with
  | Some t => Some t
  | None => arch_compiler e
  end.

(** ** Register tables *)

(** The [__PT_*] macros of one convention.  [parms] and [syscalls] list the
    defined [__PT_PARMn_REG] and [__PT_PARMn_SYSCALL_REG], n = 1, 2, ... *)
Record regs_table := RegsTable {
  parms : list string;
  syscalls : list string;
  ret_reg : string;
  fp_reg : string;
  rc_reg : string;
  sp_reg : string;
  ip_reg : string;
  pt_cast : option string;       (* [__PT_REGS_CAST], identity when [None] *)
  sys1_cast : option string;     (* structure that [PT_REGS_PARM1_SYSCALL] goes through *)
  sys_direct : bool              (* [PT_REGS_SYSCALL_REGS(ctx)] is [ctx] *)
}.

Definition unsupported : string := "__unsupported__".

Definition x86_kernel_table : regs_table := {|
  parms := ["di"; "si"; "dx"; "cx"; "r8"; "r9"];
  syscalls := ["di"; "si"; "dx"; "r10"; "r8"; "r9"];
  ret_reg := "sp"; fp_reg := "bp"; rc_reg := "ax"; sp_reg := "sp"; ip_reg := "ip";
  pt_cast := None; sys1_cast := None; sys_direct := false
|}.

Definition i386_table : regs_table := {|
  parms := ["eax"; "edx"; "ecx"];
  syscalls := ["ebx"; "ecx"; "edx"; "esi"; "edi"; "ebp"];
  ret_reg := "esp"; fp_reg := "ebp"; rc_reg := "eax"; sp_reg := "esp"; ip_reg := "eip";
  pt_cast := None; sys1_cast := None; sys_direct := false
|}.

Definition x86_64_user_table : regs_table := {|
  parms := ["rdi"; "rsi"; "rdx"; "rcx"; "r8"; "r9"];
  syscalls := ["rdi"; "rsi"; "rdx"; "r10"; "r8"; "r9"];
  ret_reg := "rsp"; fp_reg := "rbp"; rc_reg := "rax"; sp_reg := "rsp"; ip_reg := "rip";
  pt_cast := None; sys1_cast := None; sys_direct := false
|}.

Definition s390_table : regs_table := {|
  parms := ["gprs[2]"; "gprs[3]"; "gprs[4]"; "gprs[5]"; "gprs[6]"];
  syscalls := ["orig_gpr2"; "gprs[3]"; "gprs[4]"; "gprs[5]"; "gprs[6]"; "gprs[7]"];
  ret_reg := "gprs[14]"; fp_reg := "gprs[11]"; rc_reg := "gprs[2]"; sp_reg := "gprs[15]";
  ip_reg := "psw.addr";
  pt_cast := Some "user_pt_regs"; sys1_cast := Some "pt_regs___s390"; sys_direct := false
|}.

Definition arm_table : regs_table := {|
  parms := ["uregs[0]"; "uregs[1]"; "uregs[2]"; "uregs[3]"];
  syscalls := ["uregs[0]"; "uregs[1]"; "uregs[2]"; "uregs[3]"; "uregs[4]"; "uregs[5]"; "uregs[6]"];
  ret_reg := "uregs[14]"; fp_reg := "uregs[11]"; rc_reg := "uregs[0]"; sp_reg := "uregs[13]";
  ip_reg := "uregs[12]";
  pt_cast := None; sys1_cast := None; sys_direct := false
|}.

Definition arm64_table : regs_table := {|
  parms := ["regs[0]"; "regs[1]"; "regs[2]"; "regs[3]"; "regs[4]"; "regs[5]"; "regs[6]"; "regs[7]"];
  syscalls := ["orig_x0"; "regs[1]"; "regs[2]"; "regs[3]"; "regs[4]"; "regs[5]"];
  ret_reg := "regs[30]"; fp_reg := "regs[29]"; rc_reg := "regs[0]"; sp_reg := "sp"; ip_reg := "pc";
  pt_cast := Some "struct user_pt_regs"; sys1_cast := Some "pt_regs___arm64"; sys_direct := false
|}.

Definition mips_table : regs_table := {|
  parms := ["regs[4]"; "regs[5]"; "regs[6]"; "regs[7]"; "regs[8]"; "regs[9]"; "regs[10]"; "regs[11]"];
  syscalls := ["regs[4]"; "regs[5]"; "regs[6]"; "regs[7]"; "regs[8]"; "regs[9]"];
  ret_reg := "regs[31]"; fp_reg := "regs[30]"; rc_reg := "regs[2]"; sp_reg := "regs[29]";
  ip_reg := "cp0_epc";
  pt_cast := None; sys1_cast := None; sys_direct := false
|}.

(** [__PT_PARM7_SYSCALL_REG] exists only without [__arch64__]. *)
Definition powerpc_table (arch64 : bool) : regs_table := {|
  parms := ["gpr[3]"; "gpr[4]"; "gpr[5]"; "gpr[6]"; "gpr[7]"; "gpr[8]"; "gpr[9]"; "gpr[10]"];
  syscalls := ["orig_gpr3"; "gpr[4]"; "gpr[5]"; "gpr[6]"; "gpr[7]"; "gpr[8]"] ++
              (if arch64 then [] else ["gpr[9]"]);
  ret_reg := "regs[31]"; fp_reg := unsupported; rc_reg := "gpr[3]"; sp_reg := "gpr[1]";
  ip_reg := "nip";
  pt_cast := None; sys1_cast := None; sys_direct := true
|}.

Definition sparc_table (arch64 : bool) : regs_table := {|
  parms := ["u_regs[UREG_I0]"; "u_regs[UREG_I1]"; "u_regs[UREG_I2]"; "u_regs[UREG_I3]";
            "u_regs[UREG_I4]"; "u_regs[UREG_I5]"];
  syscalls := ["u_regs[UREG_I0]"; "u_regs[UREG_I1]"; "u_regs[UREG_I2]"; "u_regs[UREG_I3]";
               "u_regs[UREG_I4]"; "u_regs[UREG_I5]"];
  ret_reg := "u_regs[UREG_I7]"; fp_reg := unsupported; rc_reg := "u_regs[UREG_I0]";
  sp_reg := "u_regs[UREG_FP]"; ip_reg := if arch64 then "tpc" else "pc";
  pt_cast := None; sys1_cast := None; sys_direct := false
|}.

Definition riscv_table : regs_table := {|
  parms := ["a0"; "a1"; "a2"; "a3"; "a4"; "a5"; "a6"; "a7"];
  syscalls := ["orig_a0"; "a1"; "a2"; "a3"; "a4"; "a5"];
  ret_reg := "ra"; fp_reg := "s0"; rc_reg := "a0"; sp_reg := "sp"; ip_reg := "pc";
  pt_cast := Some "struct user_regs_struct"; sys1_cast := Some "pt_regs___riscv";
  sys_direct := false
|}.

Definition arc_table : regs_table := {|
  parms := ["scratch.r0"; "scratch.r1"; "scratch.r2"; "scratch.r3"; "scratch.r4"; "scratch.r5";
            "scratch.r6"; "scratch.r7"];
  syscalls := ["scratch.r0"; "scratch.r1"; "scratch.r2"; "scratch.r3"; "scratch.r4"; "scratch.r5"];
  ret_reg := "scratch.blink"; fp_reg := "scratch.fp"; rc_reg := "scratch.r0";
  sp_reg := "scratch.sp"; ip_reg := "scratch.ret";
  pt_cast := Some "struct user_regs_struct"; sys1_cast := None; sys_direct := true
|}.

Definition loongarch_table : regs_table := {|
  parms := ["regs[4]"; "regs[5]"; "regs[6]"; "regs[7]"; "regs[8]"; "regs[9]"; "regs[10]"; "regs[11]"];
  syscalls := ["regs[4]"; "regs[5]"; "regs[6]"; "regs[7]"; "regs[8]"; "regs[9]"];
  ret_reg := "regs[1]"; fp_reg := "regs[22]"; rc_reg := "regs[4]"; sp_reg := "regs[3]";
  ip_reg := "csr_era";
  pt_cast := Some "struct user_pt_regs"; sys1_cast := None; sys_direct := true
|}.

(** The table a target and an environment select. *)
Definition table_of (e : cpp_env) (t : target) : regs_table :=
  match t with
  | x86 => if defined e "__KERNEL__" || defined e "__VMLINUX_H__" then x86_kernel_table
           else if defined e "__i386__" then i386_table else x86_64_user_table
  | s390 => s390_table
  | arm => arm_table
  | arm64 => arm64_table
  | mips => mips_table
  | powerpc => powerpc_table (defined e "__arch64__")
  | sparc => sparc_table (defined e "__arch64__")
  | riscv => riscv_table
  | arc => arc_table
  | loongarch => loongarch_table
  end.

(** ** Reading a register *)

(** The fallbacks for registers a target does not define: PARM4 to PARM8 and
    the seventh system-call argument are [__unsupported__]. *)
Definition pt_parm_reg (tb : regs_table) (n : nat) : string :=
  default unsupported (parms tb !! (n - 1)%nat).
Definition pt_syscall_reg (tb : regs_table) (n : nat) : string :=
  default unsupported (syscalls tb !! (n - 1)%nat).

(** A register file: the members of [struct pt_regs] (or of the structure the
    target casts to).  [__unsupported__] is a member of none. *)
Definition regs_file := string -> Z.

Definition field (r : regs_file) (f : string) : option Z :=
  if decide (f = unsupported) then None else Some (r f).

(** [PT_REGS_PARMn(x)], [PT_REGS_RET(x)], ...; without a target every one of
    them is the error [__BPF_TARGET_MISSING]. *)
Definition PT_REGS_PARM (e : cpp_env) (n : nat) (r : regs_file) : option Z :=
  t ← bpf_target e; field r (pt_parm_reg (table_of e t) n).
Definition PT_REGS_PARM_SYSCALL (e : cpp_env) (n : nat) (r : regs_file) : option Z :=
  t ← bpf_target e; field r (pt_syscall_reg (table_of e t) n).
Definition PT_REGS_RET (e : cpp_env) (r : regs_file) : option Z :=
  t ← bpf_target e; field r (ret_reg (table_of e t)).
Definition PT_REGS_FP (e : cpp_env) (r : regs_file) : option Z :=
  t ← bpf_target e; field r (fp_reg (table_of e t)).
Definition PT_REGS_RC (e : cpp_env) (r : regs_file) : option Z :=
  t ← bpf_target e; field r (rc_reg (table_of e t)).
Definition PT_REGS_SP (e : cpp_env) (r : regs_file) : option Z :=
  t ← bpf_target e; field r (sp_reg (table_of e t)).
Definition PT_REGS_IP (e : cpp_env) (r : regs_file) : option Z :=
  t ← bpf_target e; field r (ip_reg (table_of e t)).

(** ** [BPF_PROG]: one context word per argument *)

(** [___bpf_ctx_castN(x, args...)]: each macro of the chain drops one argument
    and appends one context word. *)
Fixpoint bpf_ctx_cast_n {A} (n : nat) (args : list A) (ctx : list Z) : option (list Z) :=
  match n, args with
  | O, [] => Some []
  | S n', _ :: args' =>
      pre ← bpf_ctx_cast_n n' args' ctx;
      w ← ctx !! n';
      Some (pre ++ [w])
  | _, _ => None
  end.

Definition bpf_ctx_cast {A} (args : list A) (ctx : list Z) : option (list Z) :=
  match bpf_narg args with
  | Some (Num n) => bpf_ctx_cast_n (Z.to_nat n) args ctx
  | _ => None
  end.

(** The C conversion of a context word to a parameter's type. *)
Definition convert (t : cty) (w : Z) : Z :=
  match t with
  | TBool => if w =? 0 then 0 else 1
  | TS32 | TInt => s32 w
  | TU32 => u32 w
  | TU8 | TChar => w mod 256
  | TU16 => w mod 65536
  | TS64 | TLong => s64 w
  | _ => u64 w
  end.

(** [BPF_PROG(name, args...)]: the entry point applied to a context calls the
    body with the context and the converted words. *)
Definition BPF_PROG (params : list cty) (ctx : list Z) : option (list Z) :=
  ws ← bpf_ctx_cast params ctx; Some (zip_with convert params ws).

(** ** [BPF_PROG2]: structure arguments of up to sixteen bytes *)

(** [___bpf_nth2] takes its twenty-sixth argument; [___bpf_narg2] counts pairs. *)
Definition bpf_nth2 {T} (args : list T) : option T := args !! 25%nat.
Definition countdown2 : list Z :=
  [12; 12; 11; 11; 10; 10; 9; 9; 8; 8; 7; 7; 6; 6; 5; 5; 4; 4; 3; 3; 2; 2; 1; 1; 0].
Definition bpf_narg2 {A} (args : list A) : option (tok A) :=
  bpf_nth2 (Und :: (Arg <$> args) ++ (Num <$> countdown2)).

(** [___bpf_treg_cnt(t)], from [sizeof(t)] *)
Definition treg_cnt (size : Z) : option Z :=
  if size =? 1 then Some 1 else
  if size =? 2 then Some 1 else
  if size =? 4 then Some 1 else
  if size =? 8 then Some 1 else
  if size =? 16 then Some 2 else None.

(** [___bpf_reg_cntN(t, x, args...)]: words taken by this argument and the rest *)
Fixpoint reg_cnt (sizes : list Z) : option Z :=
  match sizes with
  | [] => Some 0
  | sz :: sizes' => r ← reg_cnt sizes'; c ← treg_cnt sz; Some (r + c)
  end.

(** [___bpf_union_arg(t, x, n)]: the words of an argument at offset [n] *)
Definition union_arg (size : Z) (n : Z) (ctx : list Z) : option (list Z) :=
  if size =? 1 then w ← ctx !! Z.to_nat n; Some [w mod 256] else
  if size =? 2 then w ← ctx !! Z.to_nat n; Some [w mod 65536] else
  if size =? 4 then w ← ctx !! Z.to_nat n; Some [u32 w] else
  if size =? 8 then w ← ctx !! Z.to_nat n; Some [w] else
  if size =? 16 then
    a ← ctx !! Z.to_nat n; b ← ctx !! Z.to_nat (n + 1); Some [a; b]
  else None.

(** [___bpf_ctx_argN(n, t, x, args...)]: the offset of an argument is the total
    minus the words of it and of the arguments after it. *)
Fixpoint ctx_arg (total : Z) (sizes : list Z) (ctx : list Z) : option (list (list Z)) :=
  match sizes with
  | [] => Some []
  | sz :: sizes' =>
      r ← reg_cnt sizes;
      a ← union_arg sz (total - r) ctx;
      rest ← ctx_arg total sizes' ctx;
      Some (a :: rest)
  end.

Definition BPF_PROG2 (sizes : list Z) (ctx : list Z) : option (list (list Z)) :=
  match bpf_narg2 (mjoin ((fun sz => [sz; sz]) <$> sizes)) with
  | Some (Num _) => total ← reg_cnt sizes; ctx_arg total sizes ctx
  | _ => None
  end.

(** ** Probes *)

(** [___bpf_kprobe_argsN]: register parameters 1 to N, in order. *)
Fixpoint kprobe_args_n (read : nat -> option Z) (n : nat) : option (list Z) :=
  match n with
  | O => Some []
  | S n' => pre ← kprobe_args_n read n'; w ← read (S n'); Some (pre ++ [w])
  end.

(** The macro chain stops at [maxn]: eight for functions, seven for system calls. *)
Definition probe_args {A} (maxn : Z) (read : nat -> option Z) (args : list A) : option (list Z) :=
  match bpf_narg args with
  | Some (Num n) => if n <=? maxn then kprobe_args_n read (Z.to_nat n) else None
  | _ => None
  end.

Definition BPF_KPROBE {A} (e : cpp_env) (args : list A) (ctx : regs_file) : option (list Z) :=
  probe_args 8 (fun n => PT_REGS_PARM e n ctx) args.

(** [___bpf_kretprobe_argsN]: at most the return value. *)
Definition BPF_KRETPROBE {A} (e : cpp_env) (args : list A) (ctx : regs_file) : option (list Z) :=
  probe_args 1 (fun _ => PT_REGS_RC e ctx) args.

Section Syscalls.
(** [BPF_CORE_READ] belongs to another header: reading member [f] of the
    register file at a kernel address. *)
Variable core_read : Z -> string -> Z.

Definition PT_REGS_PARM_CORE_SYSCALL (e : cpp_env) (n : nat) (addr : Z) : option Z :=
  t ← bpf_target e; field (core_read addr) (pt_syscall_reg (table_of e t) n).

(** [BPF_KSYSCALL]: with [LINUX_HAS_SYSCALL_WRAPPER] the user's registers are
    behind the first parameter, otherwise they are the context itself. *)
Definition BPF_KSYSCALL {A} (e : cpp_env) (has_wrapper : bool) (args : list A) (ctx : regs_file)
    : option (list Z) :=
  if has_wrapper then
    regs ← PT_REGS_PARM e 1 ctx;
    probe_args 7 (fun n => PT_REGS_PARM_CORE_SYSCALL e n regs) args
  else probe_args 7 (fun n => PT_REGS_PARM_SYSCALL e n ctx) args.

(** [PT_REGS_SYSCALL_REGS(ctx)]: [None] is [ctx] itself, [Some a] the registers at [a]. *)
Definition PT_REGS_SYSCALL_REGS (e : cpp_env) (ctx : regs_file) : option (option Z) :=
  match bpf_target e with
  | Some t => if sys_direct (table_of e t) then Some None
              else Some <$> PT_REGS_PARM e 1 ctx
  | None => None
  end.

(** [bpf_probe_read_kernel] of eight bytes at an address. *)
Variable probe_read : Z -> Z.

Definition BPF_KPROBE_READ_RET_IP (e : cpp_env) (ctx : regs_file) : option Z :=
  match bpf_target e with
  | Some powerpc => field ctx "link"
  | Some sparc | Some arm64 => PT_REGS_RET e ctx
  | Some _ => a ← PT_REGS_RET e ctx; Some (probe_read a)
  | None => None
  end.

Definition BPF_KRETPROBE_READ_RET_IP (e : cpp_env) (ctx : regs_file) : option Z :=
  match bpf_target e with
  | Some powerpc | Some sparc | Some arm64 => BPF_KPROBE_READ_RET_IP e ctx
  | Some _ => a ← PT_REGS_FP e ctx; Some (probe_read (u64 (a + 8)))
  | None => None
  end.

End Syscalls.

(** ** Properties *)

Lemma ctx_cast_n_take {A} (args : list A) : forall n ctx,
  length args = n -> (n <= length ctx)%nat -> bpf_ctx_cast_n n args ctx = Some (take n ctx).
Proof.
  induction args as [|a args IH]; intros n ctx Hn Hl; subst n; simpl; [done|].
  rewrite IH by (simpl in *; lia). simpl in *.
  destruct (lookup_lt_is_Some_2 ctx (length args)) as [w Hw]; [lia|].
  rewrite Hw. simpl. f_equal. symmetry. by apply take_S_r.
Qed.

Lemma ctx_cast_take {A} (args : list A) ctx :
  (length args <= 12)%nat -> (length args <= length ctx)%nat ->
  bpf_ctx_cast args ctx = Some (take (length args) ctx).
Proof.
  intros H1 H2. unfold bpf_ctx_cast. rewrite narg_of_length by done.
  rewrite Nat2Z.id. by apply ctx_cast_n_take.
Qed.

(** A program declared with [BPF_PROG] and up to twelve parameters receives
    the context words in order, the i-th converted to the type of the i-th
    parameter; with more than twelve it does not compile. *)
Theorem prog_unpacks_context params ctx :
  (length params <= length ctx)%nat ->
  BPF_PROG params ctx =
    if decide (length params <= 12)%nat
    then Some (zip_with convert params (take (length params) ctx)) else None.
Proof.
  intros Hl. unfold BPF_PROG. case_decide as D.
  - by rewrite ctx_cast_take.
  - unfold bpf_ctx_cast. destruct (narg_overflow params) as [a ->]; [lia | done].
Qed.

Lemma prog_unpacks_context_witness :
  BPF_PROG [TPtr (TStruct "task_struct"); TS32; TU64] [4096; 18446744073709551615; 1; 99]
    = Some [4096; -1; 1].
Proof.
  exact (prog_unpacks_context [TPtr (TStruct "task_struct"); TS32; TU64]
    [4096; 18446744073709551615; 1; 99] ltac:(simpl; lia)).
Defined.

(** What an argument-register table owes its users. *)
Definition table_ok (tb : regs_table) : Prop :=
  NoDup (parms tb) /\ NoDup (syscalls tb) /\
  (3 <= length (parms tb) <= 8)%nat /\ (6 <= length (syscalls tb) <= 7)%nat /\
  (unsupported ∉ parms tb) /\ (unsupported ∉ syscalls tb).
#[global] Instance table_ok_dec tb : Decision (table_ok tb).
Proof. unfold table_ok. apply _. Defined.

Definition all_tables : list regs_table :=
  [ x86_kernel_table; i386_table; x86_64_user_table; s390_table; arm_table; arm64_table;
    mips_table; powerpc_table true; powerpc_table false; sparc_table true; sparc_table false;
    riscv_table; arc_table; loongarch_table ].

Lemma table_of_in_all e t : table_of e t ∈ all_tables.
Proof.
  unfold all_tables. rewrite !elem_of_cons. destruct t; unfold table_of; try tauto.
  - destruct (_ || _); [tauto|]. destruct (defined e _); tauto.
  - destruct (defined e _); tauto.
  - destruct (defined e _); tauto.
Qed.

Lemma all_tables_ok tb : tb ∈ all_tables -> table_ok tb.
Proof.
  assert (H : forallb (fun tb => bool_decide (table_ok tb)) all_tables = true)
    by (vm_compute; reflexivity).
  intros Hin%list_elem_of_In. rewrite forallb_forall in H.
  eapply bool_decide_eq_true_1, H, Hin.
Qed.

(** On every target and in every environment the function-call registers are
    pairwise distinct, three to eight, the system-call registers are pairwise
    distinct, six or seven, and none of them is the unsupported marker, so
    different arguments never alias. *)
Theorem argument_registers_distinct e t : table_ok (table_of e t).
Proof. apply all_tables_ok, table_of_in_all. Qed.

Lemma field_supported r (l : list string) f : unsupported ∉ l -> f ∈ l -> field r f = Some (r f).
Proof. intros Hn Hf. unfold field. case_decide; [subst; done | done]. Qed.

Lemma kprobe_args_map r (l : list string) : unsupported ∉ l -> forall n,
  (n <= length l)%nat ->
  kprobe_args_n (fun i => field r (default unsupported (l !! (i - 1)%nat))) n =
    Some (r <$> take n l).
Proof.
  intros Hu. induction n as [|n IH]; intros Hn; [done|]. cbn [kprobe_args_n].
  rewrite IH by lia. simpl. rewrite Nat.sub_0_r.
  destruct (lookup_lt_is_Some_2 l n) as [f Hf]; [lia|]. rewrite Hf. simpl.
  rewrite (field_supported r l) by (done || by eapply list_elem_of_lookup_2). simpl.
  f_equal. erewrite take_S_r by done. by rewrite fmap_app.
Qed.

Lemma kprobe_args_none r (l : list string) n :
  (length l < n)%nat ->
  kprobe_args_n (fun i => field r (default unsupported (l !! (i - 1)%nat))) n = None.
Proof.
  induction n as [|n IH]; intros Hn; [lia|]. cbn [kprobe_args_n].
  destruct (decide (length l < n)%nat) as [D|D]; [by rewrite IH|].
  simpl. rewrite Nat.sub_0_r. rewrite (lookup_ge_None_2 l n) by lia. simpl.
  by destruct (kprobe_args_n _ n).
Qed.

(** The reference: as many registers of the convention as there are arguments. *)
Definition read_regs (r : regs_file) (l : list string) (n : nat) : option (list Z) :=
  if decide (n <= length l)%nat then Some (r <$> take n l) else None.

Lemma probe_args_regs {A} r (l : list string) maxn (args : list A) :
  unsupported ∉ l -> Z.of_nat (length l) <= maxn -> maxn <= 12 ->
  probe_args maxn (fun i => field r (default unsupported (l !! (i - 1)%nat))) args =
    read_regs r l (length args).
Proof.
  intros Hu Hm Hm'. unfold probe_args, read_regs.
  destruct (decide (length args <= 12)%nat) as [D|D].
  - rewrite narg_of_length by done. rewrite Nat2Z.id.
    case_decide as E.
    + rewrite (proj2 (Z.leb_le _ _)) by lia. by apply kprobe_args_map.
    + case_match; [|done]. apply kprobe_args_none. lia.
  - destruct (narg_overflow args) as [a ->]; [lia|]. by rewrite decide_False by lia.
Qed.

Lemma tables_supported e t :
  (unsupported ∉ parms (table_of e t)) /\ (unsupported ∉ syscalls (table_of e t)) /\
  Z.of_nat (length (parms (table_of e t))) <= 8 /\
  Z.of_nat (length (syscalls (table_of e t))) <= 7.
Proof.
  destruct (all_tables_ok _ (table_of_in_all e t)) as (_ & _ & ? & ? & ? & ?).
  split_and!; (done || lia).
Qed.

(** C38: Probes read the calling convention.  [BPF_KPROBE] yields the first n
    parameter registers of the target, and [BPF_KSYSCALL] the first n
    system-call registers, taken from the context or, with a syscall wrapper,
    from the registers its first parameter points to; asking for more
    arguments than the convention passes in registers does not compile. *)
Theorem probes_read_convention {A} (core_read : Z -> string -> Z) e t (args : list A) ctx :
  bpf_target e = Some t ->
  BPF_KPROBE e args ctx = read_regs ctx (parms (table_of e t)) (length args) /\
  BPF_KSYSCALL core_read e false args ctx =
    read_regs ctx (syscalls (table_of e t)) (length args) /\
  BPF_KSYSCALL core_read e true args ctx =
    (a ← PT_REGS_PARM e 1 ctx;
     read_regs (core_read a) (syscalls (table_of e t)) (length args)).
Proof.
  intros Ht. destruct (tables_supported e t) as (Hp & Hs & Lp & Ls).
  unfold BPF_KPROBE, BPF_KSYSCALL, PT_REGS_PARM, PT_REGS_PARM_SYSCALL,
    PT_REGS_PARM_CORE_SYSCALL, pt_parm_reg, pt_syscall_reg. rewrite Ht. simpl.
  split_and!.
  - by apply probe_args_regs.
  - by apply probe_args_regs.
  - destruct (field ctx _); [simpl; by apply probe_args_regs | done].
Qed.

(** Two arguments of a function probed on x86, with distinct register values. *)
Lemma probes_read_convention_witness :
  let e := CppEnv (fun d => bool_decide (d = "__TARGET_ARCH_x86" \/ d = "__VMLINUX_H__")) 0 in
  BPF_KPROBE e ["a"; "b"] (fun r => if decide (r = "di") then 7 else 8) = Some [7; 8].
Proof.
  intros e.
  exact (proj1 (probes_read_convention (fun _ _ => 0) e x86 ["a"; "b"]
    (fun r => if decide (r = "di") then 7 else 8) ltac:(reflexivity))).
Defined.

(** An explicit [__TARGET_ARCH_*] wins over what the compiler reports, and
    without either no register macro compiles. *)
Lemma target_selection e :
  (forall t, arch_option e = Some t -> bpf_target e = Some t) /\
  (arch_option e = None -> bpf_target e = arch_compiler e) /\
  (bpf_target e = None -> forall n r, PT_REGS_PARM e n r = None /\
     PT_REGS_RC e r = None /\ PT_REGS_PARM_SYSCALL e n r = None).
Proof.
  unfold bpf_target. split_and!.
  - by intros t ->.
  - by intros ->.
  - intros Hn n r. unfold PT_REGS_PARM, PT_REGS_RC, PT_REGS_PARM_SYSCALL, bpf_target.
    by rewrite Hn.
Qed.

(** ** [BPF_PROG2] lays its arguments out one after the other *)

(** The part of a word an argument of the given size sees. *)
Definition narrow (size w : Z) : Z :=
  if size =? 1 then w mod 256 else
  if size =? 2 then w mod 65536 else
  if size =? 4 then u32 w else w.

(** The reference decoder: walk the context, one or two words per argument. *)
Fixpoint prog2_spec (sizes : list Z) (ctx : list Z) : option (list (list Z)) :=
  match sizes with
  | [] => Some []
  | sz :: sizes' =>
      c ← treg_cnt sz;
      a ← (if c =? 2 then a ← ctx !! 0%nat; b ← ctx !! 1%nat; Some [a; b]
           else a ← ctx !! 0%nat; Some [narrow sz a]);
      rest ← prog2_spec sizes' (drop (Z.to_nat c) ctx);
      Some (a :: rest)
  end.

Lemma treg_cnt_cases sz c :
  treg_cnt sz = Some c ->
  ((sz = 1 \/ sz = 2 \/ sz = 4 \/ sz = 8) /\ c = 1) \/ (sz = 16 /\ c = 2).
Proof. unfold treg_cnt. case_bool; intros; simplify_eq; lia. Qed.

Lemma union_arg_spec sz c (n : nat) ctx :
  treg_cnt sz = Some c ->
  union_arg sz (Z.of_nat n) ctx =
    (if c =? 2 then a ← drop n ctx !! 0%nat; b ← drop n ctx !! 1%nat; Some [a; b]
     else a ← drop n ctx !! 0%nat; Some [narrow sz a]).
Proof.
  intros Hc. unfold union_arg, narrow. rewrite !lookup_drop, Nat.add_0_r, Nat2Z.id.
  replace (Z.to_nat (Z.of_nat n + 1)) with (n + 1)%nat by lia.
  destruct (treg_cnt_cases sz c Hc) as [[Hs ->] | [-> ->]]; [|done].
  by destruct Hs as [-> | [-> | [-> | ->]]].
Qed.

Lemma reg_cnt_nonneg sizes r : reg_cnt sizes = Some r -> 0 <= r.
Proof.
  revert r. induction sizes as [|sz sizes IH]; intros r; simpl; [intros; simplify_eq; lia|].
  destruct (reg_cnt sizes) as [r'|]; [|done]. simpl. specialize (IH r' eq_refl).
  destruct (treg_cnt sz) as [c|] eqn:E; [|done]. simpl. intros. simplify_eq.
  destruct (treg_cnt_cases sz c E); lia.
Qed.

Lemma ctx_arg_spec sizes : forall r (n : nat) ctx,
  reg_cnt sizes = Some r ->
  ctx_arg (Z.of_nat n + r) sizes ctx = prog2_spec sizes (drop n ctx).
Proof.
  induction sizes as [|sz sizes IH]; intros r n ctx Hr; [done|].
  cbn [ctx_arg prog2_spec]. rewrite Hr. simpl in Hr. cbn [mbind option_bind].
  destruct (reg_cnt sizes) as [r'|] eqn:Er; [|done]. simpl in Hr.
  destruct (treg_cnt sz) as [c|] eqn:Ec; [|done]. simpl in Hr. simplify_eq.
  replace (Z.of_nat n + (r' + c) - (r' + c)) with (Z.of_nat n) by lia.
  rewrite (union_arg_spec sz c n ctx Ec). cbn [mbind option_bind].
  destruct (if c =? 2 then _ else _); [|done].
  rewrite drop_drop. assert (Hc : 0 <= c) by (destruct (treg_cnt_cases sz c Ec); lia).
  rewrite <- (IH r' (n + Z.to_nat c)%nat ctx eq_refl).
  by replace (Z.of_nat (n + Z.to_nat c) + r') with (Z.of_nat n + (r' + c)) by lia.
Qed.

Lemma prog2_spec_unsized sizes : forall ctx,
  reg_cnt sizes = None -> prog2_spec sizes ctx = None.
Proof.
  induction sizes as [|sz sizes IH]; intros ctx Hr; [done|]. simpl in *.
  destruct (treg_cnt sz) as [c|]; [|done]. simpl.
  destruct (reg_cnt sizes); [done|]. destruct (if c =? 2 then _ else _); [|done].
  simpl. by rewrite IH.
Qed.

Lemma countdown2_lookup n :
  (n <= 12)%nat -> countdown2 !! (24 - 2 * n)%nat = Some (Z.of_nat n).
Proof. intros H. do 13 (destruct n as [|n]; [reflexivity|]). lia. Qed.

Lemma narg2_pairs (sizes : list Z) :
  bpf_narg2 (mjoin ((fun sz => [sz; sz]) <$> sizes)) =
    if decide (length sizes <= 12)%nat then Some (Num (Z.of_nat (length sizes)))
    else Arg <$> mjoin ((fun sz => [sz; sz]) <$> sizes) !! 24%nat.
Proof.
  set (l := mjoin _). assert (Hl : length l = (2 * length sizes)%nat).
  { unfold l. clear l. induction sizes as [|x l IH]; [done|].
    change (S (S (length (mjoin ((fun sz => [sz; sz]) <$> l)))) = (2 * S (length l))%nat).
    lia. }
  unfold bpf_narg2, bpf_nth2.
  change ((Und :: ?X) !! 25%nat) with (X !! 24%nat). case_decide.
  - rewrite lookup_app_r by (rewrite length_fmap; lia).
    rewrite length_fmap, Hl, list_lookup_fmap.
    by rewrite countdown2_lookup.
  - rewrite lookup_app_l by (rewrite length_fmap; lia). by rewrite list_lookup_fmap.
Qed.

(** C37: [BPF_PROG2] decodes its context like a sequential reader: each argument
    takes the next word, or the next two when it is sixteen bytes, narrowed to
    its size; unsupported sizes, short contexts and more than twelve arguments
    are rejected. *)
Theorem prog2_reads_sequentially sizes ctx :
  BPF_PROG2 sizes ctx =
    if decide (length sizes <= 12)%nat then prog2_spec sizes ctx else None.
Proof.
  unfold BPF_PROG2. rewrite narg2_pairs. case_decide as D.
  - destruct (reg_cnt sizes) as [r|] eqn:E; simpl.
    + exact (ctx_arg_spec sizes r 0 ctx E).
    + by rewrite prog2_spec_unsized.
  - by destruct (mjoin _ !! 24%nat).
Qed.
