(* ===== verification/K8sSched.v ===== *)
(** * bpf/k8s_sched.bpf.c

    The sched_ext scheduler: its BPF maps, its global virtual clock, its
    helpers and one definition per callback.  A callback is a program of the
    fault monad of [Prelude] over [sched_state]; [p] is the address of a task.
    Kernel functions are the operations of [Kernel.Kfuncs]. *)

From stdpp Require Import base gmap list strings.
From Stdlib Require Import ZArith Lia.
From S2P Require Import Prelude ScxCommon Kernel BpfMacros.

Open Scope Z_scope.
Open Scope word_scope.

(** ** Constants *)

Definition MAX_PRIO_WEIGHT : Z := 10000.
Definition DEFAULT_WEIGHT : Z := 1000.
Definition DEFAULT_SLICE_NS : Z := 5000000.
Definition K8S_DSQ_ID : Z := 4096.

(** ** BPF maps *)

(** [struct task_params] *)
Record task_params := TaskParams { weight : Z; budget_ns : Z }.
#[global] Instance task_params_eq_dec : EqDecision task_params.
Proof. solve_decision. Defined.

(** [struct sched_stats] *)
Record sched_stats := SchedStats {
  enqueues : Z;
  local_dispatches : Z;
  budget_capped : Z;
  defaults : Z
}.
#[global] Instance sched_stats_eq_dec : EqDecision sched_stats.
Proof. solve_decision. Defined.

(** The fields of a BTF map definition, as the [__uint]/[__type] macros build them. *)
Definition map_def : Type := list (string * cty).

(** The two map-type numbers are the kernel's (vmlinux.h). *)
Section MapDefinitions.
Variables BPF_MAP_TYPE_HASH BPF_MAP_TYPE_PERCPU_ARRAY : Z.

Definition cgroup_params_def : map_def :=
  [ ("type", m_uint BPF_MAP_TYPE_HASH); ("max_entries", m_uint 16384);
    ("key", m_type TU64); ("value", m_type (TStruct "task_params")) ].
Definition task_params_def : map_def :=
  [ ("type", m_uint BPF_MAP_TYPE_HASH); ("max_entries", m_uint 65536);
    ("key", m_type TU32); ("value", m_type (TStruct "task_params")) ].
Definition stats_def : map_def :=
  [ ("type", m_uint BPF_MAP_TYPE_PERCPU_ARRAY); ("max_entries", m_uint 1);
    ("key", m_type TU32); ("value", m_type (TStruct "sched_stats")) ].

End MapDefinitions.

(** The state of the loaded program: the contents of the three maps (of the
    per-CPU array, each CPU's slot of its single element), the global virtual
    clock, and kernel memory. *)
Record sched_state (P : Type) := SchedState {
  s_cgroup_params : gmap Z task_params;
  s_task_params : gmap Z task_params;
  s_stats : gmap Z sched_stats;
  vtime_now : Z;
  s_kern : kmem P
}.
Arguments SchedState {P}.
Arguments s_cgroup_params {P}.
Arguments s_task_params {P}.
Arguments s_stats {P}.
Arguments vtime_now {P}.
Arguments s_kern {P}.

Definition with_kern {P} (k : kmem P) (s : sched_state P) : sched_state P :=
  SchedState (s_cgroup_params s) (s_task_params s) (s_stats s) (vtime_now s) k.
Definition with_vtime_now {P} (v : Z) (s : sched_state P) : sched_state P :=
  SchedState (s_cgroup_params s) (s_task_params s) (s_stats s) v (s_kern s).
Definition with_stats {P} (m : gmap Z sched_stats) (s : sched_state P) : sched_state P :=
  SchedState (s_cgroup_params s) (s_task_params s) m (vtime_now s) (s_kern s).

(** ** Helpers *)

Definition vtime_before (a b : Z) : bool := s64 (a -w b) <? 0.

(** [task_slice] *)
Definition task_slice (tp : task_params) : Z :=
  if negb (budget_ns tp =? 0) && (budget_ns tp <? DEFAULT_SLICE_NS)
  then budget_ns tp
  else DEFAULT_SLICE_NS.

Section Scheduler.
Context {P : Type} `{Kfuncs P}.

#[local] Abbreviation prog := (bpf (sched_state P)).

(** Running a kernel function. *)
Definition call_kernel {A} (f : kmem P -> A * kmem P) : prog A := fun s =>
  let '(a, k) := f (s_kern s) in Some (a, with_kern k s).
Definition call_kernel_ (f : kmem P -> kmem P) : prog unit := fun s =>
  Some (tt, with_kern (f (s_kern s)) s).

(** Reading and writing a task through its address. *)
Definition read_task (p : Z) : prog task_struct :=
  s ← get_state; deref (k_tasks (s_kern s) !! p).
Definition write_task (p : Z) (f : task_struct -> task_struct) : prog unit :=
  _ ← read_task p; call_kernel_ (upd_task p f).

(** [bpf_map_lookup_elem] on the two hash maps: the value, or NULL. *)
Definition lookup_task_map (key : Z) : prog (option task_params) :=
  s ← get_state; mret (s_task_params s !! key).
Definition lookup_cgroup_map (key : Z) : prog (option task_params) :=
  s ← get_state; mret (s_cgroup_params s !! key).

(** [get_stats]: [bpf_map_lookup_elem] on the per-CPU array, a pointer to the
    slot of the CPU the program runs on, NULL past the single element. *)
Definition get_stats : prog (option Z) :=
  let key := 0 in
  s ← get_state;
  mret (if key <? 1 then
          (if decide (is_Some (s_stats s !! k_cpu (s_kern s)))
           then Some (k_cpu (s_kern s)) else None)
        else None).

(** An update through a pointer into the array. *)
Definition upd_stats (slot : Z) (f : sched_stats -> sched_stats) : prog unit :=
  s ← get_state;
  v ← deref (s_stats s !! slot);
  modify (with_stats (<[slot := f v]> (s_stats s))).

(** [task_cgroup_id] *)
Definition task_cgroup_id (p : Z) : prog Z :=
  cgrp ← call_kernel (kf_task_cgroup p);
  match cgrp with
  | Some c =>
      s ← get_state;
      let cgid := kf_cgroup_kn_id c (s_kern s) in
      _ ← call_kernel_ (kf_cgroup_release c);
      mret cgid
  | None => mret 0
  end.

(** [lookup_task_params]: the returned flag and the filled [*tp] *)
Definition lookup_task_params (p : Z) : prog (bool * task_params) :=
  pt ← read_task p;
  let tgid := u32 (t_tgid pt) in
  t ← lookup_task_map tgid;
  match t with
  | Some v => mret (true, v)
  | None =>
      cgid ← task_cgroup_id p;
      t ← (if negb (cgid =? 0) then lookup_cgroup_map cgid else mret None);
      match t with
      | Some v => mret (true, v)
      | None => mret (false, TaskParams DEFAULT_WEIGHT 0)
      end
  end.

(** ** Callbacks *)

(** The counters [select_cpu] and [enqueue] bump. *)
Definition stats_local (slice : Z) (v : sched_stats) : sched_stats :=
  let v := SchedStats (enqueues v) (local_dispatches v +w 1) (budget_capped v) (defaults v) in
  if slice <? DEFAULT_SLICE_NS
  then SchedStats (enqueues v) (local_dispatches v) (budget_capped v +w 1) (defaults v)
  else v.

Definition stats_enqueue (slice : Z) (found : bool) (v : sched_stats) : sched_stats :=
  let v := SchedStats (enqueues v +w 1) (local_dispatches v) (budget_capped v) (defaults v) in
  let v := if slice <? DEFAULT_SLICE_NS
           then SchedStats (enqueues v) (local_dispatches v) (budget_capped v +w 1) (defaults v)
           else v in
  if negb found
  then SchedStats (enqueues v) (local_dispatches v) (budget_capped v) (defaults v +w 1)
  else v.

Definition k8s_select_cpu (p prev_cpu wake_flags : Z) : prog Z :=
  r ← call_kernel (kf_select_cpu_dfl p prev_cpu wake_flags);
  let '(cpu, is_idle) := r in
  if (is_idle : bool) then
    r ← lookup_task_params p;
    let '(_, tp) := r in
    let slice := task_slice tp in
    _ ← call_kernel_ (kf_dsq_insert p SCX_DSQ_LOCAL slice 0);
    s ← get_stats;
    _ ← match s with
        | Some slot => upd_stats slot (stats_local slice)
        | None => mret tt
        end;
    mret cpu
  else mret cpu.

Definition k8s_enqueue (p enq_flags : Z) : prog unit :=
  r ← lookup_task_params p;
  let '(found, tp) := r in
  let slice := task_slice tp in
  pt ← read_task p;
  s ← get_state;
  let now := vtime_now s in
  let vtime := t_dsq_vtime pt in
  let vtime := if vtime_before vtime (now -w DEFAULT_SLICE_NS)
               then now -w DEFAULT_SLICE_NS else vtime in
  _ ← call_kernel_ (kf_dsq_insert_vtime p K8S_DSQ_ID slice vtime enq_flags);
  s ← get_stats;
  match s with
  | Some slot => upd_stats slot (stats_enqueue slice found)
  | None => mret tt
  end.

Definition k8s_dispatch (cpu prev : Z) : prog unit :=
  _ ← call_kernel (kf_dsq_move_to_local K8S_DSQ_ID); mret tt.

Definition k8s_running (p : Z) : prog unit :=
  pt ← read_task p;
  s ← get_state;
  if vtime_before (vtime_now s) (t_dsq_vtime pt)
  then modify (with_vtime_now (t_dsq_vtime pt))
  else mret tt.

(** The part of the slice the task consumed, and its weighted charge. *)
Definition used_ns (slice left : Z) : Z :=
  let used := slice -w left in if slice <? used then slice else used.
Definition vtime_charge (w used : Z) : Z :=
  (used *w MAX_PRIO_WEIGHT) /w (if negb (w =? 0) then w else 1).

Definition k8s_stopping (p : Z) (runnable : bool) : prog unit :=
  r ← lookup_task_params p;
  let '(_, tp) := r in
  let slice := task_slice tp in
  pt ← read_task p;
  let used := used_ns slice (t_slice pt) in
  write_task p (fun t => set_dsq_vtime (t_dsq_vtime t +w vtime_charge (weight tp) used) t).

Definition k8s_enable (p : Z) : prog unit :=
  s ← get_state; write_task p (set_dsq_vtime (vtime_now s)).

Definition k8s_init : prog Z :=
  ret ← call_kernel (kf_create_dsq K8S_DSQ_ID (-1));
  if ret <? 0 then mret ret else mret 0.

Definition k8s_exit (ei : scx_exit_info) : prog unit :=
  match bpf_printk "k8s_sched exit: kind=%d" [ei_kind ei] with
  | Some (call_trace_printk fmt sz args) => call_kernel_ (kf_trace_printk fmt sz args)
  | _ => fault
  end.

(** ** [SCX_OPS_DEFINE(k8s_sched, ...)] *)

Record sched_ext_ops := SchedExtOps {
  ops_select_cpu : Z -> Z -> Z -> prog Z;
  ops_enqueue : Z -> Z -> prog unit;
  ops_dispatch : Z -> Z -> prog unit;
  ops_running : Z -> prog unit;
  ops_stopping : Z -> bool -> prog unit;
  ops_enable : Z -> prog unit;
  ops_init : prog Z;
  ops_exit : scx_exit_info -> prog unit;
  ops_flags : Z;
  ops_name : string;
  ops_timeout_ms : Z
}.

Definition k8s_sched : sched_ext_ops := {|
  ops_select_cpu := k8s_select_cpu;
  ops_enqueue := k8s_enqueue;
  ops_dispatch := k8s_dispatch;
  ops_running := k8s_running;
  ops_stopping := k8s_stopping;
  ops_enable := k8s_enable;
  ops_init := k8s_init;
  ops_exit := k8s_exit;
  ops_flags := 0;
  ops_name := "k8s_sched";
  ops_timeout_ms := 30000
|}.

End Scheduler.

Arguments sched_ext_ops P : clear implicits.
