(* ===== verification/Entry.v ===== *)
(** * Entry points: [BPF_STRUCT_OPS] applied to the callbacks

    bpf/k8s_sched.bpf.c declares each callback with [BPF_STRUCT_OPS], that is
    [BPF_PROG] in an ELF section of its own: the kernel calls it with an array
    of 64-bit words, and the macro converts one word per declared parameter.
    Each [entry_*] is the outer function of that expansion for one callback of
    [K8sSched]; [programs] are the sections they are placed in.  The theorem says
    that the decoding loses nothing for the values the kernel passes. *)

From stdpp Require Import base list strings gmap.
From Stdlib Require Import ZArith Lia.
From S2P Require Import Prelude ScxCommon Kernel BpfMacros BpfTracing K8sSched.

Open Scope Z_scope.

Definition task_ptr : cty := TPtr (TStruct "task_struct").
Definition exit_info_ptr : cty := TPtr (TStruct "scx_exit_info").

(** The parameter lists of the callbacks. *)
Definition select_cpu_params : list cty := [task_ptr; TS32; TU64].
Definition enqueue_params : list cty := [task_ptr; TU64].
Definition dispatch_params : list cty := [TS32; task_ptr].
Definition running_params : list cty := [task_ptr].
Definition stopping_params : list cty := [task_ptr; TBool].
Definition enable_params : list cty := [task_ptr].
Definition init_params : list cty := [].
Definition exit_params : list cty := [exit_info_ptr].

(** The sections; only [k8s_init] may sleep. *)
Definition programs : list string :=
  (BPF_STRUCT_OPS <$> ["k8s_select_cpu"; "k8s_enqueue"; "k8s_dispatch"; "k8s_running";
                       "k8s_stopping"; "k8s_enable"; "k8s_exit"]) ++
  [BPF_STRUCT_OPS_SLEEPABLE "k8s_init"].

(** ** The outer functions *)

Section Entries.
Context {P : Type} `{Kfuncs P}.

#[local] Abbreviation prog := (bpf (sched_state P)).

Definition entry_select_cpu (ctx : list Z) : prog Z :=
  match BPF_PROG select_cpu_params ctx with
  | Some [p; prev_cpu; wake_flags] => k8s_select_cpu p prev_cpu wake_flags
  | _ => fault
  end.

Definition entry_enqueue (ctx : list Z) : prog unit :=
  match BPF_PROG enqueue_params ctx with
  | Some [p; enq_flags] => k8s_enqueue p enq_flags
  | _ => fault
  end.

Definition entry_dispatch (ctx : list Z) : prog unit :=
  match BPF_PROG dispatch_params ctx with
  | Some [cpu; prev] => k8s_dispatch cpu prev
  | _ => fault
  end.

Definition entry_running (ctx : list Z) : prog unit :=
  match BPF_PROG running_params ctx with
  | Some [p] => k8s_running p
  | _ => fault
  end.

Definition entry_stopping (ctx : list Z) : prog unit :=
  match BPF_PROG stopping_params ctx with
  | Some [p; runnable] => k8s_stopping p (negb (runnable =? 0))
  | _ => fault
  end.

Definition entry_enable (ctx : list Z) : prog unit :=
  match BPF_PROG enable_params ctx with
  | Some [p] => k8s_enable p
  | _ => fault
  end.

Definition entry_init (ctx : list Z) : prog Z :=
  match BPF_PROG init_params ctx with
  | Some [] => k8s_init
  | _ => fault
  end.

(** The exit information lives in kernel memory, read through its address. *)
Definition entry_exit (exit_info : Z -> option scx_exit_info) (ctx : list Z) : prog unit :=
  match BPF_PROG exit_params ctx with
  | Some [ei] => info ← deref (exit_info ei); k8s_exit info
  | _ => fault
  end.

(** ** Decoding *)

(** A 32-bit signed argument travels in the low half of its word. *)
Definition is_s32 (x : Z) : Prop := - s32_half <= x < s32_half.

Lemma s32_of_word w x : u32 w = u32 x -> is_s32 x -> s32 w = x.
Proof.
  intros E Hx. unfold s32. rewrite E. unfold is_s32, u32, u32_mod, s32_half in *.
  destruct (Z.ltb_spec (x mod 4294967296) 2147483648); Z.div_mod_to_equations; lia.
Qed.

Lemma convert_task p : is_u64 p -> convert task_ptr p = p.
Proof. intros Hp. exact (u64_small p Hp). Qed.

(** C35: called by the kernel with a context of 64-bit words, every entry point
    runs its callback on exactly the arguments the words carry: pointers and
    flags unchanged, a CPU number whatever the high half of its word holds
    (sign- or zero-extended), a boolean from any nonzero word, the exit
    information read at the address passed, a fault where there is none; words
    past the declared parameters are ignored; and no two callbacks share a
    section. *)
Theorem entry_points_decode p cpu wcpu flags wrun rest exit_info
    (Hp : is_u64 p) (Hf : is_u64 flags) (Hc : is_s32 cpu) (Hw : u32 wcpu = u32 cpu) :
  entry_select_cpu (p :: wcpu :: flags :: rest) = k8s_select_cpu p cpu flags /\
  entry_enqueue (p :: flags :: rest) = k8s_enqueue p flags /\
  entry_dispatch (wcpu :: p :: rest) = k8s_dispatch cpu p /\
  entry_running (p :: rest) = k8s_running p /\
  entry_stopping (p :: wrun :: rest) = k8s_stopping p (negb (wrun =? 0)) /\
  entry_enable (p :: rest) = k8s_enable p /\
  entry_init rest = k8s_init /\
  (forall s, entry_exit exit_info (p :: rest) s =
     match exit_info p with Some info => k8s_exit info s | None => None end) /\
  NoDup programs.
Proof.
  pose proof (convert_task p Hp) as Ep. pose proof (u64_small flags Hf) as Ef.
  pose proof (s32_of_word wcpu cpu Hw Hc) as Ec.
  unfold entry_select_cpu, entry_enqueue, entry_dispatch, entry_running, entry_stopping,
    entry_enable, entry_init, entry_exit. simpl in *.
  rewrite !Ep, !Ef, !Ec.
  split_and!; try reflexivity; [intros s; unfold mbind, bpf_bind, deref; by destruct (exit_info p)|].
  apply (bool_decide_unpack _). vm_compute. reflexivity.
Qed.

End Entries.

(** A wakeup on CPU 3, the CPU word zero-extended. *)
Lemma entry_points_decode_witness :
  entry_select_cpu (H := RefKernel.kfuncs) [4096; 3; 1; 77] = k8s_select_cpu 4096 3 1.
Proof.
  assert (H1 : is_u64 4096) by (unfold is_u64, u64_mod; lia).
  assert (H2 : is_u64 1) by (unfold is_u64, u64_mod; lia).
  assert (H3 : is_s32 3) by (unfold is_s32, s32_half; lia).
  exact (proj1 (entry_points_decode 4096 3 3 1 0 [77] (fun _ => None) H1 H2 H3 eq_refl)).
Defined.
