(* ===== verification/Vtime.v ===== *)
(** * Virtual time: the order, the clamp and the charge

    The arithmetic of bpf/k8s_sched.bpf.c in isolation: [vtime_before] on the
    64-bit circle, the wake-up clamp of [k8s_enqueue], and the weighted charge
    of [k8s_stopping]. *)

From stdpp Require Import base tactics.
From Stdlib Require Import ZArith Lia.
From S2P Require Import Prelude K8sSched.

Open Scope Z_scope.
Open Scope word_scope.

(** The clamp as one expression. *)
Definition clamp_vtime (now v : Z) : Z :=
  if vtime_before v (now -w DEFAULT_SLICE_NS) then now -w DEFAULT_SLICE_NS else v.

(** The clock after [k8s_running]. *)
Definition advance_clock (now v : Z) : Z := if vtime_before now v then v else now.

(** ** The order *)

Lemma vtime_before_s64 a b : vtime_before a b = (s64 (a - b) <? 0).
Proof. unfold vtime_before, u64_sub. by rewrite s64_u64. Qed.

(** Unwrapped readings of two words that are less than half a circle apart
    compare as the words do. *)
Lemma vtime_before_unwrap a b A B :
  a ≡w A -> b ≡w B -> Z.abs (A - B) < s64_half -> vtime_before a b = (A <? B).
Proof.
  intros Ha Hb Hd. rewrite vtime_before_s64.
  assert (E : a - b ≡w A - B) by (by rewrite Ha, Hb).
  unfold s64 at 1. unfold eq64 in E. rewrite E. fold (s64 (A - B)).
  rewrite s64_small by (unfold s64_half in *; lia).
  destruct (Z.ltb_spec (A - B) 0), (Z.ltb_spec A B); lia.
Qed.

(** On any run of the clock shorter than half a circle [vtime_before] is the
    strict order of the unwrapped times: irreflexive, transitive, total. *)
Lemma vtime_before_strict_order a b c A B C :
  a ≡w A -> b ≡w B -> c ≡w C ->
  Z.abs (A - B) < s64_half -> Z.abs (B - C) < s64_half -> Z.abs (A - C) < s64_half ->
  vtime_before a a = false /\
  (vtime_before a b = true -> vtime_before b c = true -> vtime_before a c = true) /\
  (vtime_before a b = false -> vtime_before b a = false -> u64 a = u64 b) /\
  (vtime_before a b = true -> vtime_before b a = false).
Proof.
  intros Ha Hb Hc H1 H2 H3.
  rewrite (vtime_before_unwrap a b A B), (vtime_before_unwrap b c B C),
    (vtime_before_unwrap a c A C), (vtime_before_unwrap b a B A),
    (vtime_before_unwrap a a A A) by first [done | unfold s64_half in *; lia].
  repeat split; rewrite ?Z.ltb_lt, ?Z.ltb_ge; try lia.
  intros. assert (A = B) as -> by lia. by rewrite Ha, Hb.
Qed.

(** Without that bound the relation has cycles: three points a third of the
    circle apart are each before the next. *)
Example vtime_before_cycle :
  vtime_before 0 6148914691236517205 = true /\
  vtime_before 6148914691236517205 12297829382473034410 = true /\
  vtime_before 12297829382473034410 0 = true.
Proof. vm_compute. auto. Qed.

(** ** The clamp *)

Lemma clamp_vtime_range now v : is_u64 v -> is_u64 (clamp_vtime now v).
Proof. unfold clamp_vtime. case_match; auto with words. Qed.

(** The clamped vtime lags the clock by at most one default slice, whatever
    the words are. *)
Lemma clamp_lag_bounded now v :
  vtime_before (clamp_vtime now v) (now -w DEFAULT_SLICE_NS) = false.
Proof.
  unfold clamp_vtime. destruct (vtime_before v _) eqn:E; [|done].
  rewrite vtime_before_s64, Z.sub_diag. reflexivity.
Qed.

(** In unwrapped time the clamp is a maximum. *)
Lemma clamp_is_max now v N V :
  now ≡w N -> v ≡w V -> Z.abs (V - (N - DEFAULT_SLICE_NS)) < s64_half ->
  clamp_vtime now v ≡w Z.max V (N - DEFAULT_SLICE_NS).
Proof.
  intros Hn Hv Hd. unfold clamp_vtime.
  assert (E : now -w DEFAULT_SLICE_NS ≡w N - DEFAULT_SLICE_NS).
  { unfold u64_sub. by rewrite eq64_u64, Hn. }
  rewrite (vtime_before_unwrap _ _ V (N - DEFAULT_SLICE_NS)) by done.
  destruct (Z.ltb_spec V (N - DEFAULT_SLICE_NS)).
  - by rewrite Z.max_r by lia.
  - by rewrite Z.max_l by lia.
Qed.

(** ** The clock *)

Lemma clock_is_max now v N V :
  now ≡w N -> v ≡w V -> Z.abs (N - V) < s64_half ->
  advance_clock now v ≡w Z.max N V.
Proof.
  intros Hn Hv Hd. unfold advance_clock.
  rewrite (vtime_before_unwrap _ _ N V) by done.
  destruct (Z.ltb_spec N V).
  - by rewrite Z.max_r by lia.
  - by rewrite Z.max_l by lia.
Qed.

(** ** The charge *)

(** The slice is min(default, budget), a zero budget meaning no budget: a
    budget can only shorten the slice, and the slice is never zero. *)
Lemma task_slice_min tp :
  task_slice tp = if budget_ns tp =? 0 then 5000000 else Z.min 5000000 (budget_ns tp).
Proof.
  unfold task_slice, DEFAULT_SLICE_NS.
  destruct (Z.eqb_spec (budget_ns tp) 0), (Z.ltb_spec (budget_ns tp) 5000000); simpl; lia.
Qed.

Lemma task_slice_cap tp :
  0 <= budget_ns tp ->
  0 < task_slice tp <= DEFAULT_SLICE_NS.
Proof.
  intros Hb. unfold task_slice, DEFAULT_SLICE_NS in *.
  destruct (Z.eqb_spec (budget_ns tp) 0), (Z.ltb_spec (budget_ns tp) 5000000); simpl; lia.
Qed.

(** The consumed part: exact when the remainder is at most the slice, the whole
    slice when the remainder is larger (the subtraction would wrap). *)
Lemma used_ns_exact slice left :
  is_u64 left -> 0 <= slice <= DEFAULT_SLICE_NS ->
  used_ns slice left = if left <=? slice then slice - left else slice.
Proof.
  intros Hl Hs. unfold used_ns, DEFAULT_SLICE_NS in *. words.
Qed.

Lemma used_ns_range slice left :
  is_u64 left -> 0 <= slice <= DEFAULT_SLICE_NS -> 0 <= used_ns slice left <= slice.
Proof.
  intros Hl Hs. rewrite used_ns_exact by done. unfold is_u64 in Hl. case_bool; lia.
Qed.

(** No multiplication in [k8s_stopping] wraps: the charge is the exact quotient. *)
Lemma vtime_charge_exact w used :
  0 <= used <= DEFAULT_SLICE_NS ->
  vtime_charge w used = used * 10000 / (if w =? 0 then 1 else w).
Proof.
  intros Hu. unfold vtime_charge, u64_div, u64_mul, MAX_PRIO_WEIGHT.
  rewrite u64_small by (unfold is_u64, u64_mod, DEFAULT_SLICE_NS in *; lia).
  by destruct (w =? 0).
Qed.

(** The divisor the code uses. *)
Lemma divisor_pos w : 0 <= w -> 0 < (if w =? 0 then 1 else w).
Proof. case_bool; lia. Qed.

Lemma vtime_charge_ge_used w used :
  0 <= w <= MAX_PRIO_WEIGHT -> 0 <= used <= DEFAULT_SLICE_NS -> used <= vtime_charge w used.
Proof.
  intros Hw Hu. rewrite vtime_charge_exact by done. unfold MAX_PRIO_WEIGHT in *.
  pose proof (divisor_pos w ltac:(lia)).
  apply Z.div_le_lower_bound; [done|]. rewrite Z.mul_comm.
  apply Z.mul_le_mono_nonneg_l; [lia|]. case_bool; lia.
Qed.

Lemma vtime_charge_max w used :
  0 <= w -> 0 <= used <= DEFAULT_SLICE_NS -> 0 <= vtime_charge w used <= 50000000000.
Proof.
  intros Hw Hu. rewrite vtime_charge_exact by done. unfold DEFAULT_SLICE_NS in *.
  pose proof (divisor_pos w Hw). split; [apply Z.div_pos; lia|].
  apply Z.div_le_upper_bound; [done|]. nia.
Qed.

(** A heavier task is never charged more for the same run time. *)
Lemma vtime_charge_antitone w1 w2 used :
  0 <= w1 <= w2 -> 0 <= used <= DEFAULT_SLICE_NS ->
  vtime_charge w2 used <= vtime_charge w1 used.
Proof.
  intros Hw Hu. rewrite !vtime_charge_exact by done.
  apply Z.div_le_compat_l; [unfold DEFAULT_SLICE_NS in *; lia|].
  case_bool; lia.
Qed.

(** The charge is [used * 10000 / weight] to within one nanosecond. *)
Lemma vtime_charge_proportional w used :
  0 < w -> 0 <= used <= DEFAULT_SLICE_NS ->
  w * vtime_charge w used <= 10000 * used < w * vtime_charge w used + w.
Proof.
  intros Hw Hu. rewrite vtime_charge_exact by done.
  destruct (Z.eqb_spec w 0); [lia|].
  pose proof (Z.div_mod (used * 10000) w ltac:(lia)).
  pose proof (Z.mod_pos_bound (used * 10000) w ltac:(lia)). lia.
Qed.

Lemma vtime_charge_mono_used w u1 u2 :
  0 <= w -> 0 <= u1 <= u2 -> u2 <= DEFAULT_SLICE_NS -> vtime_charge w u1 <= vtime_charge w u2.
Proof.
  intros Hw H1 H2. rewrite !vtime_charge_exact by lia.
  apply Z.div_le_mono; [by apply divisor_pos | lia].
Qed.

(** C28: the weighted charge of [k8s_stopping] is the exact quotient: for any
    weight and any consumption up to a slice no product wraps, weight 0 counts
    as 1, a weight up to the maximum charges at least the time used, the
    charge is bounded by 50 s per slice, it never grows with the weight and
    never shrinks with the time used. *)
Theorem vtime_charge_law w used (Hw : 0 <= w) (Hu : 0 <= used <= DEFAULT_SLICE_NS) :
  vtime_charge w used = used * MAX_PRIO_WEIGHT / Z.max 1 w /\
  (w <= MAX_PRIO_WEIGHT -> used <= vtime_charge w used) /\
  0 <= vtime_charge w used <= 50000000000 /\
  (forall w', w <= w' -> vtime_charge w' used <= vtime_charge w used) /\
  (forall used', used <= used' <= DEFAULT_SLICE_NS -> vtime_charge w used <= vtime_charge w used').
Proof.
  split_and!.
  - rewrite vtime_charge_exact by done. unfold MAX_PRIO_WEIGHT. f_equal. case_bool; lia.
  - intros. apply vtime_charge_ge_used; lia.
  - by apply vtime_charge_max.
  - by apply vtime_charge_max.
  - intros w' Hw'. apply vtime_charge_antitone; lia.
  - intros u' Hu'. apply vtime_charge_mono_used; lia.
Qed.

Lemma vtime_charge_law_witness : vtime_charge 1000 5000000 = 50000000.
Proof.
  refine (proj1 (vtime_charge_law 1000 5000000 _ _)); unfold DEFAULT_SLICE_NS; lia.
Defined.

(** In unwrapped time the clamp of [k8s_enqueue] is the maximum of the
    task's vtime and the clock less one slice, and the update of [k8s_running]
    is the maximum of the clock and the task's vtime, as long as the two are
    within half the circle: both survive the wrap of the 64-bit clock. *)
Theorem vclock_maxima now v N V (Hn : now ≡w N) (Hv : v ≡w V)
    (Hd : Z.abs (N - V) < s64_half - DEFAULT_SLICE_NS) :
  clamp_vtime now v ≡w Z.max V (N - DEFAULT_SLICE_NS) /\
  advance_clock now v ≡w Z.max N V.
Proof.
  unfold DEFAULT_SLICE_NS in *.
  split; [apply clamp_is_max | apply clock_is_max]; unfold DEFAULT_SLICE_NS; auto; lia.
Qed.

(** A clock just past the wrap and a task still before it. *)
Lemma vclock_maxima_witness :
  clamp_vtime 1000 18446744073709551000 ≡w -616 /\ advance_clock 18446744073709551000 1000 ≡w 1000.
Proof.
  split.
  - refine (proj1 (vclock_maxima 1000 18446744073709551000 1000 (-616) _ _ _)); reflexivity.
  - refine (proj2 (vclock_maxima 18446744073709551000 1000 (-616) 1000 _ _ _)); reflexivity.
Defined.
