(* ===== verification/SchedFacts.v ===== *)
(** * The scheduler's callbacks: what each one does

    Functional specifications of the callbacks of bpf/k8s_sched.bpf.c, proved
    against the kernel interface [ScxLaws], on every branch; plus the type
    invariant [wf_state] that they preserve. *)

From stdpp Require Import base gmap list strings.
From Stdlib Require Import ZArith Lia.
From S2P Require Import Prelude ScxCommon Kernel BpfMacros K8sSched Vtime.

Open Scope Z_scope.
Open Scope word_scope.

(** ** Specification vocabulary *)

Section Spec.
Context {P : Type} `{Kfuncs P} `{ScxObs P}.

(** The cgroup ID the kernel reports for a task, 0 when there is none. *)
Definition cgroup_id_of (k : kmem P) (p : Z) : Z :=
  match task_cgroup_of k p with
  | Some c => kf_cgroup_kn_id c k
  | None => 0
  end.

(** The parameters configured for a task: its process entry, else the entry of
    its cgroup, else nothing. *)
Definition configured (s : sched_state P) (p : Z) : option task_params :=
  t ← k_tasks (s_kern s) !! p;
  match s_task_params s !! u32 (t_tgid t) with
  | Some v => Some v
  | None => if cgroup_id_of (s_kern s) p =? 0 then None
            else s_cgroup_params s !! cgroup_id_of (s_kern s) p
  end.

Definition effective (s : sched_state P) (p : Z) : task_params :=
  default (TaskParams DEFAULT_WEIGHT 0) (configured s p).

(** A kernel state that differs only in unobservable private data. *)
Record quiet_kern (k k' : kmem P) : Prop := QuietKern {
  quiet_tasks : k_tasks k' = k_tasks k;
  quiet_env : env_eq k k';
  quiet_queues : queues_eq k k';
  quiet_refs : refs_eq k k'
}.

(** The stats slot of the current CPU after [f]. *)
Definition bump (f : sched_stats -> sched_stats) (s : sched_state P) : gmap Z sched_stats :=
  alter f (k_cpu (s_kern s)) (s_stats s).

(** What every callback leaves alone: the parameter maps, the current CPU and
    the cgroups. *)
Record frame (s s' : sched_state P) : Prop := Frame {
  frame_cgroup_params : s_cgroup_params s' = s_cgroup_params s;
  frame_task_params : s_task_params s' = s_task_params s;
  frame_env : env_eq (s_kern s) (s_kern s')
}.

(** The process of every task is what it was. *)
Definition same_tgids (s s' : sched_state P) : Prop :=
  forall p, t_tgid <$> k_tasks (s_kern s') !! p = t_tgid <$> k_tasks (s_kern s) !! p.

(** Machine words all the way down. *)
Record wf_params (tp : task_params) : Prop := WfParams {
  wf_weight : is_u64 (weight tp);
  wf_budget : is_u64 (budget_ns tp)
}.
Record wf_task (t : task_struct) : Prop := WfTask {
  wf_slice : is_u64 (t_slice t);
  wf_vtime : is_u64 (t_dsq_vtime t)
}.
Record wf_stats (v : sched_stats) : Prop := WfStats {
  wf_enqueues : is_u64 (enqueues v);
  wf_local : is_u64 (local_dispatches v);
  wf_capped : is_u64 (budget_capped v);
  wf_defaults : is_u64 (defaults v)
}.
Record wf_state (s : sched_state P) : Prop := WfState {
  wf_cgroup_map : map_Forall (fun _ => wf_params) (s_cgroup_params s);
  wf_task_map : map_Forall (fun _ => wf_params) (s_task_params s);
  wf_stats_map : map_Forall (fun _ => wf_stats) (s_stats s);
  wf_clock : is_u64 (vtime_now s);
  wf_tasks : map_Forall (fun _ => wf_task) (k_tasks (s_kern s))
}.

End Spec.

(** ** Running the small programs *)

Section Run.
Context {P : Type} `{Kfuncs P} `{!ScxObs P} `{!ScxLaws P}.
Implicit Types (s : sched_state P) (k : kmem P).

Lemma env_eq_refl (k : kmem P) : env_eq k k.
Proof. by split. Qed.

Lemma env_eq_trans (k1 k2 k3 : kmem P) : env_eq k1 k2 -> env_eq k2 k3 -> env_eq k1 k3.
Proof. intros [] []. split; intros; etrans; eauto. Qed.

Lemma queues_eq_trans (k1 k2 k3 : kmem P) :
  queues_eq k1 k2 -> queues_eq k2 k3 -> queues_eq k1 k3.
Proof. intros [] []. split; intros; etrans; eauto. Qed.

Lemma quiet_refl (k : kmem P) : quiet_kern k k.
Proof. by split. Qed.

Lemma read_task_run p s t :
  k_tasks (s_kern s) !! p = Some t -> read_task p s = Some (t, s).
Proof. intros E. unfold read_task, mbind, bpf_bind, get_state, deref. by rewrite E. Qed.

Lemma write_task_run p f s t :
  k_tasks (s_kern s) !! p = Some t ->
  write_task p f s = Some (tt, with_kern (upd_task p f (s_kern s)) s).
Proof. intros E. unfold write_task. by erewrite bpf_bind_run by by apply read_task_run. Qed.

(** Acquire, read the id, release: the program ends with the id of the task's
    cgroup and no reference kept. *)
Lemma task_cgroup_id_run p s :
  exists k, task_cgroup_id p s = Some (cgroup_id_of (s_kern s) p, with_kern k s) /\
    quiet_kern (s_kern s) k.
Proof.
  set (k0 := s_kern s).
  pose proof (law_cgroup_result p k0) as Hres.
  pose proof (law_cgroup_tasks p k0) as Ht.
  pose proof (law_cgroup_env p k0) as He.
  pose proof (law_cgroup_queues p k0) as Hq.
  pose proof (law_cgroup_refs p k0) as Hr.
  unfold task_cgroup_id, cgroup_id_of, call_kernel, mbind, bpf_bind. fold k0.
  rewrite <- Hres. destruct (kf_task_cgroup p k0) as [[c|] k1]; simpl in *.
  - exists (kf_cgroup_release c k1). split.
    + unfold call_kernel_, mret, bpf_ret. simpl. by rewrite (env_kn_id _ _ He).
    + split.
      * by rewrite law_release_tasks.
      * eapply env_eq_trans; [exact He | apply law_release_env].
      * eapply queues_eq_trans; [exact Hq | apply law_release_queues].
      * intros c'. rewrite law_release_refs, Hr. repeat case_decide; simplify_eq; lia.
  - exists k1. split; [done|]. split; [done | done | done |].
    intros c'. rewrite Hr. repeat case_match; done || lia.
Qed.

Lemma configured_live s p t :
  k_tasks (s_kern s) !! p = Some t ->
  configured s p =
    match s_task_params s !! u32 (t_tgid t) with
    | Some v => Some v
    | None => if cgroup_id_of (s_kern s) p =? 0 then None
              else s_cgroup_params s !! cgroup_id_of (s_kern s) p
    end.
Proof. intros E. unfold configured. by rewrite E. Qed.

(** [lookup_task_params] on a live task: found or not, the effective
    parameters, and an unchanged observable kernel. *)
Lemma lookup_task_params_run p s t :
  k_tasks (s_kern s) !! p = Some t ->
  exists k, lookup_task_params p s =
      Some ((bool_decide (is_Some (configured s p)), effective s p), with_kern k s) /\
    quiet_kern (s_kern s) k.
Proof.
  intros E. unfold lookup_task_params, effective. rewrite (configured_live s p t E).
  erewrite bpf_bind_run by by apply read_task_run.
  unfold lookup_task_map. simpl.
  unfold mbind at 1, bpf_bind at 1, mbind at 1, bpf_bind at 1, get_state. simpl.
  destruct (s_task_params s !! u32 (t_tgid t)) as [v|] eqn:Ev.
  - exists (s_kern s). split; [|apply quiet_refl]. simpl.
    by destruct s.
  - destruct (task_cgroup_id_run p s) as (k & Hrun & Hq).
    erewrite bpf_bind_run by exact Hrun. exists k. split; [|done].
    unfold lookup_cgroup_map, mbind, bpf_bind, get_state, mret, bpf_ret.
    destruct (Z.eqb_spec (cgroup_id_of (s_kern s) p) 0); simpl; [done|].
    by destruct (s_cgroup_params s !! _).
Qed.

(** The end of [select_cpu] and [enqueue]: bump this CPU's slot if present. *)
Lemma stats_tail_run f s :
  (get_stats ≫= fun o => match o with Some c => upd_stats c f | None => mret tt end) s =
  Some (tt, with_stats (bump f s) s).
Proof.
  unfold get_stats, upd_stats, mbind, bpf_bind, get_state, bump. simpl.
  case_decide as D.
  - destruct D as [v Hv]. rewrite Hv. simpl. unfold modify. repeat f_equal.
    by rewrite <- (alter_insert_eq (s_stats s) (k_cpu (s_kern s)) f v), insert_id.
  - unfold mret, bpf_ret. rewrite <- eq_None_not_Some in D.
    rewrite alter_id; [by destruct s|]. intros x Hx. congruence.
Qed.

Lemma wf_effective s p : wf_state s -> wf_params (effective s p).
Proof.
  intros [Hc Ht _ _ _]. unfold effective.
  destruct (configured s p) as [v|] eqn:E; [|by split].
  unfold configured in E. simpl. apply bind_Some in E as (t & _ & E).
  destruct (s_task_params s !! u32 (t_tgid t)) as [v'|] eqn:E1.
  - simplify_eq. by apply (Ht _ _ E1).
  - destruct (cgroup_id_of (s_kern s) p =? 0); [done|]. by apply (Hc _ _ E).
Qed.

Lemma wf_slice_pos s p : wf_state s -> 0 < task_slice (effective s p) <= DEFAULT_SLICE_NS.
Proof. intros [_ [? _]]%(wf_effective s p). by apply task_slice_cap. Qed.

End Run.

#[export] Hint Resolve quiet_refl env_eq_refl : kmem.

(** ** The callbacks *)

Section Callbacks.
Context {P : Type} `{Kfuncs P} `{!ScxObs P} `{!ScxLaws P}.
Implicit Types (s : sched_state P) (k : kmem P).

Lemma frame_quiet s k : quiet_kern (s_kern s) k -> frame s (with_kern k s).
Proof. intros [_ He _ _]. by split. Qed.

Lemma frame_refl s : frame s s.
Proof. split; auto with kmem. Qed.

Lemma same_tgids_alter f p s s' :
  (forall t, t_tgid (f t) = t_tgid t) ->
  k_tasks (s_kern s') = alter f p (k_tasks (s_kern s)) -> same_tgids s s'.
Proof.
  intros Hf E q. rewrite E. destruct (decide (p = q)) as [->|Hne].
  - rewrite lookup_alter_eq. destruct (k_tasks (s_kern s) !! q); simpl; by rewrite ?Hf.
  - by rewrite lookup_alter_ne.
Qed.

(** The parameters of a task depend on nothing else. *)
Lemma configured_frame s s' p :
  frame s s' -> same_tgids s s' -> configured s' p = configured s p.
Proof.
  intros [Hc Ht He] Hg. unfold configured, cgroup_id_of. rewrite Hc, Ht.
  specialize (Hg p).
  rewrite (env_cgroup _ _ He). destruct (k_tasks (s_kern s) !! p) as [t|],
    (k_tasks (s_kern s') !! p) as [t'|]; simplify_eq/=; [|done].
  rewrite Hg. destruct (task_cgroup_of (s_kern s) p); [|done].
  by rewrite (env_kn_id _ _ He).
Qed.

Lemma effective_frame s s' p :
  frame s s' -> same_tgids s s' -> effective s' p = effective s p.
Proof. intros. unfold effective. by rewrite (configured_frame s s'). Qed.

(** [k8s_enqueue] queues the task on the custom DSQ with the capped slice and
    the clamped vtime, and counts once. *)
Lemma enqueue_run p fl s t :
  wf_state s -> k_tasks (s_kern s) !! p = Some t ->
  exists s', k8s_enqueue p fl s = Some (tt, s') /\
    k_tasks (s_kern s') =
      alter (fun t => set_dsq_vtime (clamp_vtime (vtime_now s) (t_dsq_vtime t))
                        (set_slice (task_slice (effective s p)) t)) p (k_tasks (s_kern s)) /\
    (dsq_exists (s_kern s) K8S_DSQ_ID = true ->
     (forall d, dsq_queue (s_kern s') d =
        if decide (d = K8S_DSQ_ID) then {[p]} ∪ dsq_queue (s_kern s) d
        else dsq_queue (s_kern s) d) /\
     forall c, local_queue (s_kern s') c = local_queue (s_kern s) c) /\
    s_stats s' = bump (stats_enqueue (task_slice (effective s p))
                         (bool_decide (is_Some (configured s p)))) s /\
    vtime_now s' = vtime_now s /\ frame s s'.
Proof.
  intros Hwf Hp. pose proof (wf_slice_pos s p Hwf) as Hsl.
  destruct (lookup_task_params_run p s t Hp) as (k & Hl & Hq).
  unfold k8s_enqueue. erewrite bpf_bind_run by exact Hl. cbv beta iota zeta.
  destruct Hq as [Qt Qe Qq _].
  erewrite bpf_bind_run by (apply read_task_run; simpl; by rewrite Qt).
  cbv beta. erewrite bpf_bind_run by reflexivity. cbv beta zeta.
  erewrite bpf_bind_run by reflexivity. rewrite stats_tail_run.
  eexists. split; [reflexivity|]. simpl.
  fold (clamp_vtime (vtime_now s) (t_dsq_vtime t)).
  split_and!.
  - rewrite law_insert_vtime_tasks, Qt by lia. apply map_eq. intros q.
    destruct (decide (p = q)) as [->|Hne]; [|by rewrite !lookup_alter_ne].
    by rewrite !lookup_alter_eq, Hp.
  - intros He. rewrite <- (env_dsqs _ _ Qe) in He. split; intros.
    + rewrite law_insert_vtime_queue by done. by rewrite (queues_dsq _ _ Qq).
    + rewrite law_insert_vtime_local by done. by apply queues_local.
  - unfold bump. simpl.
    by rewrite (env_cpu _ _ (law_insert_vtime_env p _ _ _ _ k)), (env_cpu _ _ Qe).
  - done.
  - split; [done | done |]. simpl. eapply env_eq_trans; [exact Qe|].
    apply law_insert_vtime_env.
Qed.

(** [k8s_stopping] charges the consumed part of the slice, weighted, to the
    task's vtime, and touches nothing else. *)
Lemma stopping_run p r s t :
  k_tasks (s_kern s) !! p = Some t ->
  exists s', k8s_stopping p r s = Some (tt, s') /\
    k_tasks (s_kern s') =
      alter (fun t => set_dsq_vtime (t_dsq_vtime t +w
        vtime_charge (weight (effective s p))
          (used_ns (task_slice (effective s p)) (t_slice t))) t) p (k_tasks (s_kern s)) /\
    s_stats s' = s_stats s /\ vtime_now s' = vtime_now s /\ frame s s' /\
    exists k, quiet_kern (s_kern s) k /\
      s_kern s' = upd_task p (fun t' => set_dsq_vtime (t_dsq_vtime t' +w
        vtime_charge (weight (effective s p))
          (used_ns (task_slice (effective s p)) (t_slice t))) t') k.
Proof.
  intros Hp. destruct (lookup_task_params_run p s t Hp) as (k & Hl & Hq).
  unfold k8s_stopping. erewrite bpf_bind_run by exact Hl. cbv beta iota zeta.
  erewrite bpf_bind_run
    by (apply read_task_run; simpl; by rewrite (quiet_tasks _ _ Hq)).
  cbv beta. rewrite (write_task_run p _ _ t) by (simpl; by rewrite (quiet_tasks _ _ Hq)).
  eexists. split; [reflexivity|]. simpl. split_and!; [|done..| |by eauto].
  - rewrite (quiet_tasks _ _ Hq). apply map_eq. intros q.
    destruct (decide (p = q)) as [->|Hne]; [|by rewrite !lookup_alter_ne].
    by rewrite !lookup_alter_eq, Hp.
  - split; [done | done |]. simpl. eapply env_eq_trans; [apply Hq | apply law_store_env].
Qed.

(** [k8s_running] moves the clock to the circular maximum and nothing else. *)
Lemma running_run p s t :
  k_tasks (s_kern s) !! p = Some t ->
  k8s_running p s = Some (tt, with_vtime_now (advance_clock (vtime_now s) (t_dsq_vtime t)) s).
Proof.
  intros Hp. unfold k8s_running, advance_clock.
  erewrite bpf_bind_run by by apply read_task_run. cbv beta.
  erewrite bpf_bind_run by reflexivity. cbv beta.
  destruct (vtime_before (vtime_now s) (t_dsq_vtime t)); [done | by destruct s].
Qed.

Lemma enable_run p s t :
  k_tasks (s_kern s) !! p = Some t ->
  k8s_enable p s =
    Some (tt, with_kern (upd_task p (set_dsq_vtime (vtime_now s)) (s_kern s)) s).
Proof.
  intros Hp. unfold k8s_enable. erewrite bpf_bind_run by reflexivity.
  by apply write_task_run with t.
Qed.

Lemma dispatch_run cpu prev s :
  k8s_dispatch cpu prev s =
    Some (tt, with_kern (snd (kf_dsq_move_to_local K8S_DSQ_ID (s_kern s))) s).
Proof.
  unfold k8s_dispatch, call_kernel, mbind, bpf_bind.
  by destruct (kf_dsq_move_to_local K8S_DSQ_ID (s_kern s)).
Qed.

(** [k8s_select_cpu]: returns the CPU the kernel picked; on an idle one it
    also inserts the task there directly, with its capped slice. *)
Lemma select_cpu_run p prev fl s t cpu idle k1 :
  wf_state s -> k_tasks (s_kern s) !! p = Some t ->
  kf_select_cpu_dfl p prev fl (s_kern s) = ((cpu, idle), k1) ->
  exists s', k8s_select_cpu p prev fl s = Some (cpu, s') /\
    k_tasks (s_kern s') =
      (if (idle : bool) then alter (set_slice (task_slice (effective s p))) p (k_tasks (s_kern s))
       else k_tasks (s_kern s)) /\
    s_stats s' =
      (if idle then bump (stats_local (task_slice (effective s p))) s else s_stats s) /\
    (idle = true -> direct_dsq (s_kern s') p = Some SCX_DSQ_LOCAL /\
       forall c, local_queue (s_kern s') c = local_queue k1 c) /\
    (idle = false -> s_kern s' = k1) /\
    vtime_now s' = vtime_now s /\ frame s s'.
Proof.
  intros Hwf Hp Hsel. pose proof (wf_slice_pos s p Hwf) as Hsl.
  pose proof (law_select_tasks p prev fl (s_kern s)) as Lt.
  pose proof (law_select_env p prev fl (s_kern s)) as Le.
  rewrite Hsel in Lt, Le. simpl in Lt, Le.
  set (s1 := with_kern k1 s).
  assert (F1 : frame s s1) by by split.
  assert (G1 : same_tgids s s1) by (intros q; simpl; by rewrite Lt).
  unfold k8s_select_cpu, call_kernel at 1.
  erewrite bpf_bind_run by by rewrite Hsel. cbv beta iota.
  fold s1. destruct idle; [|exists s1; split_and!; done].
  destruct (lookup_task_params_run p s1 t) as (k & Hl & Hq); [simpl; by rewrite Lt|].
  rewrite (effective_frame s s1) in Hl by done.
  erewrite bpf_bind_run by exact Hl. cbv beta iota zeta.
  erewrite bpf_bind_run by reflexivity. rewrite <- bpf_bind_assoc.
  erewrite bpf_bind_run by apply stats_tail_run.
  eexists. split; [reflexivity|]. simpl. destruct Hq as [Qt Qe Qq _]. split_and!.
  - rewrite law_insert_tasks, Qt by lia. by rewrite <- Lt.
  - unfold bump. simpl. by rewrite (env_cpu _ _ (law_insert_env p _ _ _ k)),
      (env_cpu _ _ Qe), <- (env_cpu _ _ Le).
  - intros _. rewrite law_insert_direct, decide_True by done. split; [done|].
    intros c. by rewrite law_insert_local, (queues_local _ _ Qq).
  - done.
  - done.
  - split; [done | done |]. simpl. eapply env_eq_trans; [exact Le|].
    eapply env_eq_trans; [exact Qe | apply law_insert_env].
Qed.

(** ** Well-formedness is preserved *)

Lemma wf_alter_tasks s s' f p :
  wf_state s -> (forall t, wf_task t -> wf_task (f t)) ->
  k_tasks (s_kern s') = alter f p (k_tasks (s_kern s)) ->
  map_Forall (fun _ => wf_task) (k_tasks (s_kern s')).
Proof.
  intros [_ _ _ _ Hw] Hf E q t Hq. rewrite E in Hq.
  destruct (decide (p = q)) as [->|Hne].
  - rewrite lookup_alter_eq in Hq. apply fmap_Some in Hq as (t0 & H0 & ->).
    apply Hf, (Hw _ _ H0).
  - rewrite lookup_alter_ne in Hq by done. by apply (Hw _ _ Hq).
Qed.

Lemma wf_bump s f :
  wf_state s -> (forall v, wf_stats v -> wf_stats (f v)) ->
  map_Forall (fun _ => wf_stats) (bump f s).
Proof.
  intros [_ _ Hw _ _] Hf c v Hc. unfold bump in Hc.
  destruct (decide (k_cpu (s_kern s) = c)) as [E|Hne].
  - rewrite E, lookup_alter_eq in Hc. apply fmap_Some in Hc as (v0 & H0 & ->).
    apply Hf, (Hw _ _ H0).
  - rewrite lookup_alter_ne in Hc by done. by apply (Hw _ _ Hc).
Qed.

Lemma wf_stats_enqueue sl b v : wf_stats v -> wf_stats (stats_enqueue sl b v).
Proof. intros []. unfold stats_enqueue. split; simpl; repeat case_match; simpl; auto with words. Qed.

Lemma wf_stats_local sl v : wf_stats v -> wf_stats (stats_local sl v).
Proof. intros []. unfold stats_local. split; simpl; repeat case_match; simpl; auto with words. Qed.

Lemma slice_is_u64 z : 0 < z <= DEFAULT_SLICE_NS -> is_u64 z.
Proof. unfold is_u64, u64_mod, DEFAULT_SLICE_NS. lia. Qed.

Lemma wf_frame s s' :
  wf_state s -> frame s s' ->
  map_Forall (fun _ => wf_stats) (s_stats s') -> is_u64 (vtime_now s') ->
  map_Forall (fun _ => wf_task) (k_tasks (s_kern s')) -> wf_state s'.
Proof.
  intros [Hc Ht _ _ _] [Ec Et _] Hs Hv Hk. split; rewrite ?Ec, ?Et; done.
Qed.

Lemma wf_advance now v : is_u64 now -> is_u64 v -> is_u64 (advance_clock now v).
Proof. unfold advance_clock. by case_match. Qed.

(** The accounting step keeps the state well formed. *)
Lemma wf_account p d s :
  wf_state s -> 0 <= d -> wf_state (with_kern (core_account p d (s_kern s)) s).
Proof.
  intros Hw Hd. eapply wf_frame; [exact Hw | | apply Hw | apply Hw |].
  - split; [done | done | apply law_account_env].
  - eapply wf_alter_tasks; [exact Hw | | apply law_account_tasks].
    intros t [H1 H2]. split; [|done]. simpl. unfold is_u64 in *. lia.
Qed.

Lemma wf_stopped s s' p c :
  wf_state s -> frame s s' -> s_stats s' = s_stats s -> vtime_now s' = vtime_now s ->
  k_tasks (s_kern s') = alter (fun t => set_dsq_vtime (t_dsq_vtime t +w c t) t) p
    (k_tasks (s_kern s)) -> wf_state s'.
Proof.
  intros Hw Hf Hs Hv Ht. eapply wf_frame; [exact Hw | exact Hf | | |].
  - rewrite Hs. apply Hw.
  - rewrite Hv. apply Hw.
  - eapply wf_alter_tasks; [exact Hw | | exact Ht].
    intros t [H1 H2]. split; [done|]. simpl. auto with words.
Qed.

Lemma wf_enqueued s s' p f :
  wf_state s -> frame s s' -> vtime_now s' = vtime_now s ->
  s_stats s' = bump (stats_enqueue f (bool_decide (is_Some (configured s p)))) s ->
  k_tasks (s_kern s') =
    alter (fun t => set_dsq_vtime (clamp_vtime (vtime_now s) (t_dsq_vtime t))
                      (set_slice (task_slice (effective s p)) t)) p (k_tasks (s_kern s)) ->
  wf_state s'.
Proof.
  intros Hw Hf Hv Hs Ht. eapply wf_frame; [exact Hw | exact Hf | | |].
  - rewrite Hs. apply wf_bump; [done | intros; by apply wf_stats_enqueue].
  - rewrite Hv. apply Hw.
  - eapply wf_alter_tasks; [exact Hw | | exact Ht].
    intros t [H1 H2]. split; simpl.
    + by apply slice_is_u64, wf_slice_pos.
    + by apply clamp_vtime_range.
Qed.

End Callbacks.
