(* ===== verification/Demo.v ===== *)
(** * A concrete node

    One CPU of the reference kernel with two competing processes: task 1 with
    the highest weight and no budget, task 2 with the default weight and a 2 ms
    budget, and a third task that is asleep and known only by its cgroup. *)

From stdpp Require Import base gmap list strings.
From Stdlib Require Import ZArith Lia.
From S2P Require Import Prelude ScxCommon Kernel BpfMacros K8sSched Vtime SchedFacts.

Open Scope Z_scope.

Definition demo_tasks : gmap Z task_struct :=
  list_to_map [ (1, TaskStruct 11 101 5000000 0);
                (2, TaskStruct 12 102 2000000 0);
                (3, TaskStruct 13 103 0 0) ].

Definition demo_priv : RefKernel.priv :=
  RefKernel.Priv (list_to_map [(K8S_DSQ_ID, {[1; 2]})]) ∅ ∅ ∅
    (list_to_map [(3, 70)]) (list_to_map [(70, 7000)]) ∅ [].

Definition demo_state : sched_state RefKernel.priv :=
  SchedState
    (list_to_map [(7000, TaskParams 200 0)])
    (list_to_map [(101, TaskParams 10000 0); (102, TaskParams 1000 2000000)])
    (list_to_map [(0, SchedStats 0 0 0 0)])
    0
    (KMem demo_tasks 0 demo_priv).

(** A finite map whose entries all pass a boolean test. *)
Lemma map_Forall_by_test {A} (Q : A -> Prop) (test : A -> bool) (m : gmap Z A) :
  (forall a, test a = true -> Q a) ->
  forallb (fun x => test (snd x)) (map_to_list m) = true -> map_Forall (fun _ => Q) m.
Proof.
  intros Ht Hf i a Hi. apply Ht. rewrite forallb_forall in Hf.
  apply (Hf (i, a)), list_elem_of_In, elem_of_map_to_list. done.
Qed.

Definition u64b (z : Z) : bool := (0 <=? z) && (z <? u64_mod).

Lemma u64b_ok z : u64b z = true -> is_u64 z.
Proof. unfold u64b, is_u64. rewrite andb_true_iff, Z.leb_le, Z.ltb_lt. done. Qed.

Ltac word_tests :=
  let H := fresh in
  intros ? H; rewrite ?andb_true_iff in H; destruct_and?; split; by apply u64b_ok.

Lemma demo_wf : wf_state demo_state.
Proof.
  split.
  - apply (map_Forall_by_test _ (fun v => u64b (weight v) && u64b (budget_ns v)));
      [word_tests | vm_compute; reflexivity].
  - apply (map_Forall_by_test _ (fun v => u64b (weight v) && u64b (budget_ns v)));
      [word_tests | vm_compute; reflexivity].
  - apply (map_Forall_by_test _ (fun v => u64b (enqueues v) && u64b (local_dispatches v)
      && u64b (budget_capped v) && u64b (defaults v))); [word_tests | vm_compute; reflexivity].
  - by apply u64b_ok.
  - apply (map_Forall_by_test _ (fun t => u64b (t_slice t) && u64b (t_dsq_vtime t)));
      [word_tests | vm_compute; reflexivity].
Qed.
