(* ===== verification/SchedSpec.v ===== *)
(** * What each callback promises

    The contract of every callback of bpf/k8s_sched.bpf.c on a live task, each
    with a run on the concrete node of [Demo] that meets its hypotheses. *)

From stdpp Require Import base gmap list strings.
From Stdlib Require Import ZArith Lia.
From S2P Require Import Prelude ScxCommon Kernel BpfMacros K8sSched Vtime SchedFacts Demo.

Open Scope Z_scope.
Open Scope word_scope.

Section Contracts.
Context {P : Type} `{Kfuncs P} `{!ScxObs P} `{!ScxLaws P}.
Implicit Types (s : sched_state P).

(** C11: Parameter lookup.  On a live task [lookup_task_params] returns the entry
    of the task's process if there is one, else the entry of its cgroup if the
    kernel reports a cgroup with a nonzero id and the map has it, else the
    default weight without budget and the flag false; the program ends holding
    exactly the cgroup references it started with and changes no task, queue
    or map. *)
Theorem lookup_precedence p s t :
  k_tasks (s_kern s) !! p = Some t ->
  exists found tp s', lookup_task_params p s = Some ((found, tp), s') /\
    (match s_task_params s !! u32 (t_tgid t) with
     | Some v => found = true /\ tp = v
     | None =>
         match (if cgroup_id_of (s_kern s) p =? 0 then None
                else s_cgroup_params s !! cgroup_id_of (s_kern s) p) with
         | Some v => found = true /\ tp = v
         | None => found = false /\ tp = TaskParams 1000 0
         end
     end) /\
    quiet_kern (s_kern s) (s_kern s') /\ s_stats s' = s_stats s /\
    s_task_params s' = s_task_params s /\ s_cgroup_params s' = s_cgroup_params s.
Proof.
  intros Hp. destruct (lookup_task_params_run p s t Hp) as (k & R & Q).
  do 3 eexists. split; [exact R|]. split; [|done].
  unfold effective. rewrite (configured_live s p t Hp).
  by repeat case_match.
Qed.

(** C9: Enqueue.  Once the custom DSQ exists the task is put on it and on no
    other queue, with slice min(5 ms, budget), 5 ms without a budget, and with its vtime raised, if needed, so that it is
    not before clock minus one default slice; no other task changes, the clock
    stays, and this CPU's counters are bumped once. *)
Theorem enqueue_contract p fl s t :
  wf_state s -> k_tasks (s_kern s) !! p = Some t ->
  dsq_exists (s_kern s) K8S_DSQ_ID = true ->
  let budget := budget_ns (effective s p) in
  exists s' t', k8s_enqueue p fl s = Some (tt, s') /\
    k_tasks (s_kern s') = <[p := t']> (k_tasks (s_kern s)) /\
    t_slice t' = (if budget =? 0 then 5000000 else Z.min 5000000 budget) /\
    t_dsq_vtime t' = clamp_vtime (vtime_now s) (t_dsq_vtime t) /\
    vtime_before (t_dsq_vtime t') (vtime_now s -w DEFAULT_SLICE_NS) = false /\
    dsq_queue (s_kern s') K8S_DSQ_ID = {[p]} ∪ dsq_queue (s_kern s) K8S_DSQ_ID /\
    (forall d, d <> K8S_DSQ_ID -> dsq_queue (s_kern s') d = dsq_queue (s_kern s) d) /\
    (forall c, local_queue (s_kern s') c = local_queue (s_kern s) c) /\
    vtime_now s' = vtime_now s /\
    s_stats s' = bump (stats_enqueue (t_slice t') (bool_decide (is_Some (configured s p)))) s.
Proof.
  intros Hw Hp He budget.
  destruct (enqueue_run p fl s t Hw Hp) as (s' & R & K & QL & S & V & F).
  destruct (QL He) as [Q L].
  exists s', (set_dsq_vtime (clamp_vtime (vtime_now s) (t_dsq_vtime t))
           (set_slice (task_slice (effective s p)) t)).
  split_and!; try done.
  - rewrite K. by rewrite alter_insert_map with (x := t).
  - apply task_slice_min.
  - apply clamp_lag_bounded.
  - intros d Hd. by rewrite Q, decide_False.
Qed.

(** C10: Stopping.  The vtime of the stopped task grows, modulo 2^64, by the whole
    part of used * 10000 / weight (weight 0 counting as 1), where used is the
    consumed part of its current slice, or the whole slice when more is left
    than the slice; nothing else changes and nothing overflows. *)
Theorem stopping_contract p r s t :
  wf_state s -> k_tasks (s_kern s) !! p = Some t ->
  let slice := task_slice (effective s p) in
  let used := if t_slice t <=? slice then slice - t_slice t else slice in
  let w := weight (effective s p) in
  exists s', k8s_stopping p r s = Some (tt, s') /\
    k_tasks (s_kern s') =
      <[p := set_dsq_vtime (u64 (t_dsq_vtime t + used * 10000 / (if w =? 0 then 1 else w))) t]>
        (k_tasks (s_kern s)) /\
    0 <= used <= DEFAULT_SLICE_NS /\
    s_stats s' = s_stats s /\ vtime_now s' = vtime_now s /\
    queues_eq (s_kern s) (s_kern s').
Proof.
  intros Hw Hp slice used w. pose proof (wf_slice_pos s p Hw) as Hsl.
  destruct (wf_tasks _ Hw _ _ Hp) as [Hu _].
  destruct (stopping_run p r s t Hp) as (s' & R & K & S & V & F & k & Q & E).
  assert (Eu : used_ns slice (t_slice t) = used) by (apply used_ns_exact; [done | lia]).
  pose proof (used_ns_range slice (t_slice t) Hu ltac:(lia)) as Hr. rewrite Eu in Hr.
  exists s'. split_and!; [done | | lia | lia | done | done |].
  - rewrite K, (alter_insert_map _ _ _ t Hp). fold slice w. unfold u64_add.
    by rewrite Eu, vtime_charge_exact by lia.
  - rewrite E. eapply queues_eq_trans; [apply Q | apply law_store_queues].
Qed.

(** C22: Idle CPU.  [k8s_select_cpu] returns the CPU the kernel's default picker
    chose; when the picker says it is idle, the task gets its capped slice, the
    core will put it at the tail of that CPU's local DSQ and one local dispatch
    is counted; otherwise the kernel is as the picker left it and no counter
    changes. *)
Theorem select_cpu_contract p prev fl s t cpu idle k1 :
  wf_state s -> k_tasks (s_kern s) !! p = Some t ->
  kf_select_cpu_dfl p prev fl (s_kern s) = ((cpu, idle), k1) ->
  exists s', k8s_select_cpu p prev fl s = Some (cpu, s') /\
    (if (idle : bool) then
       k_tasks (s_kern s') =
         <[p := set_slice (task_slice (effective s p)) t]> (k_tasks (s_kern s)) /\
       s_stats s' = bump (stats_local (task_slice (effective s p))) s /\
       (forall c, local_queue (core_place p cpu (s_kern s')) c =
          if decide (c = cpu) then local_queue k1 c ++ [p] else local_queue k1 c)
     else s_kern s' = k1 /\ k_tasks (s_kern s') = k_tasks (s_kern s) /\ s_stats s' = s_stats s) /\
    vtime_now s' = vtime_now s.
Proof.
  intros Hw Hp E. destruct (select_cpu_run p prev fl s t cpu idle k1 Hw Hp E)
    as (s' & R & K & S & Di & Dn & V & _).
  exists s'. split_and!; [done | | done].
  destruct idle; [|by rewrite (Dn eq_refl) in *]. destruct (Di eq_refl) as [Dd Dl].
  split_and!; [by rewrite K, (alter_insert_map _ _ _ t Hp) | done |].
  intros c. rewrite law_place_local, Dl. repeat case_decide; naive_solver.
Qed.

(** Start-up and failure.  [k8s_init] asks for the custom DSQ on any NUMA node
    and reports a negative error code unchanged; when it reports success, 0, the
    DSQ exists and is empty; [k8s_enable]
    starts a task at the current clock; [k8s_exit] prints the exit kind with
    the three-argument helper. *)
Theorem lifecycle_contract s p t ei r k :
  k_tasks (s_kern s) !! p = Some t -> kf_create_dsq K8S_DSQ_ID (-1) (s_kern s) = (r, k) ->
  k8s_init s = Some (Z.min r 0, with_kern k s) /\
  (r < 0 \/ dsq_exists k K8S_DSQ_ID = true /\ dsq_queue k K8S_DSQ_ID = ∅) /\
  k8s_enable p s =
    Some (tt, with_kern (upd_task p (set_dsq_vtime (vtime_now s)) (s_kern s)) s) /\
  k8s_exit ei s =
    Some (tt, with_kern
      (kf_trace_printk "k8s_sched exit: kind=%d" 24 [ei_kind ei] (s_kern s)) s).
Proof.
  intros Hp Hc. split_and!.
  - unfold k8s_init, call_kernel, mbind, bpf_bind. rewrite Hc.
    destruct (Z.ltb_spec r 0); unfold mret, bpf_ret; repeat f_equal; lia.
  - destruct (law_create K8S_DSQ_ID (-1) (s_kern s)) as [?|(? & ? & ?)];
      rewrite Hc in *; simpl in *; auto.
  - by apply enable_run with t.
  - done.
Qed.

End Contracts.

(** ** The contracts at work on the demo node *)

(** Task 3 has no process entry; its cgroup 7000 carries weight 200. *)
Lemma lookup_precedence_witness :
  exists s', lookup_task_params 3 demo_state = Some ((true, TaskParams 200 0), s').
Proof.
  destruct (lookup_precedence 3 demo_state (TaskStruct 13 103 0 0))
    as (found & tp & s' & R & V & _); [vm_compute; reflexivity|].
  vm_compute in V. destruct V as [-> ->]. by exists s'.
Defined.

Lemma enqueue_contract_witness :
  exists s' t', k8s_enqueue 3 0 demo_state = Some (tt, s') /\
    k_tasks (s_kern s') !! 3 = Some t' /\ t_slice t' = 5000000 /\
    3 ∈ dsq_queue (s_kern s') K8S_DSQ_ID.
Proof.
  destruct (enqueue_contract 3 0 demo_state (TaskStruct 13 103 0 0) demo_wf)
    as (s' & t' & R & K & S & _ & _ & Q & _); [vm_compute; reflexivity | reflexivity |].
  exists s', t'. split_and!; [exact R | by rewrite K, lookup_insert_eq | by rewrite S |].
  rewrite Q. set_solver.
Defined.

Lemma stopping_contract_witness :
  exists s', k8s_stopping 2 true demo_state = Some (tt, s') /\ vtime_now s' = 0.
Proof.
  destruct (stopping_contract 2 true demo_state (TaskStruct 12 102 2000000 0) demo_wf)
    as (s' & R & _ & _ & _ & V & _); [vm_compute; reflexivity|].
  exists s'. by rewrite R, V.
Defined.

Lemma select_cpu_contract_witness :
  exists s', k8s_select_cpu 3 0 0 demo_state = Some (0, s') /\
    s_stats s' !! 0 = Some (SchedStats 0 1 0 0).
Proof.
  destruct (select_cpu_contract 3 0 0 demo_state (TaskStruct 13 103 0 0) 0 true
    (s_kern demo_state) demo_wf) as (s' & R & (_ & S & _) & _);
    [vm_compute; reflexivity | vm_compute; reflexivity |].
  exists s'. split; [exact R|]. rewrite S. vm_compute. reflexivity.
Defined.

Lemma lifecycle_contract_witness :
  exists k, k8s_init demo_state = Some (0, with_kern k demo_state).
Proof.
  destruct (lifecycle_contract demo_state 3 (TaskStruct 13 103 0 0) (ScxExitInfo 64) 0
    (snd (kf_create_dsq K8S_DSQ_ID (-1) (s_kern demo_state)))) as (I & _);
    [vm_compute; reflexivity | reflexivity |].
  eexists. exact I.
Defined.
