(* ===== verification/SchedSystem.v ===== *)
(** * Sequences of callbacks

    The scheduler of bpf/k8s_sched.bpf.c under an arbitrary interleaving of
    its callbacks with the steps of the kernel core and of the agent: tasks are
    created, migrate and exit, run time is accounted, map entries are written
    and deleted.
    [exec] runs one event; [sched_steps] is reachability. *)

From stdpp Require Import base gmap list strings.
From Stdlib Require Import ZArith Lia.
From S2P Require Import Prelude ScxCommon Kernel BpfMacros K8sSched Vtime SchedFacts Demo.

Open Scope Z_scope.
Open Scope word_scope.

(** ** Events *)

Inductive event :=
(* callbacks *)
| EvSelect (p prev_cpu wake_flags : Z)
| EvEnqueue (p enq_flags : Z)
| EvDispatch (cpu prev : Z)
| EvRunning (p : Z)
| EvStopping (p : Z) (runnable : bool)
| EvEnable (p : Z)
(* the kernel core *)
| EvOnCpu (cpu : Z)
| EvAccount (p d : Z)
| EvPick
| EvPlace (p cpu : Z)
| EvFork (p : Z) (t : task_struct)
| EvExit (p : Z)
(* the agent, through the bpf system call *)
| EvPutCgroup (cgid : Z) (tp : task_params)
| EvDelCgroup (cgid : Z)
| EvPutTask (pid : Z) (tp : task_params)
| EvDelTask (pid : Z).

Section Exec.
Context {P : Type} `{Kfuncs P}.

Definition put_cgroup (cgid : Z) (tp : task_params) (s : sched_state P) : sched_state P :=
  SchedState (<[cgid := tp]> (s_cgroup_params s)) (s_task_params s) (s_stats s)
    (vtime_now s) (s_kern s).
Definition del_cgroup (cgid : Z) (s : sched_state P) : sched_state P :=
  SchedState (delete cgid (s_cgroup_params s)) (s_task_params s) (s_stats s)
    (vtime_now s) (s_kern s).
Definition put_task (pid : Z) (tp : task_params) (s : sched_state P) : sched_state P :=
  SchedState (s_cgroup_params s) (<[pid := tp]> (s_task_params s)) (s_stats s)
    (vtime_now s) (s_kern s).
Definition del_task (pid : Z) (s : sched_state P) : sched_state P :=
  SchedState (s_cgroup_params s) (delete pid (s_task_params s)) (s_stats s)
    (vtime_now s) (s_kern s).
Definition on_cpu (c : Z) (s : sched_state P) : sched_state P :=
  with_kern (KMem (k_tasks (s_kern s)) c (k_priv (s_kern s))) s.
Definition with_live (ts : gmap Z task_struct) (s : sched_state P) : sched_state P :=
  with_kern (KMem ts (k_cpu (s_kern s)) (k_priv (s_kern s))) s.

Definition drop {A} (r : option (A * sched_state P)) : option (sched_state P) := snd <$> r.

Definition exec (e : event) (s : sched_state P) : option (sched_state P) :=
  match e with
  | EvSelect p c f => drop (k8s_select_cpu p c f s)
  | EvEnqueue p f => drop (k8s_enqueue p f s)
  | EvDispatch c q => drop (k8s_dispatch c q s)
  | EvRunning p => drop (k8s_running p s)
  | EvStopping p r => drop (k8s_stopping p r s)
  | EvEnable p => drop (k8s_enable p s)
  | EvOnCpu c => Some (on_cpu c s)
  | EvAccount p d => Some (with_kern (core_account p d (s_kern s)) s)
  | EvPick => Some (with_kern (snd (core_pick_local (s_kern s))) s)
  | EvPlace p c => Some (with_kern (core_place p c (s_kern s)) s)
  | EvFork p t => Some (with_live (<[p := t]> (k_tasks (s_kern s))) s)
  | EvExit p => Some (with_live (delete p (k_tasks (s_kern s))) s)
  | EvPutCgroup g tp => Some (put_cgroup g tp s)
  | EvDelCgroup g => Some (del_cgroup g s)
  | EvPutTask q tp => Some (put_task q tp s)
  | EvDelTask q => Some (del_task q s)
  end.

Fixpoint exec_all (es : list event) (s : sched_state P) : option (sched_state P) :=
  match es with
  | [] => Some s
  | e :: es' => s' ← exec e s; exec_all es' s'
  end.

(** An event the environment may produce in [s]: callbacks name live tasks, the
    agent writes 64-bit values, run times are not negative, a new task gets a
    fresh address. *)
Definition admissible (s : sched_state P) (e : event) : Prop :=
  match e with
  | EvSelect p _ _ | EvEnqueue p _ | EvRunning p | EvStopping p _ | EvEnable p =>
      is_Some (k_tasks (s_kern s) !! p)
  | EvAccount _ d => 0 <= d
  | EvFork p t => k_tasks (s_kern s) !! p = None /\ wf_task t
  | EvPutCgroup _ tp | EvPutTask _ tp => wf_params tp
  | _ => True
  end.

Inductive sched_steps : sched_state P -> list event -> sched_state P -> Prop :=
| steps_nil s : sched_steps s [] s
| steps_cons s e s' es s'' :
    admissible s e -> exec e s = Some s' -> sched_steps s' es s'' ->
    sched_steps s (e :: es) s''.

(** The tasks alive after an event, and after a sequence of events. *)
Definition live_after (e : event) (live : gset Z) : gset Z :=
  match e with
  | EvFork p _ => {[p]} ∪ live
  | EvExit p => live ∖ {[p]}
  | _ => live
  end.
Fixpoint live_all (es : list event) (live : gset Z) : gset Z :=
  match es with
  | [] => live
  | e :: es' => live_all es' (live_after e live)
  end.

(** ** Counting *)

Definition add_stats (a b : sched_stats) : sched_stats :=
  SchedStats (enqueues a +w enqueues b) (local_dispatches a +w local_dispatches b)
    (budget_capped a +w budget_capped b) (defaults a +w defaults b).

Definition sum_stats (a b : sched_stats) : sched_stats :=
  SchedStats (enqueues a + enqueues b) (local_dispatches a + local_dispatches b)
    (budget_capped a + budget_capped b) (defaults a + defaults b).

Definition no_stats : sched_stats := SchedStats 0 0 0 0.

End Exec.

Section Tally.
Context {P : Type} `{Kfuncs P} `{!ScxObs P}.

Definition b2z (b : bool) : Z := if b then 1 else 0.
Definition is_capped (s : sched_state P) (p : Z) : bool :=
  task_slice (effective s p) <? DEFAULT_SLICE_NS.
Definition is_found (s : sched_state P) (p : Z) : bool :=
  bool_decide (is_Some (configured s p)).

(** What an event should add to the counters of CPU [c], in plain integers. *)
Definition tally (s : sched_state P) (e : event) (c : Z) : sched_stats :=
  if decide (c = k_cpu (s_kern s)) then
    match e with
    | EvEnqueue p _ => SchedStats 1 0 (b2z (is_capped s p)) (b2z (negb (is_found s p)))
    | EvSelect p prev f =>
        if snd (fst (kf_select_cpu_dfl p prev f (s_kern s)))
        then SchedStats 0 1 (b2z (is_capped s p)) 0 else no_stats
    | _ => no_stats
    end
  else no_stats.

Fixpoint tally_all (es : list event) (s : sched_state P) (c : Z) : sched_stats :=
  match es with
  | [] => no_stats
  | e :: es' =>
      sum_stats (tally s e c)
        (match exec e s with Some s' => tally_all es' s' c | None => no_stats end)
  end.

End Tally.

(** ** Invariants of a single event *)

Section Events.
Context {P : Type} `{Kfuncs P} `{!ScxObs P} `{!ScxLaws P}.
Implicit Types (s : sched_state P) (k : kmem P).

(** The live tasks of [s'] are [live], and its DSQs those of [s]. *)
Record live_dsqs (live : gset Z) s s' : Prop := LiveDsqs {
  ld_live : dom (k_tasks (s_kern s')) = live;
  ld_dsqs d : dsq_exists (s_kern s') d = dsq_exists (s_kern s) d
}.

Lemma live_dsqs_trans s1 s2 s3 L2 L3 :
  live_dsqs L2 s1 s2 -> live_dsqs L3 s2 s3 -> live_dsqs L3 s1 s3.
Proof. intros [_ A] [B C]. split; [done|]. intros d. by rewrite C, A. Qed.

Lemma live_frame s s' :
  frame s s' -> dom (k_tasks (s_kern s')) = dom (k_tasks (s_kern s)) ->
  live_dsqs (dom (k_tasks (s_kern s))) s s'.
Proof. intros [_ _ He] E. split; [done | apply He]. Qed.

Lemma live_alter s s' f p :
  frame s s' -> k_tasks (s_kern s') = alter f p (k_tasks (s_kern s)) ->
  live_dsqs (dom (k_tasks (s_kern s))) s s'.
Proof. intros F E. apply live_frame; [done|]. by rewrite E, dom_alter_L. Qed.

Lemma wf_select s s' idle p :
  wf_state s -> frame s s' -> vtime_now s' = vtime_now s ->
  k_tasks (s_kern s') =
    (if (idle : bool) then alter (set_slice (task_slice (effective s p))) p (k_tasks (s_kern s))
     else k_tasks (s_kern s)) ->
  s_stats s' = (if idle then bump (stats_local (task_slice (effective s p))) s else s_stats s) ->
  wf_state s'.
Proof.
  intros Hw Hf Hv Ht Hs. eapply wf_frame; [exact Hw | exact Hf | | rewrite Hv; apply Hw |].
  - rewrite Hs. destruct idle; [|apply Hw].
    apply wf_bump; [done | intros; by apply wf_stats_local].
  - destruct idle; [|rewrite Ht; apply Hw].
    eapply wf_alter_tasks; [exact Hw | | exact Ht].
    intros t [H1 H2]. split; [by apply slice_is_u64, wf_slice_pos | done].
Qed.

Lemma wf_map_insert (m : gmap Z task_params) i tp :
  map_Forall (fun _ => wf_params) m -> wf_params tp ->
  map_Forall (fun _ => wf_params) (<[i := tp]> m).
Proof. intros. by apply map_Forall_insert_2. Qed.

(** A step of the core on the kernel's private state. *)
Lemma wf_core s k :
  wf_state s -> env_eq (s_kern s) k -> k_tasks k = k_tasks (s_kern s) ->
  wf_state (with_kern k s) /\ live_dsqs (dom (k_tasks (s_kern s))) s (with_kern k s).
Proof.
  intros [? ? ? ? ?] He Ht. split; [split; simpl; by rewrite ?Ht|].
  apply live_frame; [by split | simpl; by rewrite Ht].
Qed.

(** Creating and removing tasks, and changing the CPU. *)
Lemma wf_live s ts c :
  wf_state s -> map_Forall (fun _ => wf_task) ts ->
  let s' := with_kern (KMem ts c (k_priv (s_kern s))) s in
  wf_state s' /\ live_dsqs (dom ts) s s'.
Proof.
  intros [? ? ? ? ?] Ht. split; [by split|]. split; [done|]. intros d. apply law_dsqs_shared.
Qed.

(** Every admissible event runs without fault, keeps the words in range, and
    changes the live tasks and the DSQs only as it says. *)
Lemma exec_ok s e :
  wf_state s -> admissible s e ->
  exists s', exec e s = Some s' /\ wf_state s' /\
    live_dsqs (live_after e (dom (k_tasks (s_kern s)))) s s'.
Proof.
  intros Hw Ha. pose proof Hw as [Hc Ht Hs Hv Hk].
  destruct e; simpl in *;
    try match type of Ha with is_Some _ => destruct Ha as [t Hp] end.
  - destruct (kf_select_cpu_dfl p prev_cpu wake_flags (s_kern s)) as [[cpu idle] k1] eqn:E.
    destruct (select_cpu_run p _ _ s t _ _ _ Hw Hp E) as (s' & -> & K & S & _ & _ & V & F).
    exists s'. split_and!; [done | by eapply wf_select|].
    apply live_frame; [done|]. rewrite K. destruct idle; by rewrite ?dom_alter_L.
  - destruct (enqueue_run p enq_flags s t Hw Hp) as (s' & -> & K & _ & S & V & F).
    exists s'. split_and!; [done | by eapply wf_enqueued | by eapply live_alter].
  - rewrite dispatch_run. eexists. split; [done|].
    apply wf_core; [done | apply law_move_env | apply law_move_tasks].
  - rewrite (running_run p s t Hp). eexists. split_and!; [done | | by apply live_frame].
    split; try done. apply wf_advance; [done | apply (Hk _ _ Hp)].
  - destruct (stopping_run p runnable s t Hp) as (s' & -> & K & S & V & F & _).
    exists s'. split_and!; [done | | by eapply live_alter].
    by apply (wf_stopped s s' p (fun t => vtime_charge (weight (effective s p))
      (used_ns (task_slice (effective s p)) (t_slice t)))).
  - rewrite (enable_run p s t Hp). eexists. split; [done|].
    assert (F : frame s (with_kern (upd_task p (set_dsq_vtime (vtime_now s)) (s_kern s)) s))
      by (split; [done | done | apply law_store_env]).
    split; [|by eapply live_alter].
    eapply wf_frame; [exact Hw | done | done | done |].
    eapply wf_alter_tasks; [exact Hw | | done]. intros t' [H1 H2]. by split.
  - eexists. split; [done|]. by apply (wf_live s (k_tasks (s_kern s))).
  - eexists. split_and!; [done | by apply wf_account |].
    eapply live_alter; [|simpl; apply law_account_tasks].
    split; [done | done | apply law_account_env].
  - eexists. split; [done|]. apply wf_core; [done | apply law_pick_env | apply law_pick_tasks].
  - eexists. split; [done|]. apply wf_core; [done | apply law_place_env | apply law_place_tasks].
  - eexists. split; [done|]. rewrite <- (dom_insert_L _ p t).
    apply wf_live; [done|]. destruct Ha. by apply map_Forall_insert_2.
  - eexists. split; [done|]. rewrite <- dom_delete_L.
    apply wf_live; [done|]. by apply map_Forall_delete.
  - eexists. split_and!; [done | | done]. split; try done. by apply wf_map_insert.
  - eexists. split_and!; [done | | done]. split; try done. by apply map_Forall_delete.
  - eexists. split_and!; [done | | done]. split; try done. by apply wf_map_insert.
  - eexists. split_and!; [done | | done]. split; try done. by apply map_Forall_delete.
Qed.

(** ** Counters *)

Lemma add_stats_none v : wf_stats v -> add_stats v no_stats = v.
Proof.
  intros [? ? ? ?]. unfold add_stats, no_stats, u64_add. simpl.
  rewrite !Z.add_0_r, !u64_small by done. by destruct v.
Qed.

Lemma stats_enqueue_add sl b v :
  wf_stats v ->
  stats_enqueue sl b v =
    add_stats v (SchedStats 1 0 (b2z (sl <? DEFAULT_SLICE_NS)) (b2z (negb b))).
Proof.
  intros [? ? ? ?]. unfold stats_enqueue, add_stats, b2z, u64_add. simpl.
  destruct (sl <? DEFAULT_SLICE_NS), b; simpl; rewrite ?Z.add_0_r;
    f_equal; by rewrite ?u64_small.
Qed.

Lemma stats_local_add sl v :
  wf_stats v ->
  stats_local sl v = add_stats v (SchedStats 0 1 (b2z (sl <? DEFAULT_SLICE_NS)) 0).
Proof.
  intros [? ? ? ?]. unfold stats_local, add_stats, b2z, u64_add. simpl.
  destruct (sl <? DEFAULT_SLICE_NS); simpl; rewrite ?Z.add_0_r;
    f_equal; by rewrite ?u64_small.
Qed.

Lemma add_stats_assoc v a b : add_stats (add_stats v a) b = add_stats v (sum_stats a b).
Proof.
  unfold add_stats, sum_stats, u64_add. simpl.
  by rewrite !u64_add_l, !Z.add_assoc.
Qed.

Lemma bump_lookup f s c :
  bump f s !! c = (if decide (c = k_cpu (s_kern s)) then f else id) <$> s_stats s !! c.
Proof.
  unfold bump. case_decide as D; [subst; apply lookup_alter_eq|].
  rewrite lookup_alter_ne by done. by destruct (s_stats s !! c).
Qed.

(** One event changes the counters by exactly its tally. *)
Lemma exec_stats s e s' c v :
  wf_state s -> admissible s e -> exec e s = Some s' ->
  s_stats s !! c = Some v -> s_stats s' !! c = Some (add_stats v (tally s e c)).
Proof.
  intros Hw Ha He Hv. assert (Wv : wf_stats v) by apply (wf_stats_map _ Hw _ _ Hv).
  unfold tally. destruct e; simpl in *;
    try match type of Ha with is_Some _ => destruct Ha as [t Hp] end;
    try (simplify_eq/=; rewrite Hv; by case_decide; rewrite add_stats_none).
  - destruct (kf_select_cpu_dfl p prev_cpu wake_flags (s_kern s)) as [[cpu idle] k1] eqn:E.
    destruct (select_cpu_run p _ _ s t _ _ _ Hw Hp E) as (s1 & R & _ & S & _).
    rewrite R in He. simplify_eq/=. rewrite S. destruct idle.
    + rewrite bump_lookup, Hv. case_decide; simpl; [by rewrite stats_local_add|].
      by rewrite add_stats_none.
    + rewrite Hv. case_decide; by rewrite add_stats_none.
  - destruct (enqueue_run p enq_flags s t Hw Hp) as (s1 & R & _ & _ & S & _).
    rewrite R in He. simplify_eq/=. rewrite S, bump_lookup, Hv.
    case_decide; simpl; [by rewrite stats_enqueue_add | by rewrite add_stats_none].
  - rewrite dispatch_run in He. simplify_eq/=. rewrite Hv.
    case_decide; by rewrite add_stats_none.
  - rewrite (running_run p s t Hp) in He. simplify_eq/=. rewrite Hv.
    case_decide; by rewrite add_stats_none.
  - destruct (stopping_run p runnable s t Hp) as (s1 & R & _ & S & _).
    rewrite R in He. simplify_eq/=. rewrite S, Hv. case_decide; by rewrite add_stats_none.
  - rewrite (enable_run p s t Hp) in He. simplify_eq/=. rewrite Hv.
    case_decide; by rewrite add_stats_none.
Qed.

(** A tally never counts more capped or unconfigured slices than decisions. *)
Lemma tally_sound s e c :
  0 <= budget_capped (tally s e c) <= enqueues (tally s e c) + local_dispatches (tally s e c) /\
  0 <= defaults (tally s e c) <= enqueues (tally s e c).
Proof.
  unfold tally, b2z, no_stats.
  repeat case_match; simpl; lia.
Qed.

Lemma tally_all_sound es c : forall s,
  let t := tally_all es s c in
  0 <= budget_capped t <= enqueues t + local_dispatches t /\ 0 <= defaults t <= enqueues t.
Proof.
  induction es as [|e es IH]; intros s; [simpl; lia|].
  simpl. pose proof (tally_sound s e c). unfold sum_stats. simpl.
  destruct (exec e s) as [s'|]; [specialize (IH s')|]; simpl in *; lia.
Qed.

End Events.

(** ** What holds along every run *)

Section Runs.
Context {P : Type} `{Kfuncs P} `{!ScxObs P} `{!ScxLaws P}.
Implicit Types (s : sched_state P).

Lemma steps_snoc s es s' e s'' :
  sched_steps s es s' -> admissible s' e -> exec e s' = Some s'' ->
  sched_steps s (es ++ [e]) s''.
Proof.
  induction 1 as [s | s e0 s1 es s' Ha He Hs IH]; intros Ha' He'; simpl;
    (econstructor; [done | done |]); [constructor | by apply IH].
Qed.

Lemma steps_wf s es s' :
  sched_steps s es s' -> wf_state s ->
  wf_state s' /\ live_dsqs (live_all es (dom (k_tasks (s_kern s)))) s s'.
Proof.
  induction 1 as [s | s e s1 es s' Ha He Hs IH]; intros Hw; [done|].
  destruct (exec_ok s e Hw Ha) as (s2 & E & W & L). simplify_eq. simpl.
  destruct (IH W) as [W' L']. rewrite (ld_live _ _ _ L) in L'.
  split; [done|]. by eapply live_dsqs_trans.
Qed.

(** C3: No interleaving of callbacks, run-time accounting, migrations, forks,
    exits and agent writes can make the scheduler fault: from any reachable
    state every admissible event executes, every counter, clock, slice and
    vtime stays a 64-bit word, the live tasks are those the forks and exits
    leave, and the custom DSQ, once created, stays. *)
Theorem scheduler_never_faults s es s' e :
  wf_state s -> sched_steps s es s' -> admissible s' e ->
  exists s'', exec e s' = Some s'' /\ wf_state s'' /\
    dom (k_tasks (s_kern s'')) = live_all (es ++ [e]) (dom (k_tasks (s_kern s))) /\
    (dsq_exists (s_kern s) K8S_DSQ_ID = true -> dsq_exists (s_kern s'') K8S_DSQ_ID = true).
Proof.
  intros Hw Hs Ha. destruct (exec_ok s' e) as (s'' & E & _); [by eapply steps_wf | done |].
  destruct (steps_wf s (es ++ [e]) s'') as [W L];
    [by eapply steps_snoc | done | exists s'']. split_and!; [done | done | apply L |].
  intros Hd. by rewrite (ld_dsqs _ _ _ L).
Qed.

(** The counters of a CPU after a run. *)
Lemma steps_stats s es s' : sched_steps s es s' -> forall c v,
  wf_state s -> s_stats s !! c = Some v ->
  s_stats s' !! c = Some (add_stats v (tally_all es s c)).
Proof.
  induction 1 as [s | s e s1 es s' Ha He Hs IH]; intros c v Hw Hv; simpl.
  - rewrite Hv, add_stats_none; [done | by apply (wf_stats_map _ Hw _ _ Hv)].
  - destruct (exec_ok s e Hw Ha) as (s2 & E & W & _). simplify_eq.
    rewrite He, <- add_stats_assoc. apply IH; [done|]. by eapply exec_stats.
Qed.

(** C18: The per-CPU statistics count what they say: after any run, each counter
    of a CPU is, modulo 2^64, its old value plus the number of enqueues, of
    idle-CPU direct inserts, of slices shortened by a budget and of enqueues
    without parameters that happened on that CPU; shortened slices never
    outnumber scheduling decisions. *)
Theorem stats_count_decisions s es s' c v :
  wf_state s -> sched_steps s es s' -> s_stats s !! c = Some v ->
  s_stats s' !! c = Some (add_stats v (tally_all es s c)) /\
  budget_capped (tally_all es s c) <=
    enqueues (tally_all es s c) + local_dispatches (tally_all es s c) /\
  defaults (tally_all es s c) <= enqueues (tally_all es s c).
Proof.
  intros Hw Hs Hv. pose proof (tally_all_sound es c s) as Hsound. cbv zeta in Hsound.
  split; [by eapply steps_stats | lia].
Qed.

Lemma advance_clock_forward now v :
  0 <= u64 (advance_clock now v - now) <= s64_half.
Proof.
  unfold advance_clock. rewrite vtime_before_s64.
  destruct (Z.ltb_spec (s64 (now - v)) 0) as [Hn|Hn].
  - replace (v - now) with (- (now - v)) by lia. by apply u64_opp_neg.
  - rewrite Z.sub_diag. done.
Qed.

(** What an event does to the clock. *)
Lemma exec_clock s e s' :
  wf_state s -> admissible s e -> exec e s = Some s' ->
  match e with
  | EvRunning p => exists t, k_tasks (s_kern s) !! p = Some t /\
      s' = with_vtime_now (advance_clock (vtime_now s) (t_dsq_vtime t)) s
  | _ => vtime_now s' = vtime_now s
  end.
Proof.
  intros Hw Ha He. destruct e; simpl in *;
    try match type of Ha with is_Some _ => destruct Ha as [t Hp] end;
    try (simplify_eq/=; done).
  - destruct (kf_select_cpu_dfl p prev_cpu wake_flags (s_kern s)) as [[cpu idle] k1] eqn:E.
    destruct (select_cpu_run p _ _ s t _ _ _ Hw Hp E) as (s1 & R & _ & _ & _ & _ & V & _).
    rewrite R in He. by simplify_eq/=.
  - destruct (enqueue_run p enq_flags s t Hw Hp) as (s1 & R & _ & _ & _ & V & _).
    rewrite R in He. by simplify_eq/=.
  - rewrite dispatch_run in He. by simplify_eq/=.
  - rewrite (running_run p s t Hp) in He. simplify_eq/=. by exists t.
  - destruct (stopping_run p runnable s t Hp) as (s1 & R & _ & _ & V & _).
    rewrite R in He. by simplify_eq/=.
  - rewrite (enable_run p s t Hp) in He. by simplify_eq/=.
Qed.

(** The global virtual clock only moves when a task starts running, and then
    to that task's vtime, forwards on the 64-bit circle by at most half of it. *)
Theorem clock_moves_forward s e s' :
  wf_state s -> admissible s e -> exec e s = Some s' ->
  vtime_now s' = vtime_now s \/
  exists p t, e = EvRunning p /\ k_tasks (s_kern s) !! p = Some t /\
    vtime_now s' = t_dsq_vtime t /\ 0 <= u64 (vtime_now s' - vtime_now s) <= s64_half.
Proof.
  intros Hw Ha He. pose proof (exec_clock s e s' Hw Ha He) as Hc.
  destruct e; try by left. destruct Hc as (t & Hp & ->). simpl.
  pose proof (advance_clock_forward (vtime_now s) (t_dsq_vtime t)) as Hf.
  unfold advance_clock in *.
  destruct (vtime_before (vtime_now s) (t_dsq_vtime t)); [|by left].
  right. exists p, t. split_and!; try done; lia.
Qed.

End Runs.

(** ** A run of the demo node *)

Definition demo_events : list event :=
  [ EvSelect 3 0 0; EvPlace 3 0; EvFork 4 (TaskStruct 14 101 0 0); EvEnable 4; EvEnqueue 4 0;
    EvDispatch 0 0; EvRunning 1; EvAccount 1 3000000;
    EvStopping 1 true; EvEnqueue 1 0; EvPutCgroup 7000 (TaskParams 500 1000000);
    EvExit 4; EvOnCpu 1; EvEnqueue 2 0 ].

(** A sequence of events is checked by running it. *)
Definition admissibleb (s : sched_state RefKernel.priv) (e : event) : bool :=
  match e with
  | EvSelect p _ _ | EvEnqueue p _ | EvRunning p | EvStopping p _ | EvEnable p =>
      bool_decide (is_Some (k_tasks (s_kern s) !! p))
  | EvAccount _ d => 0 <=? d
  | EvFork p t => bool_decide (p ∉ dom (k_tasks (s_kern s))) &&
      (u64b (t_slice t) && u64b (t_dsq_vtime t))
  | EvPutCgroup _ tp | EvPutTask _ tp => u64b (weight tp) && u64b (budget_ns tp)
  | _ => true
  end.
Fixpoint check_run (es : list event) (s : sched_state RefKernel.priv) : bool :=
  match es with
  | [] => true
  | e :: es' =>
      admissibleb s e && match exec e s with Some s' => check_run es' s' | None => false end
  end.

Lemma admissibleb_ok s e : admissibleb s e = true -> admissible s e.
Proof.
  destruct e; simpl; rewrite ?andb_true_iff, ?bool_decide_eq_true, ?Z.leb_le; intros; try done;
    destruct_and?; repeat split; try (by apply u64b_ok). by apply not_elem_of_dom.
Qed.

Lemma check_run_steps es : forall s,
  check_run es s = true -> sched_steps s es (default s (exec_all es s)).
Proof.
  induction es as [|e es IH]; intros s Hc; simpl in *; [constructor|].
  apply andb_true_iff in Hc as [Ha Hc]. destruct (exec e s) as [s1|] eqn:E; [|done].
  specialize (IH s1 Hc). econstructor; [by apply admissibleb_ok | exact E |].
  simpl. destruct (exec_all es s1) eqn:E1; [done|].
  exfalso. clear -Hc E1. revert s1 Hc E1. induction es as [|e es IH]; intros s1 Hc E1; [done|].
  simpl in *. apply andb_true_iff in Hc as [_ Hc]. destruct (exec e s1); [|done].
  by eapply IH.
Qed.

Definition demo_final : sched_state RefKernel.priv :=
  default demo_state (exec_all demo_events demo_state).

Lemma demo_steps : sched_steps demo_state demo_events demo_final.
Proof. apply check_run_steps. vm_compute. reflexivity. Qed.

Lemma scheduler_never_faults_witness :
  exists s'', exec (EvStopping 2 false) demo_final = Some s'' /\ wf_state s'' /\
    dom (k_tasks (s_kern s'')) = {[1; 2; 3]}.
Proof.
  destruct (scheduler_never_faults demo_state demo_events demo_final (EvStopping 2 false)
    demo_wf demo_steps) as (s'' & E & W & L & _);
    [apply (bool_decide_unpack _); vm_compute; reflexivity | exists s''].
  split; [exact E | split; [exact W|]]. rewrite L.
  apply (bool_decide_unpack _). vm_compute. exact I.
Defined.

Lemma stats_count_decisions_witness :
  s_stats demo_final !! 0 = Some (SchedStats 2 1 0 0).
Proof.
  destruct (stats_count_decisions demo_state demo_events demo_final 0 (SchedStats 0 0 0 0)
    demo_wf demo_steps) as (E & _ & _); [vm_compute; reflexivity|].
  rewrite E. vm_compute. reflexivity.
Defined.

(** Task 1 ran for 3 ms at the highest weight; when it runs again it pulls the
    clock to 3 ms. *)
Lemma clock_moves_forward_witness :
  exists p t, EvRunning 1 = EvRunning p /\ k_tasks (s_kern demo_final) !! p = Some t /\
    vtime_now (default demo_final (exec (EvRunning 1) demo_final)) = t_dsq_vtime t.
Proof.
  destruct (clock_moves_forward demo_final (EvRunning 1)
    (default demo_final (exec (EvRunning 1) demo_final)))
    as [E | (p & t & E & Ht & V & _)].
  - exact (proj1 (steps_wf demo_state demo_events demo_final demo_steps demo_wf)).
  - apply (bool_decide_unpack _). vm_compute. reflexivity.
  - vm_compute. reflexivity.
  - exfalso. vm_compute in E. discriminate.
  - exists p, t. exact (conj E (conj Ht V)).
Defined.
