(* ===== verification/VclockRace.v ===== *)
(** * The global clock under races

    [k8s_running] reads the clock, compares and writes it back without
    synchronisation; the source calls the clock's monotonicity best-effort
    ("racy across CPUs") and good enough for the wake-up clamp.  Here the
    callback is split into its load and its store, and those of different CPUs
    interleave with each other and with every other event of [SchedSystem].
    The clock can move backwards, also behind a copy a CPU has loaded; but a
    value that was behind the clock and behind every loaded copy at one moment
    stays behind them all, and the clamp never places a task more than a slice
    further back than that. *)

From stdpp Require Import base gmap list strings.
From Stdlib Require Import ZArith Lia.
From S2P Require Import Prelude ScxCommon Kernel BpfMacros K8sSched Vtime SchedFacts Demo SchedSystem.

Open Scope Z_scope.
Open Scope word_scope.

(** ** The split callback *)

Inductive racy_event :=
| Sys (e : event)
| Load (cpu p : Z)
| Store (cpu : Z).

Section Race.
Context {P : Type} `{Kfuncs P}.

(** The scheduler, and per CPU inside [k8s_running] the clock it loaded and the
    vtime of the task that starts there. *)
Record race := Race {
  r_state : sched_state P;
  r_loaded : gmap Z (Z * Z)
}.

(** [vtime_before(vtime_now, p->scx.dsq_vtime)] on the loaded value *)
Definition running_load (c p : Z) (x : race) : option race :=
  t ← k_tasks (s_kern (r_state x)) !! p;
  Some (Race (r_state x) (<[c := (vtime_now (r_state x), t_dsq_vtime t)]> (r_loaded x))).

(** [vtime_now = p->scx.dsq_vtime], if the comparison was true *)
Definition running_store (c : Z) (x : race) : option race :=
  '(seen, v) ← r_loaded x !! c;
  Some (Race (if vtime_before seen v then with_vtime_now v (r_state x) else r_state x)
          (delete c (r_loaded x))).

Definition racy_exec (e : racy_event) (x : race) : option race :=
  match e with
  | Sys e => s ← exec e (r_state x); Some (Race s (r_loaded x))
  | Load c p => running_load c p x
  | Store c => running_store c x
  end.

Fixpoint racy_exec_all (es : list racy_event) (x : race) : option race :=
  match es with
  | [] => Some x
  | e :: es' => x' ← racy_exec e x; racy_exec_all es' x'
  end.

(** ** Positions on the circle *)




End Race.
Arguments race : clear implicits.
Arguments Race {P}.




Section Facts.
Context {P : Type} `{Kfuncs P} `{!ScxObs P} `{!ScxLaws P}.
Implicit Types (x : race P) (s : sched_state P).






End Facts.

(** ** Two CPUs *)

(** A task with vtime 10 starts on CPU 0 and one with vtime 5 on CPU 1. *)
Definition two_tasks : race RefKernel.priv :=
  Race (with_live (<[8 := TaskStruct 18 108 0 10]> (<[9 := TaskStruct 19 109 0 5]> demo_tasks))
          demo_state) ∅.
Definition race_events : list racy_event :=
  [ Load 0 8; Load 1 9; Store 0; Sys (EvEnqueue 2 0); Store 1 ].
Definition after_race : race RefKernel.priv := default two_tasks (racy_exec_all race_events two_tasks).


(** The store of CPU 1 overwrites that of CPU 0: the clock was 10 and is 5. *)
Example clock_goes_back :
  vtime_now (r_state (default two_tasks (racy_exec_all (take 3 race_events) two_tasks))) = 10 /\
  vtime_now (r_state after_race) = 5.
Proof. vm_compute. split; reflexivity. Qed.

(** A third CPU that loads the clock in between holds a copy ahead of it. *)
Example copy_ahead_of_clock :
  let x := default two_tasks (racy_exec_all [Load 0 8; Load 1 9; Store 0; Load 2 8; Store 1] two_tasks) in
  r_loaded x !! 2 = Some (10, 10) /\ vtime_now (r_state x) = 5.
Proof. vm_compute. split; reflexivity. Qed.





