(* ===== verification/Fairness.v ===== *)
(** * Weights become CPU shares

    The long-run behaviour of the callbacks of bpf/k8s_sched.bpf.c when a set
    of tasks competes for one CPU without sleeping.  A round is the callback
    sequence of sched_ext for one time slice: dispatch, pick, running, the
    task runs, stopping, enqueue.  The virtual times are 64-bit words that
    wrap; the proof carries unwrapped readings of them. *)

From stdpp Require Import base gmap list.
From Stdlib Require Import ZArith Lia.
From S2P Require Import Prelude ScxCommon Kernel BpfMacros K8sSched Vtime SchedFacts Demo.

Open Scope Z_scope.
Open Scope word_scope.

(** ** Rounds *)

Section Rounds.
Context {P : Type} `{Kfuncs P}.
#[local] Abbreviation prog := (bpf (sched_state P)).

(** A picked task runs for [d], or until its slice ends, and stops.  The result
    is the time it used. *)
Definition serve (p d : Z) : prog Z :=
  _ ← k8s_running p;
  before ← read_task p;
  _ ← call_kernel_ (core_account p d);
  after ← read_task p;
  _ ← k8s_stopping p true;
  mret (t_slice before - t_slice after).

(** Its turn: it is served and, still runnable, goes back to the queue. *)
Definition turn (p d : Z) : prog Z :=
  used ← serve p d;
  _ ← k8s_enqueue p 0;
  mret used.

(** One round: the task that ran and the time it used, [None] on an idle CPU.
    [d] is how long the task would run if its slice did not end first. *)
Definition round (d : Z) : prog (option (Z * Z)) :=
  s ← get_state;
  _ ← k8s_dispatch (k_cpu (s_kern s)) 0;
  o ← call_kernel core_pick_local;
  match o with
  | None => mret None
  | Some p => used ← turn p d; mret (Some (p, used))
  end.

(** A sequence of rounds and its trace. *)
Fixpoint rounds (ds : list Z) : prog (list (Z * Z)) :=
  match ds with
  | [] => mret []
  | d :: ds' =>
      o ← round d;
      tr ← rounds ds';
      mret (match o with Some x => x :: tr | None => tr end)
  end.

End Rounds.

(** CPU time a task received, and how many rounds it ran. *)
Fixpoint service (p : Z) (tr : list (Z * Z)) : Z :=
  match tr with
  | [] => 0
  | (q, u) :: tr' => (if decide (q = p) then u else 0) + service p tr'
  end.
Fixpoint turns (p : Z) (tr : list (Z * Z)) : Z :=
  match tr with
  | [] => 0
  | (q, _) :: tr' => (if decide (q = p) then 1 else 0) + turns p tr'
  end.

(** Virtual time charged to a task along a trace, given the weights. *)
Fixpoint charged (w : Z -> Z) (p : Z) (tr : list (Z * Z)) : Z :=
  match tr with
  | [] => 0
  | (q, u) :: tr' =>
      (if decide (q = p) then vtime_charge (w q) u else 0) + charged w p tr'
  end.

(** ** The competing tasks *)

Section Saturated.
Context {P : Type} `{Kfuncs P} `{!ScxObs P}.

(** How far a task's vtime is ahead of the clock, as a signed word. *)
Definition lead (s : sched_state P) (p : Z) : Z :=
  s64 (vt_of (s_kern s) p - vtime_now s).

(** The custom DSQ was created and every task of [T] may run on this CPU. *)
Record ready (T : gset Z) (k : kmem P) : Prop := Ready {
  ready_dsq : dsq_exists k K8S_DSQ_ID = true;
  ready_allowed p : p ∈ T -> task_allowed k p (k_cpu k) = true
}.

(** The tasks of [T] and no other wait on the custom DSQ, the local DSQ is
    empty, and every one was queued with its slice at most one default slice
    behind the clock and at most [B] ahead, [B] bounding the charge of a full
    slice. *)
Record saturated (T : gset Z) (B : Z) (s : sched_state P) : Prop := Saturated {
  sat_wf : wf_state s;
  sat_queue : dsq_queue (s_kern s) K8S_DSQ_ID = T;
  sat_local : local_queue (s_kern s) (k_cpu (s_kern s)) = [];
  sat_slice p : p ∈ T -> exists t, k_tasks (s_kern s) !! p = Some t /\
    t_slice t = task_slice (effective s p);
  sat_weight p : p ∈ T -> 0 < weight (effective s p);
  sat_charge p : p ∈ T ->
    vtime_charge (weight (effective s p)) (task_slice (effective s p)) <= B;
  sat_lead p : p ∈ T -> - DEFAULT_SLICE_NS <= lead s p <= B;
  sat_ready : ready T (s_kern s)
}.

(** The same with unwrapped virtual times: [V] of the tasks, [N] of the clock. *)
Record tracked (T : gset Z) (B : Z) (V : Z -> Z) (N : Z) (s : sched_state P) : Prop := Tracked {
  tr_wf : wf_state s;
  tr_queue : dsq_queue (s_kern s) K8S_DSQ_ID = T;
  tr_local : local_queue (s_kern s) (k_cpu (s_kern s)) = [];
  tr_task p : p ∈ T -> exists t, k_tasks (s_kern s) !! p = Some t /\
    t_slice t = task_slice (effective s p) /\ t_dsq_vtime t ≡w V p;
  tr_weight p : p ∈ T -> 0 < weight (effective s p);
  tr_charge p : p ∈ T ->
    vtime_charge (weight (effective s p)) (task_slice (effective s p)) <= B;
  tr_clock : vtime_now s ≡w N;
  tr_lead p : p ∈ T -> - DEFAULT_SLICE_NS <= V p - N <= B;
  tr_ready : ready T (s_kern s)
}.

End Saturated.

Section Proofs.
Context {P : Type} `{Kfuncs P} `{!ScxObs P} `{!ScxLaws P}.
Implicit Types (s : sched_state P) (k : kmem P).

Lemma ready_env T (k k' : kmem P) : env_eq k k' -> ready T k -> ready T k'.
Proof.
  intros E [Hd Ha]. split; [by rewrite (env_dsqs _ _ E)|].
  intros p Hp. rewrite (env_allowed _ _ E), (env_cpu _ _ E). auto.
Qed.

Lemma ready_here T (k : kmem P) :
  ready T k -> dsq_queue k K8S_DSQ_ID = T -> runnable_here k K8S_DSQ_ID = T.
Proof.
  intros [_ Ha] Hq. unfold runnable_here. rewrite Hq. apply set_eq. intros p.
  rewrite elem_of_filter. split; [by intros [_ ?] | auto].
Qed.

(** The word-level condition gives unwrapped times relative to the clock. *)
Lemma saturated_tracked T B s :
  saturated T B s -> tracked T B (fun p => vtime_now s + lead s p) (vtime_now s) s.
Proof.
  intros [Hw Hq Hl Hs Hwt Hc Hd Hr]. split; auto.
  - intros p Hp. destruct (Hs p Hp) as (t & Ht & Hsl). exists t. split_and!; auto.
    unfold eq64, lead, vt_of. rewrite Ht. simpl.
    rewrite <- (u64_add_r (vtime_now s)), u64_s64, u64_add_r. f_equal. lia.
  - done.
  - intros p Hp. specialize (Hd p Hp). lia.
Qed.

Lemma tracked_vt T B V N s p :
  tracked T B V N s -> p ∈ T -> vt_of (s_kern s) p ≡w V p.
Proof.
  intros Ht Hp. destruct (tr_task _ _ _ _ _ Ht p Hp) as (t & E & _ & Hv).
  unfold vt_of. by rewrite E.
Qed.

(** Within the window the signed difference of two queued vtimes is exact. *)
Lemma tracked_diff T B V N s p q :
  B <= 2 ^ 62 -> tracked T B V N s -> p ∈ T -> q ∈ T ->
  s64 (vt_of (s_kern s) p - vt_of (s_kern s) q) = V p - V q.
Proof.
  intros HB Ht Hp Hq.
  assert (E : vt_of (s_kern s) p - vt_of (s_kern s) q ≡w V p - V q).
  { by rewrite (tracked_vt T B V N s p), (tracked_vt T B V N s q). }
  unfold s64. unfold eq64 in E. rewrite E. fold (s64 (V p - V q)). apply s64_small.
  pose proof (tr_lead _ _ _ _ _ Ht p Hp). pose proof (tr_lead _ _ _ _ _ Ht q Hq).
  change (2 ^ 62) with 4611686018427387904 in HB.
  unfold s64_half, DEFAULT_SLICE_NS in *. lia.
Qed.

Lemma tracked_window T B V N s :
  B <= 2 ^ 62 -> tracked T B V N s -> within_window (vt_of (s_kern s)) T.
Proof.
  intros HB Ht a b c Ha Hb Hc. rewrite !(tracked_diff T B V N s) by done. lia.
Qed.

(** A run of [d] against a full slice uses [min slice d]. *)
Lemma used_after_account sl d :
  0 < sl <= DEFAULT_SLICE_NS -> 0 <= d -> used_ns sl (sl - Z.min sl d) = Z.min sl d.
Proof.
  intros Hs Hd. rewrite used_ns_exact; [case_bool; lia | | lia].
  unfold is_u64, u64_mod, DEFAULT_SLICE_NS in *. lia.
Qed.

Lemma charge_monotone w u u' :
  0 <= u <= u' -> u' <= DEFAULT_SLICE_NS -> 0 < w -> vtime_charge w u <= vtime_charge w u'.
Proof.
  intros Hu Hu' Hw. rewrite !vtime_charge_exact by lia.
  destruct (Z.eqb_spec w 0); [lia|]. apply Z.div_le_mono; lia.
Qed.

Lemma charge_nonneg w u : 0 <= u <= DEFAULT_SLICE_NS -> 0 < w -> 0 <= vtime_charge w u.
Proof.
  intros Hu Hw. rewrite vtime_charge_exact by lia.
  destruct (Z.eqb_spec w 0); [lia|]. apply Z.div_pos; lia.
Qed.

(** What being served, and a whole turn, leave of the task. *)
Definition after_serve (sl w used : Z) (t : task_struct) : task_struct :=
  set_dsq_vtime (t_dsq_vtime t +w vtime_charge w used) (set_slice (sl - used) t).
Definition after_turn (now sl w used : Z) (t : task_struct) : task_struct :=
  set_dsq_vtime (clamp_vtime now (t_dsq_vtime t +w vtime_charge w used)) (set_slice sl t).

Lemma tasks_alter_live (m : gmap Z task_struct) f p t :
  m !! p = Some t -> alter f p m !! p = Some (f t).
Proof. intros E. by rewrite lookup_alter_eq, E. Qed.

(** Frames compose. *)
Lemma frame_trans s1 s2 s3 : frame s1 s2 -> frame s2 s3 -> frame s1 s3.
Proof.
  intros [A1 A2 A3] [B1 B2 B3]. split; [by etrans.. | by eapply env_eq_trans].
Qed.

Lemma same_tgids_trans s1 s2 s3 : same_tgids s1 s2 -> same_tgids s2 s3 -> same_tgids s1 s3.
Proof. intros A B p. by rewrite B, A. Qed.

Lemma serve_run p d s t :
  let sl := task_slice (effective s p) in
  let w := weight (effective s p) in
  wf_state s -> 0 <= d -> k_tasks (s_kern s) !! p = Some t -> t_slice t = sl ->
  exists s', serve p d s = Some (Z.min sl d, s') /\
    k_tasks (s_kern s') = alter (after_serve sl w (Z.min sl d)) p (k_tasks (s_kern s)) /\
    queues_eq (s_kern s) (s_kern s') /\
    vtime_now s' = advance_clock (vtime_now s) (t_dsq_vtime t) /\
    frame s s' /\ same_tgids s s' /\ wf_state s'.
Proof.
  intros sl w Hw Hd Hp Hsl.
  unfold serve. erewrite bpf_bind_run by by apply running_run.
  set (s2 := with_vtime_now (advance_clock (vtime_now s) (t_dsq_vtime t)) s). cbv beta.
  assert (W2 : wf_state s2).
  { destruct Hw as [? ? ? Hc Ht]. split; try done. simpl.
    apply wf_advance; [done | apply (Ht _ _ Hp)]. }
  erewrite bpf_bind_run by by apply (read_task_run p s2 t). cbv beta.
  erewrite bpf_bind_run by reflexivity. cbv beta.
  set (s3 := with_kern (core_account p d (s_kern s2)) s2).
  assert (T3 : k_tasks (s_kern s3) !! p = Some (set_slice (t_slice t - Z.min (t_slice t) d) t)).
  { simpl. rewrite law_account_tasks. by rewrite lookup_alter_eq, Hp. }
  assert (F3 : frame s s3) by (split; [done | done | apply law_account_env]).
  assert (G3 : same_tgids s s3)
    by (eapply same_tgids_alter; [|apply law_account_tasks]; done).
  assert (W3 : wf_state s3) by by apply wf_account.
  erewrite bpf_bind_run by by apply (read_task_run p s3). cbv beta.
  destruct (stopping_run p true s3 _ T3) as (s4 & R4 & K4 & S4 & V4 & F4 & k4 & Q4 & E4).
  rewrite (effective_frame s s3) in K4, E4 by done. fold sl w in K4, E4.
  assert (G4 : same_tgids s3 s4) by (eapply same_tgids_alter; [|exact K4]; done).
  erewrite bpf_bind_run by exact R4. cbv beta. exists s4. split_and!.
  - unfold mret, bpf_ret. simpl. repeat f_equal. lia.
  - rewrite K4. simpl. rewrite law_account_tasks, alter_alter_eq.
    apply alter_ext. intros t' Ht'. assert (t' = t) as -> by congruence.
    unfold after_serve, set_dsq_vtime, set_slice. simpl. rewrite Hsl.
    pose proof (wf_slice_pos s p Hw) as Hpos. fold sl in Hpos. by rewrite used_after_account.
  - rewrite E4. eapply queues_eq_trans; [apply (law_account_queues p d)|].
    eapply queues_eq_trans; [apply Q4 | apply law_store_queues].
  - done.
  - by eapply frame_trans.
  - by eapply same_tgids_trans.
  - by apply (wf_stopped s3 s4 p (fun t => vtime_charge w (used_ns sl (t_slice t)))).
Qed.

Lemma turn_run p d s t :
  let sl := task_slice (effective s p) in
  let w := weight (effective s p) in
  let now := advance_clock (vtime_now s) (t_dsq_vtime t) in
  wf_state s -> dsq_exists (s_kern s) K8S_DSQ_ID = true -> 0 <= d ->
  k_tasks (s_kern s) !! p = Some t -> t_slice t = sl ->
  exists s', turn p d s = Some (Z.min sl d, s') /\
    k_tasks (s_kern s') = alter (after_turn now sl w (Z.min sl d)) p (k_tasks (s_kern s)) /\
    (forall q, dsq_queue (s_kern s') q =
      if decide (q = K8S_DSQ_ID) then {[p]} ∪ dsq_queue (s_kern s) q
      else dsq_queue (s_kern s) q) /\
    (forall c, local_queue (s_kern s') c = local_queue (s_kern s) c) /\
    vtime_now s' = now /\ frame s s' /\ same_tgids s s' /\ wf_state s'.
Proof.
  intros sl w now Hw Hex Hd Hp Hsl.
  destruct (serve_run p d s t Hw Hd Hp Hsl) as (s4 & R4 & K4 & Q4 & V4 & F4 & G4 & W4).
  fold sl w now in R4, K4, V4. unfold turn. erewrite bpf_bind_run by exact R4. cbv beta.
  assert (T4 := K4). apply (f_equal (fun m => m !! p)) in T4.
  rewrite (tasks_alter_live _ _ _ _ Hp) in T4.
  destruct (enqueue_run p 0 s4 _ W4 T4) as (s5 & R5 & K5 & QL5 & S5 & V5 & F5).
  destruct QL5 as [Q5 L5]; [by rewrite (env_dsqs _ _ (frame_env _ _ F4))|].
  assert (G5 : same_tgids s4 s5) by (eapply same_tgids_alter; [|exact K5]; done).
  erewrite bpf_bind_run by exact R5. exists s5. split_and!.
  - done.
  - rewrite K5, (effective_frame s s4), K4, alter_alter_eq by done. fold sl.
    apply alter_ext. intros t' _. unfold after_turn, after_serve, set_dsq_vtime, set_slice. simpl.
    by rewrite V4.
  - intros q. rewrite Q5. by rewrite (queues_dsq _ _ Q4).
  - intros c. rewrite L5. apply Q4.
  - by rewrite V5, V4.
  - by eapply frame_trans.
  - by eapply same_tgids_trans.
  - eapply wf_enqueued; eauto.
Qed.

(** Dispatch and pick: a task of least unwrapped vtime leaves the queue. *)
Lemma pick_least T B V N s :
  B <= 2 ^ 62 -> T <> ∅ -> tracked T B V N s ->
  exists p k, p ∈ T /\ (forall q, q ∈ T -> V p <= V q) /\
    (k8s_dispatch (k_cpu (s_kern s)) 0 ≫= fun _ => call_kernel core_pick_local) s =
      Some (Some p, with_kern k s) /\
    k_tasks k = k_tasks (s_kern s) /\ env_eq (s_kern s) k /\
    dsq_queue k K8S_DSQ_ID = T ∖ {[p]} /\ local_queue k (k_cpu k) = [].
Proof.
  intros HB HT Ht. pose proof (tracked_window T B V N s HB Ht) as Hwin.
  pose proof Ht as [_ Hq Hl _ _ _ _ _ Hr]. pose proof (ready_here T _ Hr Hq) as Hh.
  rewrite <- Hh in HT. rewrite <- Hq in Hwin.
  destruct (law_move_some K8S_DSQ_ID (s_kern s) (ready_dsq _ _ Hr) HT Hwin) as (p & Hp & _ & Mq & Ml & Mmin).
  pose proof (law_move_tasks K8S_DSQ_ID (s_kern s)) as Mt.
  pose proof (law_move_env K8S_DSQ_ID (s_kern s)) as Me.
  rewrite Hh in Hp, Mmin. rewrite Hq in Mq. rewrite Hl in Ml. simpl in Ml.
  erewrite bpf_bind_run by apply dispatch_run.
  set (k1 := snd (kf_dsq_move_to_local K8S_DSQ_ID (s_kern s))) in *.
  rewrite <- (env_cpu _ _ Me) in Ml.
  destruct (law_pick_cons k1 p [] Ml) as [Pp Pl].
  exists p, (snd (core_pick_local k1)). split_and!; [done | | | | | |].
  - intros q Hq'. specialize (Mmin q Hq').
    rewrite (tracked_diff T B V N s q p) in Mmin by done. lia.
  - unfold call_kernel. simpl. destruct (core_pick_local k1). simpl in *. by subst.
  - by rewrite law_pick_tasks.
  - eapply env_eq_trans; [exact Me | apply law_pick_env].
  - by rewrite law_pick_dsq.
  - by rewrite (env_cpu _ _ (law_pick_env k1)).
Qed.

(** The unwrapped times after a turn of [p]. *)
Definition charge_to (p c : Z) (V : Z -> Z) (q : Z) : Z :=
  if decide (q = p) then V p + c else V q.

(** The bookkeeping of a turn of a least task [p] that used [u]: from [s] with
    [p] taken off the queue ([k]) to [s'], the invariant is kept. *)
Lemma tracked_turn T B V N s k s' p t u :
  let c := vtime_charge (weight (effective s p)) u in
  B <= 2 ^ 62 -> tracked T B V N s -> p ∈ T -> (forall q, q ∈ T -> V p <= V q) ->
  k_tasks (s_kern s) !! p = Some t -> t_dsq_vtime t ≡w V p ->
  0 <= c <= B -> k_tasks k = k_tasks (s_kern s) ->
  dsq_queue k K8S_DSQ_ID = T ∖ {[p]} -> local_queue k (k_cpu k) = [] ->
  k_cpu (s_kern s') = k_cpu k -> (forall q, effective s' q = effective s q) -> wf_state s' ->
  k_tasks (s_kern s') = alter (after_turn (vtime_now s') (task_slice (effective s p))
    (weight (effective s p)) u) p (k_tasks k) ->
  dsq_queue (s_kern s') K8S_DSQ_ID = {[p]} ∪ dsq_queue k K8S_DSQ_ID ->
  (forall c, local_queue (s_kern s') c = local_queue k c) ->
  vtime_now s' = advance_clock (vtime_now s) (t_dsq_vtime t) -> ready T (s_kern s') ->
  tracked T B (charge_to p c V) (Z.max N (V p)) s'.
Proof.
  intros c HB [Hw _ _ Htask Hwt Hc Hclk Hlead _] Hp Hmin Tp Tv Hcb Kt Kq Kl Kc Eff W K Q L C Rd.
  change (2 ^ 62) with 4611686018427387904 in HB.
  pose proof (Hlead p Hp) as Lp.
  assert (Hnow : vtime_now s' ≡w Z.max N (V p)).
  { rewrite C. apply clock_is_max; [done | done |].
    unfold s64_half, DEFAULT_SLICE_NS in *. lia. }
  split; [done | | by rewrite L, Kc | | intros q ?; rewrite Eff; auto.. | done | | done].
  - rewrite Q, Kq. by rewrite <- union_difference_singleton_L.
  - intros q Hq'. rewrite Eff. unfold charge_to. case_decide as D; [subst q|].
    + eexists. split_and!; [by rewrite K, lookup_alter_eq, Kt, Tp | done |].
      unfold after_turn. simpl.
      rewrite (clamp_is_max _ _ (Z.max N (V p)) (V p + c)); [|done| |];
        unfold s64_half, DEFAULT_SLICE_NS in *; [| |lia].
      * rewrite Z.max_l; [done | lia].
      * unfold u64_add. by rewrite eq64_u64, Tv.
    + destruct (Htask q Hq') as (t' & E1 & E2 & E3). exists t'. split_and!; [|done|done].
      by rewrite K, lookup_alter_ne, Kt.
  - intros q Hq'. pose proof (Hlead q Hq'). pose proof (Hmin q Hq').
    unfold charge_to, DEFAULT_SLICE_NS in *. case_decide; lia.
Qed.

(** One round from a tracked state serves a task of least vtime, charges it,
    clamps nothing, and ends in a tracked state. *)
Lemma round_tracked T B V N s d :
  B <= 2 ^ 62 -> T <> ∅ -> 0 <= d -> tracked T B V N s ->
  exists p u s', p ∈ T /\ (forall q, q ∈ T -> V p <= V q) /\
    u = Z.min (task_slice (effective s p)) d /\
    round d s = Some (Some (p, u), s') /\
    tracked T B (charge_to p (vtime_charge (weight (effective s p)) u) V) (Z.max N (V p)) s' /\
    frame s s' /\ same_tgids s s'.
Proof.
  intros HB HT Hd Ht.
  destruct (pick_least T B V N s HB HT Ht) as (p & k & Hp & Hmin & Hrun & Kt & Ke & Kq & Kl).
  set (s1 := with_kern k s).
  assert (F1 : frame s s1) by by split.
  assert (G1 : same_tgids s s1) by (intros q; simpl; by rewrite Kt).
  pose proof Ht as [Hw _ _ Htask Hwt Hc _ _ Hr].
  assert (W1 : wf_state s1).
  { eapply wf_frame; [exact Hw | done | apply Hw | apply Hw | simpl; rewrite Kt; apply Hw]. }
  destruct (Htask p Hp) as (t & Tp & Tsl & Tv).
  pose proof (wf_slice_pos s p Hw) as Hpos.
  destruct (turn_run p d s1 t W1) as (s' & R & K & Q & L & C & F & G & W); [|done|..].
  { apply (ready_dsq T), (ready_env T (s_kern s)); done. }
  { simpl. by rewrite Kt. }
  { by rewrite (effective_frame s s1). }
  rewrite !(effective_frame s s1) in R, K by done.
  set (u := Z.min (task_slice (effective s p)) d) in *.
  set (c := vtime_charge (weight (effective s p)) u) in *.
  assert (Hcb : 0 <= c <= B).
  { split; [apply charge_nonneg; [|auto]; lia|]. etrans; [|apply (Hc p Hp)].
    apply charge_monotone; auto; lia. }
  exists p, u, s'. split_and!; [done | done | done | | | eauto using frame_trans
    | eauto using same_tgids_trans].
  { unfold round. erewrite bpf_bind_run by reflexivity. cbv beta.
    rewrite <- bpf_bind_assoc. erewrite bpf_bind_run by exact Hrun. cbv beta iota.
    by erewrite bpf_bind_run by exact R. }
  assert (Eff : forall q, effective s' q = effective s q).
  { intros q. rewrite (effective_frame s1 s'), (effective_frame s s1); done. }
  eapply (tracked_turn T B V N s k s' p t u); try done.
  - apply (env_cpu _ _ (frame_env _ _ F)).
  - by rewrite K, C.
  - apply (ready_env T (s_kern s1)); [apply F | by apply (ready_env T (s_kern s))].
Qed.

(** A trace of legal turns: tasks of [T], each within its slice. *)
Definition legal (T : gset Z) (s : sched_state P) (tr : list (Z * Z)) : Prop :=
  Forall (fun x => fst x ∈ T /\ 0 <= snd x <= task_slice (effective s (fst x))) tr.

Lemma rounds_tracked T B ds : forall V N s,
  B <= 2 ^ 62 -> T <> ∅ -> Forall (Z.le 0) ds -> tracked T B V N s ->
  exists tr s' V' N', rounds ds s = Some (tr, s') /\
    map snd tr = zip_with (fun x d => Z.min (task_slice (effective s (fst x))) d) tr ds /\
    length tr = length ds /\ legal T s tr /\ tracked T B V' N' s' /\
    frame s s' /\ same_tgids s s' /\
    forall p, V' p = V p + charged (fun q => weight (effective s q)) p tr.
Proof.
  induction ds as [|d ds IH]; intros V N s HB HT Hds Ht.
  { exists [], s, V, N. split_and!; try done; [by apply Forall_nil | intros p; simpl; lia]. }
  inversion Hds as [|? ? Hd Hds']; subst.
  destruct (round_tracked T B V N s d HB HT Hd Ht)
    as (p & u & s1 & Hp & _ & Hu & R & Ht1 & F & G).
  destruct (IH _ _ s1 HB HT Hds' Ht1) as (tr & s' & V' & N' & R' & M & Len & Lg & Ht' & F' & G' & HV).
  assert (Eff : forall q, effective s1 q = effective s q) by by intros; apply effective_frame.
  pose proof (wf_slice_pos s p (tr_wf _ _ _ _ _ Ht)) as Hpos.
  exists ((p, u) :: tr), s', V', N'. split_and!; [| | | | done | eauto using frame_trans
    | eauto using same_tgids_trans |].
  - simpl. erewrite bpf_bind_run by exact R. by erewrite bpf_bind_run by exact R'.
  - simpl. rewrite M, Hu. f_equal. apply zip_with_ext; [|done|done]. intros. by rewrite Eff.
  - simpl. by rewrite Len.
  - constructor; [simpl; split; [done | lia]|].
    eapply Forall_impl; [exact Lg|]. intros x Hx. by rewrite <- Eff.
  - intros q. rewrite HV. unfold charge_to. simpl.
    assert (E : charged (fun q => weight (effective s1 q)) q tr =
                charged (fun q => weight (effective s q)) q tr).
    { clear -Eff. induction tr as [|[a b] tr IH]; simpl; [done|]. by rewrite IH, Eff. }
    rewrite E. repeat case_decide; subst; try done; lia.
Qed.

(** Charges are services scaled by 10000 / weight, up to one nanosecond a turn. *)
Lemma charged_service T s w p tr :
  wf_state s -> (forall q, w q = weight (effective s q)) -> 0 < w p -> legal T s tr ->
  w p * charged w p tr <= 10000 * service p tr <=
    w p * charged w p tr + w p * turns p tr.
Proof.
  intros Hwf Hw Hp. induction tr as [|[q u] tr IH]; intros Hl; simpl; [lia|].
  inversion Hl as [|? ? [_ Hu] Hl']; subst. simpl in Hu. specialize (IH Hl').
  pose proof (wf_slice_pos s q Hwf). case_decide; subst; [|lia].
  pose proof (vtime_charge_proportional (w p) u Hp ltac:(lia)). lia.
Qed.

Lemma tracked_saturated T B V N s :
  B <= 2 ^ 62 -> tracked T B V N s -> saturated T B s.
Proof.
  intros HB Ht. pose proof Ht as [Hw Hq Hl Htask Hwt Hc Hclk Hlead Hr].
  split; auto.
  - intros p Hp. destruct (Htask p Hp) as (t & ? & ? & _). eauto.
  - intros p Hp. unfold lead.
    assert (E : vt_of (s_kern s) p - vtime_now s ≡w V p - N).
    { by rewrite (tracked_vt T B V N s p), Hclk. }
    unfold s64. unfold eq64 in E. rewrite E. fold (s64 (V p - N)).
    specialize (Hlead p Hp). rewrite s64_small; [done|].
    change (2 ^ 62) with 4611686018427387904 in HB.
    unfold s64_half, DEFAULT_SLICE_NS in *. lia.
Qed.

End Proofs.

(** ** Sums over the competing tasks *)

Definition sum_over (T : gset Z) (f : Z -> Z) : Z :=
  foldr (fun q a => f q + a) 0 (elements T).

Definition total_charged (w : Z -> Z) (tr : list (Z * Z)) : Z :=
  foldr (fun x a => vtime_charge (w (fst x)) (snd x) + a) 0 tr.

Lemma sum_list_indicator (l : list Z) (f : Z -> Z) p c :
  NoDup l -> p ∈ l ->
  foldr (fun q a => ((if decide (p = q) then c else 0) + f q) + a) 0 l =
  c + foldr (fun q a => f q + a) 0 l.
Proof.
  intros Hnd. revert p. induction Hnd as [|x l Hx Hnd IH]; intros p Hp; [set_solver|].
  simpl. case_decide as D; [subst x|].
  - assert (E : forall l', p ∉ l' ->
      foldr (fun q a => ((if decide (p = q) then c else 0) + f q) + a) 0 l' =
      foldr (fun q a => f q + a) 0 l').
    { induction l' as [|y l' IH']; intros Hn; simpl; [done|].
      rewrite decide_False by set_solver. rewrite IH' by set_solver. lia. }
    rewrite E by done. lia.
  - rewrite IH by set_solver. lia.
Qed.

Lemma sum_charged T w tr :
  Forall (fun x => fst x ∈ T) tr -> sum_over T (fun p => charged w p tr) = total_charged w tr.
Proof.
  unfold sum_over. induction tr as [|[q u] tr IH]; intros Hl; simpl.
  - induction (elements T); simpl; lia.
  - inversion Hl; subst. rewrite <- IH by done.
    rewrite sum_list_indicator; [done | apply NoDup_elements | by apply elem_of_elements].
Qed.

Lemma sum_over_bound T f M :
  (forall p, p ∈ T -> f p <= M) -> sum_over T f <= M * Z.of_nat (size T).
Proof.
  intros Hf. unfold sum_over, size, set_size. simpl.
  assert (Hf' : forall p, p ∈ elements T -> f p <= M).
  { intros p Hp%elem_of_elements. auto. }
  revert Hf'. generalize (elements T). clear. intros l.
  induction l as [|x l IH]; intros Hf; simpl; [lia|].
  pose proof (Hf x ltac:(set_solver)). specialize (IH ltac:(set_solver)). lia.
Qed.

Lemma charged_no_turn w p tr : turns p tr = 0 -> charged w p tr = 0.
Proof.
  assert (Hn : forall tr, 0 <= turns p tr).
  { clear tr. induction tr as [|[a b] tr IH]; simpl; [lia|]. case_decide; lia. }
  induction tr as [|[a b] tr IH]; simpl; [done|].
  specialize (Hn tr). case_decide; intros; [lia|]. rewrite IH; lia.
Qed.

(** ** Fairness *)

Section Fair.
Context {P : Type} `{Kfuncs P} `{!ScxObs P} `{!ScxLaws P}.
Implicit Types (s : sched_state P).

(** Turns of at least [delta] are charged at least [delta] each. *)
Lemma total_charged_lower T s tr : forall ds delta,
  wf_state s -> 0 < delta -> Forall (Z.le delta) ds ->
  (forall q, q ∈ T -> 0 < weight (effective s q)) ->
  (forall q, q ∈ T -> weight (effective s q) <= MAX_PRIO_WEIGHT /\
                      delta <= task_slice (effective s q)) ->
  legal T s tr ->
  map snd tr = zip_with (fun x d => Z.min (task_slice (effective s (fst x))) d) tr ds ->
  length tr = length ds ->
  delta * Z.of_nat (length tr) <= total_charged (fun q => weight (effective s q)) tr.
Proof.
  induction tr as [|[q u] tr IH]; intros [|d ds] delta Hwf Hdl Hds Hpos Hw Lg M Len;
    simpl in *; try lia.
  inversion Hds; inversion Lg as [|? ? [Hq Hu] Lg']; simplify_eq/=.
  destruct (Hw q Hq) as [Hw1 Hw2]. pose proof (Hpos q Hq).
  pose proof (wf_slice_pos s q Hwf).
  assert (task_slice (effective s q) `min` d <=
          vtime_charge (weight (effective s q)) (task_slice (effective s q) `min` d))
    by (apply vtime_charge_ge_used; lia).
  specialize (IH ds delta Hwf Hdl ltac:(done) Hpos Hw Lg' ltac:(done) ltac:(lia)).
  unfold total_charged in *. simpl.
  rewrite Nat2Z.inj_succ, Z.mul_succ_r. lia.
Qed.

(** The turns of a task that each last at least [delta]. *)
Lemma turns_service T s p tr : forall ds delta,
  Forall (Z.le delta) ds -> (forall q, q ∈ T -> delta <= task_slice (effective s q)) ->
  legal T s tr ->
  map snd tr = zip_with (fun x d => Z.min (task_slice (effective s (fst x))) d) tr ds ->
  length tr = length ds ->
  delta * turns p tr <= service p tr.
Proof.
  induction tr as [|[q u] tr IH]; intros [|d ds] delta Hds Hsl Lg M Len; simpl in *; try lia.
  inversion Hds; inversion Lg as [|? ? [Hq Hu] Lg']; simplify_eq/=.
  specialize (IH ds delta ltac:(done) Hsl Lg' ltac:(done) ltac:(lia)). pose proof (Hsl q Hq).
  case_decide; lia.
Qed.

(** C1: Weights are CPU shares.  From a saturated state any sequence of rounds
    runs without fault, every round serves a task and the state stays saturated.
    However long the run is, the virtual times charged to two competing tasks
    differ by at most a constant, twice the spread [B] plus a default slice.  A
    charge is the time used times 10000 over the weight, rounded down, so the
    times received, scaled in this way, differ by at most that constant plus
    one nanosecond per turn; when turns last at least [delta], a task has at
    most its time divided by [delta] of them. *)
Theorem weighted_fairness T B s ds :
  B <= 2 ^ 62 -> T <> ∅ -> Forall (Z.le 0) ds -> saturated T B s ->
  exists tr s', rounds ds s = Some (tr, s') /\ length tr = length ds /\
    saturated T B s' /\
    (forall p q, p ∈ T -> q ∈ T ->
      let w := fun r => weight (effective s r) in
      charged w p tr <= charged w q tr + 2 * (B + DEFAULT_SLICE_NS) /\
      w p * charged w p tr <= 10000 * service p tr <= w p * (charged w p tr + turns p tr) /\
      10000 * service p tr * w q <=
      10000 * service q tr * w p + w p * w q * (2 * (B + DEFAULT_SLICE_NS) + turns p tr)) /\
    (forall p delta, Forall (Z.le delta) ds ->
      (forall q, q ∈ T -> delta <= task_slice (effective s q)) ->
      delta * turns p tr <= service p tr).
Proof.
  intros HB HT Hds Hs. pose proof (saturated_tracked T B s Hs) as Ht.
  destruct (rounds_tracked T B ds _ _ s HB HT Hds Ht)
    as (tr & s' & V' & N' & R & M & Len & Lg & Ht' & _ & _ & HV).
  exists tr, s'. split_and!; [done | done | by eapply tracked_saturated | |
    intros p delta Hd Hsl; by eapply turns_service].
  intros p q Hp Hq w.
  assert (Hwp : 0 < w p) by apply (tr_weight _ _ _ _ _ Ht p Hp).
  assert (Hwq : 0 < w q) by apply (tr_weight _ _ _ _ _ Ht q Hq).
  pose proof (charged_service T s w p tr (sat_wf _ _ _ Hs) ltac:(done) Hwp Lg) as [Lp Up].
  pose proof (charged_service T s w q tr (sat_wf _ _ _ Hs) ltac:(done) Hwq Lg) as [Lq _].
  pose proof (HV p) as Vp. pose proof (HV q) as Vq.
  pose proof (tr_lead _ _ _ _ _ Ht p Hp) as L1. pose proof (tr_lead _ _ _ _ _ Ht q Hq) as L2.
  pose proof (tr_lead _ _ _ _ _ Ht' p Hp) as L3. pose proof (tr_lead _ _ _ _ _ Ht' q Hq) as L4.
  fold w in Vp, Vq. cbv beta in *.
  assert (D : charged w p tr <= charged w q tr + 2 * (B + DEFAULT_SLICE_NS)) by lia.
  split_and!; [done | done | lia |].
  assert (X1 : 10000 * service p tr * w q <= (w p * charged w p tr + w p * turns p tr) * w q)
    by (apply Z.mul_le_mono_nonneg_r; lia).
  assert (X2 : w q * charged w q tr * w p <= 10000 * service q tr * w p)
    by (apply Z.mul_le_mono_nonneg_r; lia).
  assert (X3 : w p * w q * charged w p tr <= w p * w q * (charged w q tr + 2 * (B + DEFAULT_SLICE_NS)))
    by (apply Z.mul_le_mono_nonneg_l; [apply Z.mul_nonneg_nonneg; lia | lia]).
  lia.
Qed.

(** C5: No starvation.  With weights of at most 10000 and every turn able to run
    for at least [delta], the shortest slice permitting, a competing task that
    gets no turn bounds the length of the run: [delta] times the number of
    rounds is at most the number of tasks times twice the spread. *)
Theorem no_starvation T B s ds delta p :
  B <= 2 ^ 62 -> 0 < delta -> Forall (Z.le delta) ds -> saturated T B s -> p ∈ T ->
  (forall q, q ∈ T -> weight (effective s q) <= MAX_PRIO_WEIGHT /\
                      delta <= task_slice (effective s q)) ->
  exists tr s', rounds ds s = Some (tr, s') /\
    (turns p tr = 0 ->
     delta * Z.of_nat (length ds) <= 2 * (B + DEFAULT_SLICE_NS) * Z.of_nat (size T)).
Proof.
  intros HB Hdl Hds Hs Hp Hw. pose proof (saturated_tracked T B s Hs) as Ht.
  assert (HT : T <> ∅) by (intros ->; by apply not_elem_of_empty in Hp).
  assert (Hds0 : Forall (Z.le 0) ds) by (eapply Forall_impl; [exact Hds | intros; simpl in *; lia]).
  destruct (rounds_tracked T B ds _ _ s HB HT Hds0 Ht)
    as (tr & s' & V' & N' & R & M & Len & Lg & Ht' & _ & _ & HV).
  exists tr, s'. split; [done|]. intros Hz.
  set (w := fun q => weight (effective s q)) in *.
  assert (Lgt : Forall (fun x => fst x ∈ T) tr) by (eapply Forall_impl; [exact Lg | by intros x [? _]]).
  assert (Up : total_charged w tr <= 2 * (B + DEFAULT_SLICE_NS) * Z.of_nat (size T)).
  { rewrite <- (sum_charged T w tr Lgt). apply sum_over_bound. intros q Hq.
    pose proof (HV p) as Vp. pose proof (HV q) as Vq.
    rewrite (charged_no_turn w p tr Hz) in Vp. cbv beta in *.
    pose proof (tr_lead _ _ _ _ _ Ht p Hp). pose proof (tr_lead _ _ _ _ _ Ht q Hq).
    pose proof (tr_lead _ _ _ _ _ Ht' p Hp). pose proof (tr_lead _ _ _ _ _ Ht' q Hq).
    cbv beta in *. lia. }
  pose proof (total_charged_lower T s tr ds delta (sat_wf _ _ _ Hs) Hdl Hds
    (tr_weight _ _ _ _ _ Ht) Hw Lg M Len) as Lo.
  rewrite Len in Lo. etrans; [exact Lo | exact Up].
Qed.

End Fair.

(** ** The demo node competes *)

Definition demo_T : gset Z := {[1; 2]}.

Lemma demo_T_cases p : p ∈ demo_T -> p = 1 \/ p = 2.
Proof. unfold demo_T. rewrite elem_of_union, !elem_of_singleton. done. Qed.

Lemma demo_T_nonempty : demo_T <> ∅.
Proof. intros E. apply (f_equal (fun X => bool_decide (1 ∈ X))) in E. discriminate. Qed.

Lemma demo_saturated : saturated demo_T 50000000 demo_state.
Proof.
  split; [exact demo_wf | reflexivity | reflexivity | intros p [-> | ->]%demo_T_cases .. | ].
  9: { split; [vm_compute; reflexivity|]. intros p [-> | ->]%demo_T_cases; vm_compute; reflexivity. }
  all: try (eexists; split; vm_compute; reflexivity).
  all: try (vm_compute; reflexivity).
  all: try (vm_compute; discriminate).
  all: vm_compute; split; discriminate.
Qed.

Lemma weighted_fairness_witness :
  exists tr s', rounds [5000000; 5000000; 1000000; 5000000; 5000000] demo_state = Some (tr, s') /\
    charged (fun r => weight (effective demo_state r)) 1 tr <=
      charged (fun r => weight (effective demo_state r)) 2 tr + 110000000 /\
    1000000 * turns 1 tr <= service 1 tr.
Proof.
  destruct (weighted_fairness demo_T 50000000 demo_state
    [5000000; 5000000; 1000000; 5000000; 5000000]) as (tr & s' & R & _ & _ & F & D);
    [vm_compute; discriminate | exact demo_T_nonempty
    | repeat constructor; discriminate | exact demo_saturated |].
  exists tr, s'. split; [exact R|]. split.
  - apply (F 1 2); unfold demo_T; set_solver.
  - apply D; [repeat constructor; discriminate|].
    intros q [-> | ->]%demo_T_cases; vm_compute; discriminate.
Defined.

Lemma no_starvation_witness :
  exists tr s', rounds [5000000; 5000000; 5000000] demo_state = Some (tr, s') /\
    (turns 2 tr = 0 -> 2000000 * 3 <= 110000000 * 2).
Proof.
  destruct (no_starvation demo_T 50000000 demo_state [5000000; 5000000; 5000000] 2000000 2)
    as (tr & s' & R & F);
    [vm_compute; discriminate | reflexivity | repeat constructor; discriminate
    | exact demo_saturated | unfold demo_T; set_solver
    | intros q [-> | ->]%demo_T_cases; vm_compute; split; discriminate |].
  exists tr, s'. split; [exact R | exact F].
Defined.
