(* ===== verification/GoStrings.v ===== *)
(** * The string functions of the Go agent

    What the agent uses of Go's [strconv] and [strings] packages: [ParseUint]
    and [ParseInt] in base ten with their overflow checks at machine width,
    [TrimSpace], [Split] on a newline, [ReplaceAll] of a byte, [Contains].  Go
    strings are byte strings; [TrimSpace] is modelled for ASCII text, which is
    what the kernel writes.  The lemmas relate the parsers to the decimal value
    of a string and to [pretty], the shortest decimal numeral. *)

From stdpp Require Import base list strings pretty numbers.
From Stdlib Require Import ZArith Lia Ascii.
From S2P Require Import Prelude.

Open Scope Z_scope.

(** ** strconv *)

Inductive num_result := NumOk (v : Z) | ErrSyntax | ErrRange.

Definition byte_val (c : ascii) : Z := Z.of_N (N_of_ascii c).
Definition is_digit (c : ascii) : bool := (48 <=? byte_val c) && (byte_val c <=? 57).
Definition digit_val (c : ascii) : Z := byte_val c - 48.

(** [maxUint64/10 + 1] *)
Definition cutoff10 : Z := (u64_mod - 1) / 10 + 1.

(** The loop of [ParseUint(s, 10, bitSize)]; a letter is a digit out of base
    ten, so every byte that is not a decimal digit is a syntax error. *)
Fixpoint parse_uint_loop (max_val n : Z) (s : string) : num_result :=
  match s with
  | EmptyString => NumOk n
  | String c s' =>
      if negb (is_digit c) then ErrSyntax else
      if cutoff10 <=? n then ErrRange else
      let n := u64 (n * 10) in
      let n1 := u64 (n + digit_val c) in
      if (n1 <? n) || (max_val <? n1) then ErrRange
      else parse_uint_loop max_val n1 s'
  end.

Definition ParseUint (s : string) (bit_size : Z) : num_result :=
  match s with
  | EmptyString => ErrSyntax
  | _ => parse_uint_loop (2 ^ bit_size - 1) 0 s
  end.

(** [ParseInt(s, 10, bitSize)] *)
Definition ParseInt (s : string) (bit_size : Z) : num_result :=
  match s with
  | EmptyString => ErrSyntax
  | String c s' =>
      let neg := Ascii.eqb c "-" in
      let body := if Ascii.eqb c "+" || neg then s' else s in
      let cutoff := 2 ^ (bit_size - 1) in
      match ParseUint body bit_size with
      | ErrSyntax => ErrSyntax
      | r =>
          let un := match r with NumOk v => v | _ => 2 ^ bit_size - 1 end in
          if negb neg && (cutoff <=? un) then ErrRange else
          if neg && (cutoff <? un) then ErrRange else
          NumOk (if neg then - un else un)
      end
  end.

(** ** strings *)

Definition nl : ascii := "010".
Definition is_space (c : ascii) : bool :=
  ((9 <=? byte_val c) && (byte_val c <=? 13)) || (byte_val c =? 32).

Fixpoint trim_left (s : string) : string :=
  match s with
  | String c s' => if is_space c then trim_left s' else s
  | EmptyString => EmptyString
  end.
(** A byte stays when something that is not space follows or it is one. *)
Fixpoint trim_right (s : string) : string :=
  match s with
  | EmptyString => EmptyString
  | String c s' =>
      match trim_right s' with
      | EmptyString => if is_space c then EmptyString else String c EmptyString
      | t => String c t
      end
  end.
Definition TrimSpace (s : string) : string := trim_right (trim_left s).

(** [Split(s, sep)] for a one-byte separator: always at least one piece. *)
Fixpoint Split (sep : ascii) (s : string) : list string :=
  match s with
  | EmptyString => [EmptyString]
  | String c s' =>
      if Ascii.eqb c sep then EmptyString :: Split sep s'
      else match Split sep s' with
           | w :: ws => String c w :: ws
           | [] => [String c EmptyString]
           end
  end.

(** [ReplaceAll(s, old, new)] for one-byte arguments. *)
Fixpoint ReplaceAll (s : string) (old new : ascii) : string :=
  match s with
  | EmptyString => EmptyString
  | String c s' => String (if Ascii.eqb c old then new else c) (ReplaceAll s' old new)
  end.

(** [Contains(s, sub)] *)
Fixpoint Contains (s sub : string) : bool :=
  String.prefix sub s ||
  match s with String _ s' => Contains s' sub | EmptyString => false end.

(** ** The decimal value of a string *)

Fixpoint decimal_from (n : Z) (s : string) : option Z :=
  match s with
  | EmptyString => Some n
  | String c s' => if is_digit c then decimal_from (n * 10 + digit_val c) s' else None
  end.
Definition decimal (s : string) : option Z :=
  match s with EmptyString => None | _ => decimal_from 0 s end.

Lemma digit_val_range c : is_digit c = true -> 0 <= digit_val c <= 9.
Proof. unfold is_digit, digit_val. rewrite andb_true_iff, !Z.leb_le. lia. Qed.

Lemma decimal_from_ge s : forall n v, 0 <= n -> decimal_from n s = Some v -> n <= v.
Proof.
  induction s as [|c s IH]; simpl; intros n v Hn.
  - intros [= <-]. lia.
  - destruct (is_digit c) eqn:E; [|done]. pose proof (digit_val_range c E).
    intros Hv. apply IH in Hv; lia.
Qed.

(** The checks of the loop stop exactly the values that do not fit. *)
Lemma parse_uint_loop_spec b s : 0 <= b <= 64 -> forall n v, 0 <= n < 2 ^ b ->
  parse_uint_loop (2 ^ b - 1) n s = NumOk v <-> decimal_from n s = Some v /\ v < 2 ^ b.
Proof.
  intros Hb. assert (Hpow : 2 ^ b <= u64_mod).
  { change u64_mod with (2 ^ 64). apply Z.pow_le_mono_r; lia. }
  induction s as [|c s IH]; simpl; intros n v Hn; [naive_solver lia|].
  destruct (is_digit c) eqn:E; simpl; [|naive_solver].
  pose proof (digit_val_range c E) as Hd.
  assert (Hbig : 2 ^ b <= n * 10 + digit_val c ->
    ~ (decimal_from (n * 10 + digit_val c) s = Some v /\ v < 2 ^ b)).
  { intros H [Hv ?]. apply decimal_from_ge in Hv; lia. }
  unfold cutoff10. change ((u64_mod - 1) / 10 + 1) with 1844674407370955162.
  destruct (Z.leb_spec 1844674407370955162 n).
  { split; [done|]. intros H'. destruct Hbig; [unfold u64_mod in *; lia | done]. }
  rewrite (u64_small (n * 10)) by (unfold is_u64, u64_mod; lia).
  destruct (decide (n * 10 + digit_val c < u64_mod)) as [Hf|Hf].
  - rewrite u64_small by (unfold is_u64; lia).
    destruct (Z.ltb_spec (n * 10 + digit_val c) (n * 10)); [lia|]. simpl.
    destruct (Z.ltb_spec (2 ^ b - 1) (n * 10 + digit_val c)).
    + split; [done|]. intros H'. destruct Hbig; [lia | done].
    + apply IH. lia.
  - replace (u64 (n * 10 + digit_val c)) with (n * 10 + digit_val c - u64_mod)
      by (unfold u64, u64_mod in *; Z.div_mod_to_equations; lia).
    destruct (Z.ltb_spec (n * 10 + digit_val c - u64_mod) (n * 10)); [|unfold u64_mod in *; lia].
    simpl. split; [done|]. intros H'. destruct Hbig; [lia | done].
Qed.

Lemma ParseUint_spec s b v : 0 <= b <= 64 ->
  ParseUint s b = NumOk v <-> decimal s = Some v /\ v < 2 ^ b.
Proof.
  intros Hb. unfold ParseUint, decimal. destruct s as [|c s]; [naive_solver|].
  apply parse_uint_loop_spec; [done|]. pose proof (Z.pow_pos_nonneg 2 b). lia.
Qed.

Lemma decimal_nonneg s v : decimal s = Some v -> 0 <= v.
Proof. destruct s; [done|]. by apply decimal_from_ge. Qed.

(** ** Numerals *)

Lemma pretty_digit d : (d < 10)%N ->
  is_digit (pretty_N_char d) = true /\ digit_val (pretty_N_char d) = Z.of_N d /\
  is_space (pretty_N_char d) = false.
Proof.
  intros Hd.
  assert (d = 0 \/ d = 1 \/ d = 2 \/ d = 3 \/ d = 4 \/ d = 5 \/ d = 6 \/ d = 7 \/ d = 8 \/ d = 9)%N
    as H by lia.
  repeat destruct H as [->|H]; [vm_compute; auto.. | subst; vm_compute; auto].
Qed.

Lemma decimal_from_pretty (x : N) : forall s,
  decimal_from 0 (pretty_N_go x s) = decimal_from (Z.of_N x) s.
Proof.
  induction (N.lt_wf_0 x) as [x _ IH]. intros s.
  destruct (decide (x = 0%N)) as [->|Hx]; [by rewrite pretty_N_go_0|].
  rewrite pretty_N_go_step by lia. rewrite IH by (apply N.div_lt; lia).
  destruct (pretty_digit (x `mod` 10)) as (E1 & E2 & _); [apply N.mod_lt; lia|].
  simpl. rewrite E1, E2. f_equal. rewrite N2Z.inj_mod, N2Z.inj_div.
  pose proof (Z.div_mod (Z.of_N x) 10). lia.
Qed.

Lemma pretty_nonempty (x : N) : pretty x <> "".
Proof.
  unfold pretty, pretty_N. destruct (decide (x = 0%N)) as [|Hx]; [done|].
  intros E. pose proof (decimal_from_pretty x "") as H. rewrite E in H. simpl in H.
  injection H. lia.
Qed.

Lemma decimal_pretty (x : N) : decimal (pretty x) = Some (Z.of_N x).
Proof.
  pose proof (pretty_nonempty x) as Hne. unfold decimal.
  destruct (pretty x) eqn:E; [done|]. rewrite <- E. clear Hne E.
  unfold pretty, pretty_N. destruct (decide (x = 0%N)) as [->|Hx]; [done|].
  by rewrite decimal_from_pretty.
Qed.

(** The first byte of a numeral is a digit, not a sign. *)
Lemma digit_not_sign c : is_digit c = true -> Ascii.eqb c "+" = false /\ Ascii.eqb c "-" = false.
Proof. intros H. split; apply Ascii.eqb_neq; intros ->; by vm_compute in H. Qed.

Lemma decimal_from_head n c s v : decimal_from n (String c s) = Some v -> is_digit c = true.
Proof. simpl. by destruct (is_digit c). Qed.

(** An unsigned numeral below the sign bit is parsed by [ParseInt] as it is. *)
Lemma ParseInt_decimal s b v : 1 <= b <= 64 -> decimal s = Some v -> v < 2 ^ (b - 1) ->
  ParseInt s b = NumOk v.
Proof.
  intros Hb Hs Hv.
  assert (Hdouble : 2 ^ b = 2 * 2 ^ (b - 1)) by (rewrite <- Z.pow_succ_r by lia; f_equal; lia).
  pose proof (decimal_nonneg _ _ Hs).
  assert (Hu : ParseUint s b = NumOk v) by (apply ParseUint_spec; [lia | split; [done | lia]]).
  destruct s as [|c s]; [done|]. unfold ParseInt.
  destruct (digit_not_sign c) as [-> ->]; [by eapply decimal_from_head|]. cbn [orb].
  rewrite Hu. cbn. destruct (Z.leb_spec (2 ^ (b - 1)) v); [lia | done].
Qed.

(** ** Trimming and splitting *)

Lemma trim_comm s : trim_right (trim_left s) = trim_left (trim_right s).
Proof.
  induction s as [|c s IH]; simpl; [done|].
  destruct (is_space c) eqn:E; simpl.
  - rewrite IH. destruct (trim_right s) eqn:Et; simpl; [done | by rewrite E].
  - destruct (trim_right s); simpl; by rewrite E.
Qed.

Lemma TrimSpace_of_right s t : trim_right s = trim_right t -> TrimSpace s = TrimSpace t.
Proof. unfold TrimSpace. rewrite !trim_comm. by intros ->. Qed.

Lemma Split_cons sep s : exists w ws, Split sep s = w :: ws.
Proof.
  induction s as [|c s (w & ws & E)]; simpl; [eauto|].
  destruct (Ascii.eqb c sep); [eauto|]. rewrite E. eauto.
Qed.

Lemma Split_step sep c s :
  Split sep (String c s) =
    if Ascii.eqb c sep then "" :: Split sep s
    else match Split sep s with w :: ws => String c w :: ws | [] => [String c ""] end.
Proof. reflexivity. Qed.

Lemma nl_space : is_space nl = true.
Proof. reflexivity. Qed.

Lemma omap_cons {A B} (f : A -> option B) x l :
  omap f (x :: l) = match f x with Some y => y :: omap f l | None => omap f l end.
Proof. reflexivity. Qed.

(** What a line-wise reader that trims its lines and skips blank ones sees is
    not changed by trimming the whole text first. *)
Section Lines.
Context {A : Type} (parse : string -> option A).
Hypothesis parse_blank : parse "" = None.

Definition read_lines (s : string) : list A := omap (fun l => parse (TrimSpace l)) (Split nl s).

Lemma read_lines_left s : read_lines (trim_left s) = read_lines s.
Proof.
  induction s as [|c s IH]; [done|]. simpl. destruct (is_space c) eqn:E; [|done].
  rewrite IH. unfold read_lines. simpl. destruct (Ascii.eqb c nl).
  - simpl. change (TrimSpace "") with "". by rewrite parse_blank.
  - destruct (Split_cons nl s) as (w & ws & ->). simpl.
    replace (TrimSpace (String c w)) with (TrimSpace w); [done|].
    unfold TrimSpace. simpl. by rewrite E.
Qed.

(** First lines agree up to trailing space, the rest line by line. *)
Lemma split_trim_right s w ws w' ws' :
  Split nl s = w :: ws -> Split nl (trim_right s) = w' :: ws' ->
  trim_right w = trim_right w' /\
  omap (fun l => parse (TrimSpace l)) ws = omap (fun l => parse (TrimSpace l)) ws'.
Proof.
  revert w ws w' ws'.
  induction s as [|c s IH]; intros w ws w' ws' H1 H2; [simpl in *; naive_solver|].
  destruct (Split_cons nl s) as (x & xs & E1).
  destruct (Split_cons nl (trim_right s)) as (x' & xs' & E2).
  destruct (IH _ _ _ _ E1 E2) as [Hw Hws]. pose proof (TrimSpace_of_right _ _ Hw) as Ht.
  cbn [Split] in H1. rewrite E1 in H1. cbn [trim_right] in H2.
  destruct (trim_right s) as [|d t] eqn:Et.
  - simpl in E2. injection E2 as <- <-. simpl in Hw, Hws.
    destruct (Ascii.eqb_spec c nl) as [->|Hc].
    + rewrite nl_space in H2. simpl in *. simplify_eq. simpl.
      rewrite Ht. change (TrimSpace "") with "". by rewrite parse_blank.
    + injection H1 as <- <-. destruct (is_space c) eqn:Es; simpl in H2.
      * injection H2 as <- <-. simpl. by rewrite Hw, Es.
      * apply Ascii.eqb_neq in Hc. rewrite Hc in H2. injection H2 as <- <-. simpl. by rewrite Hw.
  - rewrite Split_step, E2 in H2. destruct (Ascii.eqb_spec c nl) as [->|Hc].
    + simplify_eq. split; [done|]. by rewrite !omap_cons, Ht, Hws.
    + simplify_eq. simpl. by rewrite Hw.
Qed.

Lemma read_lines_right s : read_lines (trim_right s) = read_lines s.
Proof.
  destruct (Split_cons nl s) as (w & ws & E1).
  destruct (Split_cons nl (trim_right s)) as (w' & ws' & E2).
  destruct (split_trim_right _ _ _ _ _ E1 E2) as [Hw Hws].
  unfold read_lines. rewrite E1, E2, !omap_cons.
  by rewrite (TrimSpace_of_right _ _ Hw), Hws.
Qed.

Lemma read_lines_trim s : read_lines (TrimSpace s) = read_lines s.
Proof. unfold TrimSpace. by rewrite read_lines_right, read_lines_left. Qed.

End Lines.

(** One line per word, each ended by a newline. *)
Definition unlines (ws : list string) : string :=
  foldr (fun w s => w +:+ String nl s) "" ws.

Fixpoint no_byte (p : ascii -> bool) (s : string) : bool :=
  match s with EmptyString => true | String c s' => negb (p c) && no_byte p s' end.

Lemma Split_line w s :
  no_byte (fun c => Ascii.eqb c nl) w = true -> Split nl (w +:+ String nl s) = w :: Split nl s.
Proof.
  induction w as [|c w IH]; simpl; [done|].
  rewrite andb_true_iff, negb_true_iff. intros [-> Hw]. by rewrite IH.
Qed.

Lemma Split_unlines ws :
  Forall (fun w => no_byte (fun c => Ascii.eqb c nl) w = true) ws ->
  Split nl (unlines ws) = ws ++ [""].
Proof. induction 1; simpl; [done|]. rewrite Split_line by done. by f_equal. Qed.

Lemma trim_id s : no_byte is_space s = true -> TrimSpace s = s.
Proof.
  intros H. unfold TrimSpace.
  assert (trim_left s = s) as ->.
  { destruct s; simpl in *; [done|]. apply andb_true_iff in H as [H _].
    apply negb_true_iff in H. by rewrite H. }
  induction s as [|c s IH]; simpl in *; [done|]. apply andb_true_iff in H as [Hc Hs].
  rewrite IH by done. destruct s; [|done]. apply negb_true_iff in Hc. by rewrite Hc.
Qed.

(** Numerals have no space and no newline. *)
Lemma no_byte_mono (p q : ascii -> bool) s :
  (forall c, q c = true -> p c = true) -> no_byte p s = true -> no_byte q s = true.
Proof.
  intros Hpq. induction s as [|c s IH]; simpl; [done|].
  rewrite !andb_true_iff, !negb_true_iff. intros [Hc Hs]. split; [|auto].
  destruct (q c) eqn:E; [|done]. by rewrite (Hpq c E) in Hc.
Qed.

Lemma pretty_go_no_space (x : N) : forall s,
  no_byte is_space s = true -> no_byte is_space (pretty_N_go x s) = true.
Proof.
  induction (N.lt_wf_0 x) as [x _ IH]. intros s Hs.
  destruct (decide (x = 0%N)) as [->|Hx]; [by rewrite pretty_N_go_0|].
  rewrite pretty_N_go_step by lia. apply IH; [apply N.div_lt; lia|].
  destruct (pretty_digit (x `mod` 10)) as (_ & _ & E); [apply N.mod_lt; lia|].
  simpl. by rewrite E.
Qed.

Lemma pretty_no_space (x : N) : no_byte is_space (pretty x) = true.
Proof.
  unfold pretty, pretty_N. destruct (decide (x = 0%N)); [done|].
  by apply pretty_go_no_space.
Qed.

Lemma pretty_no_nl (x : N) : no_byte (fun c => Ascii.eqb c nl) (pretty x) = true.
Proof.
  apply (no_byte_mono is_space); [|apply pretty_no_space].
  intros c H. by apply Ascii.eqb_eq in H as ->.
Qed.
