(* ===== verification/Pods.v ===== *)
(** * Pods and their annotations

    [Pod] has the fields of [corev1.Pod] that the agent reads.  The annotation
    parsers of internal/maps/maps.go ([ParseAnnotationWeight],
    [ParseAnnotationBudget], [extractSchedulingParams]) work at the width of a
    Go [uint64]: the microsecond budget is multiplied by 1000 with wrap-around,
    as the code does.  The theorems give the value of each parser on every
    branch, the range the scheduler relies on, and the budgets for which the
    multiplication wraps. *)

From stdpp Require Import base gmap list strings pretty numbers.
From Stdlib Require Import ZArith Lia.
From S2P Require Import Prelude GoStrings.

Open Scope Z_scope.

(** ** corev1.Pod *)

(** A Go map that may be nil; indexing a nil map yields the zero value. *)
Definition gomap : Type := option (gmap string string).
Definition gomap_get (m : gomap) (k : string) : string :=
  match m with Some m => default "" (m !! k) | None => "" end.

Record ContainerStatus := mkContainerStatus { ContainerID : string; RestartCount : Z }.

(** CPU quantities in thousandths, as [MilliValue] returns them. *)
Record Container := mkContainer { RequestMilli : Z; LimitMilli : Z }.

Record Pod := mkPod {
  pod_UID : string;
  pod_Name : string;
  pod_Namespace : string;
  pod_Labels : gomap;
  pod_Annotations : gomap;
  pod_Phase : string;
  pod_QOSClass : string;
  pod_ContainerStatuses : list ContainerStatus;
  pod_Containers : list Container;
  pod_PriorityClassName : string;
  pod_NodeName : string
}.

(** ** internal/maps/maps.go: parameters from annotations *)

Record SchedParams := mkSchedParams { Weight : Z; BudgetNs : Z }.
#[global] Instance SchedParams_eq_dec : EqDecision SchedParams.
Proof. solve_decision. Defined.

Definition defaultWeight : Z := 1000.
Definition defaultBudgetNs : Z := 0.

Definition annotationWeight : string := "scheduling.fengrru.dev/weight".
Definition annotationBudget : string := "scheduling.fengrru.dev/budget-microseconds".
Definition annotationImportance : string := "scheduling.fengrru.dev/importance".

Definition ParseAnnotationWeight (ann : gomap) : Z :=
  match ann with
  | None => 0
  | Some _ =>
      let from_importance :=
        let imp := gomap_get ann annotationImportance in
        if decide (imp = "") then 0 else
        match ParseUint imp 64 with
        | NumOk v => if (0 <? v) && (v <=? 100) then u64 (v * 100) else 0
        | _ => 0
        end in
      let w := gomap_get ann annotationWeight in
      if decide (w = "") then from_importance else
      match ParseUint w 64 with
      | NumOk v => if (1 <=? v) && (v <=? 10000) then v else from_importance
      | _ => from_importance
      end
  end.

Definition ParseAnnotationBudget (ann : gomap) : Z :=
  match ann with
  | None => 0
  | Some _ =>
      let b := gomap_get ann annotationBudget in
      if decide (b = "") then 0 else
      match ParseUint b 64 with
      | NumOk v => if 0 <? v then u64 (v * 1000) else 0
      | _ => 0
      end
  end.

Definition extractSchedulingParams (pod : Pod) : SchedParams :=
  let ann := pod_Annotations pod in
  let sp := mkSchedParams defaultWeight defaultBudgetNs in
  let w := ParseAnnotationWeight ann in
  let sp := if 0 <? w then mkSchedParams w (BudgetNs sp) else sp in
  let b := ParseAnnotationBudget ann in
  if 0 <? b then mkSchedParams (Weight sp) b else sp.

(** [ExtractSchedulingParams] is the exported name. *)
Definition ExtractSchedulingParams (pod : Pod) : SchedParams := extractSchedulingParams pod.

(** ** What the annotations mean

    [numeral s lo hi v]: the annotation value [s] is a decimal numeral of [v] with
    lo <= v <= hi. *)

Definition numeral (s : string) (lo hi v : Z) : Prop := decimal s = Some v /\ lo <= v <= hi.

Lemma numeral_fun s lo hi v v' : numeral s lo hi v -> numeral s lo hi v' -> v = v'.
Proof. intros [H _] [H' _]. congruence. Qed.

(** Testing the result of [ParseUint] against bounds decides [numeral]. *)
Lemma ParseUint_numeral s lo hi : hi < u64_mod ->
  (exists v, ParseUint s 64 = NumOk v /\ (lo <=? v) && (v <=? hi) = true /\ numeral s lo hi v) \/
  ((forall v, ~ numeral s lo hi v) /\
   (forall v, ParseUint s 64 = NumOk v -> (lo <=? v) && (v <=? hi) = false)).
Proof.
  intros Hhi. destruct (ParseUint s 64) as [v| |] eqn:E.
  - apply ParseUint_spec in E as [Hd Hv]; [|lia].
    destruct ((lo <=? v) && (v <=? hi)) eqn:B.
    + left. exists v. split_and!; [done|done|]. rewrite andb_true_iff, !Z.leb_le in B.
      by split.
    + right. split; [|by intros v' [= <-]]. intros v' [Hd' Hr]. assert (v' = v) as -> by congruence.
      rewrite andb_false_iff, !Z.leb_gt in B. lia.
  - right. split; [|done]. intros v [Hd Hr].
    assert (ParseUint s 64 = NumOk v); [|congruence]. apply ParseUint_spec; [lia|].
    split; [done|]. change (2 ^ 64) with u64_mod. lia.
  - right. split; [|done]. intros v [Hd Hr].
    assert (ParseUint s 64 = NumOk v); [|congruence]. apply ParseUint_spec; [lia|].
    split; [done|]. change (2 ^ 64) with u64_mod. lia.
Qed.

Lemma numeral_nonempty lo hi v : ~ numeral "" lo hi v.
Proof. by intros [H _]. Qed.

(** The importance branch: 1 to 100, times 100. *)
Lemma importance_spec imp :
  (if decide (imp = "") then 0 else
   match ParseUint imp 64 with
   | NumOk v => if (0 <? v) && (v <=? 100) then u64 (v * 100) else 0
   | _ => 0
   end) = 
  match ParseUint imp 64 with
  | NumOk v => if (1 <=? v) && (v <=? 100) then v * 100 else 0
  | _ => 0
  end.
Proof.
  case_decide as D; [by subst|]. destruct (ParseUint imp 64) as [v| |]; try done.
  replace (0 <? v) with (1 <=? v) by (destruct (Z.leb_spec 1 v), (Z.ltb_spec 0 v); lia || done).
  destruct ((1 <=? v) && (v <=? 100)) eqn:E; [|done].
  rewrite andb_true_iff, !Z.leb_le in E. apply u64_small. unfold is_u64, u64_mod. lia.
Qed.

Lemma weight_nil : ParseAnnotationWeight None = 0.
Proof. reflexivity. Qed.

(** C31: the weight annotation wins when it is a decimal number from 1 to
    10000; otherwise an importance from 1 to 100 counts hundredfold; otherwise
    the weight is reported as unset.  In every case the result is 0 or a legal
    weight, so no annotation, malformed or out of range, can produce a weight
    the scheduler does not expect. *)
Theorem annotation_weight_spec ann :
  (forall v, numeral (gomap_get ann annotationWeight) 1 10000 v ->
     ParseAnnotationWeight ann = v) /\
  ((forall v, ~ numeral (gomap_get ann annotationWeight) 1 10000 v) ->
     (forall v, numeral (gomap_get ann annotationImportance) 1 100 v ->
        ParseAnnotationWeight ann = v * 100) /\
     ((forall v, ~ numeral (gomap_get ann annotationImportance) 1 100 v) ->
        ParseAnnotationWeight ann = 0)) /\
  (ParseAnnotationWeight ann = 0 \/ 1 <= ParseAnnotationWeight ann <= 10000).
Proof.
  destruct ann as [m|]; [|rewrite weight_nil; simpl; split_and!;
    [by intros v ?%numeral_nonempty | intros _; split; [by intros v ?%numeral_nonempty | done] | lia]].
  unfold ParseAnnotationWeight. cbv zeta. rewrite importance_spec.
  generalize (gomap_get (Some m) annotationWeight) (gomap_get (Some m) annotationImportance).
  intros w imp.
  destruct (ParseUint_numeral imp 1 100) as [(vi & Ei & Bi & Ni)|[Ni Bi]]; [unfold u64_mod; lia| |];
  destruct (ParseUint_numeral w 1 10000) as [(vw & Ew & Bw & Nw)|[Nw Bw]]; try (unfold u64_mod; lia).
  - rewrite Ew, Bw. rewrite decide_False by (intros ->; by apply numeral_nonempty in Nw).
    split_and!; [intros v Hv; by eapply numeral_fun | intros H; by destruct (H vw) | destruct Nw; lia].
  - rewrite Ei, Bi. replace (if decide (w = "") then _ else _) with (vi * 100).
    + split_and!; [intros v Hv; by destruct (Nw v) | | destruct Ni; lia].
      intros _. split; [intros v Hv; f_equal; by eapply numeral_fun | intros H; by destruct (H vi)].
    + case_decide; [done|]. destruct (ParseUint w 64) as [v| |] eqn:E; [|done|done].
      by rewrite (Bw v eq_refl).
  - rewrite Ew, Bw. rewrite decide_False by (intros ->; by apply numeral_nonempty in Nw).
    split_and!; [intros v Hv; by eapply numeral_fun | intros H; by destruct (H vw) | destruct Nw; lia].
  - assert (Hi : match ParseUint imp 64 with
      | NumOk v => if (1 <=? v) && (v <=? 100) then v * 100 else 0 | _ => 0 end = 0).
    { destruct (ParseUint imp 64) as [v| |] eqn:E; [by rewrite (Bi v eq_refl)|done|done]. }
    rewrite Hi. replace (if decide (w = "") then _ else _) with 0.
    + split_and!; [intros v Hv; by destruct (Nw v) | | lia].
      intros _. split; [intros v Hv; by destruct (Ni v) | done].
    + case_decide; [done|]. destruct (ParseUint w 64) as [v| |] eqn:E; [|done|done].
      by rewrite (Bw v eq_refl).
Qed.

(** The largest budget in microseconds whose conversion does not wrap. *)
Definition max_budget_us : Z := 18446744073709551.

Lemma budget_value m v :
  numeral (gomap_get (Some m) annotationBudget) 1 (u64_mod - 1) v ->
  ParseAnnotationBudget (Some m) = u64 (v * 1000).
Proof.
  intros Hn. unfold ParseAnnotationBudget. cbv zeta.
  rewrite decide_False by (intros E; rewrite E in Hn; by apply numeral_nonempty in Hn).
  destruct Hn as [Hd Hv].
  assert (ParseUint (gomap_get (Some m) annotationBudget) 64 = NumOk v) as ->.
  { apply ParseUint_spec; [lia|]. split; [done|]. change (2 ^ 64) with u64_mod. lia. }
  destruct (Z.ltb_spec 0 v); [done | lia].
Qed.

Lemma ParseAnnotationBudget_range ann : is_u64 (ParseAnnotationBudget ann).
Proof.
  destruct ann as [m|]; [|unfold is_u64, u64_mod; simpl; lia].
  unfold ParseAnnotationBudget. cbv zeta. case_decide; [unfold is_u64, u64_mod; lia|].
  destruct (ParseUint _ 64); try (unfold is_u64, u64_mod; lia).
  destruct (0 <? v); [auto with words | unfold is_u64, u64_mod; lia].
Qed.

(** C32: a budget annotation that is a decimal number of microseconds becomes
    that many nanoseconds, exactly up to 18446744073709551 us; a larger one
    that still fits 64 bits wraps modulo 2^64, so a budget meant as "no limit"
    may come out as a few nanoseconds; anything else counts as unset. *)
Theorem annotation_budget_spec ann :
  (forall v, numeral (gomap_get ann annotationBudget) 1 max_budget_us v ->
     ParseAnnotationBudget ann = v * 1000) /\
  (forall v, numeral (gomap_get ann annotationBudget) (max_budget_us + 1) (u64_mod - 1) v ->
     ParseAnnotationBudget ann = (v * 1000) mod u64_mod /\
     ParseAnnotationBudget ann < v * 1000) /\
  ((forall v, ~ numeral (gomap_get ann annotationBudget) 1 (u64_mod - 1) v) ->
     ParseAnnotationBudget ann = 0) /\
  is_u64 (ParseAnnotationBudget ann).
Proof.
  destruct ann as [m|].
  2: { split_and!; [by intros v ?%numeral_nonempty | by intros v ?%numeral_nonempty | done |].
       unfold is_u64, u64_mod; simpl; lia. }
  split_and!.
  - intros v [Hd Hv]. unfold max_budget_us in Hv.
    rewrite (budget_value m v) by (split; [done | unfold u64_mod; lia]).
    apply u64_small. unfold is_u64, u64_mod. lia.
  - intros v [Hd Hv]. unfold max_budget_us in Hv.
    rewrite (budget_value m v) by (split; [done | unfold u64_mod in *; lia]).
    split; [done|]. pose proof (Z.mod_pos_bound (v * 1000) u64_mod).
    unfold u64, u64_mod in *. lia.
  - intros H. unfold ParseAnnotationBudget. cbv zeta. case_decide; [done|].
    destruct (ParseUint _ 64) as [v| |] eqn:E; [|done|done].
    apply ParseUint_spec in E as [Hd Hv]; [|lia]. destruct (Z.ltb_spec 0 v); [|done].
    destruct (H v). split; [done|]. change (2 ^ 64) with u64_mod in Hv. lia.
  - apply ParseAnnotationBudget_range.
Qed.

(** About 584 years of budget become 384 ns. *)
Example budget_wraps :
  ParseAnnotationBudget (Some {[ annotationBudget := "18446744073709552" ]}) = 384.
Proof. vm_compute. reflexivity. Qed.

(** A legal weight and a 64-bit budget: what the BPF side may assume. *)
Definition legal_params (sp : SchedParams) : Prop :=
  1 <= Weight sp <= 10000 /\ is_u64 (BudgetNs sp).

Lemma ParseAnnotationWeight_range ann :
  ParseAnnotationWeight ann = 0 \/ 1 <= ParseAnnotationWeight ann <= 10000.
Proof.
  destruct ann as [m|]; [|by left]. unfold ParseAnnotationWeight. cbv zeta.
  rewrite importance_spec.
  assert (Hi : forall s, match ParseUint s 64 with
    | NumOk v => if (1 <=? v) && (v <=? 100) then v * 100 else 0 | _ => 0 end = 0 \/
    1 <= match ParseUint s 64 with
    | NumOk v => if (1 <=? v) && (v <=? 100) then v * 100 else 0 | _ => 0 end <= 10000).
  { intros s. destruct (ParseUint s 64) as [v| |]; [|by left|by left].
    destruct (Z.leb_spec 1 v), (Z.leb_spec v 100); simpl; lia. }
  case_decide; [apply Hi|]. destruct (ParseUint _ 64) as [v| |]; try apply Hi.
  destruct ((1 <=? v) && (v <=? 10000)) eqn:E; [|apply Hi].
  rewrite andb_true_iff, !Z.leb_le in E. lia.
Qed.

Lemma extract_legal pod : legal_params (extractSchedulingParams pod).
Proof.
  unfold legal_params, extractSchedulingParams.
  pose proof (ParseAnnotationWeight_range (pod_Annotations pod)).
  pose proof (ParseAnnotationBudget_range (pod_Annotations pod)) as Hb.
  unfold defaultWeight, defaultBudgetNs, is_u64, u64_mod in *.
  destruct (Z.ltb_spec 0 (ParseAnnotationWeight (pod_Annotations pod)));
  destruct (Z.ltb_spec 0 (ParseAnnotationBudget (pod_Annotations pod))); simpl; lia.
Qed.
