(* ===== verification/NodeFs.v ===== *)
(** * The node's file system and the resolution of a pod's cgroups and PIDs

    internal/maps/maps.go finds a pod on its node by looking at cgroup v2
    directories and, failing that, at /proc.  A snapshot of the file system is
    a tree [fnode]; [Stat], [ReadFile], [ReadDir] and [WalkDir] are the Go
    functions on it (names are literal: no symbolic links and no "..").  The
    environment variables, the base path and the proc root are the fields of
    [node_env]; the TTL cache of the /proc listing is threaded as [proc_cache].

    Theorems: the cgroup identifiers of a pod are those of every directory of
    its subtree; all of them are among the identifiers the stale sweep regards as
    live; the reader of cgroup.procs inverts the kernel's format and skips
    lines that are no PIDs. *)

From stdpp Require Import base gmap list strings pretty numbers.
From Stdlib Require Import ZArith Lia Ascii.
From S2P Require Import Prelude GoStrings Pods.

Open Scope Z_scope.

(** ** Snapshots of the file system *)

(** A directory has an inode number (missing when its [Stat] has none), a flag
    whether it can be listed, and its entries in lexical order, the order in
    which [os.ReadDir] returns them.  A file may be unreadable. *)
Inductive fnode :=
| Dir (ino : option Z) (readable : bool) (entries : list (string * fnode))
| File (content : option string).

Definition IsDir (n : fnode) : bool := if n is Dir _ _ _ then true else false.
Definition entries_of (n : fnode) : list (string * fnode) :=
  match n with Dir _ _ es => es | File _ => [] end.

Definition slash : ascii := "/".
Definition components (path : string) : list string :=
  filter (fun c => c <> "") (Split slash path).

Definition child (n : fnode) (name : string) : option fnode :=
  snd <$> List.find (fun e => String.eqb (fst e) name) (entries_of n).

Fixpoint lookup_path (n : fnode) (p : list string) : option fnode :=
  match p with
  | [] => Some n
  | c :: p' => n' ← child n c; lookup_path n' p'
  end.

Definition Stat (fs : fnode) (path : string) : option fnode :=
  lookup_path fs (components path).
Definition ReadFile (fs : fnode) (path : string) : option string :=
  n ← Stat fs path; match n with File c => c | Dir _ _ _ => None end.
Definition ReadDir (fs : fnode) (path : string) : option (list (string * fnode)) :=
  n ← Stat fs path;
  match n with Dir _ true es => Some es | _ => None end.

(** The directories a [filepath.WalkDir] from [n] hands to its function without
    an error, in order: a directory before its entries, and no entries for a
    directory that cannot be listed. *)
Fixpoint walk_dirs (n : fnode) : list fnode :=
  match n with
  | File _ => []
  | Dir _ readable es =>
      n :: (if readable then
              (fix go (es : list (string * fnode)) : list fnode :=
                 match es with
                 | [] => []
                 | (_, c) :: es' => walk_dirs c ++ go es'
                 end) es
            else [])
  end.
Definition WalkDir (fs : fnode) (path : string) : list fnode :=
  match Stat fs path with Some n => walk_dirs n | None => [] end.

(** [dirCgroupID] (cgroupid_linux.go): the inode of the directory *)
Definition dirCgroupID (n : fnode) : option Z :=
  match n with Dir ino _ _ => ino | File _ => None end.

(** ** Paths *)

Record node_env := NodeEnv {
  HOST_PROC : string;        (* environment variable, "" when unset *)
  CGROUP_V2_ROOT : string
}.

Definition initProcRoot (e : node_env) (fs : fnode) : string :=
  if decide (HOST_PROC e = "") then
    match Stat fs "/host/proc" with Some _ => "/host/proc" | None => "/proc" end
  else HOST_PROC e.

Definition initCgroupV2Base (e : node_env) : string :=
  if decide (CGROUP_V2_ROOT e = "") then "/sys/fs/cgroup" else CGROUP_V2_ROOT e.

Definition systemdUID (uid : string) : string := ReplaceAll uid "-" "_".

Section Node.
(** The package variables [cgroupV2Base] and [ProcRoot]. *)
Context (cgroupV2Base ProcRoot : string).

Definition podCgroupDirCandidates (uid : string) : list string :=
  let sysd := systemdUID uid in
  [ cgroupV2Base +:+ "/kubepods.slice/kubepods-besteffort.slice/kubepods-besteffort-pod" +:+ sysd +:+ ".slice";
    cgroupV2Base +:+ "/kubepods.slice/kubepods-burstable.slice/kubepods-burstable-pod" +:+ sysd +:+ ".slice";
    cgroupV2Base +:+ "/kubepods.slice/kubepods-pod" +:+ sysd +:+ ".slice";
    cgroupV2Base +:+ "/kubepods/besteffort/pod" +:+ uid;
    cgroupV2Base +:+ "/kubepods/burstable/pod" +:+ uid;
    cgroupV2Base +:+ "/kubepods/pod" +:+ uid ].

(** The loop over the candidates; [None] is the empty string. *)
Definition findPodCgroupDir (fs : fnode) (uid : string) : option string :=
  List.find (fun dir => match Stat fs dir with Some n => IsDir n | None => false end)
    (podCgroupDirCandidates uid).

Definition parse_pid_line (line : string) : option Z :=
  if decide (line = "") then None else
  match ParseInt line 32 with NumOk pid => Some (s32 pid) | _ => None end.

Definition parseCgroupProcs (data : string) : list Z :=
  omap (fun line => parse_pid_line (TrimSpace line)) (Split nl (TrimSpace data)).

(** [cgroup.procs] of a directory met by the walk *)
Definition dir_procs (n : fnode) : list Z :=
  match child n "cgroup.procs" with
  | Some (File (Some data)) => parseCgroupProcs data
  | _ => []
  end.

Definition resolveViaCgroupV2 (fs : fnode) (podUID : string) : list Z :=
  match findPodCgroupDir fs podUID with
  | None => []
  | Some dir => WalkDir fs dir ≫= dir_procs
  end.

Definition resolvePodCgroupIDs (fs : fnode) (uid : string) : list Z :=
  if decide (uid = "") then [] else
  match findPodCgroupDir fs uid with
  | None => []
  | Some dir => omap dirCgroupID (WalkDir fs dir)
  end.

(** [ResolvePodCgroupIDs], exported *)
Definition ResolvePodCgroupIDs (fs : fnode) (pod : option Pod) : list Z :=
  match pod with Some p => resolvePodCgroupIDs fs (pod_UID p) | None => [] end.

Definition kubepods_roots : list string :=
  [ cgroupV2Base +:+ "/kubepods.slice"; cgroupV2Base +:+ "/kubepods" ].

Definition liveKubepodsCgroupIDs (fs : fnode) : gset Z :=
  list_to_set (kubepods_roots ≫= fun root => omap dirCgroupID (WalkDir fs root)).

(** ** The /proc scan *)

Record proc_cache := ProcCache {
  procCache : option (list (string * fnode));
  procCacheExpiry : Z
}.
Definition procCacheTTL : Z := 5000000000.

Definition getProcDirCache (now : Z) (fs : fnode) (pc : proc_cache)
    : list (string * fnode) * proc_cache :=
  match procCache pc with
  | Some es =>
      if now <? procCacheExpiry pc then (es, pc) else
      match ReadDir fs ProcRoot with
      | Some es' => (es', ProcCache (Some es') (now + procCacheTTL))
      | None => ([], pc)
      end
  | None =>
      match ReadDir fs ProcRoot with
      | Some es' => (es', ProcCache (Some es') (now + procCacheTTL))
      | None => ([], pc)
      end
  end.

Definition proc_markers (podUID : string) : list string :=
  let sysd := systemdUID podUID in
  ("pod" +:+ podUID) :: (if decide (sysd = podUID) then [] else ["pod" +:+ sysd]).

(** One directory entry of the loop. *)
Definition proc_entry_pid (fs : fnode) (markers : list string) (entry : string * fnode)
    : option Z :=
  let '(name, n) := entry in
  if negb (IsDir n) then None else
  match ParseInt name 64 with
  | NumOk pid =>
      match ReadFile fs (ProcRoot +:+ "/" +:+ name +:+ "/cgroup") with
      | Some content =>
          if existsb (fun marker => Contains content marker) markers
          then Some (s32 pid) else None
      | None => None
      end
  | _ => None
  end.

Definition resolveViaProcScan (now : Z) (fs : fnode) (pc : proc_cache) (podUID : string)
    : list Z * proc_cache :=
  let '(entries, pc') := getProcDirCache now fs pc in
  (omap (proc_entry_pid fs (proc_markers podUID)) entries, pc').

Definition resolvePodPIDs (now : Z) (fs : fnode) (pc : proc_cache) (pod : option Pod)
    : list Z * proc_cache :=
  match pod with
  | None => ([], pc)
  | Some pod =>
      let uid := pod_UID pod in
      if decide (uid = "") then ([], pc) else
      match resolveViaCgroupV2 fs uid with
      | [] => resolveViaProcScan now fs pc uid
      | pids => (pids, pc)
      end
  end.

End Node.

(** ** Reading cgroup.procs *)

(** The kernel's format: one PID per line. *)
Definition cgroup_procs_content (pids : list N) : string := unlines (pretty <$> pids).

Lemma parseCgroupProcs_lines data :
  parseCgroupProcs data = read_lines parse_pid_line data.
Proof. exact (read_lines_trim parse_pid_line eq_refl data). Qed.

Lemma parse_pid_pretty (x : N) : Z.of_N x < s32_half -> parse_pid_line (pretty x) = Some (Z.of_N x).
Proof.
  intros Hx. unfold parse_pid_line. rewrite decide_False by apply pretty_nonempty.
  rewrite (ParseInt_decimal _ 32 (Z.of_N x)); [|lia|apply decimal_pretty|exact Hx].
  f_equal. unfold s32, u32, u32_mod, s32_half in *. rewrite Z.mod_small by lia.
  destruct (Z.ltb_spec (Z.of_N x) 2147483648); lia.
Qed.

Lemma read_lines_unlines {A} (parse : string -> option A) ws :
  parse "" = None -> Forall (fun w => no_byte is_space w = true) ws ->
  read_lines parse (unlines ws) = omap parse ws.
Proof.
  intros Hb Hws. unfold read_lines. rewrite Split_unlines.
  - induction Hws as [|w ws Hw _ IH].
    + simpl. change (TrimSpace "") with "". by rewrite Hb.
    + rewrite <- app_comm_cons, !omap_cons, trim_id, IH by done. done.
  - eapply list.Forall_impl; [exact Hws|]. intros w. apply no_byte_mono.
    by intros c ->%Ascii.eqb_eq.
Qed.

(** C30: [parseCgroupProcs] inverts the kernel's format: of a cgroup.procs file
    with one PID per line it returns these PIDs in order.  Lines that are blank
    or are no 32-bit number contribute nothing and disturb no other line. *)
Theorem cgroup_procs_roundtrip (pids : list N) (Hp : Forall (fun x => Z.of_N x < s32_half) pids) :
  parseCgroupProcs (cgroup_procs_content pids) = Z.of_N <$> pids /\
  (forall junk, no_byte is_space junk = true -> parse_pid_line junk = None ->
     forall pre post, pids = pre ++ post ->
     parseCgroupProcs (unlines ((pretty <$> pre) ++ junk :: (pretty <$> post))) = Z.of_N <$> pids).
Proof.
  assert (Hns : forall l : list N, Forall (fun w => no_byte is_space w = true) (pretty <$> l)).
  { intros l. apply Forall_fmap, list.Forall_true. apply pretty_no_space. }
  assert (Hok : forall l : list N, Forall (fun x => Z.of_N x < s32_half) l ->
    omap parse_pid_line (pretty <$> l) = Z.of_N <$> l).
  { induction 1 as [|x l Hx _ IH]; [done|]. rewrite !fmap_cons, omap_cons.
    by rewrite parse_pid_pretty, IH. }
  split.
  - rewrite parseCgroupProcs_lines. unfold cgroup_procs_content.
    rewrite read_lines_unlines by done. by apply Hok.
  - intros junk Hj Hn pre post ->. apply list.Forall_app in Hp as [H1 H2].
    rewrite parseCgroupProcs_lines, read_lines_unlines; [|done|].
    + rewrite omap_app, omap_cons, Hn, !Hok by done. by rewrite fmap_app.
    + apply list.Forall_app. split; [done|]. by constructor.
Qed.

Lemma cgroup_procs_roundtrip_witness :
  parseCgroupProcs (cgroup_procs_content [7; 4242]%N) = [7; 4242].
Proof.
  refine (proj1 (cgroup_procs_roundtrip [7; 4242]%N _)). repeat constructor.
Defined.

(** ** Subtrees *)

(** [under n d]: directory [d] is [n] or lies below it, every directory above
    it being listable. *)
Inductive under : fnode -> fnode -> Prop :=
| under_here i r es : under (Dir i r es) (Dir i r es)
| under_entry i es name c d : (name, c) ∈ es -> under c d -> under (Dir i true es) d.

Lemma walk_dirs_step i r es :
  walk_dirs (Dir i r es) = Dir i r es :: (if r then es ≫= (fun e => walk_dirs e.2) else []).
Proof.
  simpl. f_equal. destruct r; [|done].
  induction es as [|[name c] es IH]; simpl; [done|]. by rewrite IH.
Qed.

Lemma under_walk n d : under n d -> d ∈ walk_dirs n.
Proof.
  induction 1 as [i r es|i es name c d Hin _ IH]; rewrite walk_dirs_step.
  - apply list_elem_of_here.
  - apply list_elem_of_further, list_elem_of_bind. exists (name, c). split; [exact IH|exact Hin].
Qed.

Lemma walk_under : forall n d, d ∈ walk_dirs n -> under n d.
Proof.
  fix IH 1. intros [i r es|content] d; [|by intros ?%not_elem_of_nil].
  rewrite walk_dirs_step, elem_of_cons. intros [->|Hd]; [constructor|].
  destruct r; [|by apply not_elem_of_nil in Hd].
  assert (exists name c, (name, c) ∈ es /\ under c d) as (name & c & Hin & Hu);
    [|by eapply under_entry].
  induction es as [|[name c] es IHes]; simpl in Hd; [by apply not_elem_of_nil in Hd|].
  apply elem_of_app in Hd as [Hd|Hd].
  - exists name, c. split; [apply list_elem_of_here | by apply IH].
  - destruct (IHes Hd) as (name' & c' & Hin & Hu). exists name', c'.
    split; [by apply list_elem_of_further | done].
Qed.

Lemma walk_dirs_iff n d : d ∈ walk_dirs n <-> under n d.
Proof. split; [apply walk_under | apply under_walk]. Qed.

Lemma under_trans n m d : under n m -> under m d -> under n d.
Proof. induction 1; [done|]. intros H'. by eapply under_entry; [|auto]. Qed.

(** Every directory of the tree can be listed. *)
Fixpoint all_listable (n : fnode) : bool :=
  match n with
  | File _ => true
  | Dir _ r es =>
      r && (fix go (es : list (string * fnode)) : bool :=
              match es with [] => true | (_, c) :: es' => all_listable c && go es' end) es
  end.

Lemma all_listable_entry i r es name c :
  all_listable (Dir i r es) = true -> (name, c) ∈ es -> r = true /\ all_listable c = true.
Proof.
  simpl. rewrite andb_true_iff. intros [-> Hes] Hin. split; [done|].
  induction es as [|[name' c'] es IH]; [by apply not_elem_of_nil in Hin|].
  apply andb_true_iff in Hes as [Hc Hes]. apply elem_of_cons in Hin as [[= -> ->]|Hin]; auto.
Qed.

Lemma child_entry n name c : child n name = Some c -> (name, c) ∈ entries_of n.
Proof.
  unfold child. destruct (List.find _ _) as [[name' c']|] eqn:E; [|done].
  intros [= <-]. apply find_some in E as [Hin Hn]. apply String.eqb_eq in Hn.
  simpl in Hn. subst name'. by apply list_elem_of_In.
Qed.

(** What is found by path in a listable tree is found by the walk. *)
Lemma lookup_under p : forall n d,
  all_listable n = true -> lookup_path n p = Some d -> IsDir d = true ->
  under n d /\ all_listable d = true.
Proof.
  induction p as [|c p IH]; intros n d Hn; simpl.
  - intros [= <-]. destruct n; [|done]. split; [constructor|done].
  - destruct (child n c) as [n'|] eqn:E; [|done]. simpl. intros Hp Hd.
    apply child_entry in E. destruct n as [i r es|]; [|by apply not_elem_of_nil in E].
    destruct (all_listable_entry _ _ _ _ _ Hn E) as [-> Hn'].
    destruct (IH n' d Hn' Hp Hd). split; [by eapply under_entry | done].
Qed.

Lemma lookup_path_app p q : forall n,
  lookup_path n (p ++ q) = (m ← lookup_path n p; lookup_path m q).
Proof. induction p as [|c p IH]; intros n; simpl; [done|]. destruct (child n c); simpl; auto. Qed.

Lemma lookup_listable p : forall n d,
  all_listable n = true -> lookup_path n p = Some d -> all_listable d = true.
Proof.
  induction p as [|c p IH]; intros n d Hn; simpl; [by intros [= <-]|].
  destruct (child n c) as [n'|] eqn:E; [|done]. simpl. apply IH.
  apply child_entry in E. destruct n; [|by apply not_elem_of_nil in E].
  by eapply all_listable_entry in E as [_ E].
Qed.

(** A directory is an ancestor of one whose path extends its own. *)
Lemma components_app a b : components (a +:+ String slash b) = components a ++ components b.
Proof.
  unfold components. rewrite <- list.filter_app. f_equal.
  induction a as [|c a IH]; [done|].
  change (String c a +:+ String slash b) with (String c (a +:+ String slash b)).
  rewrite !Split_step, IH. destruct (Ascii.eqb c slash); [done|].
  destruct (Split_cons slash a) as (w & ws & ->). done.
Qed.

Lemma subdir_under fs a b n :
  all_listable fs = true -> Stat fs (a +:+ String slash b) = Some n -> IsDir n = true ->
  exists m, Stat fs a = Some m /\ under m n.
Proof.
  unfold Stat. rewrite components_app, lookup_path_app. intros Hfs Hn Hd.
  destruct (lookup_path fs (components a)) as [m|] eqn:E; [|done]. simpl in Hn.
  exists m. split; [done|]. apply (lookup_under (components b)); [|done|done].
  by eapply lookup_listable.
Qed.

Lemma string_app_assoc (a b c : string) : (a +:+ b) +:+ c = a +:+ b +:+ c.
Proof. induction a as [|x a IH]; [done|]. exact (f_equal (String x) IH). Qed.

Section Resolution.
Context (base : string).

(** Every candidate lies below one of the two kubepods roots. *)
Lemma candidate_below_root uid dir :
  dir ∈ podCgroupDirCandidates base uid ->
  exists root rest, root ∈ kubepods_roots base /\ dir = root +:+ String slash rest.
Proof.
  intros H. unfold podCgroupDirCandidates in H.
  repeat (apply elem_of_cons in H as [->|H]; [|]); [..|by apply not_elem_of_nil in H].
  1-3: exists (base +:+ "/kubepods.slice"); eexists; split; [apply list_elem_of_here|];
    rewrite string_app_assoc; reflexivity.
  all: exists (base +:+ "/kubepods"); eexists;
    split; [apply list_elem_of_further, list_elem_of_here|];
    rewrite string_app_assoc; reflexivity.
Qed.

Lemma findPodCgroupDir_some fs uid dir :
  findPodCgroupDir base fs uid = Some dir ->
  dir ∈ podCgroupDirCandidates base uid /\ exists n, Stat fs dir = Some n /\ IsDir n = true.
Proof.
  unfold findPodCgroupDir. intros H. apply find_some in H as [Hin Hs].
  split; [by apply list_elem_of_In|]. destruct (Stat fs dir) as [n|]; [eauto|done].
Qed.

Lemma resolve_elem fs uid id :
  id ∈ resolvePodCgroupIDs base fs uid <->
  uid <> "" /\ exists dir n d, findPodCgroupDir base fs uid = Some dir /\
    Stat fs dir = Some n /\ under n d /\ dirCgroupID d = Some id.
Proof.
  unfold resolvePodCgroupIDs, WalkDir. case_decide as D.
  { split; [by intros ?%not_elem_of_nil | naive_solver]. }
  destruct (findPodCgroupDir base fs uid) as [dir|] eqn:E.
  2: { split; [by intros ?%not_elem_of_nil | naive_solver]. }
  destruct (findPodCgroupDir_some _ _ _ E) as (_ & n & Hn & _). rewrite Hn.
  rewrite list_elem_of_omap. setoid_rewrite walk_dirs_iff. naive_solver.
Qed.

Lemma live_elem fs id :
  id ∈ liveKubepodsCgroupIDs base fs <->
  exists root n d, root ∈ kubepods_roots base /\ Stat fs root = Some n /\
    under n d /\ dirCgroupID d = Some id.
Proof.
  unfold liveKubepodsCgroupIDs, WalkDir. rewrite elem_of_list_to_set, list_elem_of_bind.
  split.
  - intros (root & Hid & Hr). destruct (Stat fs root) as [n|] eqn:E.
    + apply list_elem_of_omap in Hid as (d & Hd & Hi). apply walk_dirs_iff in Hd.
      exists root, n, d. done.
    + by apply not_elem_of_nil in Hid.
  - intros (root & n & d & Hr & Hs & Hu & Hi). exists root. rewrite Hs. split; [|done].
    apply list_elem_of_omap. exists d. split; [by apply walk_dirs_iff | done].
Qed.

(** Identifiers of an existing pod are live. *)
Lemma resolve_live fs uid id :
  all_listable fs = true -> id ∈ resolvePodCgroupIDs base fs uid ->
  id ∈ liveKubepodsCgroupIDs base fs.
Proof.
  intros Hfs Hid. apply resolve_elem in Hid as (_ & dir & n & d & Hf & Hn & Hu & Hi).
  apply findPodCgroupDir_some in Hf as (Hc & n' & Hn' & Hd). assert (n' = n) as -> by congruence.
  apply candidate_below_root in Hc as (root & rest & Hr & ->).
  destruct (subdir_under fs root rest n Hfs Hn Hd) as (m & Hm & Hum).
  apply live_elem. exists root, m, d. split_and!; [done|done|by eapply under_trans|done].
Qed.

(** C29: the cgroup identifiers written for a pod are exactly the inode numbers
    of the pod's directory and of every directory below it, and on a node whose
    cgroup tree can be listed each of them counts as live for the stale sweep:
    the sweep can only drop identifiers that no existing pod resolves to. *)
Theorem pod_cgroups_live fs uid (Hfs : all_listable fs = true) :
  (forall id, id ∈ resolvePodCgroupIDs base fs uid <->
     uid <> "" /\ exists dir n d, findPodCgroupDir base fs uid = Some dir /\
       Stat fs dir = Some n /\ under n d /\ dirCgroupID d = Some id) /\
  list_to_set (resolvePodCgroupIDs base fs uid) ⊆ liveKubepodsCgroupIDs base fs.
Proof.
  split; [intros id; apply resolve_elem|].
  intros id Hid%elem_of_list_to_set. by eapply resolve_live.
Qed.

End Resolution.

(** A node with one burstable pod under the systemd driver. *)
Definition demo_fs : fnode :=
  Dir (Some 1) true
    [("sys", Dir (Some 2) true
      [("fs", Dir (Some 3) true
        [("cgroup", Dir (Some 4) true
          [("kubepods.slice", Dir (Some 10) true
            [("kubepods-burstable.slice", Dir (Some 11) true
              [("kubepods-burstable-poda_b.slice", Dir (Some 100) true
                [("cgroup.procs", File (Some ""));
                 ("cri-1.scope", Dir (Some 101) true
                   [("cgroup.procs", File (Some (cgroup_procs_content [41; 42]%N)))])])])])])])])].

Lemma pod_cgroups_live_witness :
  resolvePodCgroupIDs "/sys/fs/cgroup" demo_fs "a-b" = [100; 101] /\
  {[ 100; 101 ]} ⊆ liveKubepodsCgroupIDs "/sys/fs/cgroup" demo_fs.
Proof.
  split; [vm_compute; reflexivity|].
  exact (proj2 (pod_cgroups_live "/sys/fs/cgroup" demo_fs "a-b" eq_refl)).
Defined.
