(* ===== verification/AgentMaps.v ===== *)
(** * internal/maps/maps.go: the agent's access to the BPF maps

    [bpf_maps] are the kernel's maps, shared with the scheduler of [K8sSched];
    [Maps] is the Go structure: which maps are open, and which keys were written
    per pod.  [st] is both together with the cache of the /proc listing.

    The eBPF library is a parameter: whether the kernel accepts a [Put] or a
    [Delete] and what an iteration yields are functions the environment gives
    ([put_ok], [del_ok], [iterate]).  What is used of it is stated where it is
    used: a refused operation leaves the map alone, an accepted one is the map
    operation, an undisturbed iteration yields every entry once.

    Locks: every operation takes [mu] around its bookkeeping; the operations are
    modelled as they run one at a time. *)

From stdpp Require Import base gmap list strings pretty numbers.
From Stdlib Require Import ZArith Lia.
From S2P Require Import Prelude GoStrings Pods NodeFs K8sSched.

Open Scope Z_scope.
Open Scope word_scope.

(** ** State *)

Record Maps := mkMaps {
  TaskParams_open : bool;
  CgroupParams_open : bool;
  Stats_open : bool;
  podPIDs : gmap string (list Z);
  podCgroupIDs : gmap string (list Z)
}.

(** What the stats map holds: one record per CPU, or the plain array of older
    objects, or something the lookup refuses. *)
Inductive stats_layout := PerCPU (l : list sched_stats) | Plain (s : sched_stats) | NoStats.

Record bpf_maps := mkBpfMaps {
  task_params_map : gmap Z task_params;
  cgroup_params_map : gmap Z task_params;
  stats_map : stats_layout
}.

Record st := mkSt { st_maps : Maps; st_bpf : bpf_maps; st_pc : proc_cache }.

(** [New()] *)
Definition New : Maps := mkMaps false false false ∅ ∅.

(** [Open()]: the task map must be pinned, the other two may be missing. *)
Definition Open (pinned_task pinned_cgroup pinned_stats : bool) (m : Maps) : bool * Maps :=
  if pinned_task then
    (true, mkMaps true (pinned_cgroup || CgroupParams_open m) (pinned_stats || Stats_open m)
             (podPIDs m) (podCgroupIDs m))
  else (false, m).

(** [TaskParams(params)]: the Go structure mirrors the C one. *)
Definition TaskParams_of (sp : SchedParams) : task_params :=
  TaskParams (Weight sp) (BudgetNs sp).

Inductive which_map := TaskMap | CgroupMap.
Inductive map_error := PutPid (pid : Z) | PutCgroup (cgid : Z).

Definition set_podPIDs (m : Maps) (uid : string) (l : list Z) : Maps :=
  mkMaps (TaskParams_open m) (CgroupParams_open m) (Stats_open m)
    (<[uid := l]> (podPIDs m)) (podCgroupIDs m).
Definition set_podCgroupIDs (m : Maps) (uid : string) (l : list Z) : Maps :=
  mkMaps (TaskParams_open m) (CgroupParams_open m) (Stats_open m)
    (podPIDs m) (<[uid := l]> (podCgroupIDs m)).
Definition forget_pod (m : Maps) (uid : string) : Maps :=
  mkMaps (TaskParams_open m) (CgroupParams_open m) (Stats_open m)
    (delete uid (podPIDs m)) (delete uid (podCgroupIDs m)).

Definition with_task (b : bpf_maps) (m : gmap Z task_params) : bpf_maps :=
  mkBpfMaps m (cgroup_params_map b) (stats_map b).
Definition with_cgroup (b : bpf_maps) (m : gmap Z task_params) : bpf_maps :=
  mkBpfMaps (task_params_map b) m (stats_map b).

Section Operations.
Context (cgroupV2Base ProcRoot : string).
(** The kernel's verdict on an update or a deletion of a key in the present
    contents of a map, and what an iterator yields (with its error flag). *)
Context (put_ok del_ok : which_map -> gmap Z task_params -> Z -> bool).
Context (iterate : gmap Z task_params -> list (Z * task_params) * bool).

Definition Put (w : which_map) (k : Z) (v : task_params) (m : gmap Z task_params)
    : bool * gmap Z task_params :=
  if put_ok w m k then (true, <[k := v]> m) else (false, m).
Definition Delete (w : which_map) (k : Z) (m : gmap Z task_params)
    : bool * gmap Z task_params :=
  if del_ok w m k then (true, delete k m) else (false, m).

(** The write loop: the keys written, the first key refused, the map. *)
Fixpoint put_loop (w : which_map) (keys : list Z) (tp : task_params) (m : gmap Z task_params)
    : list Z * option Z * gmap Z task_params :=
  match keys with
  | [] => ([], None, m)
  | k :: keys' =>
      let '(ok, m) := Put w k tp m in
      let '(written, firstErr, m) := put_loop w keys' tp m in
      if (ok : bool) then (k :: written, firstErr, m) else (written, Some k, m)
  end.

Definition writeCgroupParams (cgids : list Z) (tp : task_params) (b : bpf_maps)
    : list Z * option map_error * bpf_maps :=
  let '(written, err, m) := put_loop CgroupMap cgids tp (cgroup_params_map b) in
  (written, PutCgroup <$> err, with_cgroup b m).

(** [UpdatePodParams(pod, resolved...)] on a file-system snapshot *)
Definition UpdatePodParams (now : Z) (fs : fnode) (s : st) (pod : option Pod)
    (resolved : option SchedParams) : option map_error * st :=
  match pod with
  | Some p =>
      if negb (TaskParams_open (st_maps s)) then (None, s) else
      let params := match resolved with Some r => r | None => extractSchedulingParams p end in
      let tp := TaskParams_of params in
      let uid := pod_UID p in
      let cgids := if CgroupParams_open (st_maps s)
                   then resolvePodCgroupIDs cgroupV2Base fs uid else [] in
      match cgids with
      | _ :: _ =>
          let '(written, err, b) := writeCgroupParams cgids tp (st_bpf s) in
          (err, mkSt (if decide (uid = "") then st_maps s
                      else set_podCgroupIDs (st_maps s) uid written) b (st_pc s))
      | [] =>
          let '(pids, pc) := resolvePodPIDs cgroupV2Base ProcRoot now fs (st_pc s) pod in
          let '(written, err, m) :=
            put_loop TaskMap (u32 <$> pids) tp (task_params_map (st_bpf s)) in
          (PutPid <$> err,
           mkSt (if decide (uid = "") then st_maps s else set_podPIDs (st_maps s) uid written)
             (with_task (st_bpf s) m) pc)
      end
  | None => (None, s)
  end.

(** Deleting a set of keys, each failure ignored. *)
Definition delete_keys (w : which_map) (keys : list Z) (m : gmap Z task_params)
    : gmap Z task_params :=
  foldl (fun m k => snd (Delete w k m)) m keys.

(** A Go map used as a set of keys, iterated once. *)
Definition key_set (keys : list Z) : list Z := elements (list_to_set keys : gset Z).

Definition RemovePodParams (now : Z) (fs : fnode) (s : st) (pod : option Pod) : st :=
  match pod with
  | Some p =>
      if negb (TaskParams_open (st_maps s)) then s else
      let uid := pod_UID p in
      let recordedPIDs := default [] (podPIDs (st_maps s) !! uid) in
      let recordedCgIDs := default [] (podCgroupIDs (st_maps s) !! uid) in
      let ms := forget_pod (st_maps s) uid in
      let b := if CgroupParams_open ms then
                 with_cgroup (st_bpf s)
                   (delete_keys CgroupMap
                      (key_set (recordedCgIDs ++ resolvePodCgroupIDs cgroupV2Base fs uid))
                      (cgroup_params_map (st_bpf s)))
               else st_bpf s in
      let '(pids, pc) := resolvePodPIDs cgroupV2Base ProcRoot now fs (st_pc s) pod in
      mkSt ms
        (with_task b (delete_keys TaskMap (key_set (recordedPIDs ++ (u32 <$> pids)))
                        (task_params_map b))) pc
  | None => s
  end.

(** The second loop of the sweeps: how many deletions succeeded. *)
Fixpoint delete_count (w : which_map) (keys : list Z) (m : gmap Z task_params)
    : Z * gmap Z task_params :=
  match keys with
  | [] => (0, m)
  | k :: keys' =>
      let '(ok, m) := Delete w k m in
      let '(n, m) := delete_count w keys' m in
      (if (ok : bool) then 1 + n else n, m)
  end.

Definition CleanStaleCgroupIDs (fs : fnode) (s : st) : Z * st :=
  if negb (CgroupParams_open (st_maps s)) then (0, s) else
  let live := liveKubepodsCgroupIDs cgroupV2Base fs in
  if decide (size live = 0%nat) then (0, s) else
  let stale := filter (fun k => k ∉ live) (iterate (cgroup_params_map (st_bpf s))).1.*1 in
  let '(removed, m) := delete_count CgroupMap stale (cgroup_params_map (st_bpf s)) in
  (removed, mkSt (st_maps s) (with_cgroup (st_bpf s) m) (st_pc s)).

(** internal/sched/agent.go, [cleanStalePIDs]: a PID is gone when its directory
    under the proc root does not exist. *)
Definition pid_path (key : Z) : string := ProcRoot +:+ "/" +:+ pretty (Z.to_N key).
Definition pid_gone (fs : fnode) (key : Z) : Prop := Stat fs (pid_path key) = None.
#[global] Instance pid_gone_dec fs key : Decision (pid_gone fs key).
Proof. unfold pid_gone. destruct (Stat _ _); [right; congruence | left; done]. Defined.

Definition cleanStalePIDs (fs : fnode) (s : st) : st :=
  if negb (TaskParams_open (st_maps s)) then s else
  let stale := filter (pid_gone fs) (iterate (task_params_map (st_bpf s))).1.*1 in
  mkSt (st_maps s)
    (with_task (st_bpf s) (delete_count TaskMap stale (task_params_map (st_bpf s))).2) (st_pc s).

(** One tick of [periodicPIDCleanup] *)
Definition cleanup_tick (fs : fnode) (s : st) : st :=
  (CleanStaleCgroupIDs fs (cleanStalePIDs fs s)).2.

(** [DumpParams()]: contents of the open maps, and the first iteration error *)
Definition DumpParams (s : st)
    : gmap Z task_params * gmap Z task_params * option which_map :=
  let cg := if CgroupParams_open (st_maps s)
            then iterate (cgroup_params_map (st_bpf s)) else ([], false) in
  if (cg.2 : bool) then (list_to_map cg.1, ∅, Some CgroupMap) else
  let pid := if TaskParams_open (st_maps s)
             then iterate (task_params_map (st_bpf s)) else ([], false) in
  (list_to_map cg.1, list_to_map pid.1, if (pid.2 : bool) then Some TaskMap else None).

End Operations.

(** ** Read-only views *)

Definition stats_zero : sched_stats := SchedStats 0 0 0 0.
Definition stats_add (a b : sched_stats) : sched_stats :=
  SchedStats (enqueues a +w enqueues b) (local_dispatches a +w local_dispatches b)
    (budget_capped a +w budget_capped b) (defaults a +w defaults b).

Definition ReadStats (s : st) : option sched_stats :=
  if negb (Stats_open (st_maps s)) then None else
  match stats_map (st_bpf s) with
  | PerCPU l => Some (foldl stats_add stats_zero l)
  | Plain v => Some v
  | NoStats => None
  end.

Definition TrackedPods (m : Maps) : nat :=
  size (dom (podCgroupIDs m) ∪ dom (podPIDs m)).

Record PodDetail := mkPodDetail { d_CgroupIDs : list Z; d_PIDs : list Z }.

(** [PodDetails()]: the merge of the two tables; entries are per UID, their
    order in the returned slice is unspecified. *)
Definition PodDetails (m : Maps) : gmap string PodDetail :=
  let merged := (fun ids => mkPodDetail ids []) <$> podCgroupIDs m in
  map_fold (fun uid pids merged =>
      match merged !! uid with
      | Some d => <[uid := mkPodDetail (d_CgroupIDs d) pids]> merged
      | None => <[uid := mkPodDetail [] pids]> merged
      end) merged (podPIDs m).

(** ** Loops *)

Section Writing.
Context (put_ok : which_map -> gmap Z task_params -> Z -> bool).

(** What the write loop leaves behind, whatever the kernel refuses. *)
Record put_result (keys written : list Z) (err : option Z) (tp : task_params)
    (m m' : gmap Z task_params) : Prop := {
  put_sublist : written `sublist_of` keys;
  put_lookup k : m' !! k = if decide (k ∈ written) then Some tp else m !! k;
  put_complete : err = None <-> written = keys;
  put_error k : err = Some k -> k ∈ keys
}.

Lemma put_loop_spec w tp keys : forall m written err m',
  put_loop put_ok w keys tp m = (written, err, m') -> put_result keys written err tp m m'.
Proof.
  induction keys as [|k keys IH]; simpl; intros m written err m' H.
  - injection H as <- <- <-. split; [done| |done|done]. intros k. by rewrite decide_False by set_solver.
  - unfold Put in H. destruct (put_ok w m k) eqn:Eok;
      destruct (put_loop _ _ keys _ _) as [[written1 err1] m1] eqn:E;
      apply IH in E as [Hs Hl Hc He]; injection H as <- <- <-; split.
    + by apply sublist_skip.
    + intros j. rewrite Hl. destruct (decide (j ∈ written1)); [by rewrite decide_True by set_solver|].
      destruct (decide (k = j)) as [->|]; [rewrite lookup_insert_eq, decide_True by set_solver; done|].
      by rewrite lookup_insert_ne, decide_False by set_solver.
    + rewrite Hc. split; [by intros -> | by intros [=]].
    + intros j Hj. apply list_elem_of_further. by apply He.
    + by apply sublist_cons.
    + exact Hl.
    + split; [done|]. intros ->. apply sublist_length in Hs. simpl in Hs. lia.
    + intros j [= ->]. apply list_elem_of_here.
Qed.

(** Exactly what the loop does, in terms of the kernel's verdicts.  [flags] holds
    one verdict per key, each given on the map with the keys accepted before. *)
Fixpoint picked (flags : list bool) (keys : list Z) : list Z :=
  match flags, keys with
  | b :: flags', k :: keys' => if b then k :: picked flags' keys' else picked flags' keys'
  | _, _ => []
  end.
Definition with_keys (keys : list Z) (tp : task_params) (m : gmap Z task_params)
    : gmap Z task_params := list_to_map ((fun k => (k, tp)) <$> keys) ∪ m.

Record put_exact (w : which_map) (flags : list bool) (keys written : list Z) (err : option Z)
    (tp : task_params) (m m' : gmap Z task_params) : Prop := {
  pe_verdicts : length flags = length keys /\
    forall i k, keys !! i = Some k ->
      flags !! i = Some (put_ok w (with_keys (picked (take i flags) keys) tp m) k);
  pe_written : written = picked flags keys;
  pe_error : err = head (picked (negb <$> flags) keys);
  pe_map : m' = with_keys written tp m
}.

Lemma with_keys_lookup keys tp m k :
  with_keys keys tp m !! k = if decide (k ∈ keys) then Some tp else m !! k.
Proof.
  unfold with_keys. induction keys as [|j keys IH]; cbn [fmap list_fmap list_to_map foldr].
  - by rewrite decide_False, (left_id_L ∅ _) by set_solver.
  - rewrite <- insert_union_l. simpl. destruct (decide (j = k)) as [->|Hjk].
    + by rewrite lookup_insert_eq, decide_True by set_solver.
    + rewrite lookup_insert_ne by done. rewrite IH. repeat case_decide; set_solver.
Qed.

Lemma with_keys_cons k keys tp m :
  with_keys (k :: keys) tp m = with_keys keys tp (<[k := tp]> m).
Proof.
  apply map_eq. intros j. rewrite !with_keys_lookup.
  destruct (decide (k = j)) as [->|Hne].
  - rewrite lookup_insert_eq, decide_True by set_solver. by case_decide.
  - rewrite lookup_insert_ne by done. repeat case_decide; set_solver.
Qed.

Lemma put_loop_exact w tp keys : forall m written err m',
  put_loop put_ok w keys tp m = (written, err, m') ->
  exists flags, put_exact w flags keys written err tp m m'.
Proof.
  assert (Hnil : forall m, with_keys [] tp m = m)
    by (intros m; unfold with_keys; apply (left_id_L ∅ _)).
  induction keys as [|k keys IH]; intros m written err m' E; simpl in E.
  - injection E as <- <- <-. exists []. by split.
  - unfold Put in E. destruct (put_ok w m k) eqn:Eok;
      destruct (put_loop put_ok w keys tp _) as [[written1 err1] m1] eqn:E1;
      apply IH in E1 as (flags & [[Hlen Hv] -> -> ->]); injection E as <- <- <-.
    + exists (true :: flags). split; simpl; [split; [by rewrite Hlen|] | done | done |].
      * intros [|i] j Hj; simpl in *; [by simplify_eq; rewrite Hnil, Eok|].
        rewrite (Hv i j Hj). by rewrite with_keys_cons.
      * by rewrite with_keys_cons.
    + exists (false :: flags). split; simpl; [split; [by rewrite Hlen|] | done | done | done].
      intros [|i] j Hj; simpl in *; [by simplify_eq; rewrite Hnil, Eok|]. by apply Hv.
Qed.

End Writing.

Section Deleting.
Context (del_ok : which_map -> gmap Z task_params -> Z -> bool).
(** Deleting a key that is present succeeds. *)
Hypothesis del_law : forall w m k, is_Some (m !! k) -> del_ok w m k = true.

Lemma Delete_lookup w k m j :
  (Delete del_ok w k m).2 !! j = if decide (j = k) then None else m !! j.
Proof.
  unfold Delete. destruct (del_ok w m k) eqn:E; simpl; case_decide as D.
  - subst. by rewrite lookup_delete_eq.
  - by rewrite lookup_delete_ne.
  - subst. destruct (m !! k) eqn:El; [|done]. rewrite (del_law w m k) in E by eauto. done.
  - done.
Qed.

Lemma delete_keys_lookup w keys : forall m j,
  delete_keys del_ok w keys m !! j = if decide (j ∈ keys) then None else m !! j.
Proof.
  unfold delete_keys. induction keys as [|k keys IH]; intros m j; [done|]. cbn [foldl].
  rewrite IH, Delete_lookup. repeat case_decide; set_solver.
Qed.

Lemma delete_count_spec w keys : forall m,
  NoDup keys -> (forall k, k ∈ keys -> is_Some (m !! k)) ->
  (delete_count del_ok w keys m).1 = Z.of_nat (length keys) /\
  forall j, (delete_count del_ok w keys m).2 !! j = if decide (j ∈ keys) then None else m !! j.
Proof.
  induction keys as [|k keys IH]; intros m Hnd Hin; cbn [delete_count length].
  - done.
  - apply list.NoDup_cons in Hnd as [Hk Hnd]. unfold Delete.
    rewrite del_law by (apply Hin; set_solver).
    destruct (IH (delete k m) Hnd) as [Hn Hl].
    { intros j Hj. rewrite lookup_delete_ne by (intros ->; done). apply Hin. set_solver. }
    destruct (delete_count _ _ keys _) as [n m1]. simpl in *. split; [lia|].
    intros j. rewrite Hl. destruct (decide (j ∈ keys)); [by rewrite decide_True by set_solver|].
    destruct (decide (k = j)) as [->|]; [rewrite lookup_delete_eq, decide_True by set_solver; done|].
    by rewrite lookup_delete_ne, decide_False by set_solver.
Qed.

Lemma key_set_elem keys k : k ∈ key_set keys <-> k ∈ keys.
Proof. unfold key_set. by rewrite elem_of_elements, elem_of_list_to_set. Qed.

Lemma delete_key_set_lookup w keys m j :
  delete_keys del_ok w (key_set keys) m !! j = if decide (j ∈ keys) then None else m !! j.
Proof. rewrite delete_keys_lookup. apply decide_ext, key_set_elem. Qed.

Context (iterate : gmap Z task_params -> list (Z * task_params) * bool).
(** Undisturbed iteration yields every entry once. *)
Hypothesis iterate_law : forall m, (iterate m).1 ≡ₚ map_to_list m.

Lemma iterate_keys m k : k ∈ (iterate m).1.*1 <-> is_Some (m !! k).
Proof.
  rewrite iterate_law, list_elem_of_fmap. split.
  - intros ([k' v] & -> & Hin). apply elem_of_map_to_list in Hin. simpl. eauto.
  - intros [v Hv]. exists (k, v). split; [done|]. by apply elem_of_map_to_list.
Qed.

Lemma iterate_nodup m : NoDup (iterate m).1.*1.
Proof. rewrite iterate_law. apply NoDup_fst_map_to_list. Qed.

(** Sweeping the keys that satisfy a test. *)
Lemma sweep_spec w m (P : Z -> Prop) `{forall k, Decision (P k)} :
  let stale := filter P (iterate m).1.*1 in
  (delete_count del_ok w stale m).2 = filter (fun kv => ~ P kv.1) m /\
  (delete_count del_ok w stale m).1 = Z.of_nat (size (filter (fun kv => P kv.1) m)).
Proof.
  intros stale.
  assert (Hin : forall k, k ∈ stale <-> P k /\ is_Some (m !! k)).
  { intros k. unfold stale. by rewrite list_elem_of_filter, iterate_keys. }
  assert (Hnd : NoDup stale) by (apply list.NoDup_filter, iterate_nodup).
  destruct (delete_count_spec w stale m Hnd) as [Hn Hl]; [set_solver|]. split.
  - apply map_eq. intros k. rewrite Hl. case_decide as D.
    + symmetry. apply map_lookup_filter_None. right. apply Hin in D. naive_solver.
    + destruct (m !! k) as [v|] eqn:E.
      * symmetry. apply map_lookup_filter_Some. split; [done|]. intros HP. apply D, Hin. eauto.
      * symmetry. apply map_lookup_filter_None. by left.
  - rewrite Hn. f_equal. rewrite <- (size_list_to_set (C := gset Z) stale) by done.
    rewrite <- (size_dom (D := gset Z)). f_equal. apply set_eq. intros k.
    rewrite elem_of_list_to_set, Hin, elem_of_dom. split.
    + intros [HP [v Hv]]. exists v. by apply map_lookup_filter_Some.
    + intros [v Hv]. apply map_lookup_filter_Some in Hv as [Hv HP]. eauto.
Qed.

End Deleting.
