(* ===== verification/MapsSpec.v ===== *)
(** * What the agent's map operations guarantee

    Contracts of [UpdatePodParams], [RemovePodParams] and the cleanup tick of
    [AgentMaps]: which entries of the two BPF maps they change, what they record
    for the pod, and what they report.  The kernel behind the eBPF library is a
    parameter; [ref_put_ok], [ref_del_ok] and [ref_iterate] are a concrete
    hash map with the capacities of k8s_sched.bpf.c, used by the witnesses. *)

From stdpp Require Import base gmap list strings pretty numbers.
From Stdlib Require Import ZArith Lia.
From S2P Require Import Prelude GoStrings Pods NodeFs K8sSched AgentMaps.

Open Scope Z_scope.

(** ** A concrete kernel *)

Definition ref_capacity (w : which_map) : nat :=
  match w with TaskMap => Z.to_nat 65536 | CgroupMap => Z.to_nat 16384 end.
Definition ref_put_ok (w : which_map) (m : gmap Z task_params) (k : Z) : bool :=
  bool_decide (is_Some (m !! k)) || Nat.ltb (size m) (ref_capacity w).
Definition ref_del_ok (w : which_map) (m : gmap Z task_params) (k : Z) : bool :=
  bool_decide (is_Some (m !! k)).
Definition ref_iterate (m : gmap Z task_params) : list (Z * task_params) * bool :=
  (map_to_list m, false).

Lemma ref_del_law w m k : is_Some (m !! k) -> ref_del_ok w m k = true.
Proof. apply bool_decide_eq_true_2. Qed.
Lemma ref_iterate_law m : (ref_iterate m).1 ≡ₚ map_to_list m.
Proof. done. Qed.

(** A pod of the demo node and the maps before anything was written. *)
Definition demo_pod : Pod :=
  mkPod "a-b" "web" "default" None
    (Some {[ annotationWeight := "5000"; annotationBudget := "2000" ]})
    "Running" "Burstable" [] [] "" "n1".
Definition demo_maps : st :=
  mkSt (mkMaps true true true ∅ ∅) (mkBpfMaps ∅ ∅ (PerCPU [])) (ProcCache None 0).

Section Contracts.
Context (base proc : string).
Context (put_ok del_ok : which_map -> gmap Z task_params -> Z -> bool).

(** The cgroup identifiers and the PIDs an operation on a pod resolves. *)
Definition pod_cgids (fs : fnode) (s : st) (p : Pod) : list Z :=
  if CgroupParams_open (st_maps s) then resolvePodCgroupIDs base fs (pod_UID p) else [].
Definition pod_pids (now : Z) (fs : fnode) (s : st) (p : Pod) : list Z :=
  u32 <$> (resolvePodPIDs base proc now fs (st_pc s) (Some p)).1.
Definition params_for (p : Pod) (resolved : option SchedParams) : task_params :=
  TaskParams_of (default (extractSchedulingParams p) resolved).

Lemma pod_cgids_uid fs s p : pod_cgids fs s p <> [] -> pod_UID p <> "".
Proof.
  unfold pod_cgids, resolvePodCgroupIDs. destruct (CgroupParams_open _); [|done].
  by case_decide.
Qed.

(** Equations of the two branches of [UpdatePodParams]. *)
Lemma update_cgroup_run now fs s p resolved :
  TaskParams_open (st_maps s) = true -> pod_cgids fs s p <> [] ->
  exists written err b,
    writeCgroupParams put_ok (pod_cgids fs s p) (params_for p resolved) (st_bpf s) = (written, err, b) /\
    UpdatePodParams base proc put_ok now fs s (Some p) resolved =
      (err, mkSt (set_podCgroupIDs (st_maps s) (pod_UID p) written) b (st_pc s)).
Proof.
  intros Ho Hne. pose proof (pod_cgids_uid _ _ _ Hne) as Huid.
  unfold UpdatePodParams. rewrite Ho. cbn [negb]. fold (pod_cgids fs s p).
  change (TaskParams_of match resolved with Some r => r | None => extractSchedulingParams p end)
    with (params_for p resolved).
  destruct (writeCgroupParams put_ok (pod_cgids fs s p) (params_for p resolved) (st_bpf s))
    as [[written err] b] eqn:E.
  exists written, err, b. split; [done|].
  destruct (pod_cgids fs s p); [done|]. by rewrite decide_False.
Qed.

Lemma update_pids_run now fs s p resolved :
  TaskParams_open (st_maps s) = true -> pod_cgids fs s p = [] ->
  exists written err m,
    put_loop put_ok TaskMap (pod_pids now fs s p) (params_for p resolved)
      (task_params_map (st_bpf s)) = (written, err, m) /\
    UpdatePodParams base proc put_ok now fs s (Some p) resolved =
      (PutPid <$> err,
       mkSt (if decide (pod_UID p = "") then st_maps s else set_podPIDs (st_maps s) (pod_UID p) written)
         (with_task (st_bpf s) m)
         (resolvePodPIDs base proc now fs (st_pc s) (Some p)).2).
Proof.
  intros Ho He. unfold UpdatePodParams. rewrite Ho. cbn [negb]. fold (pod_cgids fs s p).
  rewrite He. unfold pod_pids.
  destruct (resolvePodPIDs base proc now fs (st_pc s) (Some p)) as [pids pc]. cbn [fst snd].
  change (TaskParams_of match resolved with Some r => r | None => extractSchedulingParams p end)
    with (params_for p resolved).
  destruct (put_loop _ _ _ _ _) as [[written err] m]. eauto.
Qed.

(** C13: [UpdatePodParams] writes the pod's parameters under every identifier
    of its cgroup subtree when there is one, and under its PIDs otherwise, never
    both.  Every key is offered to the kernel once, in order, whatever it refused
    before; exactly the keys it accepted carry the new parameters and are
    recorded for the pod, every other entry of both maps is untouched, and the
    error names the first key it refused, if any. *)
Theorem update_pod_contract now fs s p resolved (Ho : TaskParams_open (st_maps s) = true) :
  let '(err, s') := UpdatePodParams base proc put_ok now fs s (Some p) resolved in
  stats_map (st_bpf s') = stats_map (st_bpf s) /\
  (pod_cgids fs s p <> [] ->
     exists flags written e,
       put_exact put_ok CgroupMap flags (pod_cgids fs s p) written e (params_for p resolved)
         (cgroup_params_map (st_bpf s)) (cgroup_params_map (st_bpf s')) /\
       err = PutCgroup <$> e /\
       task_params_map (st_bpf s') = task_params_map (st_bpf s) /\
       st_maps s' = set_podCgroupIDs (st_maps s) (pod_UID p) written) /\
  (pod_cgids fs s p = [] ->
     exists flags written e,
       put_exact put_ok TaskMap flags (pod_pids now fs s p) written e (params_for p resolved)
         (task_params_map (st_bpf s)) (task_params_map (st_bpf s')) /\
       err = PutPid <$> e /\
       cgroup_params_map (st_bpf s') = cgroup_params_map (st_bpf s) /\
       (pod_UID p <> "" -> st_maps s' = set_podPIDs (st_maps s) (pod_UID p) written)).
Proof.
  destruct (decide (pod_cgids fs s p = [])) as [He|Hne].
  - destruct (update_pids_run now fs s p resolved Ho He) as (written & e & m & Hp & ->).
    apply put_loop_exact in Hp as [flags Hp]. split_and!; [done|by intros ?|].
    intros _. exists flags, written, e.
    split_and!; [done|done|done|]. intros. simpl. by rewrite decide_False.
  - destruct (update_cgroup_run now fs s p resolved Ho Hne) as (written & err & b & Hw & ->).
    unfold writeCgroupParams in Hw.
    destruct (put_loop _ _ _ _ _) as [[written' e] m] eqn:E. injection Hw as <- <- <-.
    apply put_loop_exact in E as [flags E]. split_and!; [done| |by intros ?].
    intros _. exists flags, written', e.
    split_and!; done.
Qed.

Hypothesis del_law : forall w m k, is_Some (m !! k) -> del_ok w m k = true.

Lemma remove_run now fs s p :
  TaskParams_open (st_maps s) = true ->
  let s' := RemovePodParams base proc del_ok now fs s (Some p) in
  let cgs := default [] (podCgroupIDs (st_maps s) !! pod_UID p) ++ pod_cgids fs s p in
  let pids := default [] (podPIDs (st_maps s) !! pod_UID p) ++ pod_pids now fs s p in
  st_maps s' = forget_pod (st_maps s) (pod_UID p) /\
  (forall k, task_params_map (st_bpf s') !! k =
     if decide (k ∈ pids) then None else task_params_map (st_bpf s) !! k) /\
  (CgroupParams_open (st_maps s) = true -> forall k, cgroup_params_map (st_bpf s') !! k =
     if decide (k ∈ cgs) then None else cgroup_params_map (st_bpf s) !! k) /\
  (CgroupParams_open (st_maps s) = false ->
     cgroup_params_map (st_bpf s') = cgroup_params_map (st_bpf s)).
Proof.
  intros Ho. unfold RemovePodParams, pod_cgids, pod_pids. rewrite Ho. cbn [negb].
  destruct (resolvePodPIDs base proc now fs (st_pc s) (Some p)) as [ps pc]. cbn [fst snd].
  change (CgroupParams_open (forget_pod (st_maps s) (pod_UID p)))
    with (CgroupParams_open (st_maps s)).
  destruct (CgroupParams_open (st_maps s)); simpl; split_and!; try done.
  - intros k. by apply delete_key_set_lookup.
  - intros _ k. by apply delete_key_set_lookup.
  - intros k. by apply delete_key_set_lookup.
Qed.

(** C21: removal undoes an update.  A pod whose cgroup subtree was written and
    which is then removed leaves both maps exactly as they were, provided its
    keys were unused before, and nothing stays recorded for it; by then its
    cgroup directory may be gone ([fs'] is any later snapshot), the record
    suffices. *)
Theorem update_remove_roundtrip now fs now' fs' s p resolved
    (Ho : TaskParams_open (st_maps s) = true)
    (Hne : pod_cgids fs s p <> [])
    (Hfresh : forall k, k ∈ pod_cgids fs s p ++ pod_cgids fs' s p ->
       cgroup_params_map (st_bpf s) !! k = None)
    (Hpids : forall k, k ∈ default [] (podPIDs (st_maps s) !! pod_UID p) ++ pod_pids now' fs' s p ->
       task_params_map (st_bpf s) !! k = None) :
  let s1 := (UpdatePodParams base proc put_ok now fs s (Some p) resolved).2 in
  let s2 := RemovePodParams base proc del_ok now' fs' s1 (Some p) in
  cgroup_params_map (st_bpf s2) = cgroup_params_map (st_bpf s) /\
  task_params_map (st_bpf s2) = task_params_map (st_bpf s) /\
  podCgroupIDs (st_maps s2) = delete (pod_UID p) (podCgroupIDs (st_maps s)) /\
  podPIDs (st_maps s2) = delete (pod_UID p) (podPIDs (st_maps s)).
Proof.
  intros s1 s2.
  assert (Hc : CgroupParams_open (st_maps s) = true).
  { unfold pod_cgids in Hne. by destruct (CgroupParams_open (st_maps s)). }
  destruct (update_cgroup_run now fs s p resolved Ho Hne) as (written & err & b & Hw & Hrun).
  unfold writeCgroupParams in Hw.
  destruct (put_loop _ _ _ _ _) as [[written' e] m] eqn:E. injection Hw as -> <- <-.
  apply put_loop_spec in E as [Hsub Hl _ _].
  set (s1' := mkSt (set_podCgroupIDs (st_maps s) (pod_UID p) written)
    (with_cgroup (st_bpf s) m) (st_pc s)).
  assert (Es1 : s1 = s1') by (unfold s1; by rewrite Hrun).
  unfold s2. rewrite Es1. clear s1 s2 Es1 Hrun.
  destruct (remove_run now' fs' s1' p Ho) as (Hm2 & Ht2 & Hg2 & _). specialize (Hg2 Hc).
  change (pod_cgids fs' s1' p) with (pod_cgids fs' s p) in Hg2.
  change (pod_pids now' fs' s1' p) with (pod_pids now' fs' s p) in Ht2.
  cbn [s1' st_maps set_podCgroupIDs podCgroupIDs podPIDs] in Ht2, Hg2.
  rewrite lookup_insert_eq in Hg2.
  split_and!.
  - apply map_eq. intros k. rewrite Hg2. simpl. rewrite Hl.
    assert (Hin : k ∈ written -> k ∈ pod_cgids fs s p) by (intros Hk; by eapply elem_of_sublist).
    case_decide as D; [symmetry; apply Hfresh; set_solver|].
    rewrite decide_False by set_solver. done.
  - apply map_eq. intros k. rewrite Ht2. case_decide; [symmetry; by apply Hpids | done].
  - rewrite Hm2. simpl. by rewrite delete_insert_eq.
  - by rewrite Hm2.
Qed.

Context (iterate : gmap Z task_params -> list (Z * task_params) * bool).
Hypothesis iterate_law : forall m, (iterate m).1 ≡ₚ map_to_list m.

Lemma sweep_cgroups_run fs s :
  CgroupParams_open (st_maps s) = true ->
  let live := liveKubepodsCgroupIDs base fs in
  let '(removed, s') := CleanStaleCgroupIDs base del_ok iterate fs s in
  st_maps s' = st_maps s /\ task_params_map (st_bpf s') = task_params_map (st_bpf s) /\
  (live = ∅ -> s' = s /\ removed = 0) /\
  (live <> ∅ ->
     cgroup_params_map (st_bpf s') = filter (fun kv => kv.1 ∈ live) (cgroup_params_map (st_bpf s)) /\
     removed = Z.of_nat (size (filter (fun kv => kv.1 ∉ live) (cgroup_params_map (st_bpf s))))).
Proof.
  intros Ho live. unfold CleanStaleCgroupIDs. rewrite Ho. cbn [negb]. fold live.
  case_decide as D.
  - apply size_empty_inv in D. split_and!; [done|done|done|]. intros []. by apply leibniz_equiv.
  - destruct (sweep_spec del_ok del_law iterate iterate_law CgroupMap
      (cgroup_params_map (st_bpf s)) (fun k => k ∉ live)) as [Hm Hn].
    destruct (delete_count _ _ _ _) as [n m]. simpl in *. subst m n.
    split_and!; [done|done|by intros ->; destruct D; rewrite size_empty|].
    intros _. split; [|done]. apply map_filter_ext. intros k v _. simpl.
    split; [|by intros ? ?]. intros Hk. destruct (decide (k ∈ live)); [done|by destruct Hk].
Qed.

Lemma sweep_pids_run fs s :
  TaskParams_open (st_maps s) = true ->
  let s' := cleanStalePIDs proc del_ok iterate fs s in
  st_maps s' = st_maps s /\ cgroup_params_map (st_bpf s') = cgroup_params_map (st_bpf s) /\
  task_params_map (st_bpf s') =
    filter (fun kv => ~ pid_gone proc fs kv.1) (task_params_map (st_bpf s)).
Proof.
  intros Ho. unfold cleanStalePIDs. rewrite Ho. cbn [negb]. simpl. split_and!; [done|done|].
  exact (proj1 (sweep_spec del_ok del_law iterate iterate_law TaskMap
    (task_params_map (st_bpf s)) (pid_gone proc fs))).
Qed.

(** C20: the cleanup tick is exact and safe.  It keeps a PID entry exactly when
    the process still exists; it keeps a cgroup entry exactly when the cgroup
    still exists below the kubepods roots, or drops none when it can see no
    cgroup at all; in particular every entry of a pod that still resolves
    survives, and the records of the pods are not touched. *)
Theorem cleanup_tick_exact fs s
    (Ht : TaskParams_open (st_maps s) = true) (Hc : CgroupParams_open (st_maps s) = true)
    (Hfs : all_listable fs = true) :
  let live := liveKubepodsCgroupIDs base fs in
  let s' := cleanup_tick base proc del_ok iterate fs s in
  st_maps s' = st_maps s /\
  task_params_map (st_bpf s') =
    filter (fun kv => ~ pid_gone proc fs kv.1) (task_params_map (st_bpf s)) /\
  (live = ∅ -> cgroup_params_map (st_bpf s') = cgroup_params_map (st_bpf s)) /\
  (live <> ∅ -> cgroup_params_map (st_bpf s') =
    filter (fun kv => kv.1 ∈ live) (cgroup_params_map (st_bpf s))) /\
  (forall uid k, k ∈ resolvePodCgroupIDs base fs uid ->
     cgroup_params_map (st_bpf s') !! k = cgroup_params_map (st_bpf s) !! k).
Proof.
  intros live s'. unfold s', cleanup_tick.
  destruct (sweep_pids_run fs s Ht) as (Hm1 & Hg1 & Ht1).
  set (s1 := cleanStalePIDs proc del_ok iterate fs s) in *.
  assert (Hc1 : CgroupParams_open (st_maps s1) = true) by by rewrite Hm1.
  pose proof (sweep_cgroups_run fs s1 Hc1) as H. fold live in H.
  destruct (CleanStaleCgroupIDs _ _ _ _ _) as [removed s2]. simpl.
  destruct H as (Hm2 & Ht2 & He & Hne). rewrite Hm2, Ht2, Hm1, Ht1. rewrite Hg1 in Hne.
  split_and!; [done|done| | |].
  - intros Hl. by destruct (He Hl) as [-> _].
  - intros Hl. by destruct (Hne Hl) as [-> _].
  - intros uid k Hk.
    assert (Hlive : k ∈ live).
    { exact (resolve_live base fs uid k Hfs Hk). }
    destruct Hne as [-> _]; [set_solver|].
    destruct (cgroup_params_map (st_bpf s) !! k) as [v|] eqn:E.
    + by apply map_lookup_filter_Some.
    + apply map_lookup_filter_None. by left.
Qed.

End Contracts.

(** ** Concrete runs *)

(** Weight 5000 and 2 ms of budget under both cgroups of the pod. *)
Lemma update_pod_contract_witness :
  let '(err, s') := UpdatePodParams "/sys/fs/cgroup" "/proc" ref_put_ok 0 demo_fs demo_maps
                      (Some demo_pod) None in
  err = None /\ exists flags written e,
    put_exact ref_put_ok CgroupMap flags [100; 101] written e (TaskParams 5000 2000000) ∅
      (cgroup_params_map (st_bpf s')).
Proof.
  pose proof (update_pod_contract "/sys/fs/cgroup" "/proc" ref_put_ok 0 demo_fs demo_maps
    demo_pod None eq_refl) as H.
  destruct (UpdatePodParams _ _ _ _ _ _ _ _) as [err s'] eqn:E.
  destruct H as (_ & Hcg & _).
  destruct Hcg as (flags & written & e & Hput & Herr & _); [vm_compute; discriminate|].
  split; [|exists flags, written, e; exact Hput].
  assert (Hfst : (UpdatePodParams "/sys/fs/cgroup" "/proc" ref_put_ok 0 demo_fs demo_maps
    (Some demo_pod) None).1 = None) by (vm_compute; reflexivity).
  rewrite E in Hfst. exact Hfst.
Defined.

(** The pod is removed after its directories have disappeared. *)
Lemma update_remove_roundtrip_witness :
  let s1 := (UpdatePodParams "/sys/fs/cgroup" "/proc" ref_put_ok 0 demo_fs demo_maps
               (Some demo_pod) None).2 in
  let s2 := RemovePodParams "/sys/fs/cgroup" "/proc" ref_del_ok 9 (Dir None true []) s1
              (Some demo_pod) in
  cgroup_params_map (st_bpf s2) = ∅ /\ task_params_map (st_bpf s2) = ∅.
Proof.
  destruct (update_remove_roundtrip "/sys/fs/cgroup" "/proc" ref_put_ok ref_del_ok ref_del_law
    0 demo_fs 9 (Dir None true []) demo_maps demo_pod None) as (H1 & H2 & _).
  - reflexivity.
  - vm_compute. discriminate.
  - intros k _. reflexivity.
  - intros k _. reflexivity.
  - split; [exact H1 | exact H2].
Defined.

(** A stale cgroup 999 and the entries of the demo pod. *)
Lemma cleanup_tick_exact_witness :
  let s := mkSt (mkMaps true true true ∅ ∅)
             (mkBpfMaps {[ 41 := TaskParams 1 0 ]}
                {[ 100 := TaskParams 5000 0; 999 := TaskParams 7 0 ]} NoStats) (ProcCache None 0) in
  let s' := cleanup_tick "/sys/fs/cgroup" "/proc" ref_del_ok ref_iterate demo_fs s in
  cgroup_params_map (st_bpf s') !! 100 = Some (TaskParams 5000 0) /\
  cgroup_params_map (st_bpf s') !! 999 = None.
Proof.
  intros s s'.
  destruct (cleanup_tick_exact "/sys/fs/cgroup" "/proc" ref_del_ok ref_del_law ref_iterate
    ref_iterate_law demo_fs s eq_refl eq_refl eq_refl) as (_ & _ & _ & _ & H).
  split.
  - refine (eq_trans (H "a-b" 100 _) _); [|reflexivity].
    change (100 ∈ [100; 101]). apply list_elem_of_here.
  - vm_compute. reflexivity.
Defined.
