(* ===== verification/CelCache.v ===== *)
(** * internal/cel/cache.go: the cache of compiled CEL programs

    The CEL library is a parameter: [compile] turns an expression into a program
    or an error, [eval] runs a program on variables.  [getOrCompile] is the code
    path of one caller that is not disturbed; [cstep] are the atomic steps of
    many callers, cut where the code takes and releases its lock, with the
    in-flight table that lets concurrent callers share one compilation.

    Theorems: the cache never changes what an evaluation returns; it holds at
    most [capacity] programs and evicts the least recently used ones; under any
    interleaving a program is compiled by at most one caller at a time, every
    caller gets the result of compiling its own expression, and as long as a
    caller is unfinished some caller can step. *)

From stdpp Require Import base gmap list strings numbers relations.
From Stdlib Require Import ZArith Lia.
From S2P Require Import Prelude.

Open Scope Z_scope.
Open Scope word_scope.

Inductive cel_error (E : Type) := CompileErr (expr : string) (e : E) | EvalErr (e : E) | NotBool.
Arguments CompileErr {E}.
Arguments EvalErr {E}.
Arguments NotBool {E}.

(** The value a program yields. *)
Inductive cel_value := CelBool (b : bool) | CelOther.

Section Cache.
Context {Program Vars Err : Type}.
Context (compile : string -> Program + Err).
Context (eval : Program -> Vars -> cel_value + Err).

Record cacheEntry := CacheEntry { clock : Z; program : Program }.

Record Cache := mkCache {
  capacity : Z;
  entries : gmap string cacheEntry;
  globalClock : Z
}.

Definition NewCache (capacity : Z) (gclock : Z) : Cache := mkCache capacity ∅ gclock.

Definition set_entries (c : Cache) (es : gmap string cacheEntry) : Cache :=
  mkCache (capacity c) es (globalClock c).

(** [entry.clock.Store(globalClock.Add(1))] on a cached entry, and the same for
    a new one. *)
Definition touch (c : Cache) (expr : string) (e : cacheEntry) : Cache :=
  let now := globalClock c +w 1 in
  mkCache (capacity c) (<[expr := CacheEntry now (program e)]> (entries c)) now.

(** The inner loop of [evictIfNeeded]: the key with the least clock; [""] when
    no clock is below the largest value. *)
Definition oldest_step (acc : string * Z) (kv : string * cacheEntry) : string * Z :=
  if clock kv.2 <? acc.2 then (kv.1, clock kv.2) else acc.
Definition oldestKey (es : gmap string cacheEntry) : string :=
  (foldl oldest_step ("", u64_mod - 1) (map_to_list es)).1.

(** The outer loop; it deletes an entry each time, so the number of entries
    bounds the rounds. *)
Fixpoint evict_loop (fuel : nat) (cap : Z) (es : gmap string cacheEntry)
    : gmap string cacheEntry :=
  match fuel with
  | O => es
  | S fuel' =>
      if cap <=? Z.of_nat (size es) then
        let k := oldestKey es in
        if decide (k = "") then es else evict_loop fuel' cap (delete k es)
      else es
  end.

Definition evictIfNeeded (c : Cache) : Cache :=
  set_entries c (evict_loop (S (size (entries c))) (capacity c) (entries c)).

(** Insertion of a freshly compiled program (the code after the double check). *)
Definition insert_program (c : Cache) (expr : string) (p : Program) : Cache :=
  touch (evictIfNeeded c) expr (CacheEntry 0 p).

Definition compile_result (expr : string) : Program + cel_error Err :=
  match compile expr with inl p => inl p | inr e => inr (CompileErr expr e) end.

(** [getOrCompile] of an undisturbed caller *)
Definition getOrCompile (c : Cache) (expr : string) : (Program + cel_error Err) * Cache :=
  match entries c !! expr with
  | Some e => (inl (program e), touch c expr e)
  | None =>
      match compile_result expr with
      | inl p => (inl p, insert_program c expr p)
      | inr e => (inr e, c)
      end
  end.

Definition runProgram (p : Program) (vars : Vars) : bool + cel_error Err :=
  match eval p vars with
  | inl (CelBool b) => inl b
  | inl CelOther => inr NotBool
  | inr e => inr (EvalErr e)
  end.

Definition Evaluate (c : Cache) (expr : string) (vars : Vars) : (bool + cel_error Err) * Cache :=
  match getOrCompile c expr with
  | (inl p, c') => (runProgram p vars, c')
  | (inr e, c') => (inr e, c')
  end.

Definition peek (c : Cache) (expr : string) : bool := bool_decide (is_Some (entries c !! expr)).

(** ** Invariant and eviction *)

(** Cached programs are compilation results; the empty expression, whose key the
    eviction uses as "none", is not cached; clocks are below the next reading. *)
Record cache_ok (c : Cache) : Prop := {
  ok_programs k e : entries c !! k = Some e -> compile k = inl (program e);
  ok_key : entries c !! "" = None;
  ok_clock k e : entries c !! k = Some e -> 0 <= clock e <= globalClock c
}.

(** The least clock among the entries met so far, and the key it belongs to. *)
Lemma oldest_fold l : forall acc,
  let r := foldl oldest_step acc l in
  r.2 <= acc.2 /\ (r = acc \/ exists e, (r.1, e) ∈ l /\ clock e = r.2 /\ r.2 < acc.2) /\
  (forall k e, (k, e) ∈ l -> r.2 <= clock e).
Proof.
  induction l as [|[k e] l IH]; intros acc; simpl.
  - split_and!; [lia|by left|]. by intros k e ?%not_elem_of_nil.
  - change (oldest_step acc (k, e)) with (if clock e <? acc.2 then (k, clock e) else acc).
    destruct (Z.ltb_spec (clock e) acc.2).
    + destruct (IH (k, clock e)) as (H1 & H2 & H3). simpl in *. split_and!; [lia| |].
      * right. destruct H2 as [H2|(e' & Hin & Hc & Hlt)].
        -- rewrite H2. simpl. exists e. split_and!; [apply list_elem_of_here|done|done].
        -- exists e'. split_and!; [by apply list_elem_of_further|done|lia].
      * intros k' e' [[= -> ->]|Hin]%elem_of_cons; [done|by eapply H3].
    + destruct (IH acc) as (H1 & H2 & H3). split_and!; [done| |].
      * destruct H2 as [H2|(e' & Hin & Hc & Hlt)]; [by left|right].
        exists e'. split_and!; [by apply list_elem_of_further|done|done].
      * intros k' e' [[= -> ->]|Hin]%elem_of_cons; [lia|by eapply H3].
Qed.

(** On a nonempty table with readable clocks the loop finds an entry of least
    clock. *)
Lemma oldestKey_spec es :
  es <> ∅ -> es !! "" = None ->
  (forall k e, es !! k = Some e -> 0 <= clock e < u64_mod - 1) ->
  oldestKey es <> "" /\
  exists e, es !! oldestKey es = Some e /\ forall k' e', es !! k' = Some e' -> clock e <= clock e'.
Proof.
  intros Hne Hkey Hclk. unfold oldestKey.
  destruct (oldest_fold (map_to_list es) ("", u64_mod - 1)) as (_ & H2 & H3).
  destruct (foldl oldest_step _ _) as [k0 c0]. cbn [fst snd] in *.
  destruct H2 as [[= -> ->]|(e & Hin & Hc & _)].
  - destruct (map_choose es Hne) as (k & e & He).
    pose proof (H3 k e) as H. specialize (Hclk k e He).
    rewrite elem_of_map_to_list in H. specialize (H He). lia.
  - apply elem_of_map_to_list in Hin. split; [intros ->; congruence|].
    exists e. split; [done|]. intros k' e' He'. rewrite Hc. apply (H3 k').
    by apply elem_of_map_to_list.
Qed.

(** [recent a b]: everything dropped from [a] is no more recent than what is kept. *)
Definition evicted_oldest (a b : gmap string cacheEntry) : Prop :=
  b ⊆ a /\ forall k e k' e', a !! k = Some e -> b !! k = None -> b !! k' = Some e' ->
    clock e <= clock e'.

Lemma evicted_oldest_refl a : evicted_oldest a a.
Proof. split; [done|]. intros. congruence. Qed.

(** Enough fuel: the loop ends below capacity, or empty. *)
Lemma evict_loop_spec cap : forall fuel es,
  (size es < fuel)%nat -> es !! "" = None ->
  (forall k e, es !! k = Some e -> 0 <= clock e < u64_mod - 1) ->
  let es' := evict_loop fuel cap es in
  evicted_oldest es es' /\ (Z.of_nat (size es') < cap \/ es' = ∅) /\
  (Z.of_nat (size es) < cap -> es' = es).
Proof.
  induction fuel as [|fuel IH]; intros es Hf Hkey Hclk; [lia|]. simpl.
  destruct (Z.leb_spec cap (Z.of_nat (size es))) as [Hc|Hc].
  2: { split_and!; [apply evicted_oldest_refl|by left|done]. }
  destruct (decide (es = ∅)) as [->|Hne].
  { change (oldestKey ∅) with "". rewrite decide_True by done.
    split_and!; [apply evicted_oldest_refl|by right|done]. }
  destruct (oldestKey_spec es Hne Hkey Hclk) as (Hk & e & He & Hmin).
  rewrite decide_False by done. set (k0 := oldestKey es) in *.
  destruct (IH (delete k0 es)) as ([Hsub Hold] & Hsz & _).
  - rewrite (map_size_delete_Some k0 es) by eauto.
    assert (size es <> 0%nat) by (intros ?%map_size_empty_inv; done). lia.
  - by rewrite lookup_delete_ne.
  - intros k e' Hk'. apply lookup_delete_Some in Hk' as [_ Hk']. by eapply Hclk.
  - split_and!; [|done|lia]. split; [etrans; [exact Hsub|apply delete_subseteq]|].
    intros k ek k' e' Hek Hn Hk'.
    assert (Hk'' : es !! k' = Some e').
    { eapply lookup_weaken; [exact Hk'|]. etrans; [exact Hsub|apply delete_subseteq]. }
    destruct (decide (k = k0)) as [->|Hkk0].
    + assert (ek = e) as -> by congruence. by eapply Hmin.
    + eapply (Hold k ek k' e'); [by rewrite lookup_delete_ne|done|done].
Qed.

Lemma insert_program_entries c expr p :
  entries (insert_program c expr p) =
    <[expr := CacheEntry (globalClock c +w 1) p]> (entries (evictIfNeeded c)).
Proof. reflexivity. Qed.

(** What an evaluation returns without any cache. *)
Definition evaluate_direct (expr : string) (vars : Vars) : bool + cel_error Err :=
  match compile_result expr with inl p => runProgram p vars | inr e => inr e end.

(** The empty expression does not compile. *)
Hypothesis compile_empty : forall p, compile "" <> inl p.

Definition clock_room (c : Cache) (n : Z) : Prop :=
  0 <= globalClock c /\ globalClock c + n < u64_mod - 1.

Lemma touch_clock c n expr e :
  clock_room c (1 + n) -> 0 <= n -> globalClock (touch c expr e) = globalClock c + 1.
Proof. intros [H1 H2] Hn. unfold touch. simpl. apply u64_small. unfold is_u64. lia. Qed.

(** Touching an entry whose program is the compiled one keeps the invariant. *)
Lemma touch_ok c n expr e :
  cache_ok c -> clock_room c (1 + n) -> 0 <= n -> expr <> "" -> compile expr = inl (program e) ->
  cache_ok (touch c expr e).
Proof.
  intros [H1 H2 H3] Hr Hn Hne Hp. pose proof (touch_clock c n expr e Hr Hn) as Hc.
  destruct Hr as [Hr1 Hr2]. split.
  - intros k e' H. simpl in H. apply lookup_insert_Some in H as [[<- <-]|[_ H]]; [done|eauto].
  - simpl. by rewrite lookup_insert_ne.
  - intros k e' H. rewrite Hc. simpl in H, Hc. rewrite Hc in H.
    apply lookup_insert_Some in H as [[<- <-]|[_ H]]; simpl; [lia|].
    apply H3 in H. lia.
Qed.

Lemma evict_ok c n : cache_ok c -> clock_room c n -> 0 <= n ->
  cache_ok (evictIfNeeded c) /\
  evicted_oldest (entries c) (entries (evictIfNeeded c)) /\
  (Z.of_nat (size (entries (evictIfNeeded c))) < capacity c \/ entries (evictIfNeeded c) = ∅) /\
  (Z.of_nat (size (entries c)) < capacity c -> entries (evictIfNeeded c) = entries c).
Proof.
  intros [H1 H2 H3] [Hr1 Hr2] Hn.
  destruct (evict_loop_spec (capacity c) (S (size (entries c))) (entries c)) as (Hold & Hsz & Hid).
  - lia.
  - done.
  - intros k e He. apply H3 in He. lia.
  - split_and!; [|done|done|done]. destruct Hold as [Hsub _].
    split; cbn [evictIfNeeded set_entries entries globalClock].
    + intros k e He. eapply H1, lookup_weaken; eauto.
    + eapply lookup_weaken_None; eauto.
    + intros k e He. eapply H3, lookup_weaken; eauto.
Qed.

(** One call of [getOrCompile]: the result, the invariant, the clock, and the
    three cases of what happens to the entries. *)
Lemma getOrCompile_spec c n expr :
  cache_ok c -> clock_room c (1 + n) -> 0 <= n ->
  let '(r, c') := getOrCompile c expr in
  r = compile_result expr /\ cache_ok c' /\ capacity c' = capacity c /\ clock_room c' n /\
  (Z.of_nat (size (entries c)) <= Z.max 1 (capacity c) ->
   Z.of_nat (size (entries c')) <= Z.max 1 (capacity c)).
Proof.
  intros Hok Hr Hn. unfold getOrCompile.
  assert (Hroom : forall c1 e, globalClock c1 = globalClock c -> clock_room (touch c1 expr e) n).
  { intros c1 e E. assert (Hr1 : clock_room c1 (1 + n)) by (unfold clock_room in *; rewrite E; done).
    unfold clock_room. rewrite (touch_clock c1 n) by done. unfold clock_room in Hr1. lia. }
  destruct (entries c !! expr) as [e|] eqn:E.
  - pose proof (ok_programs c Hok _ _ E) as Hp.
    assert (Hne : expr <> "") by (intros ->; by apply (compile_empty (program e))).
    split_and!; [by unfold compile_result; rewrite Hp|by eapply touch_ok|done|by apply Hroom|].
    simpl. rewrite (map_size_insert_Some expr _ (entries c)) by eauto. done.
  - destruct (compile_result expr) as [p|err] eqn:Ec.
    2: { split_and!; [done|done|done|unfold clock_room in *; lia|done]. }
    assert (Hp : compile expr = inl p) by (unfold compile_result in Ec; by destruct (compile expr); simplify_eq).
    assert (Hne : expr <> "") by (intros ->; by apply (compile_empty p)).
    destruct (evict_ok c (1 + n) Hok Hr) as (Hok' & [Hsub _] & Hsz & _); [lia|].
    split_and!; [done|by eapply (touch_ok _ n)|done|by apply Hroom|]. intros _.
    rewrite insert_program_entries, map_size_insert_None.
    + destruct Hsz as [Hsz|Hsz]; [lia|]. rewrite Hsz. change (size ∅) with 0%nat. lia.
    + eapply lookup_weaken_None; eauto.
Qed.

Lemma Evaluate_spec c n expr vars :
  cache_ok c -> clock_room c (1 + n) -> 0 <= n ->
  let '(r, c') := Evaluate c expr vars in
  r = evaluate_direct expr vars /\ cache_ok c' /\ clock_room c' n.
Proof.
  intros Hok Hr Hn. unfold Evaluate, evaluate_direct.
  pose proof (getOrCompile_spec c n expr Hok Hr Hn) as H.
  destruct (getOrCompile c expr) as [r c']. destruct H as (-> & Hok' & _ & Hr' & _).
  by destruct (compile_result expr).
Qed.

(** A sequence of evaluations through one cache. *)
Fixpoint evaluate_all (c : Cache) (calls : list (string * Vars))
    : list (bool + cel_error Err) * Cache :=
  match calls with
  | [] => ([], c)
  | (expr, vars) :: calls' =>
      let '(r, c) := Evaluate c expr vars in
      let '(rs, c) := evaluate_all c calls' in (r :: rs, c)
  end.

Lemma evaluate_all_spec calls : forall c,
  cache_ok c -> clock_room c (Z.of_nat (length calls)) ->
  Z.of_nat (size (entries c)) <= Z.max 1 (capacity c) ->
  let '(rs, c') := evaluate_all c calls in
  rs = (fun call => evaluate_direct call.1 call.2) <$> calls /\
  cache_ok c' /\ Z.of_nat (size (entries c')) <= Z.max 1 (capacity c).
Proof.
  induction calls as [|[expr vars] calls IH]; intros c Hok Hr Hsz; simpl; [done|].
  unfold Evaluate. pose proof (getOrCompile_spec c (Z.of_nat (length calls)) expr Hok) as H.
  destruct (getOrCompile c expr) as [r c1].
  cbn [length] in Hr. rewrite Nat2Z.inj_succ in Hr.
  destruct H as (-> & Hok1 & Hcap & Hr1 & Hsz1);
    [unfold clock_room in *; lia | lia |].
  assert (IH1 := IH c1 Hok1 Hr1). rewrite Hcap in IH1. specialize (IH1 (Hsz1 Hsz)).
  unfold evaluate_direct.
  destruct (compile_result expr) as [p|e]; simpl;
    destruct (evaluate_all c1 calls) as [rs c2]; destruct IH1 as (-> & Hok2 & Hsz2); done.
Qed.

(** C26: the cache is invisible and bounded.  A sequence of evaluations through
    a new cache returns what compiling and running each expression afresh
    returns, errors included, and the cache never holds more programs than its
    capacity (one, for a capacity below one). *)
Theorem cache_transparent cap gclock calls
    (Hr : clock_room (NewCache cap gclock) (Z.of_nat (length calls))) :
  let '(rs, c) := evaluate_all (NewCache cap gclock) calls in
  rs = (fun call => evaluate_direct call.1 call.2) <$> calls /\
  Z.of_nat (size (entries c)) <= Z.max 1 cap.
Proof.
  pose proof (evaluate_all_spec calls (NewCache cap gclock)) as H.
  destruct (evaluate_all _ _) as [rs c]. destruct H as (-> & _ & Hsz); [|done| |done].
  - split; simpl; [by intros|done|by intros].
  - simpl. change (size ∅) with 0%nat. lia.
Qed.

(** C27: eviction is least-recently-used.  Compiling an expression that is not
    cached keeps every entry while there is room; in a full cache it drops
    entries none of which was used more recently than any entry it keeps; the new
    program is then the most recent one; and a hit drops nothing. *)
Theorem eviction_is_lru c expr (Hok : cache_ok c) (Hr : clock_room c 1) :
  let '(r, c') := getOrCompile c expr in
  (forall e, entries c !! expr = Some e -> dom (entries c') = dom (entries c)) /\
  (entries c !! expr = None -> forall p, r = inl p ->
     exists kept, entries c' = <[expr := CacheEntry (globalClock c + 1) p]> kept /\
       evicted_oldest (entries c) kept /\
       (Z.of_nat (size (entries c)) < capacity c -> kept = entries c) /\
       (Z.of_nat (size kept) < capacity c \/ kept = ∅)) /\
  (forall p e k e', r = inl p -> entries c' !! expr = Some e -> k <> expr ->
     entries c' !! k = Some e' -> clock e' < clock e).
Proof.
  assert (Hw : globalClock c +w 1 = globalClock c + 1)
    by (apply u64_small; unfold is_u64, clock_room in *; lia).
  destruct (evict_ok c 1 Hok Hr) as (_ & Hold & Hsz & Hid); [lia|].
  unfold getOrCompile. destruct (entries c !! expr) as [e|] eqn:E.
  - split_and!; [|done|].
    + intros _ _. simpl. rewrite dom_insert_L. apply subseteq_union_1_L, singleton_subseteq_l.
      apply elem_of_dom. eauto.
    + intros p e1 k e' _ He Hk He'. simpl in *. rewrite Hw in *.
      rewrite lookup_insert_eq in He. rewrite lookup_insert_ne in He' by done.
      injection He as <-. apply (ok_clock c Hok) in He'. simpl. lia.
  - destruct (compile_result expr) as [p|err]; (split_and!; [by intros e| |]); [|..|done].
    + intros _ p' [= <-]. exists (entries (evictIfNeeded c)).
      split_and!; [by rewrite insert_program_entries, Hw|done|done|done].
    + intros p' e k e' _ He Hk He'. rewrite insert_program_entries, Hw in He, He'.
      rewrite lookup_insert_eq in He. rewrite lookup_insert_ne in He' by done.
      injection He as <-. simpl. destruct Hold as [Hsub _].
      eapply lookup_weaken in He'; [|exact Hsub]. apply (ok_clock c Hok) in He'. lia.
    + done.
Qed.

End Cache.

(** ** Concurrent callers *)

Section Concurrent.
Context {Program Err : Type}.
Context (compile : string -> Program + Err).

#[local] Abbreviation result_of := (compile_result compile).
#[local] Abbreviation Cache := (@Cache Program).

#[local] Abbreviation outcome := (sum Program (cel_error Err)).

(** Where a caller of [getOrCompile] stands: before the read lock; missed, before
    the lock; waiting for the [done] channel of a call; compiling its own call;
    its [done] closed, before the second lock; returned. *)
Inductive caller :=
| Enter (expr : string)
| Missed (expr : string)
| Waiting (expr : string) (id : nat)
| Compiling (expr : string) (id : nat)
| Compiled (expr : string) (id : nat)
| Returned (expr : string) (r : outcome).

(** [calls] holds every [compileCall] made, its result once [done] is closed. *)
Record shared := Shared {
  sh_cache : Cache;
  inflight : gmap string nat;
  calls : gmap nat (option outcome);
  next_call : nat
}.

(** The next atomic step of a caller; [None] while it is blocked or finished. *)
Definition caller_step (sh : shared) (c : caller) : option (shared * caller) :=
  match c with
  | Enter e =>
      match entries (sh_cache sh) !! e with
      | Some en => Some (Shared (touch (sh_cache sh) e en) (inflight sh) (calls sh) (next_call sh),
                         Returned e (inl (program en)))
      | None => Some (sh, Missed e)
      end
  | Missed e =>
      match inflight sh !! e with
      | Some id => Some (sh, Waiting e id)
      | None =>
          let id := next_call sh in
          Some (Shared (sh_cache sh) (<[e := id]> (inflight sh)) (<[id := None]> (calls sh)) (S id),
                Compiling e id)
      end
  | Waiting e id =>
      match calls sh !! id with
      | Some (Some r) => Some (sh, Returned e r)
      | _ => None
      end
  | Compiling e id =>
      Some (Shared (sh_cache sh) (inflight sh) (<[id := Some (result_of e)]> (calls sh))
              (next_call sh), Compiled e id)
  | Compiled e id =>
      let fl := delete e (inflight sh) in
      match calls sh !! id with
      | Some (Some (inl p)) =>
          match entries (sh_cache sh) !! e with
          | Some en => Some (Shared (touch (sh_cache sh) e en) fl (calls sh) (next_call sh),
                             Returned e (inl (program en)))
          | None => Some (Shared (insert_program (sh_cache sh) e p) fl (calls sh) (next_call sh),
                          Returned e (inl p))
          end
      | Some (Some (inr err)) =>
          Some (Shared (sh_cache sh) fl (calls sh) (next_call sh), Returned e (inr err))
      | _ => None
      end
  | Returned _ _ => None
  end.

Record cstate := CState { sh : shared; callers : gmap nat caller }.

Inductive cstep : cstate -> cstate -> Prop :=
| cstep_call s t e : callers s !! t = None ->
    cstep s (CState (sh s) (<[t := Enter e]> (callers s)))
| cstep_run s t c sh' c' : callers s !! t = Some c -> caller_step (sh s) c = Some (sh', c') ->
    cstep s (CState sh' (<[t := c']> (callers s))).

Definition owns (c : caller) (e : string) (id : nat) : Prop :=
  c = Compiling e id \/ c = Compiled e id.

(** What a caller's position says about the shared state. *)
Definition caller_ok (s : shared) (c : caller) : Prop :=
  match c with
  | Enter _ | Missed _ => True
  | Waiting e id => calls s !! id = Some (Some (result_of e)) \/ inflight s !! e = Some id
  | Compiling e id => inflight s !! e = Some id /\ calls s !! id = Some None
  | Compiled e id => inflight s !! e = Some id /\ calls s !! id = Some (Some (result_of e))
  | Returned e r => r = result_of e
  end.

Record cinv (s : cstate) : Prop := {
  inv_programs k en : entries (sh_cache (sh s)) !! k = Some en -> compile k = inl (program en);
  inv_callers t c : callers s !! t = Some c -> caller_ok (sh s) c;
  inv_owner e id : inflight (sh s) !! e = Some id -> exists t c, callers s !! t = Some c /\ owns c e id;
  inv_unique t1 t2 c1 c2 e1 e2 id : callers s !! t1 = Some c1 -> callers s !! t2 = Some c2 ->
    owns c1 e1 id -> owns c2 e2 id -> t1 = t2;
  inv_fresh e id : inflight (sh s) !! e = Some id -> (id < next_call (sh s))%nat;
  inv_calls id : is_Some (calls (sh s) !! id) -> (id < next_call (sh s))%nat
}.

(** Programs of a cache that was touched or inserted into. *)
Definition programs_ok (c : Cache) : Prop :=
  forall k en, entries c !! k = Some en -> compile k = inl (program en).

Lemma touch_programs c e en :
  programs_ok c -> compile e = inl (program en) -> programs_ok (touch c e en).
Proof. intros Hc He k en' H. simpl in H. apply lookup_insert_Some in H as [[<- <-]|[_ H]]; eauto. Qed.

Lemma evict_loop_subseteq cap fuel : forall es : gmap string (@cacheEntry Program),
  evict_loop fuel cap es ⊆ es.
Proof.
  induction fuel as [|fuel IH]; intros es; simpl; [done|]. destruct (_ <=? _); [|done].
  case_decide; [done|]. etrans; [apply IH|apply delete_subseteq].
Qed.

Lemma insert_programs c e p : programs_ok c -> compile e = inl p -> programs_ok (insert_program c e p).
Proof.
  intros Hc He k en H. rewrite insert_program_entries in H.
  apply lookup_insert_Some in H as [[<- <-]|[_ H]]; [done|].
  eapply Hc, lookup_weaken; [exact H|apply evict_loop_subseteq].
Qed.

Lemma compile_result_inl e p : result_of e = inl p <-> compile e = inl p.
Proof. unfold compile_result. destruct (compile e); naive_solver. Qed.

(** One caller moves from [c] to [c'] and the shared state becomes [sh']: what is
    left to check. *)
Lemma cinv_move s t c sh' c' :
  cinv s -> callers s !! t = Some c ->
  programs_ok (sh_cache sh') -> caller_ok sh' c' ->
  (forall t2 c2, t2 <> t -> callers s !! t2 = Some c2 -> caller_ok sh' c2) ->
  (forall e id, inflight sh' !! e = Some id ->
     owns c' e id \/ (inflight (sh s) !! e = Some id /\ ~ owns c e id)) ->
  (forall e id, owns c' e id -> owns c e id \/ id = next_call (sh s)) ->
  (forall e id, inflight sh' !! e = Some id -> (id < next_call sh')%nat) ->
  (forall id, is_Some (calls sh' !! id) -> (id < next_call sh')%nat) ->
  cinv (CState sh' (<[t := c']> (callers s))).
Proof.
  intros Hinv Ht Hp Hc' Ho Hfl Hown Hf1 Hf2. split; cbn [sh callers]; [done| | | |done|done].
  - intros t2 c2 H. apply lookup_insert_Some in H as [[<- <-]|[Hne H]]; [done|eauto].
  - intros e id H. destruct (Hfl e id H) as [H'|[H' Hno]].
    + exists t, c'. by rewrite lookup_insert_eq.
    + destruct (inv_owner s Hinv e id H') as (t2 & c2 & H2 & Ho2). exists t2, c2.
      rewrite lookup_insert_ne; [done|]. intros ->. congruence.
  - assert (Hside : forall t2 c2 e1 e2 id, t2 <> t -> callers s !! t2 = Some c2 ->
      owns c' e1 id -> owns c2 e2 id -> False).
    { intros t2 c2 e1 e2 id Hne H2 H1' H2'. destruct (Hown _ _ H1') as [H1| ->].
      - apply Hne. by eapply (inv_unique s Hinv t2 t c2 c).
      - pose proof (inv_callers s Hinv t2 c2 H2) as Hok.
        assert (Hfl2 : inflight (sh s) !! e2 = Some (next_call (sh s)))
          by (destruct H2' as [-> | ->]; apply Hok).
        apply (inv_fresh s Hinv) in Hfl2. lia. }
    intros t1 t2 c1 c2 e1 e2 id H1 H2 Ho1 Ho2.
    apply lookup_insert_Some in H1 as [[<- <-]|[Hn1 H1]];
      apply lookup_insert_Some in H2 as [[<- <-]|[Hn2 H2]]; [done|exfalso; eauto..|].
    by eapply (inv_unique s Hinv t1 t2 c1 c2).
Qed.

(** A caller that owns nothing before and after, the tables unchanged. *)
Lemma cinv_quiet s t c ca c' :
  cinv s -> callers s !! t = Some c -> programs_ok ca ->
  (forall e id, ~ owns c e id) -> (forall e id, ~ owns c' e id) ->
  let sh' := Shared ca (inflight (sh s)) (calls (sh s)) (next_call (sh s)) in
  caller_ok sh' c' -> cinv (CState sh' (<[t := c']> (callers s))).
Proof.
  intros Hinv Ht Hp Hn Hn' sh' Hok. eapply cinv_move; [done|done|done|done|..].
  - intros t2 c2 _ H2. exact (inv_callers s Hinv t2 c2 H2).
  - intros e id H. right. split; [done|apply Hn].
  - intros e id H. exfalso. exact (Hn' e id H).
  - exact (inv_fresh s Hinv).
  - exact (inv_calls s Hinv).
Qed.

Lemma owns_Compiling e id e' id' : owns (Compiling e id) e' id' <-> e = e' /\ id = id'.
Proof. unfold owns. naive_solver. Qed.
Lemma owns_Compiled e id e' id' : owns (Compiled e id) e' id' <-> e = e' /\ id = id'.
Proof. unfold owns. naive_solver. Qed.

(** The caller registers its own call. *)
Lemma cinv_register s t e :
  cinv s -> callers s !! t = Some (Missed e) -> inflight (sh s) !! e = None ->
  let id := next_call (sh s) in
  cinv (CState (Shared (sh_cache (sh s)) (<[e := id]> (inflight (sh s)))
                  (<[id := None]> (calls (sh s))) (S id))
          (<[t := Compiling e id]> (callers s))).
Proof.
  intros Hinv Ht He id. eapply cinv_move; [done|done|..]; cbn [inflight calls next_call sh_cache].
  - exact (inv_programs s Hinv).
  - simpl. by rewrite !lookup_insert_eq.
  - intros t2 c2 _ H2. pose proof (inv_callers s Hinv t2 c2 H2) as Hok.
    assert (Hcalls : forall i v, calls (sh s) !! i = Some v -> <[id := None]> (calls (sh s)) !! i = Some v).
    { intros i v Hi. rewrite lookup_insert_ne; [done|].
      pose proof (inv_calls s Hinv i ltac:(eauto)). unfold id. lia. }
    assert (Hfl : forall e2 i, inflight (sh s) !! e2 = Some i -> <[e := id]> (inflight (sh s)) !! e2 = Some i).
    { intros e2 i Hi. rewrite lookup_insert_ne; [done|congruence]. }
    destruct c2; simpl in *; naive_solver.
  - intros e2 i H. apply lookup_insert_Some in H as [[<- <-]|[Hne H]].
    + left. by apply owns_Compiling.
    + right. split; [done|]. intros [|]; congruence.
  - intros e2 i [_ <-]%owns_Compiling. by right.
  - intros e2 i H. apply lookup_insert_Some in H as [[<- <-]|[Hne H]]; [lia|].
    apply (inv_fresh s Hinv) in H. unfold id. lia.
  - intros i H. destruct (decide (id = i)) as [<-|Hne]; [lia|].
    rewrite lookup_insert_ne in H by done. apply (inv_calls s Hinv) in H. unfold id. lia.
Qed.

(** The compilation finishes and [done] is closed. *)
Lemma cinv_compiled s t e id :
  cinv s -> callers s !! t = Some (Compiling e id) ->
  cinv (CState (Shared (sh_cache (sh s)) (inflight (sh s))
                  (<[id := Some (result_of e)]> (calls (sh s))) (next_call (sh s)))
          (<[t := Compiled e id]> (callers s))).
Proof.
  intros Hinv Ht. destruct (inv_callers s Hinv _ _ Ht) as [Hfl Hcall].
  eapply cinv_move; [done|done|..]; cbn [inflight calls next_call sh_cache].
  - exact (inv_programs s Hinv).
  - simpl. by rewrite lookup_insert_eq.
  - intros t2 c2 Hne H2. pose proof (inv_callers s Hinv t2 c2 H2) as Hok.
    assert (Huniq : forall e2, ~ owns c2 e2 id).
    { intros e2 Ho. apply Hne. eapply (inv_unique s Hinv t2 t); eauto. by left. }
    destruct c2 as [| |e2 id2|e2 id2|e2 id2|]; simpl in *; try done;
      destruct (decide (id2 = id)) as [->|Hid]; rewrite ?lookup_insert_ne by done; try done.
    + right. destruct Hok as [Hok|]; [|done]. by rewrite Hcall in Hok.
    + destruct (Huniq e2). by left.
    + destruct (Huniq e2). by right.
  - intros e2 i H. rewrite owns_Compiled, owns_Compiling.
    destruct (decide (e = e2)) as [->|]; [left; split; congruence | right; naive_solver].
  - intros e2 i Ho. left. apply owns_Compiling. by apply owns_Compiled in Ho.
  - exact (inv_fresh s Hinv).
  - intros i H. destruct (decide (id = i)) as [<-|Hne]; [apply (inv_calls s Hinv); eauto|].
    rewrite lookup_insert_ne in H by done. by apply (inv_calls s Hinv).
Qed.

(** The owner takes its call out of the table and returns. *)
Lemma cinv_return s t e id ca :
  cinv s -> callers s !! t = Some (Compiled e id) -> programs_ok ca ->
  cinv (CState (Shared ca (delete e (inflight (sh s))) (calls (sh s)) (next_call (sh s)))
          (<[t := Returned e (result_of e)]> (callers s))).
Proof.
  intros Hinv Ht Hp. destruct (inv_callers s Hinv _ _ Ht) as [Hfl Hcall].
  eapply cinv_move; [done|done|..]; cbn [inflight calls next_call sh_cache].
  - done.
  - reflexivity.
  - intros t2 c2 Hne H2. pose proof (inv_callers s Hinv t2 c2 H2) as Hok.
    assert (Huniq : forall e2, ~ owns c2 e2 id).
    { intros e2 Ho. apply Hne. eapply (inv_unique s Hinv t2 t); eauto. by right. }
    destruct c2 as [| |e2 id2|e2 id2|e2 id2|]; simpl in *; try done;
      destruct (decide (e2 = e)) as [->|Hee]; rewrite ?lookup_delete_ne by done; try done.
    + left. destruct Hok as [|Hok]; congruence.
    + destruct (Huniq e). left. destruct Hok. congruence.
    + destruct (Huniq e). right. destruct Hok. congruence.
  - intros e2 i H. apply lookup_delete_Some in H as [Hne H]. right. split; [done|].
    by intros [-> _]%owns_Compiled.
  - intros e2 i [|]; done.
  - intros e2 i H. apply lookup_delete_Some in H as [_ H]. by apply (inv_fresh s Hinv) in H.
  - exact (inv_calls s Hinv).
Qed.

Lemma not_owner c :
  match c with Compiling _ _ | Compiled _ _ => False | _ => True end -> forall e id, ~ owns c e id.
Proof. intros Hc e id [-> | ->]; done. Qed.

(** Every step of a caller keeps the invariant. *)
Lemma cinv_caller_step s t c sh' c' :
  cinv s -> callers s !! t = Some c -> caller_step (sh s) c = Some (sh', c') ->
  cinv (CState sh' (<[t := c']> (callers s))).
Proof.
  intros Hinv Ht Hstep. pose proof (inv_callers s Hinv _ _ Ht) as Hok.
  pose proof (inv_programs s Hinv) as Hp.
  assert (Hsh : sh s = Shared (sh_cache (sh s)) (inflight (sh s)) (calls (sh s)) (next_call (sh s)))
    by (by destruct (sh s)).
  destruct c as [e|e|e id|e id|e id|e r]; simpl in Hstep, Hok; [..|done].
  - destruct (entries _ !! e) as [en|] eqn:E; injection Hstep as <- <-.
    + pose proof (Hp _ _ E) as He.
      eapply cinv_quiet; eauto using touch_programs; try (by apply not_owner).
      simpl. by rewrite (proj2 (compile_result_inl e (program en))).
    + rewrite Hsh. eapply cinv_quiet; eauto; by apply not_owner.
  - destruct (inflight _ !! e) as [id|] eqn:E; injection Hstep as <- <-.
    + rewrite Hsh. eapply cinv_quiet; eauto; [by apply not_owner..|]. by right.
    + by apply cinv_register.
  - destruct (calls _ !! id) as [[r|]|] eqn:E; [|done..]. injection Hstep as <- <-.
    rewrite Hsh. eapply cinv_quiet; eauto; [by apply not_owner..|]. simpl.
    destruct Hok as [Hok|Hfl]; [congruence|].
    destruct (inv_owner s Hinv e id Hfl) as (t2 & c2 & H2 & [-> | ->]);
      destruct (inv_callers s Hinv _ _ H2); congruence.
  - injection Hstep as <- <-. by apply cinv_compiled.
  - destruct Hok as [Hfl Hc]. rewrite Hc in Hstep.
    destruct (result_of e) as [p|err] eqn:Ec.
    + apply compile_result_inl in Ec as Ep.
      destruct (entries _ !! e) as [en|] eqn:E; injection Hstep as <- <-.
      * pose proof (Hp _ _ E) as He. assert (program en = p) as Epr by congruence.
        rewrite Epr, <- Ec. eapply cinv_return; eauto. apply touch_programs; [done|congruence].
      * rewrite <- Ec. eapply cinv_return; eauto. by apply insert_programs.
    + injection Hstep as <- <-. rewrite <- Ec. by eapply cinv_return.
Qed.

Lemma cinv_step s s' : cinv s -> cstep s s' -> cinv s'.
Proof.
  intros Hinv Hstep. destruct Hstep as [s t e Ht|s t c sh' c' Ht Hs];
    [|by eapply cinv_caller_step].
  split; cbn [sh callers].
  - exact (inv_programs s Hinv).
  - intros t2 c2 H. apply lookup_insert_Some in H as [[<- <-]|[_ H]]; [done|].
    by apply (inv_callers s Hinv) in H.
  - intros e2 id H. destruct (inv_owner s Hinv _ _ H) as (t2 & c2 & H2 & Ho). exists t2, c2.
    rewrite lookup_insert_ne; [done|]. intros ->. congruence.
  - intros t1 t2 c1 c2 e1 e2 id H1 H2 Ho1 Ho2.
    apply lookup_insert_Some in H1 as [[<- <-]|[_ H1]]; [by destruct Ho1|].
    apply lookup_insert_Some in H2 as [[<- <-]|[_ H2]]; [by destruct Ho2|].
    by eapply (inv_unique s Hinv t1 t2 c1 c2).
  - exact (inv_fresh s Hinv).
  - exact (inv_calls s Hinv).
Qed.

(** No caller yet, nothing in flight, correct programs cached. *)
Definition cstart (c : Cache) : cstate := CState (Shared c ∅ ∅ 0) ∅.

Lemma cinv_start c : programs_ok c -> cinv (cstart c).
Proof.
  intros Hc. split; cbn [cstart sh callers sh_cache inflight calls next_call]; [exact Hc|..];
    intros; simplify_map_eq; done.
Qed.

Lemma cinv_reachable c s : programs_ok c -> rtc cstep (cstart c) s -> cinv s.
Proof.
  intros Hc. apply (rtc_ind_r (fun s => cinv s)); [by apply cinv_start|].
  intros s1 s2 _ Hs Hinv. by eapply cinv_step.
Qed.

(** How far a caller is from returning. *)
Definition caller_rank (c : caller) : nat :=
  match c with
  | Enter _ => 5 | Missed _ => 4 | Compiling _ _ => 3 | Compiled _ _ => 2
  | Waiting _ _ => 1 | Returned _ _ => 0
  end.

(** C14: the in-flight table under any interleaving of any number of callers.
    A caller that returns got the result of compiling its own expression; two
    callers are never compiling the same expression at once; a caller that is
    not done can step, or waits for one that can, so there is no deadlock; and
    each step of a caller brings it closer to returning, at most five in all. *)
Theorem singleflight_correct c s (Hc : programs_ok c) (Hs : rtc cstep (cstart c) s) :
  (forall t e r, callers s !! t = Some (Returned e r) -> r = result_of e) /\
  (forall t1 t2 e i j, callers s !! t1 = Some (Compiling e i) ->
     callers s !! t2 = Some (Compiling e j) -> t1 = t2) /\
  (forall t c, callers s !! t = Some c -> caller_rank c <> 0%nat ->
     exists t' c', callers s !! t' = Some c' /\ is_Some (caller_step (sh s) c')) /\
  (forall c sh' c', caller_step (sh s) c = Some (sh', c') -> (caller_rank c' < caller_rank c <= 5)%nat).
Proof.
  pose proof (cinv_reachable c s Hc Hs) as Hinv. split_and!.
  - intros t e r H. exact (inv_callers s Hinv _ _ H).
  - intros t1 t2 e i j H1 H2.
    destruct (inv_callers s Hinv _ _ H1) as [F1 _]. destruct (inv_callers s Hinv _ _ H2) as [F2 _].
    assert (i = j) as -> by congruence.
    eapply (inv_unique s Hinv); [exact H1|exact H2|by left|by left].
  - intros t c0 H Hr.
    assert (Hcan : forall t' c', callers s !! t' = Some c' ->
      match c' with Waiting _ _ | Returned _ _ => False | _ => True end ->
      is_Some (caller_step (sh s) c')).
    { intros t' c' H' Hk. pose proof (inv_callers s Hinv _ _ H') as Hok.
      destruct c'; simpl in *; try done; repeat case_match; eauto; naive_solver. }
    destruct c0 as [e|e|e id|e id|e id|e r]; try (by eexists t, _; split; [exact H|eapply Hcan]).
    destruct (inv_callers s Hinv _ _ H) as [Hd|Hfl].
    + exists t, (Waiting e id). split; [done|]. simpl. rewrite Hd. eauto.
    + destruct (inv_owner s Hinv e id Hfl) as (t2 & c2 & H2 & Ho). exists t2, c2.
      split; [done|]. eapply Hcan; [done|]. by destruct Ho as [-> | ->].
  - intros c0 sh' c' H. destruct c0; simpl in H; repeat case_match; simplify_eq; simpl; lia.
Qed.

End Concurrent.

(** ** A concrete expression language

    "true" and "false" compile to themselves, "1" to a program that yields no
    boolean; nothing else compiles. *)
Definition ref_compile (expr : string) : option bool + unit :=
  if decide (expr = "true") then inl (Some true)
  else if decide (expr = "false") then inl (Some false)
  else if decide (expr = "1") then inl None else inr tt.
Definition ref_eval {V : Type} (p : option bool) (_ : V) : cel_value + unit :=
  match p with Some b => inl (CelBool b) | None => inl CelOther end.

Lemma ref_compile_empty p : ref_compile "" <> inl p.
Proof. vm_compute. discriminate. Qed.

(** Capacity one, so every change of expression evicts. *)
Lemma cache_transparent_witness :
  let calls := [("true", tt); ("false", tt); ("1", tt); ("bad", tt); ("true", tt)] in
  let '(rs, c) := evaluate_all ref_compile ref_eval (NewCache 1 0) calls in
  rs = [inl true; inl false; inr NotBool; inr (CompileErr "bad" tt); inl true] /\
  Z.of_nat (size (entries c)) <= 1.
Proof.
  intros calls.
  pose proof (cache_transparent ref_compile ref_eval ref_compile_empty 1 0 calls) as H.
  destruct (evaluate_all ref_compile ref_eval (NewCache 1 0) calls) as [rs c].
  apply H. unfold clock_room, u64_mod. simpl. lia.
Defined.

Lemma eviction_is_lru_witness :
  let c := mkCache 1 {[ "true" := CacheEntry 3 (Some true) ]} 5 in
  let '(r, c') := getOrCompile ref_compile c "false" in
  r = inl (Some false) /\
  exists kept, entries c' = <[ "false" := CacheEntry 6 (Some false) ]> kept.
Proof.
  intros c.
  pose proof (eviction_is_lru ref_compile c "false") as H.
  destruct (getOrCompile ref_compile c "false") as [r c'] eqn:E.
  assert (Er : r = inl (Some false)) by (injection E; intros _ <-; reflexivity).
  split; [exact Er|].
  destruct H as (_ & H & _).
  - split.
    + intros k e He. unfold c in He. cbn [entries] in He. apply lookup_singleton_Some in He as [<- <-]. reflexivity.
    + reflexivity.
    + intros k e He. unfold c in He. cbn [entries] in He. apply lookup_singleton_Some in He as [<- <-]. simpl. lia.
  - unfold clock_room, u64_mod. simpl. lia.
  - destruct (H eq_refl (Some false) Er) as (kept & Hk & _). exists kept. exact Hk.
Defined.

(** Two callers of the same expression, the second waiting for the first. *)
Lemma singleflight_correct_witness :
  let c0 := mkCache 4 ∅ 0 in
  let s := CState (Shared c0 {[ "true" := 0%nat ]} {[ 0%nat := None ]} 1)
             (<[2%nat := Waiting "true" 0]> (<[1%nat := Compiling "true" 0]> ∅)) in
  exists t' c', callers s !! t' = Some c' /\ is_Some (caller_step ref_compile (sh s) c').
Proof.
  intros c0 s.
  assert (Hs : rtc (cstep ref_compile) (cstart c0) s).
  { eapply rtc_l; [apply (cstep_call ref_compile _ 1 "true"); reflexivity|].
    eapply rtc_l; [eapply (cstep_run ref_compile _ 1); reflexivity|].
    eapply rtc_l; [apply (cstep_call ref_compile _ 2 "true"); reflexivity|].
    eapply rtc_l; [eapply (cstep_run ref_compile _ 2); reflexivity|].
    eapply rtc_l; [eapply (cstep_run ref_compile _ 1); reflexivity|].
    eapply rtc_l; [eapply (cstep_run ref_compile _ 2); reflexivity|].
    match goal with |- rtc _ ?a ?b => replace b with a by (vm_compute; reflexivity) end.
    apply rtc_refl. }
  assert (Hc : programs_ok ref_compile c0) by (intros k en H; cbn [c0 entries] in H; by rewrite lookup_empty in H).
  destruct (singleflight_correct ref_compile c0 s Hc Hs) as (_ & _ & H & _).
  exact (H 2%nat (Waiting "true" 0) eq_refl ltac:(simpl; lia)).
Defined.
