(* ===== verification/PolicySpec.v ===== *)
(** * What the policy resolver guarantees

    [matches] says declaratively which policies apply to a pod; the loop of
    [getMatchingPolicies], its CEL cache included, computes the filter by it.
    From there: the parameters of [Resolve], its bookkeeping and the refresh of
    the policy cache. *)

From stdpp Require Import base gmap list strings numbers.
From Stdlib Require Import ZArith Lia.
From S2P Require Import Prelude GoStrings Pods CelCache Policy.

Open Scope Z_scope.

Section Spec.
Context {LabelSelector Program Err : Type}.
Context (selects : LabelSelector -> gomap -> option bool).
Context (range : gmap string (@SchedulingPolicy LabelSelector) -> list (@SchedulingPolicy LabelSelector)).
Context (compile : string -> Program + Err).
Context (eval : Program -> cel_vars -> cel_value + Err).

#[local] Abbreviation SchedulingPolicy := (@SchedulingPolicy LabelSelector).
#[local] Abbreviation Resolver := (@Resolver LabelSelector Program Err).

(** A policy applies: its selector, if any, selects the pod's labels, and its
    condition, if any, evaluates to true. *)
Definition condition_holds (p : SchedulingPolicy) (pod : Pod) : bool :=
  let expr := spec_CELCondition (policy_Spec p) in
  if decide (expr = "") then true else
  match evaluate_direct compile eval expr (cel_vars_of p pod) with
  | inl b => b
  | inr _ => false
  end.
Definition matches (pod : Pod) (p : SchedulingPolicy) : Prop :=
  podSelectorMatches selects p pod = true /\ condition_holds p pod = true.
#[global] Instance matches_dec pod p : Decision (matches pod p).
Proof. unfold matches. apply _. Defined.

(** The cache of conditions is sound and has clock readings left for [n] more
    evaluations. *)
Definition resolver_ok (r : Resolver) (n : Z) : Prop :=
  cache_ok compile (celCache r) /\ clock_room (celCache r) n.

(** Go visits each entry of a map once; the empty expression does not compile. *)
Hypothesis range_law : forall m, range m ≡ₚ (map_to_list m).*2.
Hypothesis compile_empty : forall p, compile "" <> inl p.

Lemma celConditionPasses_spec r p pod n :
  resolver_ok r (1 + n) -> 0 <= n ->
  let '(ok, r') := celConditionPasses compile eval r p pod in
  ok = condition_holds p pod /\ policies r' = policies r /\ matchedPods r' = matchedPods r /\
  resolver_ok r' n.
Proof.
  intros [Hok Hr] Hn. unfold celConditionPasses, condition_holds. case_decide.
  - split_and!; [done|done|done|]. split; [done|]. unfold clock_room in *. lia.
  - pose proof (Evaluate_spec compile eval compile_empty (celCache r) n
      (spec_CELCondition (policy_Spec p)) (cel_vars_of p pod) Hok Hr Hn) as HE.
    destruct (Evaluate _ _ _ _ _) as [res c]. destruct HE as (-> & Hok' & Hr').
    by destruct (evaluate_direct _ _ _ _).
Qed.

Lemma match_loop_spec pod ps : forall r,
  resolver_ok r (Z.of_nat (length ps)) ->
  let '(matched, r') := match_loop selects compile eval r pod ps in
  matched = filter (matches pod) ps /\ policies r' = policies r /\ matchedPods r' = matchedPods r /\
  resolver_ok r' 0.
Proof.
  induction ps as [|p ps IH]; intros r Hr; simpl; [done|].
  cbn [length] in Hr. rewrite Nat2Z.inj_succ in Hr.
  assert (Hr1 : resolver_ok r (1 + Z.of_nat (length ps))) by (by rewrite Z.add_1_l).
  rewrite filter_cons. destruct (podSelectorMatches selects p pod) eqn:Es; simpl.
  - pose proof (celConditionPasses_spec r p pod (Z.of_nat (length ps)) Hr1) as H.
    destruct (celConditionPasses _ _ r p pod) as [ok r1]. destruct H as (-> & Hp1 & Hm1 & Hr2); [lia|].
    specialize (IH r1 Hr2). destruct (match_loop _ _ _ r1 pod ps) as [matched r2].
    destruct IH as (-> & Hp2 & Hm2 & Hr3). rewrite Hp2, Hm2, Hp1, Hm1. split_and!; try done.
    case_decide as D; [by rewrite (proj2 D)|].
    destruct (condition_holds p pod) eqn:Ec; [by destruct D; split | done].
  - rewrite decide_False by (intros [? _]; congruence). apply IH.
    destruct Hr1. split; [done|]. unfold clock_room in *. lia.
Qed.

(** ** Merging *)

(** [best f ps x]: [x] is the greatest positive value of [f] on [ps], 0 if none. *)
Definition best (f : SchedulingPolicy -> Z) (ps : list SchedulingPolicy) (x : Z) : Prop :=
  (forall p, p ∈ ps -> f p <= x) /\ (x = 0 \/ exists p, p ∈ ps /\ f p = x /\ 0 < x).

Lemma best_fun f ps x y : best f ps x -> best f ps y -> 0 <= x -> 0 <= y -> x = y.
Proof.
  intros [H1 H2] [H1' H2'] Hx Hy. apply Z.le_antisymm.
  - destruct H2 as [->|(p & Hp & <- & _)]; [done | by apply H1'].
  - destruct H2' as [->|(p & Hp & <- & _)]; [done | by apply H1].
Qed.

Lemma best_perm f ps ps' x : ps ≡ₚ ps' -> best f ps x -> best f ps' x.
Proof. intros Hp. unfold best. setoid_rewrite <- Hp. done. Qed.

(** The weight and the budget (in nanoseconds, with the wrap of the code) a policy
    contributes. *)
Definition weight_of (p : SchedulingPolicy) : Z := Z.max 0 (spec_Weight (policy_Spec p)).
Definition budget_of (p : SchedulingPolicy) : Z :=
  if 0 <? spec_BudgetMicroseconds (policy_Spec p)
  then u64 (spec_BudgetMicroseconds (policy_Spec p) * 1000) else 0.

(** Field widths of the API type. *)
Definition spec_width (p : SchedulingPolicy) : Prop :=
  - s32_half <= spec_Weight (policy_Spec p) < s32_half /\
  - s64_half <= spec_BudgetMicroseconds (policy_Spec p) < s64_half.

Lemma merge_policy_max acc p : spec_width p -> 0 <= acc.1 -> 0 <= acc.2 ->
  merge_policy acc p = (Z.max acc.1 (weight_of p), Z.max acc.2 (budget_of p)).
Proof.
  destruct acc as [w b]. intros [Hw Hb] H1 H2. unfold merge_policy, weight_of, budget_of. simpl in *.
  unfold s32_half, s64_half in *. f_equal.
  - destruct (Z.ltb_spec 0 (spec_Weight (policy_Spec p))); simpl; [|lia].
    rewrite u64_small by (unfold is_u64, u64_mod; lia). case_bool; lia.
  - destruct (Z.ltb_spec 0 (spec_BudgetMicroseconds (policy_Spec p))); simpl; [|lia].
    rewrite (u64_small (spec_BudgetMicroseconds _)) by (unfold is_u64, u64_mod; lia). case_bool; lia.
Qed.

Lemma budget_of_range p : is_u64 (budget_of p).
Proof. unfold budget_of. case_bool; [auto with words | unfold is_u64, u64_mod; lia]. Qed.

Lemma best_cons f p ps x : 0 <= f p -> 0 <= x -> best f ps x -> best f (p :: ps) (Z.max x (f p)).
Proof.
  intros Hf Hx [H1 H2]. split.
  - intros q [->|Hq]%elem_of_cons; [lia|]. apply H1 in Hq. lia.
  - destruct (Z.max_spec x (f p)) as [[Hlt ->]|[Hge ->]].
    + right. exists p. split_and!; [apply list_elem_of_here|done|lia].
    + destruct H2 as [H2|(q & Hq & Hfq & Hx')]; [by left|right].
      exists q. split_and!; [by apply list_elem_of_further|done|done].
Qed.

(** The loop computes the two maxima. *)
Lemma merge_best ps : Forall spec_width ps ->
  let '(w, b) := foldl merge_policy (0, 0) ps in
  best weight_of ps w /\ best budget_of ps b /\ 0 <= w /\ is_u64 b.
Proof.
  induction ps as [|p ps IH] using rev_ind; intros Hw.
  - simpl. split_and!; [split; [by intros ? ?%not_elem_of_nil|by left]..|lia|unfold is_u64, u64_mod; lia].
  - apply list.Forall_app in Hw as [Hw Hp]. rewrite list.Forall_singleton in Hp.
    rewrite foldl_app. simpl. destruct (foldl merge_policy (0, 0) ps) as [w b].
    destruct (IH Hw) as (H1 & H2 & H3 & H4). pose proof (budget_of_range p) as H5.
    unfold is_u64 in *. rewrite (merge_policy_max (w, b) p Hp H3 (proj1 H4)). simpl.
    assert (Hperm : p :: ps ≡ₚ ps ++ [p]) by apply Permutation_cons_append.
    split_and!; try (unfold weight_of; lia).
    + eapply best_perm; [exact Hperm|]. apply best_cons; [unfold weight_of; lia|done|done].
    + eapply best_perm; [exact Hperm|]. apply best_cons; [lia|lia|done].
Qed.

(** ** [Resolve] *)

(** [first_set a b]: [a] when it is set (positive), else [b]. *)
Definition first_set (a b : Z) : Z := if 0 <? a then a else b.

Lemma resolve_run r pod :
  Forall spec_width (range (policies r)) ->
  resolver_ok r (Z.of_nat (length (range (policies r)))) ->
  let matching := filter (matches pod) (range (policies r)) in
  exists w b r1,
    best weight_of matching w /\ best budget_of matching b /\ 0 <= w /\ is_u64 b /\
    policies r1 = policies r /\ matchedPods r1 = matchedPods r /\ resolver_ok r1 0 /\
    Resolve selects range compile eval r pod =
      (mkSchedParams
         (first_set (ParseAnnotationWeight (pod_Annotations pod))
            (first_set w (qosDefaultWeight (pod_QOSClass pod))))
         (first_set (ParseAnnotationBudget (pod_Annotations pod)) b),
       trackMatchedPods r1 (policy_Name <$> matching) (pod_UID pod)).
Proof.
  intros Hw Hr matching.
  pose proof (match_loop_spec pod (range (policies r)) r Hr) as Hm.
  unfold Resolve, getMatchingPolicies.
  destruct (match_loop _ _ _ r pod _) as [ps r1]. destruct Hm as (-> & Hp1 & Hm1 & Hr1).
  fold matching. pose proof (merge_best matching) as Hb. cbn [BudgetNs Weight].
  destruct (foldl merge_policy (0, 0) matching) as [w b].
  destruct Hb as (Hb1 & Hb2 & Hb3 & Hb4).
  { apply list.Forall_forall. intros p Hp. apply list_elem_of_filter in Hp as [_ Hp].
    by eapply list.Forall_forall. }
  exists w, b, r1. split_and!; try done. unfold first_set.
  destruct (pod_Annotations pod) as [ann|]; [|done].
  by destruct (0 <? ParseAnnotationWeight (Some ann)), (0 <? ParseAnnotationBudget (Some ann)).
Qed.

(** A range over the map visits a policy exactly when it is cached. *)
Lemma range_elem (ps : gmap string SchedulingPolicy) p :
  p ∈ range ps <-> exists name, ps !! name = Some p.
Proof.
  rewrite range_law, list_elem_of_fmap. split.
  - intros ([name q] & -> & Hq). exists name. by apply elem_of_map_to_list in Hq.
  - intros [name Hn]. exists (name, p). split; [done|]. by apply elem_of_map_to_list.
Qed.

(** C12: the parameters [Resolve] returns.  A valid annotation wins; otherwise
    the weight is the greatest positive weight among the cached policies that
    match the pod, and the QoS default when there is none; the budget is the
    greatest of the matching policies, 0 when there is none.  Nothing depends
    on the order in which Go visits the policies or on what the CEL cache
    holds. *)
Theorem resolve_merges r pod
    (Hw : forall name p, policies r !! name = Some p -> spec_width p)
    (Hr : resolver_ok r (Z.of_nat (size (policies r)))) :
  let applies p := (exists name, policies r !! name = Some p) /\ matches pod p in
  exists w b,
    (forall p, applies p -> weight_of p <= w) /\ (w = 0 \/ exists p, applies p /\ weight_of p = w) /\
    (forall p, applies p -> budget_of p <= b) /\ (b = 0 \/ exists p, applies p /\ budget_of p = b) /\
    (Resolve selects range compile eval r pod).1 =
      mkSchedParams
        (first_set (ParseAnnotationWeight (pod_Annotations pod))
           (first_set w (qosDefaultWeight (pod_QOSClass pod))))
        (first_set (ParseAnnotationBudget (pod_Annotations pod)) b).
Proof.
  intros applies.
  assert (Hlen : length (range (policies r)) = size (policies r)).
  { rewrite range_law, length_fmap. apply length_map_to_list. }
  assert (Happ : forall p, p ∈ filter (matches pod) (range (policies r)) <-> applies p).
  { intros p. rewrite list_elem_of_filter, range_elem. unfold applies. tauto. }
  destruct (resolve_run r pod) as (w & b & r1 & [W1 W2] & [B1 B2] & _ & _ & _ & _ & _ & E).
  - apply list.Forall_forall. intros p Hp. apply range_elem in Hp as [name Hp]. eauto.
  - by rewrite Hlen.
  - exists w, b. rewrite E. split_and!; [| | | |done].
    + intros p Hp. by apply W1, Happ.
    + destruct W2 as [|(p & Hp & Hwp & _)]; [by left|right]. exists p. by rewrite <- Happ.
    + intros p Hp. by apply B1, Happ.
    + destruct B2 as [|(p & Hp & Hbp & _)]; [by left|right]. exists p. by rewrite <- Happ.
Qed.

Lemma qos_range qos : 200 <= qosDefaultWeight qos <= 1000.
Proof. unfold qosDefaultWeight. repeat case_decide; lia. Qed.

(** With policies in the range the API validates, the parameters are legal. *)
Lemma resolve_legal r pod :
  (forall name p, policies r !! name = Some p ->
     spec_width p /\ spec_Weight (policy_Spec p) <= 10000) ->
  resolver_ok r (Z.of_nat (size (policies r))) ->
  legal_params (Resolve selects range compile eval r pod).1.
Proof.
  intros Hps Hr.
  destruct (resolve_run r pod) as (w & b & r1 & [_ W2] & _ & Hw0 & Hb & _ & _ & _ & ->).
  - apply list.Forall_forall. intros p [name Hp]%range_elem. by apply Hps in Hp as [? _].
  - by rewrite range_law, length_fmap, length_map_to_list.
  - assert (Hw : 0 <= w <= 10000).
    { destruct W2 as [->|(p & Hp & <- & _)]; [lia|]. apply list_elem_of_filter in Hp as [_ Hp].
      apply range_elem in Hp as [name Hp]. apply Hps in Hp as [_ Hp]. unfold weight_of in *. lia. }
    pose proof (ParseAnnotationWeight_range (pod_Annotations pod)).
    pose proof (ParseAnnotationBudget_range (pod_Annotations pod)).
    pose proof (qos_range (pod_QOSClass pod)). unfold legal_params, first_set. simpl.
    split; [repeat case_bool; lia | case_bool; done].
Qed.

(** ** Which pods count for which policy *)

Definition counted (r : Resolver) (name uid : string) : Prop :=
  uid ∈ default ∅ (matchedPods r !! name).

Lemma track_insert uid names : forall m name u,
  u ∈ default ∅ (foldl (fun (m : gmap string (gset string)) name =>
        <[name := {[ uid ]} ∪ default ∅ (m !! name)]> m) m names !! name) <->
  u ∈ default ∅ (m !! name) \/ (u = uid /\ name ∈ names).
Proof.
  induction names as [|n names IH]; intros m name u; simpl.
  - split; [by left | intros [|[_ ?%not_elem_of_nil]]; done].
  - rewrite IH, elem_of_cons. destruct (decide (n = name)) as [->|Hne].
    + rewrite lookup_insert_eq. simpl. set_solver.
    + rewrite lookup_insert_ne by done. naive_solver.
Qed.

Lemma drop_pod_elem (ps : gmap string SchedulingPolicy) uid name (pids : option (gset string)) u :
  u ∈ default ∅ (pids ≫= drop_pod ps uid name) <->
  u ≠ uid /\ u ∈ default ∅ pids /\ is_Some (ps !! name).
Proof.
  destruct pids as [pids|]; simpl; [|set_solver]. unfold drop_pod.
  destruct (ps !! name) as [p|]; [|split; [set_solver | intros (_ & _ & [? [=]])]].
  case_decide as D; simpl; [|set_solver]. split; [set_solver|]. intros (Hu & Hin & _). set_solver.
Qed.

(** Policies are cached under their names. *)
Definition keyed (ps : gmap string SchedulingPolicy) : Prop :=
  forall name p, ps !! name = Some p -> policy_Name p = name.

(** C33: after [Resolve] a pod is counted for exactly the cached policies that
    match it now; other pods keep their policies, except that counts of
    policies no longer cached are dropped. *)
Theorem resolve_tracks r pod
    (Hw : forall name p, policies r !! name = Some p -> spec_width p)
    (Hr : resolver_ok r (Z.of_nat (size (policies r))))
    (Hk : keyed (policies r)) (Huid : pod_UID pod <> "") :
  let r' := (Resolve selects range compile eval r pod).2 in
  policies r' = policies r /\
  forall name u, counted r' name u <->
    (u = pod_UID pod /\ exists p, policies r !! name = Some p /\ matches pod p) \/
    (u <> pod_UID pod /\ counted r name u /\ is_Some (policies r !! name)).
Proof.
  destruct (resolve_run r pod) as (w & b & r1 & _ & _ & _ & _ & Hp1 & Hm1 & _ & ->).
  - apply list.Forall_forall. intros p [name Hp]%range_elem. eauto.
  - by rewrite range_law, length_fmap, length_map_to_list.
  - simpl. unfold trackMatchedPods. rewrite decide_False by done. simpl. split; [done|].
    intros name u. unfold counted. simpl. rewrite Hp1, Hm1, track_insert.
    rewrite map_lookup_imap, drop_pod_elem.
    assert (Hname : name ∈ policy_Name <$> filter (matches pod) (range (policies r)) <->
      exists p, policies r !! name = Some p /\ matches pod p).
    { rewrite list_elem_of_fmap. split.
      - intros (p & -> & [Hm Hp]%list_elem_of_filter). apply range_elem in Hp as [n Hp].
        rewrite (Hk _ _ Hp). eauto.
      - intros (p & Hp & Hm). exists p. split; [by rewrite (Hk _ _ Hp)|].
        apply list_elem_of_filter. split; [done|]. apply range_elem. eauto. }
    rewrite Hname. tauto.
Qed.

(** ** Refreshing the cache *)

(** Objects of one name and version are the same object. *)
Definition same_version (ps : gmap string SchedulingPolicy) (items : list SchedulingPolicy) : Prop :=
  forall p q, p ∈ items -> ps !! policy_Name p = Some q ->
    policy_ResourceVersion q = policy_ResourceVersion p -> q = p.

Lemma addPolicy_insert (r : Resolver) p :
  (forall q, policies r !! policy_Name p = Some q ->
     policy_ResourceVersion q = policy_ResourceVersion p -> q = p) ->
  policies (addPolicy r p) = <[policy_Name p := p]> (policies r) /\
  matchedPods (addPolicy r p) = matchedPods r.
Proof.
  intros Hv. unfold addPolicy. destruct (policies r !! policy_Name p) as [q|] eqn:E; [|done].
  case_decide as D; [|done]. assert (q = p) as -> by eauto. by rewrite insert_id.
Qed.

Lemma addPolicies_lookup items : forall (r : Resolver) name,
  NoDup (policy_Name <$> items) -> same_version (policies r) items ->
  (forall p, p ∈ items -> policy_Name p = name ->
     policies (foldl addPolicy r items) !! name = Some p) /\
  (name ∉ policy_Name <$> items -> policies (foldl addPolicy r items) !! name = policies r !! name).
Proof.
  induction items as [|p items IH]; intros r name Hnd Hv; simpl.
  - split; [by intros ? ?%not_elem_of_nil | done].
  - apply list.NoDup_cons in Hnd as [Hp Hnd].
    destruct (addPolicy_insert r p) as [Hpol _]; [intros q; apply Hv, list_elem_of_here|].
    assert (Hother : forall q, q ∈ items -> policy_Name q <> policy_Name p).
    { intros q Hq Hn. apply Hp. rewrite <- Hn. by apply list_elem_of_fmap_2. }
    destruct (IH (addPolicy r p) name Hnd) as [IH1 IH2].
    { intros q q' Hq. rewrite Hpol, lookup_insert_ne by (intros E; by apply (Hother q Hq)).
      apply Hv. by apply list_elem_of_further. }
    split.
    + intros q [->|Hq]%elem_of_cons Hn; [|by apply IH1]. subst name.
      rewrite IH2 by done. by rewrite Hpol, lookup_insert_eq.
    + intros [Hne Hni]%not_elem_of_cons. rewrite IH2 by done. by rewrite Hpol, lookup_insert_ne.
Qed.

(** A successful refresh makes the cache hold exactly the listed policies, each
    in the listed version; versions identify objects and names are unique, as
    the API server guarantees. *)
Lemma refresh_lists (r : Resolver) items :
  NoDup (policy_Name <$> items) -> same_version (policies r) items ->
  policies (refreshPolicies r (Some items)) =
    list_to_map ((fun p => (policy_Name p, p)) <$> items).
Proof.
  intros Hnd Hv. apply map_eq. intros name. simpl.
  destruct (addPolicies_lookup items r name Hnd Hv) as [H1 H2].
  assert (Hfst : ((fun p : SchedulingPolicy => (policy_Name p, p)) <$> items).*1 = policy_Name <$> items).
  { rewrite <- list_fmap_compose. done. }
  destruct (decide (name ∈ policy_Name <$> items)) as [Hin|Hni].
  - apply list_elem_of_fmap in Hin as Hin'. destruct Hin' as (p & -> & Hp).
    rewrite (map_lookup_filter_Some_2 _ _ _ p).
    + symmetry. apply elem_of_list_to_map_1; [by rewrite Hfst|].
      apply list_elem_of_fmap. eauto.
    + by apply H1.
    + simpl. by apply elem_of_list_to_set.
  - rewrite (proj2 (map_lookup_filter_None _ _ _)).
    + symmetry. apply not_elem_of_list_to_map_1. by rewrite Hfst.
    + right. intros p _. simpl. by rewrite elem_of_list_to_set.
Qed.

End Spec.

(** ** A concrete cluster *)

(** Selectors by equality of labels; maps visited in key order. *)
Definition ref_selects (sel : gmap string string) (labels : gomap) : option bool :=
  Some (forallb (fun kv => bool_decide (gomap_get labels kv.1 = kv.2)) (map_to_list sel)).
Definition ref_range (m : gmap string (@SchedulingPolicy (gmap string string)))
    : list (@SchedulingPolicy (gmap string string)) := (map_to_list m).*2.
Lemma ref_range_law m : ref_range m ≡ₚ (map_to_list m).*2.
Proof. done. Qed.

Definition gold : @SchedulingPolicy (gmap string string) :=
  mkPolicy "gold" "7" 1 (mkSpec (Some {[ "app" := "api" ]}) 9000 2000 "").
Definition never : @SchedulingPolicy (gmap string string) :=
  mkPolicy "never" "8" 1 (mkSpec None 10000 0 "false").
Definition demo_resolver : @Resolver (gmap string string) (option bool) unit :=
  mkResolver {[ "gold" := gold; "never" := never ]} ∅ (NewCache 256 0) [].
Definition api_pod : Pod :=
  mkPod "u1" "api-0" "prod" (Some {[ "app" := "api" ]}) None "Running" "Burstable" [] [] "" "n1".

Lemma demo_policies name p : policies demo_resolver !! name = Some p ->
  (name = "gold" /\ p = gold) \/ (name = "never" /\ p = never).
Proof.
  intros H. simpl in H. apply lookup_insert_Some in H as [[<- <-]|[_ H]]; [by left|].
  apply lookup_singleton_Some in H as [<- <-]. by right.
Qed.

Lemma demo_resolver_ok : resolver_ok ref_compile demo_resolver (Z.of_nat (size (policies demo_resolver))).
Proof.
  split.
  - split; simpl; [|done|]; intros k e H; by rewrite lookup_empty in H.
  - split; vm_compute; congruence.
Qed.

Lemma demo_width name p : policies demo_resolver !! name = Some p -> spec_width p.
Proof. intros [[_ ->]|[_ ->]]%demo_policies; split; vm_compute; split; congruence. Qed.

(** The gold policy sets the weight; the other one's condition is false. *)
Lemma resolve_merges_witness :
  exists w b, (Resolve ref_selects ref_range ref_compile ref_eval demo_resolver api_pod).1 =
    mkSchedParams (first_set 0 (first_set w 800)) (first_set 0 b) /\ 9000 <= w.
Proof.
  destruct (resolve_merges ref_selects ref_range ref_compile ref_eval ref_range_law ref_compile_empty
    demo_resolver api_pod demo_width demo_resolver_ok) as (w & b & Hw & _ & _ & _ & E).
  exists w, b. split; [exact E|]. apply (Hw gold). split; [by exists "gold"|].
  split; vm_compute; reflexivity.
Defined.

Lemma resolve_tracks_witness :
  counted (Resolve ref_selects ref_range ref_compile ref_eval demo_resolver api_pod).2 "gold" "u1".
Proof.
  assert (Hk : keyed (policies demo_resolver)).
  { intros name p [[-> ->]|[-> ->]]%demo_policies; reflexivity. }
  assert (Huid : pod_UID api_pod <> "") by discriminate.
  destruct (resolve_tracks ref_selects ref_range ref_compile ref_eval ref_range_law ref_compile_empty
    demo_resolver api_pod demo_width demo_resolver_ok Hk Huid) as [_ H].
  apply H. left. split; [reflexivity|]. exists gold. split; [reflexivity|].
  split; vm_compute; reflexivity.
Defined.
