(* ===== verification/PolicySync.v ===== *)
(** * internal/policy/resolver.go: how the policy cache follows the cluster

    [Start] chooses between a dynamic informer, whose handlers feed the cache
    event by event, and polling, which replaces it by what a list request
    returns.  The converter from unstructured objects is the API machinery's, a
    parameter; an informer's deliveries are a sequence of events.

    Theorems: after the deliveries of any history of the API server the cache is
    what the server holds, and that is also what a poll leaves; a failed poll, a
    resync or an object of another type changes nothing. *)

From stdpp Require Import base gmap list strings numbers.
From Stdlib Require Import ZArith Lia.
From S2P Require Import Prelude GoStrings Pods CelCache Policy PolicySpec.

Open Scope Z_scope.

Section Sync.
Context {LabelSelector Program Err Unstructured : Type}.
Context (FromUnstructured : Unstructured -> option (@SchedulingPolicy LabelSelector)).

#[local] Abbreviation policy := (@SchedulingPolicy LabelSelector).
#[local] Abbreviation resolver := (@Resolver LabelSelector Program Err).

(** ** Events *)

(** What the informer hands to a handler: an unstructured object, a tombstone
    with the last known object ([None] when that is of another type), or an
    object of another type. *)
Inductive policy_obj :=
| ObjUnstructured (u : Unstructured)
| ObjTombstoneOf (last : option Unstructured)
| ObjForeign.

Definition unstructuredToPolicy (obj : policy_obj) : option policy :=
  match obj with
  | ObjUnstructured u | ObjTombstoneOf (Some u) => FromUnstructured u
  | ObjTombstoneOf None | ObjForeign => None
  end.

Inductive policy_event :=
| PolicyAdd (obj : policy_obj)
| PolicyUpdate (oldObj newObj : policy_obj)
| PolicyDelete (obj : policy_obj).

(** The three handlers [Start] registers. *)
Definition handlePolicyEvent (r : resolver) (ev : policy_event) : resolver :=
  match ev with
  | PolicyAdd obj | PolicyUpdate _ obj =>
      match unstructuredToPolicy obj with Some p => addPolicy r p | None => r end
  | PolicyDelete obj =>
      match unstructuredToPolicy obj with Some p => removePolicy r (policy_Name p) | None => r end
  end.

(** ** [Start] and [pollPolicies] *)

(** Which feeds run afterwards: an informer that never synced keeps running. *)
Record feeds := Feeds { informer_feed : bool; polling_feed : bool }.

Definition Start (client_ok handler_ok sync_ok : bool) : feeds :=
  if negb client_ok then Feeds false true else
  if negb handler_ok then Feeds false true else
  if negb sync_ok then Feeds true true else Feeds true false.

(** [pollPolicies]: a refresh at once and one per tick, each with the answer of
    its list request, until the stop channel closes. *)
Definition pollPolicies (r : resolver) (first : option (list policy))
    (ticks : list (option (list policy))) : resolver :=
  foldl refreshPolicies (refreshPolicies r first) ticks.

(** ** The API server *)

(** What happens to the stored policies: a write of an object, which gets a
    version of its own, or a deletion. *)
Inductive server_change := Write (p : policy) | Erase (name : string).

Definition server_step (db : gmap string policy) (c : server_change) : gmap string policy :=
  match c with
  | Write p => <[policy_Name p := p]> db
  | Erase name => delete name db
  end.

(** A version identifies one content of an object. *)
Definition fresh_version (db : gmap string policy) (c : server_change) : Prop :=
  match c with
  | Write p => forall q, db !! policy_Name p = Some q ->
      policy_ResourceVersion q = policy_ResourceVersion p -> q = p
  | Erase _ => True
  end.

Fixpoint fresh_history (db : gmap string policy) (cs : list server_change) : Prop :=
  match cs with
  | [] => True
  | c :: cs' => fresh_version db c /\ fresh_history (server_step db c) cs'
  end.

(** The events an informer delivers for a change, and those it may deliver at
    any time: a resync of a stored object, an object no handler understands. *)
Inductive delivers (db : gmap string policy) : server_change -> policy_event -> Prop :=
| deliver_add p u : FromUnstructured u = Some p -> db !! policy_Name p = None ->
    delivers db (Write p) (PolicyAdd (ObjUnstructured u))
| deliver_update p old u : FromUnstructured u = Some p ->
    delivers db (Write p) (PolicyUpdate old (ObjUnstructured u))
| deliver_delete name obj p : unstructuredToPolicy obj = Some p -> policy_Name p = name ->
    delivers db (Erase name) (PolicyDelete obj).

Inductive idle_event (db : gmap string policy) : policy_event -> Prop :=
| idle_resync p old u : FromUnstructured u = Some p -> db !! policy_Name p = Some p ->
    idle_event db (PolicyUpdate old (ObjUnstructured u))
| idle_foreign_add obj : unstructuredToPolicy obj = None -> idle_event db (PolicyAdd obj)
| idle_foreign_update old obj : unstructuredToPolicy obj = None ->
    idle_event db (PolicyUpdate old obj)
| idle_foreign_delete obj : unstructuredToPolicy obj = None -> idle_event db (PolicyDelete obj).

(** A complete delivery of a history, from the contents [db] on. *)
Inductive delivery : gmap string policy -> list server_change -> list policy_event -> Prop :=
| delivery_nil db : delivery db [] []
| delivery_change db c cs ev evs :
    delivers db c ev -> delivery (server_step db c) cs evs -> delivery db (c :: cs) (ev :: evs)
| delivery_idle db cs ev evs :
    idle_event db ev -> delivery db cs evs -> delivery db cs (ev :: evs).

(** ** The cache follows *)

Lemma addPolicy_stored (r : resolver) p :
  policies r !! policy_Name p = Some p -> addPolicy r p = r.
Proof. intros E. unfold addPolicy. rewrite E. by rewrite decide_True. Qed.

Lemma idle_event_noop (r : resolver) ev : idle_event (policies r) ev -> handlePolicyEvent r ev = r.
Proof.
  destruct 1 as [p old u Hu Hp|obj Ho|old obj Ho|obj Ho]; simpl; rewrite ?Ho; [|done..].
  rewrite Hu. by apply addPolicy_stored.
Qed.

Lemma deliver_step (r : resolver) c ev :
  fresh_version (policies r) c -> delivers (policies r) c ev ->
  policies (handlePolicyEvent r ev) = server_step (policies r) c.
Proof.
  intros Hf Hd. destruct Hd as [p u Hu Hn|p old u Hu|name obj p Ho Hn]; simpl in *.
  - rewrite Hu. by apply addPolicy_insert.
  - rewrite Hu. by apply addPolicy_insert.
  - rewrite Ho. simpl. by rewrite Hn.
Qed.

Lemma informer_follows cs evs : forall (r : resolver) db,
  delivery db cs evs -> policies r = db -> fresh_history db cs ->
  policies (foldl handlePolicyEvent r evs) = foldl server_step db cs.
Proof.
  intros r db Hd. revert r. induction Hd as [db|db c cs ev evs Hc Hd IH|db cs ev evs Hi Hd IH];
    intros r Hr Hf; simpl; [done| |].
  - destruct Hf as [Hf1 Hf2]. apply IH; [|done]. subst db. by apply deliver_step.
  - apply IH; [|done]. subst db. by rewrite idle_event_noop.
Qed.

Lemma foldl_server_keyed cs : forall db : gmap string policy,
  keyed db -> keyed (foldl server_step db cs).
Proof.
  induction cs as [|c cs IH]; intros db Hk; simpl; [done|]. apply IH. destruct c; simpl.
  - intros n q Hq. apply lookup_insert_Some in Hq as [[<- <-]|[_ Hq]]; [done|by apply Hk].
  - intros n q [_ Hq]%lookup_delete_Some. by apply Hk.
Qed.

(** Listing a keyed store and building the cache from it gives it back. *)
Lemma list_keyed (db : gmap string policy) items :
  keyed db -> items ≡ₚ (map_to_list db).*2 ->
  NoDup (policy_Name <$> items) /\ list_to_map ((fun p => (policy_Name p, p)) <$> items) = db.
Proof.
  intros Hk Hp.
  assert (E : (fun p => (policy_Name p, p)) <$> (map_to_list db).*2 = map_to_list db).
  { rewrite <- list_fmap_compose. rewrite <- (list_fmap_id (map_to_list db)) at 2.
    apply list_fmap_ext. intros i [n p] Hi. simpl. f_equal. apply Hk.
    apply elem_of_map_to_list. by eapply list_elem_of_lookup_2. }
  assert (Hnd : NoDup (policy_Name <$> items)).
  { rewrite Hp.
    replace (policy_Name <$> (map_to_list db).*2) with ((map_to_list db).*1);
      [apply NoDup_fst_map_to_list|].
    rewrite <- E at 1. by rewrite <- list_fmap_compose. }
  split; [done|]. rewrite <- (list_to_map_to_list db). apply list_to_map_proper.
  - by rewrite <- list_fmap_compose.
  - by rewrite Hp, E.
Qed.

(** C15: both ways of following the cluster lead to the same cache.  Whatever the
    API server goes through, an informer that delivers each change, with
    resyncs and foreign objects mixed in, leaves exactly the server's policies in
    the cache; a poll of the server leaves the same, from any earlier cache
    whose versions are the server's; a failed poll leaves the cache alone. *)
Theorem informer_equals_polling (r r' : resolver) cs evs items
    (Hk : keyed (policies r)) (Hf : fresh_history (policies r) cs)
    (Hd : delivery (policies r) cs evs)
    (Hi : items ≡ₚ (map_to_list (foldl server_step (policies r) cs)).*2)
    (Hv : same_version (policies r') items) :
  policies (foldl handlePolicyEvent r evs) = foldl server_step (policies r) cs /\
  policies (refreshPolicies r' (Some items)) = policies (foldl handlePolicyEvent r evs) /\
  refreshPolicies r' None = r'.
Proof.
  rewrite (informer_follows cs evs r (policies r)) by done.
  destruct (list_keyed _ items (foldl_server_keyed cs _ Hk) Hi) as [Hnd <-].
  split_and!; [done| |done]. by apply refresh_lists.
Qed.

End Sync.

(** ** A concrete history *)

(** Unstructured objects are the policies themselves, or garbage. *)
Definition ref_from_unstructured (u : option (@SchedulingPolicy (gmap string string)))
    : option (@SchedulingPolicy (gmap string string)) := u.

Definition gold2 : @SchedulingPolicy (gmap string string) :=
  mkPolicy "gold" "9" 2 (mkSpec None 500 0 "").

(** Gold gets a new version, a resync repeats it, the other policy's deletion
    was missed and arrives as a tombstone. *)
Definition demo_changes : list (@server_change (gmap string string)) :=
  [Write gold2; Erase "never"].
Definition demo_deliveries : list (@policy_event (option (@SchedulingPolicy (gmap string string)))) :=
  [PolicyUpdate (ObjUnstructured (Some gold)) (ObjUnstructured (Some gold2));
   PolicyUpdate (ObjUnstructured (Some gold2)) (ObjUnstructured (Some gold2));
   PolicyAdd (ObjUnstructured None);
   PolicyDelete (ObjTombstoneOf (Some (Some never)))].

Lemma informer_equals_polling_witness :
  policies (foldl (handlePolicyEvent ref_from_unstructured) demo_resolver demo_deliveries) =
    {[ "gold" := gold2 ]} /\
  policies (refreshPolicies demo_resolver (Some [gold2])) = {[ "gold" := gold2 ]}.
Proof.
  destruct (informer_equals_polling ref_from_unstructured demo_resolver demo_resolver
    demo_changes demo_deliveries [gold2]) as (H1 & H2 & _).
  - intros name p [[-> ->]|[-> ->]]%demo_policies; reflexivity.
  - split; [|split; exact I]. intros q Hq Hv.
    assert (q = gold) as -> by (simpl in Hq; by simplify_map_eq). discriminate Hv.
  - apply delivery_change; [apply deliver_update; reflexivity|].
    apply delivery_idle; [apply (idle_resync _ _ gold2); reflexivity|].
    apply delivery_idle; [apply idle_foreign_add; reflexivity|].
    apply delivery_change; [apply (deliver_delete _ _ _ _ never); reflexivity|].
    apply delivery_nil.
  - vm_compute. reflexivity.
  - intros p q Hp Hq Hv. apply list_elem_of_singleton in Hp as ->.
    assert (q = gold) as -> by (simpl in Hq; by simplify_map_eq). discriminate Hv.
  - assert (E : foldl server_step (policies demo_resolver) demo_changes = {[ "gold" := gold2 ]})
      by (vm_compute; reflexivity).
    rewrite H2, H1, E. split; reflexivity.
Defined.
