(* ===== verification/Agent.v ===== *)
(** * The node agent: internal/k8s/watcher.go and internal/sched/agent.go

    The watcher turns informer events into the two pod callbacks; the callbacks
    resolve a pod's parameters ([Policy]) and write or remove them ([AgentMaps]).
    Around them: attaching the scheduler with retries while a previous instance
    hands over, exporting the kernel's counters as metric deltas, writing match
    counts back to the policies' status.

    Kubernetes itself is a parameter where it is called: what a merge patch does
    to a status ([api_patch]) and what the attach attempts meet ([attempt]). *)

From stdpp Require Import base gmap list strings numbers.
From Stdlib Require Import ZArith Lia.
From S2P Require Import Prelude GoStrings Pods NodeFs K8sSched AgentMaps CelCache Policy.

Open Scope Z_scope.

(** ** internal/k8s/watcher.go *)

Definition containerIDs (pod : Pod) : list string := ContainerID <$> pod_ContainerStatuses pod.

(** [reflect.DeepEqual] tells a nil map from an empty one. *)
Definition podRelevantFieldsChanged (oldPod newPod : Pod) : bool :=
  if negb (bool_decide (pod_Phase oldPod = pod_Phase newPod)) then true else
  if negb (bool_decide (pod_Labels oldPod = pod_Labels newPod)) then true else
  if negb (bool_decide (pod_Annotations oldPod = pod_Annotations newPod)) then true else
  negb (bool_decide (containerIDs oldPod = containerIDs newPod)).

(** What the informer delivers: a pod, a [DeletedFinalStateUnknown] tombstone
    with the last known object ([None] if that is no pod), or something else. *)
Inductive informer_obj := ObjPod (pod : Pod) | ObjTombstone (last : option Pod) | ObjOther.

Inductive pod_event :=
| EvAdd (obj : informer_obj)
| EvUpdate (oldObj newObj : informer_obj)
| EvDelete (obj : informer_obj).

(** Which callback runs. *)
Inductive pod_action := OnAdd (pod : Pod) | OnDelete (pod : Pod).

(** The agent registers both callbacks, so the nil checks pass. *)
Definition handlePodUpdate (pod : Pod) : option pod_action :=
  if decide (pod_Phase pod = "Running") then Some (OnAdd pod) else
  if decide (pod_Phase pod = "Succeeded" \/ pod_Phase pod = "Failed") then Some (OnDelete pod)
  else None.

Definition handle_event (ev : pod_event) : option pod_action :=
  match ev with
  | EvAdd (ObjPod pod) => handlePodUpdate pod
  | EvUpdate (ObjPod old) (ObjPod pod) =>
      if negb (podRelevantFieldsChanged old pod) then None else handlePodUpdate pod
  | EvDelete (ObjPod pod) | EvDelete (ObjTombstone (Some pod)) => Some (OnDelete pod)
  | _ => None
  end.

(** ** The callbacks of [NewAgent] *)

Section Callbacks.
Context {LabelSelector Program Err : Type}.
Context (selects : LabelSelector -> gomap -> option bool).
Context (range : gmap string (@SchedulingPolicy LabelSelector) -> list (@SchedulingPolicy LabelSelector)).
Context (compile : string -> Program + Err).
Context (eval : Program -> cel_vars -> cel_value + Err).
Context (cgroupV2Base ProcRoot : string).
Context (put_ok del_ok : which_map -> gmap Z task_params -> Z -> bool).

Record agent := mkAgent {
  ag_resolver : @Resolver LabelSelector Program Err;
  ag_st : st;
  ag_ActivePolicies : Z;       (* the two gauges *)
  ag_ParamsMapped : Z;
  ag_events : list (Pod * map_error)   (* PodResolveError events *)
}.

(** [NewAgent]: fails without a cluster client; the maps exist but are not open.
    [b] is what the kernel's maps hold when they are opened. *)
Definition NewAgent (client_ok : bool) (gclock : Z) (b : bpf_maps) : option agent :=
  if client_ok
  then Some (mkAgent (NewResolver gclock) (mkSt New b (ProcCache None 0)) 0 0 [])
  else None.

(** [mapOps.Open()] in [Run]; an error is logged and the maps stay closed. *)
Definition open_maps (pinned_task pinned_cgroup pinned_stats : bool) (a : agent) : agent :=
  mkAgent (ag_resolver a)
    (mkSt (Open pinned_task pinned_cgroup pinned_stats (st_maps (ag_st a))).2 (st_bpf (ag_st a))
       (st_pc (ag_st a)))
    (ag_ActivePolicies a) (ag_ParamsMapped a) (ag_events a).

Definition onPodUpdate (now : Z) (fs : fnode) (a : agent) (pod : Pod) : agent :=
  let '(resolved, r) := Resolve selects range compile eval (ag_resolver a) pod in
  let sp := mkSchedParams (Weight resolved) (BudgetNs resolved) in
  let '(err, s) := UpdatePodParams cgroupV2Base ProcRoot put_ok now fs (ag_st a) (Some pod) (Some sp) in
  mkAgent r s (Z.of_nat (length (PolicyNames r))) (Z.of_nat (TrackedPods (st_maps s)))
    (match err with Some e => ag_events a ++ [(pod, e)] | None => ag_events a end).

Definition onPodDelete (now : Z) (fs : fnode) (a : agent) (pod : Pod) : agent :=
  let s := RemovePodParams cgroupV2Base ProcRoot del_ok now fs (ag_st a) (Some pod) in
  mkAgent (ag_resolver a) s (ag_ActivePolicies a) (Z.of_nat (TrackedPods (st_maps s))) (ag_events a).

(** The watcher driving the callbacks. *)
Definition on_event (now : Z) (fs : fnode) (a : agent) (ev : pod_event) : agent :=
  match handle_event ev with
  | Some (OnAdd pod) => onPodUpdate now fs a pod
  | Some (OnDelete pod) => onPodDelete now fs a pod
  | None => a
  end.

End Callbacks.

(** ** [loadSchedulerWithRetry] *)

(** What one round of the loop meets: the attach error, whether a k8s-sched
    scheduler is registered, whether the context is already done when the error
    is examined, and whether it is done before the retry timer fires. *)
Record attempt := Attempt {
  att_error : option string;
  att_contended : bool;
  att_ctx_err : bool;
  att_wait_cancelled : bool
}.

Inductive load_result := Loaded | LoadFailed (err : string) | Cancelled.

(** Result and number of retries counted; the rounds are numbered, [fuel] bounds
    how many are looked at. *)
Fixpoint loadSchedulerWithRetry (attempts : nat -> attempt) (fuel i : nat) : option (load_result * nat) :=
  match fuel with
  | O => None
  | S fuel' =>
      let a := attempts i in
      match att_error a with
      | None => Some (Loaded, 0%nat)
      | Some err =>
          if negb (att_contended a) || att_ctx_err a then Some (LoadFailed err, 0%nat) else
          if att_wait_cancelled a then Some (Cancelled, 1%nat) else
          '(r, n) ← loadSchedulerWithRetry attempts fuel' (S i);
          Some (r, S n)
      end
  end.

(** [schedulerContended]: the registered ops file names our scheduler. *)
Definition schedulerContended (fs : fnode) (opsPath : string) : bool :=
  let path := if decide (opsPath = "") then "/sys/kernel/sched_ext/root/ops" else opsPath in
  match ReadFile fs path with Some data => Contains data "k8s_sched" | None => false end.

(** ** [periodicStatsExport] *)

(** The three counters and the last reading. *)
Record exporter := Exporter {
  EnqueueCount : Z;
  BudgetCapped : Z;
  LocalDispatches : Z;
  last_stats : sched_stats
}.
Definition exporter_start : exporter := Exporter 0 0 0 stats_zero.

(** [float64(n)] of an unsigned integer, as the integer it represents: exact
    with 53 significant bits, else rounded to nearest, ties to even. *)
Definition float64_of_uint (n : Z) : Z :=
  if n <? 2 ^ 53 then n else
  let unit := 2 ^ (Z.log2 n - 52) in
  let q := n / unit in
  let r := n mod unit in
  if (2 * r <? unit) || ((2 * r =? unit) && Z.even q) then q * unit else (q + 1) * unit.

(** [if s >= last { counter.Add(float64(s - last)) }] *)
Definition add_delta (counter s last : Z) : Z :=
  if last <=? s then counter + float64_of_uint (s - last) else counter.

(** One tick; [None] is a failed read. *)
Definition export_tick (x : exporter) (reading : option sched_stats) : exporter :=
  match reading with
  | None => x
  | Some s =>
      Exporter
        (add_delta (EnqueueCount x) (enqueues s) (enqueues (last_stats x)))
        (add_delta (BudgetCapped x) (budget_capped s) (budget_capped (last_stats x)))
        (add_delta (LocalDispatches x) (local_dispatches s) (local_dispatches (last_stats x)))
        s
  end.

(** ** [writebackPolicyStatus] *)

(** [status.nodeStatuses]: node, policy, count. *)
Abbreviation node_statuses := (gmap string (gmap string Z)).
Definition status_get (s : node_statuses) (node policy : string) : option Z :=
  m ← s !! node; m !! policy.

Definition buildStatusPatch (nodeName : string) (policyCounts : gmap string Z) : node_statuses :=
  {[ nodeName := policyCounts ]}.

Section Writeback.
Context {LabelSelector Program Err : Type}.
(** The API server's merge patch of the status of a policy, [None] when the
    request fails. *)
Context (api_patch : string -> node_statuses -> node_statuses -> option node_statuses).

Definition policy_counts (r : @Resolver LabelSelector Program Err) : gmap string Z :=
  set_to_map (fun name => (name, ActivePodCount r name)) (dom (policies r)).

(** The statuses of the policies, by name, after the patches, and by how much
    the write-back counter grows; a failed patch is logged and skipped. *)
Definition writebackPolicyStatus (r : @Resolver LabelSelector Program Err) (nodeName : string)
    (statuses : gmap string node_statuses) : gmap string node_statuses * Z :=
  let names := dom (policies r) in
  if decide (names = ∅) then (statuses, 0) else
  let patch := buildStatusPatch nodeName (policy_counts r) in
  (map_imap (fun name s =>
       if decide (name ∈ names) then Some (default s (api_patch name s patch)) else Some s)
     statuses,
   Z.of_nat (size names)).

End Writeback.
