(* ===== verification/AgentSpec.v ===== *)
(** * What the agent guarantees

    The attach loop, the export of counters, the status write-back and the
    event filter of [Agent]. *)

From stdpp Require Import base gmap list strings numbers.
From Stdlib Require Import ZArith Lia.
From S2P Require Import Prelude GoStrings Pods NodeFs K8sSched AgentMaps MapsSpec CelCache Policy PolicySpec Agent.

Open Scope Z_scope.

(** ** Attaching the scheduler *)

(** What a round that does not lead to a retry decides. *)
Definition decision (a : attempt) : option load_result :=
  match att_error a with
  | None => Some Loaded
  | Some err =>
      if negb (att_contended a) || att_ctx_err a then Some (LoadFailed err)
      else if att_wait_cancelled a then Some Cancelled else None
  end.

Lemma retry_step attempts fuel i :
  loadSchedulerWithRetry attempts (S fuel) i =
    match decision (attempts i) with
    | Some r => Some (r, if r is Cancelled then 1%nat else 0%nat)
    | None => '(r, n) ← loadSchedulerWithRetry attempts fuel (S i); Some (r, S n)
    end.
Proof.
  simpl. unfold decision. destruct (att_error (attempts i)); [|done].
  destruct (negb _ || _); [done|]. by destruct (att_wait_cancelled _).
Qed.

(** The attach loop returns at the first round that decides: it reports
    success exactly when that round attached, gives up at once when another
    scheduler is registered or the context is done, stops when the context ends
    during the pause, and otherwise counts one retry per round; if no round
    decides it keeps trying. *)
Theorem attach_retries attempts k r fuel i
    (Hk : decision (attempts (i + k)%nat) = Some r)
    (Hbefore : forall j, (j < k)%nat -> decision (attempts (i + j)%nat) = None) :
  ((k < fuel)%nat ->
     loadSchedulerWithRetry attempts fuel i =
       Some (r, (k + if r is Cancelled then 1 else 0)%nat)) /\
  ((fuel <= k)%nat -> loadSchedulerWithRetry attempts fuel i = None).
Proof.
  revert fuel i Hk Hbefore. induction k as [|k IH]; intros fuel i Hk Hbefore.
  - rewrite Nat.add_0_r in Hk. destruct fuel as [|fuel]; [split; [lia | done]|].
    rewrite retry_step, Hk. split; [by destruct r | lia].
  - assert (H0 := Hbefore 0%nat ltac:(lia)). rewrite Nat.add_0_r in H0.
    destruct (IH (pred fuel) (S i)) as [IH1 IH2].
    + by replace (S i + k)%nat with (i + S k)%nat by lia.
    + intros j Hj. replace (S i + j)%nat with (i + S j)%nat by lia. apply Hbefore. lia.
    + destruct fuel as [|fuel]; [split; [lia | done]|]. simpl pred in *.
      rewrite retry_step, H0. split; intros Hf.
      * by rewrite IH1 by lia.
      * by rewrite IH2 by lia.
Qed.

(** Two rounds contended by the previous instance, then attached. *)
Lemma attach_retries_witness :
  loadSchedulerWithRetry
    (fun i => if Nat.ltb i 2 then Attempt (Some "busy") true false false else Attempt None false false false)
    10 0 = Some (Loaded, 2%nat).
Proof.
  refine (proj1 (attach_retries _ 2 Loaded 10 0 _ _) _); [reflexivity| |lia].
  intros j Hj. destruct j as [|[|j]]; [reflexivity|reflexivity|lia].
Defined.

(** ** Exporting counters *)

Section MetricsExport.
(** The exported counters grow from [a] to [b], each by less than 2^53. *)
Definition grows (a b : Z) : Prop := a <= b < a + 2 ^ 53.
Definition stat_le (a b : sched_stats) : Prop :=
  grows (enqueues a) (enqueues b) /\ grows (budget_capped a) (budget_capped b) /\
  grows (local_dispatches a) (local_dispatches b).

(** Successive successful readings grow, from [from] on. *)
Fixpoint readings_mono (from : sched_stats) (rs : list (option sched_stats)) : Prop :=
  match rs with
  | [] => True
  | None :: rs' => readings_mono from rs'
  | Some s :: rs' => stat_le from s /\ readings_mono s rs'
  end.

Definition final_reading (from : sched_stats) (rs : list (option sched_stats)) : sched_stats :=
  foldl (fun acc r => default acc r) from rs.

Definition in_sync (x : exporter) : Prop :=
  EnqueueCount x = enqueues (last_stats x) /\ BudgetCapped x = budget_capped (last_stats x) /\
  LocalDispatches x = local_dispatches (last_stats x).

Lemma add_delta_exact a b : grows a b -> add_delta a b a = b.
Proof.
  intros [H1 H2]. unfold add_delta, float64_of_uint.
  rewrite (proj2 (Z.leb_le a b) H1), (proj2 (Z.ltb_lt (b - a) (2 ^ 53))); lia.
Qed.

Lemma float64_nonneg n : 0 <= n -> 0 <= float64_of_uint n.
Proof.
  intros Hn. unfold float64_of_uint. destruct (Z.ltb_spec n (2 ^ 53)) as [|Hb]; [done|].
  assert (52 <= Z.log2 n) by (apply Z.log2_le_pow2; lia).
  assert (Hu : 0 < 2 ^ (Z.log2 n - 52)) by (apply Z.pow_pos_nonneg; lia).
  pose proof (Z.div_pos n _ Hn Hu). case_match; apply Z.mul_nonneg_nonneg; lia.
Qed.

Lemma add_delta_grows c a b : c <= add_delta c b a.
Proof.
  unfold add_delta. destruct (Z.leb_spec a b); [|lia].
  pose proof (float64_nonneg (b - a) ltac:(lia)). lia.
Qed.

Lemma export_sync rs : forall x,
  in_sync x -> readings_mono (last_stats x) rs ->
  in_sync (foldl export_tick x rs) /\
  last_stats (foldl export_tick x rs) = final_reading (last_stats x) rs.
Proof.
  induction rs as [|[s|] rs IH]; intros x Hx Hm; simpl; [done| |by apply IH].
  destruct Hm as [(H1 & H2 & H3) Hm]. destruct Hx as (X1 & X2 & X3).
  apply (IH (export_tick x (Some s))); [|done]. unfold in_sync. simpl.
  rewrite X1, X2, X3. by rewrite !add_delta_exact.
Qed.

Lemma export_grows x r :
  EnqueueCount x <= EnqueueCount (export_tick x r) /\
  BudgetCapped x <= BudgetCapped (export_tick x r) /\
  LocalDispatches x <= LocalDispatches (export_tick x r).
Proof.
  destruct r as [s|]; simpl; [|lia]. split_and!; apply add_delta_grows.
Qed.

(** The exported counters never decrease, and as long as the kernel's
    counters only grow (no reload, no wrap), by less than 2^53 between two
    readings, they equal the last reading: the deltas, converted to floating
    point, neither lose nor double-count an enqueue, failed reads included. *)
Theorem export_exact rs (Hm : readings_mono stats_zero rs) :
  let x := foldl export_tick exporter_start rs in
  let s := final_reading stats_zero rs in
  EnqueueCount x = enqueues s /\ BudgetCapped x = budget_capped s /\
  LocalDispatches x = local_dispatches s /\
  forall r, EnqueueCount x <= EnqueueCount (export_tick x r) /\
    BudgetCapped x <= BudgetCapped (export_tick x r) /\
    LocalDispatches x <= LocalDispatches (export_tick x r).
Proof.
  intros x s. destruct (export_sync rs exporter_start) as [(H1 & H2 & H3) Hl]; [done|done|].
  fold x in H1, H2, H3, Hl. rewrite Hl in H1, H2, H3. split_and!; [done|done|done|].
  intros r. apply export_grows.
Qed.
End MetricsExport.

Lemma export_exact_witness :
  EnqueueCount (foldl export_tick exporter_start
    [Some (SchedStats 4 0 1 0); None; Some (SchedStats 9 2 1 0)]) = 9.
Proof.
  refine (proj1 (export_exact [Some (SchedStats 4 0 1 0); None; Some (SchedStats 9 2 1 0)] _)).
  unfold readings_mono, stat_le, grows. simpl. lia.
Defined.

(** ** Status write-back *)

Section Status.
Context {LabelSelector Program Err : Type}.
Context (api_patch : string -> node_statuses -> node_statuses -> option node_statuses).
(** JSON merge patch (RFC 7386) on nested objects without nulls: a member of the
    patch replaces or adds, a member the patch does not mention stays. *)
Hypothesis merge_law : forall name s patch s' node policy,
  api_patch name s patch = Some s' ->
  status_get s' node policy =
    match status_get patch node policy with Some v => Some v | None => status_get s node policy end.

Lemma patch_get node counts n p :
  status_get (buildStatusPatch node counts) n p = if decide (n = node) then counts !! p else None.
Proof.
  unfold status_get, buildStatusPatch. case_decide as D.
  - subst. by rewrite lookup_singleton_eq.
  - by rewrite lookup_singleton_ne.
Qed.

Lemma policy_counts_lookup (r : @Resolver LabelSelector Program Err) name :
  policy_counts r !! name =
    if decide (name ∈ dom (policies r)) then Some (ActivePodCount r name) else None.
Proof.
  unfold policy_counts. case_decide as D.
  - apply lookup_set_to_map; [by intros ?? _ _ ?|]. by exists name.
  - destruct (set_to_map _ _ !! name) as [v|] eqn:E; [|done].
    apply lookup_set_to_map in E as (n & Hn & [= -> <-]); [done|by intros ?? _ _ ?].
Qed.

(** C34: the write-back sets this node's count of every cached policy to the
    current one in the status of each cached policy whose patch succeeds, and
    touches no other node's entries and no other policy's status.  An entry of
    this node for a policy that is no longer cached is not removed: a merge
    patch keeps members it does not mention. *)
Theorem writeback_merges (r : @Resolver LabelSelector Program Err) node statuses name s
    (Hs : statuses !! name = Some s) :
  let statuses' := (writebackPolicyStatus api_patch r node statuses).1 in
  let patch := buildStatusPatch node (policy_counts r) in
  (name ∉ dom (policies r) \/ api_patch name s patch = None -> statuses' !! name = Some s) /\
  (name ∈ dom (policies r) -> is_Some (api_patch name s patch) ->
     exists s', statuses' !! name = Some s' /\
       forall n p, status_get s' n p =
         if decide (n = node /\ p ∈ dom (policies r)) then Some (ActivePodCount r p)
         else status_get s n p).
Proof.
  intros statuses' patch. unfold statuses', writebackPolicyStatus. fold patch.
  destruct (decide (dom (policies r) = ∅)) as [E|E]; [rewrite E; set_solver|].
  simpl. rewrite map_lookup_imap, Hs. simpl. split.
  - intros [Hd|Hn]; [by rewrite decide_False | rewrite Hn; by case_decide].
  - intros Hd [s' Hp]. rewrite decide_True, Hp by done. exists s'. split; [done|]. intros n p.
    rewrite (merge_law _ _ _ _ _ _ Hp). unfold patch.
    rewrite patch_get. destruct (decide (n = node)) as [->|Hn]; [|by rewrite decide_False by tauto].
    rewrite policy_counts_lookup.
    destruct (decide (p ∈ dom (policies r))); [by rewrite decide_True|by rewrite decide_False by tauto].
Qed.
End Status.

(** A merge patch on two levels, refused for the policy "gone". *)
Definition ref_api_patch (name : string) (s patch : node_statuses) : option node_statuses :=
  if decide (name = "gone") then None
  else Some (union_with (fun p m => Some (p ∪ m)) patch s).

Lemma ref_merge_law name s patch s' node policy :
  ref_api_patch name s patch = Some s' ->
  status_get s' node policy =
    match status_get patch node policy with Some v => Some v | None => status_get s node policy end.
Proof.
  unfold status_get, ref_api_patch. case_decide; [done|]. intros [= <-].
  rewrite lookup_union_with.
  destruct (patch !! node) as [m|], (s !! node) as [m'|]; simpl; try done.
  - rewrite lookup_union. destruct (m !! policy), (m' !! policy); done.
  - by destruct (m !! policy).
Qed.

(** The count of a policy deleted from the cluster stays in this node's entry. *)
Definition demo_status : node_statuses := {[ "n1" := {[ "old" := 3 ]} ]}.
Definition demo_statuses : gmap string node_statuses := {[ "gold" := demo_status ]}.

Lemma writeback_merges_witness :
  exists s', (writebackPolicyStatus ref_api_patch demo_resolver "n1" demo_statuses).1 !! "gold" =
      Some s' /\
    status_get s' "n1" "old" = Some 3.
Proof.
  destruct (writeback_merges ref_api_patch ref_merge_law demo_resolver "n1" demo_statuses
    "gold" demo_status eq_refl) as [_ H].
  destruct H as (s' & Hs & Hget).
  - apply elem_of_dom. exists gold. reflexivity.
  - eexists. reflexivity.
  - exists s'. split; [exact Hs|]. rewrite Hget. reflexivity.
Defined.

(** ** Updates the watcher skips *)

Section Skipped.
Context {LabelSelector Program Err : Type}.
Context (selects : LabelSelector -> gomap -> option bool).
Context (range : gmap string (@SchedulingPolicy LabelSelector) -> list (@SchedulingPolicy LabelSelector)).
Context (compile : string -> Program + Err).
Context (eval : Program -> cel_vars -> cel_value + Err).
Context (base proc : string).
Context (put_ok : which_map -> gmap Z task_params -> Z -> bool).

(** Two versions of a pod that agree on the inputs of the callbacks the watcher
    does not compare: what Kubernetes keeps fixed for a pod's lifetime, and the
    restart counts and resources a CEL condition may read. *)
Record same_inputs (old new : Pod) : Prop := SameInputs {
  si_uid : pod_UID old = pod_UID new;
  si_name : pod_Name old = pod_Name new;
  si_namespace : pod_Namespace old = pod_Namespace new;
  si_qos : pod_QOSClass old = pod_QOSClass new;
  si_priority : pod_PriorityClassName old = pod_PriorityClassName new;
  si_node : pod_NodeName old = pod_NodeName new;
  si_restarts : totalRestarts old = totalRestarts new;
  si_containers : pod_Containers old = pod_Containers new
}.

Lemma unchanged_fields old new :
  podRelevantFieldsChanged old new = false <->
  pod_Phase old = pod_Phase new /\ pod_Labels old = pod_Labels new /\
  pod_Annotations old = pod_Annotations new /\ containerIDs old = containerIDs new.
Proof.
  unfold podRelevantFieldsChanged. repeat case_bool_decide; simpl; naive_solver.
Qed.

Lemma match_loop_ext old new ps : forall r : @Resolver LabelSelector Program Err,
  pod_Labels old = pod_Labels new -> (forall p : @SchedulingPolicy LabelSelector, cel_vars_of p old = cel_vars_of p new) ->
  match_loop selects compile eval r old ps = match_loop selects compile eval r new ps.
Proof.
  induction ps as [|p ps IH]; intros r Hl Hv; [done|]. simpl.
  unfold podSelectorMatches, celConditionPasses. rewrite Hl, Hv.
  destruct (spec_PodSelector (policy_Spec p)) as [sel|]; simpl;
    [destruct (default false (selects sel (pod_Labels new))); simpl; [|by apply IH]|];
    (case_decide; [by rewrite IH|]); destruct (Evaluate _ _ _ _ _) as [[ok|err] c]; by rewrite IH.
Qed.

Lemma resolve_ext (r : @Resolver LabelSelector Program Err) old new :
  same_inputs old new -> pod_Labels old = pod_Labels new ->
  pod_Annotations old = pod_Annotations new ->
  Resolve selects range compile eval r old = Resolve selects range compile eval r new.
Proof.
  intros [Hu Hn Hns Hq Hp Hno Hr Hc] Hl Ha. unfold Resolve, getMatchingPolicies.
  rewrite (match_loop_ext old new) by
    (try done; intros p; unfold cel_vars_of, aggregatePodCPU; by rewrite Hc, Hn, Hns, Hu, Hq, Hp, Hr, Hno).
  by rewrite Hq, Ha, Hu.
Qed.

(** C23: the watcher's filter.  An update of a running pod is handled exactly
    when phase, labels, annotations or a container id changed.  An update it
    skips is harmless as long as nothing else the callbacks read changed:
    handling the new version would leave the same resolver, maps, records and
    gauges, and report the same errors, as handling the old one again. *)
Theorem watcher_filter now fs (a : @agent LabelSelector Program Err) old new
    (Hrun : pod_Phase new = "Running") :
  let ev := EvUpdate (ObjPod old) (ObjPod new) in
  let handled pod := onPodUpdate selects range compile eval base proc put_ok now fs a pod in
  (handle_event ev = Some (OnAdd new) <->
     pod_Phase old <> "Running" \/ pod_Labels old <> pod_Labels new \/
     pod_Annotations old <> pod_Annotations new \/ containerIDs old <> containerIDs new) /\
  (handle_event ev = None -> same_inputs old new ->
     ag_resolver (handled new) = ag_resolver (handled old) /\
     ag_st (handled new) = ag_st (handled old) /\
     ag_ActivePolicies (handled new) = ag_ActivePolicies (handled old) /\
     ag_ParamsMapped (handled new) = ag_ParamsMapped (handled old) /\
     (ag_events (handled new)).*2 = (ag_events (handled old)).*2).
Proof.
  intros ev handled. unfold ev, handle_event, handlePodUpdate. rewrite (decide_True _ _ Hrun).
  destruct (podRelevantFieldsChanged old new) eqn:E; simpl.
  - split; [|done]. split; [intros _|done].
    destruct (decide (pod_Phase old <> "Running")) as [|D1]; [by left|].
    destruct (decide (pod_Labels old <> pod_Labels new)) as [|D2]; [by right; left|].
    destruct (decide (pod_Annotations old <> pod_Annotations new)) as [|D3]; [by right; right; left|].
    do 3 right. intros D4. apply not_false_iff_true in E. apply E, unchanged_fields.
    apply dec_stable in D1. apply dec_stable in D2. apply dec_stable in D3.
    by rewrite D1, Hrun.
  - apply unchanged_fields in E as (E1 & E2 & E3 & E4). rewrite Hrun in E1.
    split; [split; [done | naive_solver]|]. intros _ Hs.
    unfold handled, onPodUpdate. rewrite (resolve_ext _ old new) by done.
    destruct (Resolve _ _ _ _ _ new) as [sp r].
    set (x := mkSchedParams (Weight sp) (BudgetNs sp)).
    assert (Hup : UpdatePodParams base proc put_ok now fs (ag_st a) (Some old) (Some x) =
                  UpdatePodParams base proc put_ok now fs (ag_st a) (Some new) (Some x))
      by (unfold UpdatePodParams, resolvePodPIDs; by rewrite (si_uid _ _ Hs)).
    rewrite Hup.
    destruct (UpdatePodParams base proc put_ok now fs (ag_st a) (Some new) (Some x)) as [[e|] s];
      simpl; split_and!; try done.
    by rewrite !fmap_app.
Qed.
End Skipped.

(** A relist of the demo pod: the kubelet refreshed the container statuses, the
    restart count moved between two containers with unchanged ids. *)
Definition status_pod (restarts1 restarts2 : Z) (cpu : Z) : Pod :=
  mkPod "a-b" "web" "prod" (Some {[ "app" := "api" ]}) None "Running" "Burstable"
    [mkContainerStatus "c1" restarts1; mkContainerStatus "c2" restarts2]
    [mkContainer cpu cpu] "" "n1".
Definition idle_agent (r : @Resolver (gmap string string) (option bool) unit)
    : @agent (gmap string string) (option bool) unit :=
  mkAgent r (mkSt (mkMaps true true true ∅ ∅) (mkBpfMaps ∅ ∅ NoStats) (ProcCache None 0)) 0 0 [].

Lemma watcher_filter_witness :
  let handled pod := onPodUpdate ref_selects ref_range ref_compile ref_eval "/sys/fs/cgroup" "/proc"
    ref_put_ok 0 demo_fs (idle_agent demo_resolver) pod in
  handle_event (EvUpdate (ObjPod (status_pod 0 1 500)) (ObjPod (status_pod 1 0 500))) = None /\
  ag_st (handled (status_pod 1 0 500)) = ag_st (handled (status_pod 0 1 500)).
Proof.
  destruct (watcher_filter ref_selects ref_range ref_compile ref_eval "/sys/fs/cgroup" "/proc"
    ref_put_ok 0 demo_fs (idle_agent demo_resolver) (status_pod 0 1 500) (status_pod 1 0 500) eq_refl)
    as [_ H].
  split; [reflexivity|]. apply H; [reflexivity | split; reflexivity].
Defined.

(** A resize in place raises the CPU request to 4 cores.  A policy whose
    condition reads [signal.podCPURequest] would now apply, but the watcher
    skips the update. *)
Definition big : @SchedulingPolicy (gmap string string) :=
  mkPolicy "big" "1" 1 (mkSpec None 9000 0 "signal.podCPURequest >= 2.0").
Definition cpu_eval (p : option bool) (v : cel_vars) : cel_value + unit :=
  inl (CelBool (SpecFloat.SFleb (f64_of_int 2) (sig_podCPURequest v))).

Example resize_is_skipped :
  let r := mkResolver {[ "big" := big ]} ∅ (NewCache 256 0) [] in
  let weight_of pod :=
    Weight (Resolve ref_selects ref_range (fun _ => inl (Some true)) cpu_eval r pod).1 in
  handle_event (EvUpdate (ObjPod (status_pod 0 0 500)) (ObjPod (status_pod 0 0 4000))) = None /\
  weight_of (status_pod 0 0 500) = 800 /\ weight_of (status_pod 0 0 4000) = 9000.
Proof. vm_compute. split_and!; reflexivity. Qed.
