(* ===== verification/EndToEnd.v ===== *)
(** * From a pod event to a scheduling decision

    The agent and the scheduler meet in the two BPF maps.  [synced] says that a
    scheduler state of [K8sSched] sees the maps the agent last wrote.  Theorems:
    the parameters resolved for a pod are the ones [lookup_task_params] returns
    for every task of the pod's cgroups, forked at any time; after removal such
    tasks are back to the defaults; an entry under a PID, left from an update
    that could not see the pod's cgroup, keeps hiding later updates. *)

From stdpp Require Import base gmap list strings numbers.
From Stdlib Require Import ZArith Lia.
From S2P Require Import Prelude ScxCommon Kernel K8sSched Vtime SchedFacts Demo.
From S2P Require Import GoStrings Pods NodeFs AgentMaps MapsSpec CelCache Policy PolicySpec Agent.

Open Scope Z_scope.

Section EndToEnd.
Context {P : Type} `{Kfuncs P} `{!ScxObs P} `{!ScxLaws P}.
Context {LabelSelector Program Err : Type}.
Context (selects : LabelSelector -> gomap -> option bool).
Context (range : gmap string (@SchedulingPolicy LabelSelector) -> list (@SchedulingPolicy LabelSelector)).
Context (compile : string -> Program + Err).
Context (eval : Program -> cel_vars -> cel_value + Err).
Context (base proc : string).
Context (put_ok del_ok : which_map -> gmap Z task_params -> Z -> bool).

#[local] Abbreviation agent := (@agent LabelSelector Program Err).
#[local] Abbreviation pod_update := (onPodUpdate selects range compile eval base proc put_ok).
#[local] Abbreviation pod_delete := (onPodDelete base proc del_ok).

(** The scheduler reads the maps of the agent. *)
Definition synced (s : sched_state P) (a : agent) : Prop :=
  s_task_params s = task_params_map (st_bpf (ag_st a)) /\
  s_cgroup_params s = cgroup_params_map (st_bpf (ag_st a)).

(** The parameters the agent resolves for a pod now. *)
Definition resolved_params (a : agent) (pod : Pod) : task_params :=
  TaskParams_of (Resolve selects range compile eval (ag_resolver a) pod).1.

(** A pod update whose cgroups resolve: the keys written are recorded and carry
    the parameters, and they are all the pod's cgroups unless an event reports an
    error. *)
Lemma pod_update_written now fs a pod :
  TaskParams_open (st_maps (ag_st a)) = true ->
  pod_cgids base fs (ag_st a) pod <> [] ->
  let a' := pod_update now fs a pod in
  exists written,
    podCgroupIDs (st_maps (ag_st a')) !! pod_UID pod = Some written /\
    written `sublist_of` pod_cgids base fs (ag_st a) pod /\
    (ag_events a' = ag_events a -> written = pod_cgids base fs (ag_st a) pod) /\
    task_params_map (st_bpf (ag_st a')) = task_params_map (st_bpf (ag_st a)) /\
    forall k, cgroup_params_map (st_bpf (ag_st a')) !! k =
      if decide (k ∈ written) then Some (resolved_params a pod)
      else cgroup_params_map (st_bpf (ag_st a)) !! k.
Proof.
  intros Ho Hne. unfold onPodUpdate, resolved_params.
  destruct (Resolve selects range compile eval (ag_resolver a) pod) as [sp r] eqn:ER.
  destruct (update_cgroup_run base proc put_ok now fs (ag_st a) pod
    (Some (mkSchedParams (Weight sp) (BudgetNs sp))) Ho Hne) as (written & err & b & Hw & Hrun).
  rewrite Hrun. simpl. unfold writeCgroupParams in Hw.
  destruct (put_loop _ _ _ _ _) as [[written' e] m] eqn:E. injection Hw as <- <- <-.
  apply put_loop_spec in E as [Hs Hl Hc _].
  exists written'. split_and!; [apply lookup_insert_eq | done | | done |].
  - intros Hev. apply Hc. destruct e as [j|]; [|done]. simpl in Hev. apply (f_equal length) in Hev.
    rewrite length_app in Hev. simpl in Hev. lia.
  - intros k. simpl. rewrite Hl. by destruct sp.
Qed.

(** When all writes are accepted. *)
Lemma pod_update_maps now fs a pod :
  TaskParams_open (st_maps (ag_st a)) = true ->
  pod_cgids base fs (ag_st a) pod <> [] ->
  ag_events (pod_update now fs a pod) = ag_events a ->
  let a' := pod_update now fs a pod in
  task_params_map (st_bpf (ag_st a')) = task_params_map (st_bpf (ag_st a)) /\
  forall k, cgroup_params_map (st_bpf (ag_st a')) !! k =
    if decide (k ∈ pod_cgids base fs (ag_st a) pod) then Some (resolved_params a pod)
    else cgroup_params_map (st_bpf (ag_st a)) !! k.
Proof.
  intros Ho Hne Hev. destruct (pod_update_written now fs a pod Ho Hne) as (wr & _ & _ & Hall & Ht & Hc).
  by rewrite <- (Hall Hev).
Qed.


Hypothesis del_law : forall w m k, is_Some (m !! k) -> del_ok w m k = true.

(** C24: end to end removal.  After the agent has handled the end of a pod, a
    task left in one of the cgroups recorded or still resolvable for the pod is
    scheduled with the defaults again, unless its process has an entry of its
    own that was not recorded for the pod. *)
Theorem removal_reaches_scheduler now fs a pod s p t
    (Ho : TaskParams_open (st_maps (ag_st a)) = true)
    (Hc : CgroupParams_open (st_maps (ag_st a)) = true)
    (Hsync : synced s (pod_delete now fs a pod))
    (Hp : k_tasks (s_kern s) !! p = Some t)
    (Hcg : cgroup_id_of (s_kern s) p ∈
       default [] (podCgroupIDs (st_maps (ag_st a)) !! pod_UID pod) ++ pod_cgids base fs (ag_st a) pod)
    (Htgid : u32 (t_tgid t) ∈
         default [] (podPIDs (st_maps (ag_st a)) !! pod_UID pod) ++ pod_pids base proc now fs (ag_st a) pod \/
       task_params_map (st_bpf (ag_st a)) !! u32 (t_tgid t) = None) :
  exists s', lookup_task_params p s = Some ((false, TaskParams 1000 0), s').
Proof.
  destruct (remove_run base proc del_ok del_law now fs (ag_st a) pod Ho) as (_ & Ht & Hg & _).
  specialize (Hg Hc). destruct Hsync as [S1 S2].
  change (ag_st (pod_delete now fs a pod))
    with (RemovePodParams base proc del_ok now fs (ag_st a) (Some pod)) in S1, S2.
  assert (E1 : s_task_params s !! u32 (t_tgid t) = None).
  { rewrite S1, Ht. destruct Htgid as [Hin|Hn]; [by rewrite decide_True | by case_decide]. }
  assert (E2 : s_cgroup_params s !! cgroup_id_of (s_kern s) p = None)
    by (by rewrite S2, Hg, decide_True).
  assert (Hconf : configured s p = None).
  { rewrite (configured_live s p t Hp), E1, E2. by destruct (_ =? 0). }
  destruct (lookup_task_params_run p s t Hp) as (k & Hl & _).
  rewrite Hl. unfold effective. rewrite Hconf. eauto.
Qed.

(** C25: an entry under a PID hides later updates.  When an update cannot see
    the pod's cgroup it writes the pod's PIDs; a later update that does see it
    writes only cgroup entries and leaves the old PID entries alone, so the
    scheduler keeps using the old parameters for these processes, although the
    second update reported success. *)
Theorem stale_pid_entry_shadows now fs a pod s p t old
    (Ho : TaskParams_open (st_maps (ag_st a)) = true)
    (Hold : task_params_map (st_bpf (ag_st a)) !! u32 (t_tgid t) = Some old)
    (Hne : pod_cgids base fs (ag_st a) pod <> [])
    (Hev : ag_events (pod_update now fs a pod) = ag_events a)
    (Hsync : synced s (pod_update now fs a pod))
    (Hp : k_tasks (s_kern s) !! p = Some t) :
  exists s', lookup_task_params p s = Some ((true, old), s').
Proof.
  destruct (pod_update_maps now fs a pod Ho Hne Hev) as [Ht _]. destruct Hsync as [S1 _].
  assert (Hconf : configured s p = Some old) by (by rewrite (configured_live s p t Hp), S1, Ht, Hold).
  destruct (lookup_task_params_run p s t Hp) as (k & Hl & _).
  rewrite Hl. unfold effective. rewrite Hconf. eauto.
Qed.
End EndToEnd.

(** ** Concrete runs *)

(** The agent of the demo node before the pod arrives, and a scheduler with one
    task of process 41 in the container's cgroup (inode 101). *)
Definition demo_agent (b : bpf_maps) : @agent (gmap string string) (option bool) unit :=
  mkAgent demo_resolver (mkSt (mkMaps true true true ∅ ∅) b (ProcCache None 0)) 0 0 [].
Definition web_pod : Pod :=
  mkPod "a-b" "web" "prod" (Some {[ "app" := "api" ]}) None "Running" "Burstable" [] [] "" "n1".

Definition web_priv : RefKernel.priv :=
  RefKernel.Priv ∅ ∅ ∅ ∅ (list_to_map [(1, 70)]) (list_to_map [(70, 101)]) ∅ [].
Definition web_task : task_struct := TaskStruct 41 41 0 0.
Definition web_state (b : bpf_maps) : sched_state RefKernel.priv :=
  SchedState (cgroup_params_map b) (task_params_map b) ∅ 0
    (KMem (list_to_map [(1, web_task)]) 0 web_priv).

#[local] Abbreviation demo_update := (onPodUpdate ref_selects ref_range ref_compile ref_eval
  "/sys/fs/cgroup" "/proc" ref_put_ok 0 demo_fs).


Lemma removal_reaches_scheduler_witness :
  let a := demo_agent (mkBpfMaps ∅ {[ 101 := TaskParams 9000 0 ]} NoStats) in
  let a' := onPodDelete "/sys/fs/cgroup" "/proc" ref_del_ok 0 demo_fs a web_pod in
  exists s', lookup_task_params 1 (web_state (st_bpf (ag_st a'))) = Some ((false, TaskParams 1000 0), s').
Proof.
  intros a a'.
  refine (removal_reaches_scheduler "/sys/fs/cgroup" "/proc" ref_del_ok ref_del_law 0 demo_fs a web_pod
    (web_state (st_bpf (ag_st a'))) 1 web_task eq_refl eq_refl _ eq_refl _ _).
  - split; reflexivity.
  - change (101 ∈ [100; 101]). apply list_elem_of_further, list_elem_of_here.
  - right. reflexivity.
Defined.

(** Process 41 still has the entry of an earlier fallback: weight 100, no budget. *)
Lemma stale_pid_entry_shadows_witness :
  let a := demo_agent (mkBpfMaps {[ 41 := TaskParams 100 0 ]} ∅ NoStats) in
  let s := web_state (st_bpf (ag_st (demo_update a web_pod))) in
  exists s', lookup_task_params 1 s = Some ((true, TaskParams 100 0), s').
Proof.
  intros a s.
  refine (stale_pid_entry_shadows ref_selects ref_range ref_compile ref_eval "/sys/fs/cgroup" "/proc"
    ref_put_ok 0 demo_fs a web_pod s 1 web_task (TaskParams 100 0) eq_refl eq_refl _ _ _ eq_refl).
  - vm_compute. discriminate.
  - vm_compute. reflexivity.
  - split; reflexivity.
Defined.

(** A deleted pod is still counted: the agent stops tracking its parameters but
    nothing tells the resolver. *)
Example deleted_pod_still_counted :
  let a := demo_update (demo_agent (mkBpfMaps ∅ ∅ NoStats)) web_pod in
  let a' := onPodDelete "/sys/fs/cgroup" "/proc" ref_del_ok 1 demo_fs a web_pod in
  TrackedPods (st_maps (ag_st a')) = 0%nat /\ ActivePodCount (ag_resolver a') "gold" = 1.
Proof. vm_compute. split; reflexivity. Qed.

