(* ===== verification/StatsFlow.v ===== *)
(** * From scheduling decisions to exported metrics

    The counters travel through three components: the callbacks bump the slot of
    their CPU ([SchedSystem]), [ReadStats] sums the slots ([AgentMaps]), and the
    export loop adds the difference to its last reading to the Prometheus
    counters ([Agent]).  A run is cut into segments, one per export tick; each
    tick reads the per-CPU array as the segment left it.  The theorem says that
    the metrics count exactly the decisions of the whole run, on every CPU. *)

From stdpp Require Import base gmap list strings.
From Stdlib Require Import ZArith Lia.
From S2P Require Import Prelude ScxCommon Kernel BpfMacros K8sSched Vtime SchedFacts Demo SchedSystem Fairness.
From S2P Require Import AgentMaps CelCache Policy Agent AgentSpec.

Open Scope Z_scope.
Open Scope word_scope.

Section Flow.
Context {P : Type} `{Kfuncs P} `{!ScxObs P} `{!ScxLaws P}.
Implicit Types (s : sched_state P).

(** The possible CPUs of the machine, one slot each in the per-CPU array. *)
Context (cpus : list Z).

(** The array as the agent's lookup returns it. *)
Definition percpu_view (s : sched_state P) : stats_layout :=
  PerCPU ((fun c => default stats_zero (s_stats s !! c)) <$> cpus).
Definition read_view (s : sched_state P) : option sched_stats :=
  ReadStats (mkSt (mkMaps true true true ∅ ∅) (mkBpfMaps ∅ ∅ (percpu_view s)) (NodeFs.ProcCache None 0)).

(** The readings of the export loop, one after each segment; a lookup of the
    array may fail ([false]). *)
Fixpoint tick_readings (s : sched_state P) (segs : list (bool * list event))
    : list (option sched_stats) :=
  match segs with
  | [] => []
  | (ok, es) :: segs' =>
      match exec_all es s with
      | Some s' => (if (ok : bool) then read_view s' else None) :: tick_readings s' segs'
      | None => []
      end
  end.

(** Sums over the CPUs. *)
Definition sum_cpus (f : Z -> Z) : Z := foldr (fun c a => f c + a) 0 cpus.
Definition total (es : list event) (s : sched_state P) : sched_stats :=
  SchedStats (sum_cpus (fun c => enqueues (tally_all es s c)))
    (sum_cpus (fun c => local_dispatches (tally_all es s c)))
    (sum_cpus (fun c => budget_capped (tally_all es s c)))
    (sum_cpus (fun c => defaults (tally_all es s c))).

(** Every event happens on one of the CPUs. *)
Fixpoint on_cpus (es : list event) (s : sched_state P) : Prop :=
  match es with
  | [] => True
  | e :: es' => k_cpu (s_kern s) ∈ cpus /\ match exec e s with Some s' => on_cpus es' s' | None => True end
  end.

Definition is_enqueue (e : event) : bool := if e is EvEnqueue _ _ then true else false.
Definition count_enqueues (es : list event) : Z := Z.of_nat (length (List.filter is_enqueue es)).

(** ** Arithmetic of the sums *)

Lemma sum_cpus_add f g : sum_cpus (fun c => f c + g c) = sum_cpus f + sum_cpus g.
Proof. unfold sum_cpus. induction cpus; simpl; lia. Qed.

Lemma sum_cpus_ext f g : (forall c, f c = g c) -> sum_cpus f = sum_cpus g.
Proof. intros E. unfold sum_cpus. induction cpus; simpl; [done|]. by rewrite E, IHl. Qed.

Lemma sum_cpus_zero : sum_cpus (fun _ => 0) = 0.
Proof. unfold sum_cpus. induction cpus; simpl; lia. Qed.

Lemma sum_cpus_nonneg f : (forall c, 0 <= f c) -> 0 <= sum_cpus f.
Proof. intros Hf. unfold sum_cpus. induction cpus as [|c l IH]; simpl; [lia|]. specialize (Hf c). lia. Qed.

Hypothesis cpus_nodup : NoDup cpus.

(** A quantity of one CPU. *)
Lemma sum_cpus_at k v : k ∈ cpus -> sum_cpus (fun c => if decide (c = k) then v else 0) = v.
Proof.
  intros Hk. unfold sum_cpus.
  transitivity (foldr (fun c a => ((if decide (k = c) then v else 0) + 0) + a) 0 cpus).
  { clear Hk cpus_nodup. induction cpus as [|c l IH]; simpl; [done|]. rewrite IH.
    repeat case_decide; subst; try done; lia. }
  rewrite (sum_list_indicator cpus (fun _ => 0) k v cpus_nodup Hk).
  pose proof sum_cpus_zero as E. unfold sum_cpus in E. rewrite E. lia.
Qed.

(** What one event adds to the totals. *)
Lemma total_event (f : sched_stats -> Z) s e :
  f no_stats = 0 -> k_cpu (s_kern s) ∈ cpus ->
  sum_cpus (fun c => f (tally s e c)) = f (tally s e (k_cpu (s_kern s))).
Proof.
  intros Hf Hk. rewrite <- (sum_cpus_at (k_cpu (s_kern s)) (f (tally s e (k_cpu (s_kern s))))) by done.
  apply sum_cpus_ext. intros c. destruct (decide (c = k_cpu (s_kern s))) as [->|Hc]; [done|].
  unfold tally. rewrite decide_False by done. done.
Qed.

(** ** Totals of a run *)

Lemma total_cons s e s' es :
  exec e s = Some s' -> total (e :: es) s = sum_stats (total [e] s) (total es s').
Proof.
  intros He. unfold total, sum_stats. simpl. rewrite He. simpl.
  rewrite <- !sum_cpus_add. f_equal; apply sum_cpus_ext; intros c; lia.
Qed.

Lemma sum_stats_assoc a b c : sum_stats a (sum_stats b c) = sum_stats (sum_stats a b) c.
Proof. unfold sum_stats. simpl. f_equal; lia. Qed.

Lemma sum_stats_none v : sum_stats no_stats v = v.
Proof. by destruct v. Qed.

Lemma total_nil s : total [] s = no_stats.
Proof. unfold total. simpl. by rewrite !sum_cpus_zero. Qed.

Lemma total_app s es s' es' :
  sched_steps s es s' -> total (es ++ es') s = sum_stats (total es s) (total es' s').
Proof.
  induction 1 as [s | s e s1 es s' _ He _ IH]; simpl.
  - by rewrite total_nil, sum_stats_none.
  - rewrite (total_cons s e s1 _ He), (total_cons s e s1 es He), IH. apply sum_stats_assoc.
Qed.

(** The totals of [n] events: nothing is negative, no field exceeds [n]. *)
Record bounded_by (n : Z) (v : sched_stats) : Prop := BoundedBy {
  bb_enqueues : 0 <= enqueues v <= n;
  bb_local : 0 <= local_dispatches v <= n;
  bb_capped : 0 <= budget_capped v <= n;
  bb_defaults : 0 <= defaults v <= n
}.

Lemma tally_bounded s e c : bounded_by 1 (tally s e c).
Proof. unfold tally, b2z, no_stats. split; repeat case_match; simpl; lia. Qed.

Lemma total_one s e :
  k_cpu (s_kern s) ∈ cpus -> total [e] s = tally s e (k_cpu (s_kern s)).
Proof.
  intros Hk. transitivity (SchedStats (sum_cpus (fun c => enqueues (tally s e c)))
    (sum_cpus (fun c => local_dispatches (tally s e c)))
    (sum_cpus (fun c => budget_capped (tally s e c)))
    (sum_cpus (fun c => defaults (tally s e c)))).
  - unfold total. simpl. f_equal; apply sum_cpus_ext; intros c; destruct (exec e s); simpl; lia.
  - rewrite !total_event by done. by destruct (tally s e _).
Qed.

(** Every CPU counts what happens on it, so the totals count events. *)
Lemma total_counts es : forall s s',
  sched_steps s es s' -> on_cpus es s ->
  enqueues (total es s) = count_enqueues es /\ bounded_by (Z.of_nat (length es)) (total es s).
Proof.
  induction es as [|e es IH]; intros s s' Hs Hc.
  - rewrite total_nil. split; [done|]. split; simpl; lia.
  - inversion Hs as [|? ? s1 ? ? Ha He Hs']; subst. destruct Hc as [Hk Hc]. rewrite He in Hc.
    destruct (IH s1 s' Hs' Hc) as [IHe [B1 B2 B3 B4]].
    rewrite (total_cons s e s1 es He), (total_one s e Hk).
    pose proof (tally_bounded s e (k_cpu (s_kern s))) as [T1 T2 T3 T4].
    assert (E : enqueues (tally s e (k_cpu (s_kern s))) = b2z (is_enqueue e)).
    { unfold tally. rewrite decide_True by done. destruct e; simpl; try done. by case_match. }
    generalize dependent (tally s e (k_cpu (s_kern s))). generalize dependent (total es s1).
    intros T IHe B1 B2 B3 B4 t T1 T2 T3 T4 E. unfold count_enqueues in *. simpl. split.
    + rewrite E, IHe. destruct (is_enqueue e); simpl; lia.
    + split; simpl; lia.
Qed.

Lemma on_cpus_app es es' : forall s s',
  sched_steps s es s' -> on_cpus (es ++ es') s -> on_cpus es s /\ on_cpus es' s'.
Proof.
  induction es as [|e es IH]; intros s s' Hs Hc; inversion Hs; subst; simpl in *; [done|].
  destruct Hc as [Hk Hc]. match goal with E : exec e s = Some _ |- _ => rewrite E in * end.
  destruct (IH _ s' ltac:(eassumption) Hc). done.
Qed.

(** ** What the agent reads *)

(** The lookup, each counter summed modulo 2^64. *)
Lemma sum_slots (f : Z -> sched_stats) (l : list Z) : forall acc,
  wf_stats acc ->
  foldl stats_add acc (f <$> l) =
  SchedStats (u64 (enqueues acc + foldr (fun c a => enqueues (f c) + a) 0 l))
    (u64 (local_dispatches acc + foldr (fun c a => local_dispatches (f c) + a) 0 l))
    (u64 (budget_capped acc + foldr (fun c a => budget_capped (f c) + a) 0 l))
    (u64 (defaults acc + foldr (fun c a => defaults (f c) + a) 0 l)).
Proof.
  induction l as [|c l IH]; intros acc Ha; simpl.
  - destruct Ha as [? ? ? ?]. rewrite !Z.add_0_r, !u64_small by done. by destruct acc.
  - rewrite IH by (split; apply u64_add_range). unfold stats_add, u64_add. simpl.
    by rewrite !u64_add_l, !Z.add_assoc.
Qed.

(** The counters of the agent's CPUs at the start. *)
Definition fresh_counters (s : sched_state P) : Prop :=
  forall c, c ∈ cpus -> s_stats s !! c = Some no_stats.

Lemma sum_u64 (f : Z -> Z) (l : list Z) :
  u64 (foldr (fun c a => u64 (f c) + a) 0 l) = u64 (foldr (fun c a => f c + a) 0 l).
Proof.
  induction l as [|c l IH]; simpl; [done|].
  by rewrite u64_add_l, <- u64_add_r, IH, u64_add_r.
Qed.

Lemma foldr_ext_in (f g : Z -> Z) (l : list Z) :
  (forall c, c ∈ l -> f c = g c) ->
  foldr (fun c a => f c + a) 0 l = foldr (fun c a => g c + a) 0 l.
Proof.
  induction l as [|c l IH]; intros E; simpl; [done|].
  rewrite (E c), IH; [done | | by left]. intros c' Hc'. apply E. by right.
Qed.

Lemma read_field (f : sched_stats -> Z) s0 es s :
  (forall a b, f (add_stats a b) = u64 (f a + f b)) -> f no_stats = 0 ->
  wf_state s0 -> fresh_counters s0 -> sched_steps s0 es s ->
  u64 (f stats_zero +
    foldr (fun c a => f (default stats_zero (s_stats s !! c)) + a) 0 cpus) =
  u64 (sum_cpus (fun c => f (tally_all es s0 c))).
Proof.
  intros Hadd H0 Hw Hfresh Hs. change stats_zero with no_stats at 1.
  rewrite H0, Z.add_0_l. unfold sum_cpus. rewrite <- (sum_u64 (fun c => f (tally_all es s0 c))). f_equal.
  apply foldr_ext_in. intros c Hc. rewrite (steps_stats _ _ _ Hs c no_stats) by auto.
  transitivity (f (add_stats no_stats (tally_all es s0 c))); [done|]. by rewrite Hadd, H0.
Qed.

Lemma read_total s0 es s :
  wf_state s0 -> fresh_counters s0 -> sched_steps s0 es s -> on_cpus es s0 ->
  Z.of_nat (length es) < 2 ^ 53 ->
  read_view s = Some (total es s0).
Proof.
  intros Hw Hfresh Hs Hc Hn. unfold read_view, ReadStats, percpu_view. simpl. f_equal.
  rewrite sum_slots by (split; split; simpl; unfold u64_mod; lia).
  rewrite !(read_field _ s0 es s) by done.
  destruct (total_counts es s0 s Hs Hc) as [_ [B1 B2 B3 B4]].
  assert (small : forall z, 0 <= z <= Z.of_nat (length es) -> u64 z = z).
  { intros z Hz. apply u64_small. unfold is_u64, u64_mod. lia. }
  unfold total in *. simpl in *. by rewrite !small.
Qed.

Lemma total_sound es s :
  0 <= budget_capped (total es s) <= enqueues (total es s) + local_dispatches (total es s).
Proof.
  unfold total. simpl. rewrite <- sum_cpus_add. unfold sum_cpus.
  clear cpus_nodup. induction cpus as [|c l IH]; simpl; [lia|].
  pose proof (tally_all_sound es c s) as Ht. cbv zeta in Ht. lia.
Qed.
#[local] Opaque read_view.

(** Two successive readings. *)
Lemma totals_grow s0 es s es' s' :
  sched_steps s0 es s -> sched_steps s es' s' -> on_cpus (es ++ es') s0 ->
  Z.of_nat (length (es ++ es')) < 2 ^ 53 ->
  stat_le (total es s0) (total (es ++ es') s0).
Proof.
  intros Hs Hs' Hc Hn. rewrite length_app in Hn.
  destruct (on_cpus_app es es' s0 s Hs Hc) as [_ Hc'].
  destruct (total_counts es' s s' Hs' Hc') as [_ [B1 B2 B3 B4]].
  rewrite (total_app s0 es s es' Hs). generalize dependent (total es' s).
  generalize dependent (total es s0). intros T T' B1 B2 B3 B4.
  unfold stat_le, grows, sum_stats. simpl. lia.
Qed.

Lemma steps_app s es s' es' s'' :
  sched_steps s es s' -> sched_steps s' es' s'' -> sched_steps s (es ++ es') s''.
Proof. induction 1; intros; simpl; [done|]. econstructor; eauto. Qed.

Lemma steps_split es : forall s es' s'',
  sched_steps s (es ++ es') s'' -> exists s', sched_steps s es s' /\ sched_steps s' es' s'' /\
    exec_all es s = Some s'.
Proof.
  induction es as [|e es IH]; intros s es' s'' Hs; simpl in *.
  - exists s. split_and!; [constructor | done | done].
  - inversion Hs as [|? ? s1 ? ? Ha He Hs']; subst. rewrite He. simpl.
    destruct (IH s1 es' s'' Hs') as (s' & H1 & H2 & H3).
    exists s'. split_and!; [by econstructor | done | done].
Qed.

(** The readings of a run grow: [es1] happened before the last successful
    reading, [es2] since then. *)
Lemma ticks_mono s0 : wf_state s0 -> fresh_counters s0 -> forall segs es1 es2 s1 s sN,
  sched_steps s0 es1 s1 -> sched_steps s1 es2 s -> sched_steps s (concat segs.*2) sN ->
  on_cpus (es1 ++ es2 ++ concat segs.*2) s0 ->
  Z.of_nat (length (es1 ++ es2 ++ concat segs.*2)) < 2 ^ 53 ->
  readings_mono (total es1 s0) (tick_readings s segs ++ [read_view sN]).
Proof.
  intros Hw Hf. induction segs as [|[ok es] segs IH]; intros es1 es2 s1 s sN H1 H2 H3 Hc Hn; simpl in *.
  - inversion H3; subst. rewrite app_nil_r in *.
    rewrite (read_total s0 (es1 ++ es2) sN) by (try done; by eapply steps_app).
    split; [|done]. by eapply totals_grow.
  - destruct (steps_split es s _ sN H3) as (s' & Hs' & H3' & ->).
    assert (H12 : sched_steps s0 (es1 ++ es2 ++ es) s')
      by (eapply steps_app; [done|]; by eapply steps_app).
    destruct ok; simpl.
    + assert (Hc' : on_cpus (es1 ++ es2 ++ es) s0).
      { refine (proj1 (on_cpus_app _ (concat segs.*2) _ _ H12 _)). by rewrite <- !app_assoc. }
      assert (Hn' : Z.of_nat (length (es1 ++ es2 ++ es)) < 2 ^ 53)
        by (rewrite !length_app in *; lia).
      rewrite (read_total s0 (es1 ++ es2 ++ es) s') by done. split.
      * eapply totals_grow; [done | by eapply steps_app | done | done].
      * eapply (IH (es1 ++ es2 ++ es) [] s'); [done | constructor | done | |];
          simpl; by rewrite <- !app_assoc.
    + eapply (IH es1 (es2 ++ es) s1); [done | by eapply steps_app | done | |];
        by rewrite <- !app_assoc.
Qed.

(** C7: the exported metrics count scheduling decisions.  Whatever the callbacks
    did on the CPUs between the export ticks, and whichever reads of the per-CPU
    array failed, once a read succeeds the exported enqueue counter is the number
    of calls of [k8s_enqueue] since the scheduler was loaded, and the other two
    are the numbers of idle-CPU direct inserts and of shortened slices, summed
    over all CPUs: no decision is lost or counted twice, as long as fewer than
    2^53 happened. *)
Theorem metrics_count_decisions s0 segs sN :
  wf_state s0 -> fresh_counters s0 -> sched_steps s0 (concat segs.*2) sN ->
  on_cpus (concat segs.*2) s0 -> Z.of_nat (length (concat segs.*2)) < 2 ^ 53 ->
  let x := foldl export_tick exporter_start (tick_readings s0 segs ++ [read_view sN]) in
  let t := total (concat segs.*2) s0 in
  EnqueueCount x = count_enqueues (concat segs.*2) /\
  LocalDispatches x = local_dispatches t /\ BudgetCapped x = budget_capped t /\
  0 <= BudgetCapped x <= EnqueueCount x + LocalDispatches x.
Proof.
  intros Hw Hf Hs Hc Hn x t. pose proof (total_sound (concat segs.*2) s0) as Hb.
  destruct (export_sync (tick_readings s0 segs ++ [read_view sN]) exporter_start)
    as [(X1 & X2 & X3) Hl]; [done | |].
  { change (last_stats exporter_start) with no_stats. rewrite <- (total_nil s0).
    by eapply (ticks_mono s0 Hw Hf segs [] [] s0 s0 sN); try constructor. }
  fold x in X1, X2, X3, Hl. unfold final_reading in Hl. rewrite foldl_snoc in Hl.
  rewrite (read_total s0 (concat segs.*2) sN) in Hl by done. simpl in Hl.
  destruct (total_counts _ s0 sN Hs Hc) as [He B]. rewrite X1, X2, X3, Hl.
  rewrite <- He. split_and!; try done; apply Hb.
Qed.

End Flow.

(** ** The demo run, exported *)

(** Three ticks of the demo run; the second read fails. *)
Definition demo_segs : list (bool * list event) :=
  [ (true, take 5 demo_events); (false, take 5 (skipn 5 demo_events));
    (true, skipn 10 (take 12 demo_events)) ].

Lemma on_cpus_check cs es : forall s : sched_state RefKernel.priv,
  (fix check es s := match es with
     | [] => true
     | e :: es' => bool_decide (k_cpu (s_kern s) ∈ cs) &&
         match exec e s with Some s' => check es' s' | None => true end
     end) es s = true -> on_cpus cs es s.
Proof.
  induction es as [|e es IH]; intros s Hc; [done|]. simpl in *.
  apply andb_true_iff in Hc as [Hk Hc]. split; [by apply bool_decide_eq_true in Hk|].
  destruct (exec e s); [by apply IH | done].
Qed.

Lemma metrics_count_decisions_witness :
  EnqueueCount (foldl export_tick exporter_start
    (tick_readings [0] demo_state demo_segs ++
     [read_view [0] (default demo_state (exec_all (concat demo_segs.*2) demo_state))])) = 2.
Proof.
  destruct (metrics_count_decisions [0] ltac:(apply NoDup_singleton) demo_state demo_segs
    (default demo_state (exec_all (concat demo_segs.*2) demo_state)) demo_wf) as (E & _).
  - intros c Hc. apply list_elem_of_singleton in Hc as ->. vm_compute. reflexivity.
  - apply check_run_steps. vm_compute. reflexivity.
  - apply on_cpus_check. vm_compute. reflexivity.
  - vm_compute. reflexivity.
  - rewrite E. vm_compute. reflexivity.
Defined.
