(* ===== verification/Reconcile.v ===== *)
(** * The maps follow the history of the node

    The agent of [Agent] over a whole history: pod events, policy events and
    cleanup ticks in any order, each against the file system of its moment.  The
    specification is one pure map [wanted]: a running pod sets the entries of
    its cgroups, the end of a pod clears every cgroup of the pod, a sweep clears
    the cgroups that are gone.  The agent works from records, resolutions and
    a BPF map it shares with the kernel; the refinement says that its cgroup map
    agrees with [wanted] wherever a cgroup still exists, at every moment, and
    entirely after each cleanup tick, and that the scheduler's lookup therefore
    uses the wanted parameters. *)

From stdpp Require Import base gmap list strings numbers.
From Stdlib Require Import ZArith Lia.
From S2P Require Import Prelude ScxCommon Kernel K8sSched Vtime SchedFacts Demo.
From S2P Require Import GoStrings Pods NodeFs AgentMaps MapsSpec CelCache Policy PolicySpec PolicySync.
From S2P Require Import Agent AgentSpec EndToEnd.

Open Scope Z_scope.

Section Reconcile.
Context {LabelSelector Program Err Unstructured : Type}.
Context (FromUnstructured : Unstructured -> option (@SchedulingPolicy LabelSelector)).
Context (selects : LabelSelector -> gomap -> option bool).
Context (range : gmap string (@SchedulingPolicy LabelSelector) -> list (@SchedulingPolicy LabelSelector)).
Context (compile : string -> Program + Err).
Context (eval : Program -> cel_vars -> cel_value + Err).
Context (base proc : string).
Context (put_ok del_ok : which_map -> gmap Z task_params -> Z -> bool).
Context (iterate : gmap Z task_params -> list (Z * task_params) * bool).

#[local] Abbreviation agent := (@agent LabelSelector Program Err).

(** ** Histories *)

Inductive agent_op :=
| OpPod (now : Z) (fs : fnode) (ev : pod_event)
| OpPolicy (ev : @policy_event Unstructured)
| OpCleanup (fs : fnode).

Definition set_resolver (a : agent) (r : @Resolver LabelSelector Program Err) : agent :=
  mkAgent r (ag_st a) (ag_ActivePolicies a) (ag_ParamsMapped a) (ag_events a).
Definition set_st (a : agent) (s : st) : agent :=
  mkAgent (ag_resolver a) s (ag_ActivePolicies a) (ag_ParamsMapped a) (ag_events a).

(** What the agent does: the watcher and its callbacks, the policy handlers, the
    cleanup tick. *)
Definition agent_step (a : agent) (op : agent_op) : agent :=
  match op with
  | OpPod now fs ev => on_event selects range compile eval base proc put_ok del_ok now fs a ev
  | OpPolicy ev => set_resolver a (handlePolicyEvent FromUnstructured (ag_resolver a) ev)
  | OpCleanup fs => set_st a (cleanup_tick base proc del_ok iterate fs (ag_st a))
  end.

(** ** The specification *)

(** The pods of the node, and the pod a cgroup belongs to, for all time:
    identifiers are not reused. *)
Context (pods : gset string) (owner : Z -> option string).

(** The identifiers of [ids] the kernel accepts when they are offered in order
    ([put_loop_exact] says which these are): all of them, unless the map is full. *)
Definition accepted (a : agent) (ids : list Z) (tp : task_params) : list Z :=
  (put_loop put_ok CgroupMap ids tp (cgroup_params_map (st_bpf (ag_st a)))).1.1.

(** What an operation means for the wanted map. *)
Inductive intent :=
| Apply (ids : list Z) (tp : task_params)
| Forget (uid : string)
| Sweep (live : gset Z)
| Nothing.

Definition intent_of (a : agent) (op : agent_op) : intent :=
  match op with
  | OpPod _ fs ev =>
      match handle_event ev with
      | Some (OnAdd pod) =>
          let tp := resolved_params selects range compile eval a pod in
          Apply (accepted a (resolvePodCgroupIDs base fs (pod_UID pod)) tp) tp
      | Some (OnDelete pod) => Forget (pod_UID pod)
      | None => Nothing
      end
  | OpPolicy _ => Nothing
  | OpCleanup fs => Sweep (liveKubepodsCgroupIDs base fs)
  end.

Definition wanted_step (w : gmap Z task_params) (i : intent) : gmap Z task_params :=
  match i with
  | Apply ids tp => with_keys ids tp w
  | Forget uid => filter (fun kv => owner kv.1 <> Some uid) w
  | Sweep live => filter (fun kv => kv.1 ∈ live) w
  | Nothing => w
  end.

(** ** The node *)

(** What a snapshot of the node's file system shows: the cgroup tree can be
    listed and has a kubepods directory; the kubelet keeps each pod in one of
    the places its drivers use, in which there are only cgroups of the pod, and
    outside of which below kubepods there are none of them. *)
Record good_snapshot (fs : fnode) : Prop := GoodSnapshot {
  snap_listable : all_listable fs = true;
  snap_visible : exists root n d k, root ∈ kubepods_roots base /\ Stat fs root = Some n /\
    under n d /\ dirCgroupID d = Some k;
  snap_named uid : uid ∈ pods -> uid <> "";
  snap_one uid dir dir' n n' : uid ∈ pods ->
    dir ∈ podCgroupDirCandidates base uid -> dir' ∈ podCgroupDirCandidates base uid ->
    Stat fs dir = Some n -> IsDir n = true -> Stat fs dir' = Some n' -> IsDir n' = true -> dir = dir';
  snap_own uid dir n d k : uid ∈ pods -> dir ∈ podCgroupDirCandidates base uid ->
    Stat fs dir = Some n -> under n d -> dirCgroupID d = Some k -> owner k = Some uid;
  snap_below uid root n d k : uid ∈ pods -> root ∈ kubepods_roots base -> Stat fs root = Some n ->
    under n d -> dirCgroupID d = Some k -> owner k = Some uid ->
    exists dir n' d', dir ∈ podCgroupDirCandidates base uid /\ Stat fs dir = Some n' /\
      IsDir n' = true /\ under n' d' /\ dirCgroupID d' = Some k
}.

Lemma snap_live fs : good_snapshot fs -> liveKubepodsCgroupIDs base fs <> ∅.
Proof.
  intros Hfs E. destruct (snap_visible _ Hfs) as (root & n & d & k & Hk).
  assert (Hin : k ∈ liveKubepodsCgroupIDs base fs) by (apply live_elem; by exists root, n, d).
  rewrite E in Hin. by apply not_elem_of_empty in Hin.
Qed.

(** On such a snapshot resolving a pod finds exactly its live cgroups. *)
Lemma snap_owner fs uid k : good_snapshot fs -> uid ∈ pods ->
  k ∈ resolvePodCgroupIDs base fs uid <->
  k ∈ liveKubepodsCgroupIDs base fs /\ owner k = Some uid.
Proof.
  intros Hfs Hu. split.
  - intros Hk. split; [by eapply resolve_live; [apply Hfs|]|].
    apply resolve_elem in Hk as (_ & dir & n & d & Hf & Hn & Hd & Hk).
    apply findPodCgroupDir_some in Hf as [Hc _]. by eapply (snap_own _ Hfs uid dir n d).
  - intros [Hl Ho]. apply live_elem in Hl as (root & n & d & Hr & Hn & Hd & Hk).
    destruct (snap_below _ Hfs uid root n d k) as (dir & n' & d' & Hc & Hn' & Hdir & Hd' & Hk');
      [done..|].
    apply resolve_elem. split; [by apply (snap_named _ Hfs)|].
    destruct (findPodCgroupDir base fs uid) as [dir1|] eqn:E.
    + apply findPodCgroupDir_some in E as (Hc1 & n1 & Hn1 & Hdir1).
      assert (dir1 = dir) as -> by (by eapply (snap_one _ Hfs uid)).
      exists dir, n', d'. done.
    + exfalso. unfold findPodCgroupDir in E. apply list_elem_of_In in Hc.
      pose proof (find_none _ _ E dir Hc) as Hnone. simpl in Hnone. rewrite Hn' in Hnone. congruence.
Qed.

Definition op_fs (op : agent_op) : option fnode :=
  match op with OpPod _ fs _ | OpCleanup fs => Some fs | OpPolicy _ => None end.

(** The pod an operation acts on. *)
Definition op_uid (op : agent_op) : option string :=
  match op with
  | OpPod _ _ ev =>
      match handle_event ev with
      | Some (OnAdd pod) | Some (OnDelete pod) => Some (pod_UID pod)
      | None => None
      end
  | _ => None
  end.

(** What the environment owes an operation. *)
Record admissible_op (dead : gset Z) (op : agent_op) : Prop := AdmissibleOp {
  adm_snapshot fs : op_fs op = Some fs -> good_snapshot fs;
  adm_dead fs : op_fs op = Some fs -> dead ## liveKubepodsCgroupIDs base fs;
  adm_pod uid : op_uid op = Some uid -> uid ∈ pods
}.

(** The cgroups known to be gone: those the agent has an entry for and that a
    snapshot does not show. *)
Definition bury (a : agent) (op : agent_op) (dead : gset Z) : gset Z :=
  match op_fs op with
  | Some fs => dead ∪ (dom (cgroup_params_map (st_bpf (ag_st a))) ∖ liveKubepodsCgroupIDs base fs)
  | None => dead
  end.

(** A history from agent [a], wanted map [w] and dead cgroups [dead]: every
    snapshot is good and shows no dead cgroup. *)
Inductive history : agent -> gmap Z task_params -> gset Z -> list agent_op ->
    agent -> gmap Z task_params -> gset Z -> Prop :=
| history_nil a w dead : history a w dead [] a w dead
| history_op a w dead op ops a' w' dead' :
    admissible_op dead op ->
    history (agent_step a op) (wanted_step w (intent_of a op)) (bury a op dead) ops a' w' dead' ->
    history a w dead (op :: ops) a' w' dead'.

(** ** Refinement *)

(** The maps are open, each pod's records name cgroups of the pod, and the
    cgroup map agrees with the wanted one except for dead cgroups. *)
Record agrees (w : gmap Z task_params) (dead : gset Z) (a : agent) : Prop := Agrees {
  agr_task : TaskParams_open (st_maps (ag_st a)) = true;
  agr_cgroup : CgroupParams_open (st_maps (ag_st a)) = true;
  agr_records uid ids k : podCgroupIDs (st_maps (ag_st a)) !! uid = Some ids -> k ∈ ids ->
    owner k = Some uid;
  agr_lookup k : k ∉ dead -> cgroup_params_map (st_bpf (ag_st a)) !! k = w !! k
}.

Hypothesis del_law : forall w m k, is_Some (m !! k) -> del_ok w m k = true.
Hypothesis iterate_law : forall m, (iterate m).1 ≡ₚ map_to_list m.

Lemma agrees_mono w dead dead' a : dead ⊆ dead' -> agrees w dead a -> agrees w dead' a.
Proof. intros Hs [? ? ? Hl]. split; [done..|]. intros k Hk. apply Hl. by intros ?%Hs. Qed.

Lemma agrees_maps w dead a a' :
  st_maps (ag_st a') = st_maps (ag_st a) ->
  (forall k, k ∉ dead -> cgroup_params_map (st_bpf (ag_st a')) !! k = w !! k) ->
  agrees w dead a -> agrees w dead a'.
Proof. intros Hm Hl [? ? ? _]. split; rewrite ?Hm; done. Qed.

(** A running pod. *)
Lemma agrees_apply w dead now fs a pod :
  let a' := onPodUpdate selects range compile eval base proc put_ok now fs a pod in
  let tp := resolved_params selects range compile eval a pod in
  good_snapshot fs -> pod_UID pod ∈ pods -> agrees w dead a ->
  agrees (wanted_step w (Apply (accepted a (resolvePodCgroupIDs base fs (pod_UID pod)) tp) tp)) dead a'.
Proof.
  intros a' tp Hfs Hpod [Ht Hc Hr Hl].
  assert (Hids : pod_cgids base fs (ag_st a) pod = resolvePodCgroupIDs base fs (pod_UID pod))
    by (unfold pod_cgids; by rewrite Hc).
  destruct (decide (pod_cgids base fs (ag_st a) pod = [])) as [He|Hne].
  - rewrite <- Hids, He. change (wanted_step w (Apply (accepted a [] tp) tp)) with (∅ ∪ w).
    rewrite (left_id_L ∅ (∪)).
    unfold a', onPodUpdate. destruct (Resolve _ _ _ _ _ _) as [sp r].
    destruct (update_pids_run base proc put_ok now fs (ag_st a) pod
      (Some (mkSchedParams (Weight sp) (BudgetNs sp))) Ht He) as (written & err & m & _ & ->).
    split; simpl; try case_decide; done.
  - unfold a', onPodUpdate, tp, accepted, resolved_params. rewrite <- Hids.
    destruct (Resolve _ _ _ _ _ _) as [sp r].
    destruct (update_cgroup_run base proc put_ok now fs (ag_st a) pod
      (Some (mkSchedParams (Weight sp) (BudgetNs sp))) Ht Hne) as (written & err & b & Hw & ->).
    unfold writeCgroupParams in Hw.
    change (params_for pod (Some (mkSchedParams (Weight sp) (BudgetNs sp))))
      with (TaskParams_of (sp, r).1) in Hw.
    destruct (put_loop _ _ _ _ _) as [[written' e] m] eqn:E. injection Hw as <- <- <-.
    apply put_loop_spec in E as [Hs Hm _ _]. split; simpl; [done | done | |].
    + intros uid ids k Hu Hk.
      apply lookup_insert_Some in Hu as [[<- <-]|[_ Hu]]; [|by eapply Hr].
      apply (snap_owner fs _ _ Hfs Hpod). rewrite <- Hids. by eapply elem_of_sublist.
    + intros k Hk. rewrite with_keys_lookup, Hm. case_decide; [done | by apply Hl].
Qed.

(** The end of a pod: what the records and the resolution miss is dead. *)
Lemma agrees_forget w dead now fs a pod :
  let gone := dom (cgroup_params_map (st_bpf (ag_st a))) ∖ liveKubepodsCgroupIDs base fs in
  good_snapshot fs -> pod_UID pod ∈ pods -> agrees w dead a ->
  agrees (wanted_step w (Forget (pod_UID pod))) (dead ∪ gone)
    (onPodDelete base proc del_ok now fs a pod).
Proof.
  intros gone Hfs Hpod [Ht Hc Hr Hl].
  destruct (remove_run base proc del_ok del_law now fs (ag_st a) pod Ht) as (Hm & _ & Hg & _).
  specialize (Hg Hc). unfold pod_cgids in Hg. rewrite Hc in Hg.
  set (s' := RemovePodParams base proc del_ok now fs (ag_st a) (Some pod)) in *.
  split; change (ag_st (onPodDelete base proc del_ok now fs a pod)) with s'; rewrite ?Hm;
    [done | done | |].
  - intros uid ids k Hu. simpl in Hu. apply lookup_delete_Some in Hu as [_ Hu]. by eapply Hr.
  - intros k Hk. rewrite Hg.
    assert (Hown : forall j, j ∈ default [] (podCgroupIDs (st_maps (ag_st a)) !! pod_UID pod) ++
      resolvePodCgroupIDs base fs (pod_UID pod) -> owner j = Some (pod_UID pod)).
    { intros j [Hj|Hj]%elem_of_app; [|by apply (snap_owner fs _ _ Hfs Hpod) in Hj as [_ ?]].
      destruct (podCgroupIDs _ !! _) as [ids|] eqn:E; [by eapply Hr|by apply not_elem_of_nil in Hj]. }
    destruct (decide (owner k = Some (pod_UID pod))) as [Ho|Ho].
    + transitivity (None : option task_params);
        [|symmetry; apply map_lookup_filter_None; right; intros v _; simpl; tauto].
      case_decide as D; [done|]. destruct (cgroup_params_map _ !! k) as [v|] eqn:E; [|done].
      exfalso. apply D, elem_of_app. right. apply (snap_owner fs _ _ Hfs Hpod). split; [|done].
      destruct (decide (k ∈ liveKubepodsCgroupIDs base fs)) as [|Hn]; [done|].
      exfalso. apply Hk, elem_of_union_r, elem_of_difference. split; [by apply elem_of_dom_2 in E | done].
    + rewrite decide_False by (intros D; by apply Ho, Hown).
      rewrite (Hl k) by (intros Hd; by apply Hk, elem_of_union_l). symmetry.
      destruct (w !! k) eqn:E; [by apply map_lookup_filter_Some | apply map_lookup_filter_None; by left].
Qed.

(** A cleanup tick. *)
Lemma cleanup_run fs (a : agent) :
  TaskParams_open (st_maps (ag_st a)) = true -> CgroupParams_open (st_maps (ag_st a)) = true ->
  liveKubepodsCgroupIDs base fs <> ∅ ->
  let s' := cleanup_tick base proc del_ok iterate fs (ag_st a) in
  st_maps s' = st_maps (ag_st a) /\
  cgroup_params_map (st_bpf s') =
    filter (fun kv => kv.1 ∈ liveKubepodsCgroupIDs base fs) (cgroup_params_map (st_bpf (ag_st a))).
Proof.
  intros Ht Hc Hv s'. unfold s', cleanup_tick.
  destruct (sweep_pids_run proc del_ok del_law iterate iterate_law fs (ag_st a) Ht) as (Hm & Hg & _).
  set (s1 := cleanStalePIDs proc del_ok iterate fs (ag_st a)) in *.
  pose proof (sweep_cgroups_run base del_ok del_law iterate iterate_law fs s1) as H.
  rewrite Hm in H. specialize (H Hc).
  destruct (CleanStaleCgroupIDs _ _ _ _ _) as [n s2]. destruct H as (Hm2 & _ & _ & Hne).
  simpl. rewrite Hm2. split; [done|]. destruct (Hne Hv) as [-> _]. by rewrite Hg.
Qed.

Lemma agrees_sweep w dead fs a :
  good_snapshot fs -> dead ## liveKubepodsCgroupIDs base fs -> agrees w dead a ->
  agrees (wanted_step w (Sweep (liveKubepodsCgroupIDs base fs))) ∅
    (set_st a (cleanup_tick base proc del_ok iterate fs (ag_st a))).
Proof.
  intros Hfs Hd [Ht Hc Hr Hl].
  destruct (cleanup_run fs a Ht Hc (snap_live fs Hfs)) as [Hm Hg].
  split; simpl; rewrite ?Hm; [done..|]. intros k _. rewrite Hg. apply option_eq. intros v.
  rewrite !map_lookup_filter_Some. simpl. split; intros [E Hk]; split; try done;
    [rewrite <- Hl | rewrite Hl]; try done; intros Hkd; by apply (Hd k).
Qed.

(** One operation. *)
Lemma agrees_step w dead a op :
  admissible_op dead op -> agrees w dead a ->
  agrees (wanted_step w (intent_of a op)) (bury a op dead) (agent_step a op).
Proof.
  intros [Hs Hd Hu] Hag. destruct op as [now fs ev|ev|fs]; simpl in *.
  - specialize (Hs fs eq_refl). unfold on_event in *. unfold bury. simpl.
    destruct (handle_event ev) as [[pod|pod]|].
    + apply (agrees_mono _ dead); [apply union_subseteq_l|]. by apply agrees_apply; [|apply Hu|..].
    + by apply agrees_forget; [|apply Hu|].
    + by apply (agrees_mono _ dead); [apply union_subseteq_l|].
  - unfold bury. simpl. by apply (agrees_maps _ _ a); [|intros; apply Hag|].
  - apply (agrees_mono _ ∅); [apply empty_subseteq|].
    apply (agrees_sweep w dead); [by apply Hs | by apply Hd | done].
Qed.

Lemma history_agrees a w dead ops a' w' dead' :
  history a w dead ops a' w' dead' -> agrees w dead a -> agrees w' dead' a'.
Proof. induction 1 as [|a w dead op ops a' w' dead' Hop _ IH]; [done|]. auto using agrees_step. Qed.

(** A new agent with its maps open; the cgroup map may hold entries an earlier
    process left behind its pins. *)
Lemma started_agrees gclock b a pinned_stats :
  NewAgent true gclock b = Some a ->
  agrees (cgroup_params_map b) ∅ (open_maps true true pinned_stats a).
Proof.
  intros [= <-]. split; simpl; [done | done | | done].
  intros uid ids k E. by rewrite lookup_empty in E.
Qed.

(** C2: the agent refines the wanted map.  From the start of a process whose maps
    open, with whatever an earlier one left in them, through any history of pod
    events, policy events and cleanup ticks on good snapshots of the node's file
    system, the cgroup map holds the wanted parameters of every cgroup that is
    not known to be gone: of a running pod those its last handling resolved, for
    the cgroups whose write the kernel accepted.  A cleanup tick makes the two
    maps equal.  The scheduler's lookup gives a task the entry of its process if
    there is one, else the wanted parameters of its cgroup, else the defaults. *)
Theorem agent_reconciles {P : Type} `{Kfuncs P} `{!ScxObs P} `{!ScxLaws P}
    gclock b a0 pinned_stats ops a' w dead
    (Hnew : NewAgent true gclock b = Some a0)
    (Hrun : history (open_maps true true pinned_stats a0) (cgroup_params_map b) ∅ ops a' w dead) :
  (forall k, k ∉ dead -> cgroup_params_map (st_bpf (ag_st a')) !! k = w !! k) /\
  (forall fs, good_snapshot fs -> dead ## liveKubepodsCgroupIDs base fs ->
     cgroup_params_map (st_bpf (ag_st (agent_step a' (OpCleanup fs)))) =
       filter (fun kv => kv.1 ∈ liveKubepodsCgroupIDs base fs) w) /\
  (forall (s : sched_state P) p t, synced s a' -> k_tasks (s_kern s) !! p = Some t ->
     cgroup_id_of (s_kern s) p <> 0 -> cgroup_id_of (s_kern s) p ∉ dead ->
     exists s', lookup_task_params p s =
       Some (match task_params_map (st_bpf (ag_st a')) !! u32 (t_tgid t),
                   w !! cgroup_id_of (s_kern s) p with
             | Some tp, _ => (true, tp)
             | None, Some tp => (true, tp)
             | None, None => (false, TaskParams 1000 0)
             end, s')).
Proof.
  pose proof (history_agrees _ _ _ _ _ _ _ Hrun (started_agrees _ _ _ _ Hnew)) as Hag. split_and!.
  - apply Hag.
  - intros fs Hfs Hd. apply map_eq. intros k.
    by apply (agrees_sweep w dead fs a' Hfs Hd Hag).
  - intros s p t [Hs1 Hs2] Hp Hz Hk.
    destruct (lookup_task_params_run p s t Hp) as (k & -> & _). exists (with_kern k s).
    unfold effective. rewrite (configured_live s p t Hp), Hs1, Hs2, (agr_lookup _ _ _ Hag) by done.
    apply Z.eqb_neq in Hz. rewrite Hz.
    destruct (task_params_map (st_bpf (ag_st a')) !! u32 (t_tgid t)); [done|].
    by destruct (w !! cgroup_id_of (s_kern s) p).
Qed.

End Reconcile.

(** ** A history of the demo node *)

(** The container of the demo pod was restarted: cgroup 101 is gone, 102 new. *)
Definition demo_fs2 : fnode :=
  Dir (Some 1) true
    [("sys", Dir (Some 2) true
      [("fs", Dir (Some 3) true
        [("cgroup", Dir (Some 4) true
          [("kubepods.slice", Dir (Some 10) true
            [("kubepods-burstable.slice", Dir (Some 11) true
              [("kubepods-burstable-poda_b.slice", Dir (Some 100) true
                [("cri-2.scope", Dir (Some 102) true [])])])])])])])].

Definition demo_owner (k : Z) : option string :=
  if bool_decide (k ∈ [100; 101; 102]) then Some "a-b" else None.

(** The policy arrives, the pod starts, its container restarts with a new id, a policy loses its
    selector, the cleanup runs. *)
Definition web_pod2 : Pod :=
  mkPod "a-b" "web" "prod" (Some {[ "app" := "api" ]}) None "Running" "Burstable"
    [mkContainerStatus "c2" 1] [] "" "n1".
Definition demo_history : list agent_op :=
  [OpPolicy (PolicyAdd (ObjUnstructured (Some gold)));
   OpPod 0 demo_fs (EvAdd (ObjPod web_pod));
   OpPod 9 demo_fs2 (EvUpdate (ObjPod web_pod) (ObjPod web_pod2));
   OpPolicy (PolicyUpdate ObjForeign (ObjUnstructured (Some gold2)));
   OpCleanup demo_fs2].

#[local] Abbreviation demo_step := (agent_step ref_from_unstructured ref_selects ref_range ref_compile
  ref_eval "/sys/fs/cgroup" "/proc" ref_put_ok ref_del_ok ref_iterate).
#[local] Abbreviation demo_base := "/sys/fs/cgroup".

(** A snapshot of a node with one pod is checked by walking it. *)
Definition isdir_at (fs : fnode) (dir : string) : bool :=
  match Stat fs dir with Some n => IsDir n | None => false end.
Definition ids_at (fs : fnode) (dir : string) : list Z := omap dirCgroupID (WalkDir fs dir).
Definition good_snapshotb (uid : string) (fs : fnode) : bool :=
  let dirs := podCgroupDirCandidates demo_base uid in
  let live := kubepods_roots demo_base ≫= ids_at fs in
  all_listable fs && bool_decide (live <> []) && bool_decide (uid <> "") &&
  bool_decide (length (List.filter (isdir_at fs) dirs) <= 1)%nat &&
  forallb (fun dir => forallb (fun k => bool_decide (demo_owner k = Some uid)) (ids_at fs dir)) dirs &&
  forallb (fun k => bool_decide (demo_owner k <> Some uid) ||
    bool_decide (k ∈ List.filter (isdir_at fs) dirs ≫= ids_at fs)) live.

Lemma ids_at_elem fs dir k :
  k ∈ ids_at fs dir <-> exists n d, Stat fs dir = Some n /\ under n d /\ dirCgroupID d = Some k.
Proof.
  unfold ids_at, WalkDir. destruct (Stat fs dir) as [n|] eqn:E.
  - rewrite list_elem_of_omap. setoid_rewrite walk_dirs_iff. naive_solver.
  - split; [by intros ?%not_elem_of_nil | naive_solver].
Qed.

Lemma short_filter {A} (f : A -> bool) (l : list A) x y :
  (length (List.filter f l) <= 1)%nat -> x ∈ l -> y ∈ l -> f x = true -> f y = true -> x = y.
Proof.
  intros Hlen Hx%list_elem_of_In Hy%list_elem_of_In Fx Fy.
  pose proof (proj2 (filter_In f x l) (conj Hx Fx)) as Ix.
  pose proof (proj2 (filter_In f y l) (conj Hy Fy)) as Iy.
  destruct (List.filter f l) as [|z [|z' l']]; simpl in *; [done | naive_solver | lia].
Qed.

Lemma good_snapshotb_ok uid fs :
  good_snapshotb uid fs = true -> good_snapshot demo_base {[ uid ]} demo_owner fs.
Proof.
  unfold good_snapshotb. rewrite !andb_true_iff, !bool_decide_eq_true, !forallb_forall.
  intros (((((Hl & Hv) & Hu) & H1) & Ho) & Hb). split.
  - done.
  - destruct (kubepods_roots demo_base ≫= ids_at fs) as [|k l] eqn:E; [done|].
    assert (Hk : k ∈ kubepods_roots demo_base ≫= ids_at fs) by (rewrite E; apply list_elem_of_here).
    apply list_elem_of_bind in Hk as (root & Hk & Hr). apply ids_at_elem in Hk as (n & d & Hk).
    exists root, n, d, k. naive_solver.
  - by intros uid' ->%elem_of_singleton.
  - intros uid' dir dir' n n' ->%elem_of_singleton Hd Hd' E D E' D'.
    eapply short_filter; [exact H1 | done | done | |]; unfold isdir_at; [by rewrite E | by rewrite E'].
  - intros uid' dir n d k ->%elem_of_singleton Hd En Hn Hk. apply list_elem_of_In, Ho in Hd.
    rewrite forallb_forall in Hd. apply (bool_decide_eq_true (demo_owner k = Some uid)), Hd.
    apply list_elem_of_In, ids_at_elem. eauto.
  - intros uid' root n d k ->%elem_of_singleton Hr En Hn Hk Hown.
    assert (Hin : k ∈ kubepods_roots demo_base ≫= ids_at fs).
    { apply list_elem_of_bind. exists root. split; [|done]. apply ids_at_elem. eauto. }
    apply list_elem_of_In, Hb in Hin. apply orb_true_iff in Hin as [Hin|Hin].
    { apply bool_decide_eq_true in Hin. done. }
    apply bool_decide_eq_true, list_elem_of_bind in Hin as (dir & Hkd & Hdir).
    apply list_elem_of_In, filter_In in Hdir as [Hc Hd]. unfold isdir_at in Hd.
    apply ids_at_elem in Hkd as (n' & d' & E' & Hu' & Hk'). rewrite E' in Hd.
    exists dir, n', d'. split_and!; try done. by apply list_elem_of_In.
Qed.

Lemma demo_good1 : good_snapshot demo_base {[ "a-b" ]} demo_owner demo_fs.
Proof. apply good_snapshotb_ok. vm_compute. reflexivity. Qed.
Lemma demo_good2 : good_snapshot demo_base {[ "a-b" ]} demo_owner demo_fs2.
Proof. apply good_snapshotb_ok. vm_compute. reflexivity. Qed.

#[local] Abbreviation demo_op := (@agent_op (option (@SchedulingPolicy (gmap string string)))).

Lemma demo_admissible dead (op : demo_op) fs :
  op_fs op = Some fs -> good_snapshot demo_base {[ "a-b" ]} demo_owner fs ->
  dead ## liveKubepodsCgroupIDs demo_base fs -> op_uid op = Some "a-b" \/ op_uid op = None ->
  admissible_op demo_base {[ "a-b" ]} demo_owner dead op.
Proof.
  intros Hf Hg Hd Hu. split.
  - intros fs' E. assert (fs' = fs) as -> by congruence. exact Hg.
  - intros fs' E. assert (fs' = fs) as -> by congruence. exact Hd.
  - intros uid Huid. apply elem_of_singleton. destruct Hu; congruence.
Qed.

(** A crashed predecessor left an entry for a cgroup that no longer exists. *)
Definition demo_left : bpf_maps := mkBpfMaps ∅ {[ 99 := TaskParams 1 0 ]} NoStats.
Definition demo_new : @agent (gmap string string) (option bool) unit :=
  mkAgent (NewResolver 0) (mkSt New demo_left (NodeFs.ProcCache None 0)) 0 0 [].
Definition demo_start : @agent (gmap string string) (option bool) unit :=
  open_maps true true true demo_new.

(** The four operations before the cleanup. *)
Lemma demo_history_runs :
  exists w dead, history ref_from_unstructured ref_selects ref_range ref_compile ref_eval
    demo_base "/proc" ref_put_ok ref_del_ok ref_iterate {[ "a-b" ]} demo_owner demo_start (cgroup_params_map demo_left) ∅
    (take 4 demo_history) (foldl demo_step demo_start (take 4 demo_history)) w dead /\
    w !! 102 = Some (TaskParams 9000 2000000) /\ dead = ({[ 99; 101 ]} : gset Z).
Proof.
  eexists _, _. split.
  - eapply history_op; [split; intros ? [=] |].
    eapply history_op; [apply (demo_admissible _ _ demo_fs);
      [reflexivity | exact demo_good1 | | left; reflexivity] |].
    { intros k Hk. by apply not_elem_of_empty in Hk. }
    eapply history_op; [apply (demo_admissible _ _ demo_fs2);
      [reflexivity | exact demo_good2 | | left; reflexivity] |].
    { apply (bool_decide_unpack _). vm_compute. exact I. }
    eapply history_op; [split; intros ? [=] | apply history_nil].
  - split; vm_compute; reflexivity.
Qed.

(** After the history the new container's cgroup carries the gold policy as it
    was when the pod was last handled, the old one's entry and the predecessor's
    are gone. *)
Lemma agent_reconciles_witness :
  let a := foldl demo_step demo_start demo_history in
  cgroup_params_map (st_bpf (ag_st a)) !! 102 = Some (TaskParams 9000 2000000) /\
  cgroup_params_map (st_bpf (ag_st a)) !! 101 = None /\
  cgroup_params_map (st_bpf (ag_st a)) !! 99 = None.
Proof.
  intros a. destruct demo_history_runs as (w & dead & Hrun & Hw & ->).
  destruct (agent_reconciles ref_from_unstructured ref_selects ref_range ref_compile ref_eval
    demo_base "/proc" ref_put_ok ref_del_ok ref_iterate {[ "a-b" ]} demo_owner ref_del_law ref_iterate_law
    (P := RefKernel.priv) 0 demo_left demo_new true _ _ w {[ 99; 101 ]} eq_refl Hrun) as (_ & Hc & _).
  specialize (Hc demo_fs2 demo_good2).
  change a with (demo_step (foldl demo_step demo_start (take 4 demo_history)) (OpCleanup demo_fs2)).
  rewrite Hc by (apply (bool_decide_unpack _); vm_compute; exact I). split; [|split].
  - apply map_lookup_filter_Some. split; [exact Hw|]. apply (bool_decide_unpack _). vm_compute. exact I.
  - apply map_lookup_filter_None. right. intros v _ Hin.
    apply (bool_decide_pack _) in Hin. vm_compute in Hin. exact Hin.
  - apply map_lookup_filter_None. right. intros v _ Hin.
    apply (bool_decide_pack _) in Hin. vm_compute in Hin. exact Hin.
Defined.

(** A changed policy does not reach a running pod: after the update of "gold" to
    weight 500 and a resync of the pod's informer the entry of the container still
    has the old weight, though resolving the pod again would give the new one. *)
Example policy_change_waits :
  let a := foldl demo_step demo_start
    (demo_history ++ [OpPod 99 demo_fs2 (EvUpdate (ObjPod web_pod2) (ObjPod web_pod2))]) in
  weight <$> (cgroup_params_map (st_bpf (ag_st a)) !! 102) = Some 9000 /\
  Weight (Resolve ref_selects ref_range ref_compile ref_eval (ag_resolver a) web_pod2).1 = 500.
Proof. vm_compute. split; reflexivity. Qed.
