(* ===== verification/SweepRace.v ===== *)
(** * The cleanup sweep beside the pod callbacks

    The pod callbacks run on the informer's goroutine, [periodicPIDCleanup] on
    its own; internal/maps/maps.go locks its tables but not the BPF map, so the
    steps of [CleanStaleCgroupIDs] (look at the cgroup tree, iterate the map,
    delete key by key) interleave with those of [UpdatePodParams] and
    [RemovePodParams] (look at the cgroup tree, write or delete key by key).
    Here both are split into these steps; run without interruption they are the
    operations of [AgentMaps].

    Theorem: the sweep does not disturb the callbacks on any cgroup its look at
    the tree shows, in any interleaving.  A cgroup that appears after the look
    and is written before the iteration is swept although it is alive. *)

From stdpp Require Import base gmap list strings numbers.
From Stdlib Require Import ZArith Lia.
From S2P Require Import Prelude ScxCommon Kernel BpfMacros K8sSched GoStrings Pods NodeFs AgentMaps MapsSpec.
From S2P Require Import CelCache Policy PolicySpec PolicySync Agent AgentSpec EndToEnd Reconcile.

Open Scope Z_scope.

(** ** The threads *)

(** The pod callback: between events, writing the remaining keys (with those
    written so far), or deleting. *)
Inductive watch_phase :=
| WIdle
| WWriting (uid : string) (tp : task_params) (todo written : list Z)
| WErasing (todo : list Z).

(** The sweep: between ticks, with the live cgroups it saw, or deleting. *)
Inductive sweep_phase :=
| SIdle
| SSeen (live : gset Z)
| SDeleting (todo : list Z).

Record shared := Shared {
  c_map : gmap Z task_params;
  c_records : gmap string (list Z);
  c_watch : watch_phase;
  c_sweep : sweep_phase
}.

Inductive move :=
| WUpdate (uid : string) (tp : task_params) (fs : fnode)
| WRemove (uid : string) (fs : fnode)
| WNext
| SLook (fs : fnode)
| SIterate
| SNext.

Definition is_watch (m : move) : bool :=
  match m with WUpdate _ _ _ | WRemove _ _ | WNext => true | _ => false end.

Section Race.
Context (base : string).
Context (put_ok del_ok : which_map -> gmap Z task_params -> Z -> bool).
Context (iterate : gmap Z task_params -> list (Z * task_params) * bool).

#[local] Abbreviation watch_result :=
  (option (gmap Z task_params * gmap string (list Z) * watch_phase)).

(** The cgroup branch of [UpdatePodParams] with the loop of [writeCgroupParams]:
    resolve, write key by key, record. *)
Definition update_step (mv : move) (m : gmap Z task_params) (recs : gmap string (list Z))
    (ph : watch_phase) : watch_result :=
  match mv, ph with
  | WUpdate uid tp fs, WIdle =>
      match resolvePodCgroupIDs base fs uid with
      | [] => Some (m, recs, WIdle)
      | ids => Some (m, recs, WWriting uid tp ids [])
      end
  | WNext, WWriting uid tp (k :: todo) written =>
      let '(ok, m) := Put put_ok CgroupMap k tp m in
      Some (m, recs, WWriting uid tp todo (if (ok : bool) then written ++ [k] else written))
  | WNext, WWriting uid tp [] written =>
      Some (m, if decide (uid = "") then recs else <[uid := written]> recs, WIdle)
  | _, _ => None
  end.

(** The cgroup half of [RemovePodParams]: forget the records, resolve, delete key
    by key. *)
Definition remove_step (mv : move) (m : gmap Z task_params) (recs : gmap string (list Z))
    (ph : watch_phase) : watch_result :=
  match mv, ph with
  | WRemove uid fs, WIdle =>
      Some (m, delete uid recs,
            WErasing (key_set (default [] (recs !! uid) ++ resolvePodCgroupIDs base fs uid)))
  | WNext, WErasing (k :: todo) => Some ((Delete del_ok CgroupMap k m).2, recs, WErasing todo)
  | WNext, WErasing [] => Some (m, recs, WIdle)
  | _, _ => None
  end.

(** One step of the pod callback that is running or starts. *)
Definition watch_step (mv : move) (m : gmap Z task_params) (recs : gmap string (list Z))
    (ph : watch_phase) : watch_result :=
  match mv, ph with
  | WRemove _ _, _ | _, WErasing _ => remove_step mv m recs ph
  | _, _ => update_step mv m recs ph
  end.

(** One step of [CleanStaleCgroupIDs]. *)
Definition sweep_step (mv : move) (m : gmap Z task_params) (ph : sweep_phase)
    : option (gmap Z task_params * sweep_phase) :=
  match mv, ph with
  | SLook fs, SIdle =>
      let live := liveKubepodsCgroupIDs base fs in
      Some (m, if decide (size live = 0%nat) then SIdle else SSeen live)
  | SIterate, SSeen live => Some (m, SDeleting (filter (fun k => k ∉ live) (iterate m).1.*1))
  | SNext, SDeleting (k :: todo) => Some ((Delete del_ok CgroupMap k m).2, SDeleting todo)
  | SNext, SDeleting [] => Some (m, SIdle)
  | _, _ => None
  end.

Definition c_step (mv : move) (s : shared) : option shared :=
  if is_watch mv then
    '(m, recs, ph) ← watch_step mv (c_map s) (c_records s) (c_watch s);
    Some (Shared m recs ph (c_sweep s))
  else
    '(m, ph) ← sweep_step mv (c_map s) (c_sweep s);
    Some (Shared m (c_records s) (c_watch s) ph).

Fixpoint c_run (mvs : list move) (s : shared) : option shared :=
  match mvs with
  | [] => Some s
  | mv :: mvs' => s' ← c_step mv s; c_run mvs' s'
  end.

(** The kernel accepts a write as long as the map has room for it, and deleting a
    present key succeeds. *)
Definition cgroup_max_entries : nat := Z.to_nat 16384.
Hypothesis put_room : forall m k,
  (size (dom m ∪ {[k]}) <= cgroup_max_entries)%nat -> put_ok CgroupMap m k = true.
Hypothesis del_law : forall w m k, is_Some (m !! k) -> del_ok w m k = true.

Lemma delete_lookup k m j :
  (Delete del_ok CgroupMap k m).2 !! j = if decide (j = k) then None else m !! j.
Proof.
  unfold Delete. destruct (del_ok CgroupMap m k) eqn:E; simpl.
  - case_decide; [subst; apply lookup_delete_eq | by rewrite lookup_delete_ne].
  - case_decide; [subst|done]. destruct (m !! k) eqn:Hk; [|done].
    rewrite del_law in E; [done | by eexists].
Qed.

(** ** Run without interruption *)

Definition sweep_moves (fs : fnode) (m : gmap Z task_params) : list move :=
  let live := liveKubepodsCgroupIDs base fs in
  SLook fs :: if decide (size live = 0%nat) then [] else
    SIterate :: replicate (S (length (filter (fun k => k ∉ live) (iterate m).1.*1))) SNext.
Definition update_moves (uid : string) (tp : task_params) (fs : fnode) : list move :=
  WUpdate uid tp fs ::
    match resolvePodCgroupIDs base fs uid with
    | [] => []
    | ids => replicate (S (length ids)) WNext
    end.
Definition remove_moves (uid : string) (fs : fnode) (recs : gmap string (list Z)) : list move :=
  WRemove uid fs ::
    replicate (S (length (key_set (default [] (recs !! uid) ++ resolvePodCgroupIDs base fs uid)))) WNext.

Lemma run_cons mv mvs s s' : c_step mv s = Some s' -> c_run (mv :: mvs) s = c_run mvs s'.
Proof. intros E. cbn [c_run]. by rewrite E. Qed.

Lemma sweep_deletes todo : forall m recs w,
  c_run (replicate (S (length todo)) SNext) (Shared m recs w (SDeleting todo)) =
  Some (Shared (delete_count del_ok CgroupMap todo m).2 recs w SIdle).
Proof.
  induction todo as [|k todo IH]; intros m recs w; [done|]. cbn [length replicate].
  rewrite run_cons with (s' := Shared (Delete del_ok CgroupMap k m).2 recs w (SDeleting todo))
    by reflexivity.
  etransitivity; [apply IH|]. cbn [delete_count].
  destruct (Delete del_ok CgroupMap k m) as [ok m1]. simpl.
  by destruct (delete_count _ _ todo m1).
Qed.

Lemma watch_erases todo : forall m recs sw,
  c_run (replicate (S (length todo)) WNext) (Shared m recs (WErasing todo) sw) =
  Some (Shared (delete_keys del_ok CgroupMap todo m) recs WIdle sw).
Proof.
  induction todo as [|k todo IH]; intros m recs sw; [done|]. cbn [length replicate].
  rewrite run_cons with (s' := Shared (Delete del_ok CgroupMap k m).2 recs (WErasing todo) sw)
    by reflexivity.
  apply IH.
Qed.

Lemma watch_writes uid tp todo : forall written m recs sw,
  let '(w, _, m') := put_loop put_ok CgroupMap todo tp m in
  c_run (replicate (S (length todo)) WNext) (Shared m recs (WWriting uid tp todo written) sw) =
  Some (Shared m' (if decide (uid = "") then recs else <[uid := written ++ w]> recs) WIdle sw).
Proof.
  induction todo as [|k todo IH]; intros written m recs sw; cbn [put_loop length replicate].
  - by rewrite app_nil_r.
  - unfold Put. destruct (put_ok CgroupMap m k) eqn:Eok.
    + specialize (IH (written ++ [k]) (<[k:=tp]> m) recs sw).
      destruct (put_loop put_ok CgroupMap todo tp (<[k:=tp]> m)) as [[w e] m'].
      rewrite run_cons with (s' := Shared (<[k:=tp]> m) recs (WWriting uid tp todo (written ++ [k])) sw).
      * etransitivity; [apply IH|]. by rewrite <- app_assoc.
      * unfold c_step. cbn. unfold Put. by rewrite Eok.
    + specialize (IH written m recs sw).
      destruct (put_loop put_ok CgroupMap todo tp m) as [[w e] m'].
      rewrite run_cons with (s' := Shared m recs (WWriting uid tp todo written) sw); [apply IH|].
      unfold c_step. cbn. unfold Put. by rewrite Eok.
Qed.

(** The state of the maps component the two threads share. *)
Definition shared_of (s : st) (w : watch_phase) (sw : sweep_phase) : shared :=
  Shared (cgroup_params_map (st_bpf s)) (podCgroupIDs (st_maps s)) w sw.

Lemma sweep_uninterrupted fs s w :
  CgroupParams_open (st_maps s) = true ->
  c_run (sweep_moves fs (cgroup_params_map (st_bpf s))) (shared_of s w SIdle) =
  Some (shared_of (CleanStaleCgroupIDs base del_ok iterate fs s).2 w SIdle).
Proof.
  intros Ho. unfold CleanStaleCgroupIDs, sweep_moves, shared_of. rewrite Ho. simpl negb. cbv iota.
  destruct (decide (size (liveKubepodsCgroupIDs base fs) = 0%nat)) as [E|E].
  - rewrite run_cons with (s' := shared_of s w SIdle); [done|].
    unfold c_step. cbn. by rewrite decide_True.
  - rewrite run_cons with (s' := shared_of s w (SSeen (liveKubepodsCgroupIDs base fs)));
      [|unfold c_step; cbn; by rewrite decide_False].
    rewrite run_cons with (s' := shared_of s w (SDeleting (filter
      (fun k => k ∉ liveKubepodsCgroupIDs base fs) (iterate (cgroup_params_map (st_bpf s))).1.*1)))
      by reflexivity.
    etransitivity; [apply sweep_deletes|]. by destruct (delete_count _ _ _ _).
Qed.

Lemma update_uninterrupted proc now fs s pod sp sw :
  TaskParams_open (st_maps s) = true -> CgroupParams_open (st_maps s) = true ->
  resolvePodCgroupIDs base fs (pod_UID pod) <> [] ->
  c_run (update_moves (pod_UID pod) (TaskParams_of sp) fs) (shared_of s WIdle sw) =
  Some (shared_of (UpdatePodParams base proc put_ok now fs s (Some pod) (Some sp)).2 WIdle sw).
Proof.
  intros Ht Hc Hne. unfold UpdatePodParams, update_moves. rewrite Ht, Hc. simpl negb. cbv iota.
  destruct (resolvePodCgroupIDs base fs (pod_UID pod)) as [|k ids] eqn:E; [done|].
  rewrite run_cons with (s' := shared_of s (WWriting (pod_UID pod) (TaskParams_of sp) (k :: ids) []) sw)
    by (unfold c_step; cbn; by rewrite E).
  unfold writeCgroupParams.
  pose proof (watch_writes (pod_UID pod) (TaskParams_of sp) (k :: ids) [] (cgroup_params_map (st_bpf s))
    (podCgroupIDs (st_maps s)) sw) as Hw.
  destruct (put_loop put_ok CgroupMap (k :: ids) _ _) as [[w e] m'].
  etransitivity; [apply Hw|]. unfold shared_of. simpl. by case_decide.
Qed.

Lemma remove_uninterrupted proc now fs s pod sw :
  TaskParams_open (st_maps s) = true -> CgroupParams_open (st_maps s) = true ->
  c_run (remove_moves (pod_UID pod) fs (podCgroupIDs (st_maps s))) (shared_of s WIdle sw) =
  Some (shared_of (RemovePodParams base proc del_ok now fs s (Some pod)) WIdle sw).
Proof.
  intros Ht Hc. unfold RemovePodParams, remove_moves. rewrite Ht. simpl negb. cbv iota.
  change (CgroupParams_open (forget_pod (st_maps s) (pod_UID pod))) with (CgroupParams_open (st_maps s)).
  rewrite Hc. destruct (resolvePodPIDs _ _ _ _ _ _) as [pids pc].
  rewrite run_cons with (s' := Shared (cgroup_params_map (st_bpf s))
    (delete (pod_UID pod) (podCgroupIDs (st_maps s)))
    (WErasing (key_set (default [] (podCgroupIDs (st_maps s) !! pod_UID pod) ++
       resolvePodCgroupIDs base fs (pod_UID pod)))) sw) by reflexivity.
  apply watch_erases.
Qed.

(** ** What the sweep leaves alone *)

(** [k] is in no danger: the sweep under way saw it. *)
Definition spared (k : Z) (ph : sweep_phase) : Prop :=
  match ph with
  | SIdle => True
  | SSeen live => k ∈ live
  | SDeleting todo => k ∉ todo
  end.

(** Every look at the tree shows [k]. *)
Definition shown (k : Z) (mvs : list move) : Prop :=
  Forall (fun mv => match mv with SLook fs => k ∈ liveKubepodsCgroupIDs base fs | _ => True end) mvs.

(** The keys the callbacks of a run write, and those of the map. *)
Definition pending (ph : watch_phase) : gset Z :=
  match ph with WWriting _ _ todo _ => list_to_set todo | _ => ∅ end.
Definition touched (mv : move) : gset Z :=
  match mv with WUpdate uid _ fs => list_to_set (resolvePodCgroupIDs base fs uid) | _ => ∅ end.
Definition involved (mvs : list move) (s : shared) : gset Z :=
  dom (c_map s) ∪ pending (c_watch s) ∪ ⋃ (touched <$> mvs).

(** Two states that differ only in the sweep and in keys other than [k]. *)
Record same_for (k : Z) (s t : shared) : Prop := SameFor {
  sf_map : c_map s !! k = c_map t !! k;
  sf_records : c_records s = c_records t;
  sf_watch : c_watch s = c_watch t
}.

(** Both fit into a set of keys the map has room for. *)
Record fit (K : gset Z) (s t : shared) : Prop := Fit {
  fit_map : dom (c_map s) ⊆ K;
  fit_map' : dom (c_map t) ⊆ K;
  fit_pending : pending (c_watch s) ⊆ K
}.

Lemma room_for (K : gset Z) m k :
  (size K <= cgroup_max_entries)%nat -> dom m ⊆ K -> k ∈ K -> put_ok CgroupMap m k = true.
Proof.
  intros HK Hm Hk. apply put_room. etrans; [|exact HK]. apply subseteq_size.
  apply union_subseteq. split; [done|]. by intros j ->%elem_of_singleton.
Qed.

Lemma delete_dom k m : dom (Delete del_ok CgroupMap k m).2 ⊆ dom m.
Proof.
  unfold Delete. destruct (del_ok CgroupMap m k); simpl; [|done].
  rewrite dom_delete_L. apply subseteq_difference_l, reflexivity.
Qed.

Lemma insert_dom (K : gset Z) (k : Z) (tp : task_params) (m : gmap Z task_params) :
  dom m ⊆ K -> k ∈ K -> dom (<[k := tp]> m) ⊆ K.
Proof. intros Hm Hk. rewrite dom_insert_L. by apply union_subseteq; split; [apply singleton_subseteq_l|]. Qed.

Lemma watch_same K mv k s t s' :
  (size K <= cgroup_max_entries)%nat -> touched mv ⊆ K -> fit K s t ->
  is_watch mv = true -> same_for k s t -> c_step mv s = Some s' ->
  exists t', c_step mv t = Some t' /\ same_for k s' t' /\ fit K s' t' /\ c_sweep s' = c_sweep s.
Proof.
  intros HK Htch [F1 F2 F3] Hw [Hm Hr Hp] E. unfold c_step in *. rewrite Hw in *. rewrite <- Hr, <- Hp.
  destruct mv; try done; destruct (c_watch s) as [|uid' tp' [|k' todo] written|[|k' todo]]; simpl in *;
    try done.
  - destruct (resolvePodCgroupIDs base fs uid) eqn:R; simplify_eq/=; eexists; by split_and!.
  - simplify_eq/=. eexists. by split_and!.
  - simplify_eq/=. eexists. by split_and!.
  - apply union_subseteq in F3 as [Fk F3]. apply singleton_subseteq_l in Fk.
    unfold Put in *. rewrite !(room_for K) in * by done. simplify_eq/=.
    eexists. split_and!; [done | | | done].
    + split; simpl; try done. destruct (decide (k' = k)) as [->|]; [by rewrite !lookup_insert_eq|].
      by rewrite !lookup_insert_ne.
    + split; simpl; [by apply insert_dom | by apply insert_dom | done].
  - simplify_eq/=. eexists. by split_and!.
  - simplify_eq/=. eexists. split_and!; [done | | | done].
    + split; simpl; try done. rewrite !delete_lookup. by case_decide.
    + split; simpl; [by etrans; [apply delete_dom|] | by etrans; [apply delete_dom|] | done].
Qed.

Lemma sweep_same mv k s t s' :
  is_watch mv = false -> spared k (c_sweep s) -> shown k [mv] -> same_for k s t ->
  c_step mv s = Some s' -> same_for k s' t /\ spared k (c_sweep s').
Proof.
  intros Hw Hs Hl [Hm Hr Hp] E. unfold shown in Hl. rewrite Forall_singleton in Hl.
  unfold c_step in E. rewrite Hw in E.
  destruct mv; try done; destruct (c_sweep s) as [|live|[|k' todo]]; simpl in *; simplify_eq/=;
    (split; [split; simpl|]; try done).
  - case_decide; [exact I | exact Hl].
  - intros Hin%list_elem_of_filter. by destruct Hin.
  - rewrite delete_lookup, decide_False; [done|]. set_solver.
  - set_solver.
Qed.

Lemma sweep_fit K mv s t s' :
  is_watch mv = false -> fit K s t -> c_step mv s = Some s' -> fit K s' t.
Proof.
  intros Hw [F1 F2 F3] E. unfold c_step in E. rewrite Hw in E.
  destruct mv; try done; destruct (c_sweep s) as [|live|[|k' todo]]; simpl in *; simplify_eq/=;
    split; simpl; try done. by etrans; [apply delete_dom|].
Qed.

(** Leaving out the steps of the sweep changes nothing about [k]. *)
Lemma sweep_invisible K k mvs : forall s t s',
  (size K <= cgroup_max_entries)%nat -> ⋃ (touched <$> mvs) ⊆ K -> fit K s t ->
  shown k mvs -> spared k (c_sweep s) -> same_for k s t -> c_run mvs s = Some s' ->
  exists t', c_run (filter (fun mv => is_watch mv = true) mvs) t = Some t' /\ same_for k s' t'.
Proof.
  induction mvs as [|mv mvs IH]; intros s t s' HK Ht Hf Hl Hs Hst E.
  - simplify_eq/=. by exists t.
  - cbn [c_run] in E. destruct (c_step mv s) as [s1|] eqn:E1; [|done]. simpl in E, Ht.
    apply union_subseteq in Ht as [Ht1 Ht].
    apply list.Forall_cons in Hl as [Hl1 Hl']. assert (Hl2 : shown k [mv]) by (by constructor).
    rewrite filter_cons. destruct (is_watch mv) eqn:Hw.
    + rewrite decide_True by done.
      destruct (watch_same K mv k s t s1 HK Ht1 Hf Hw Hst E1) as (t1 & Et & Hst1 & Hf1 & Hsw).
      rewrite (run_cons _ _ _ _ Et). eapply IH; [done | done | done | done | by rewrite Hsw | done | done].
    + rewrite decide_False by done. destruct (sweep_same mv k s t s1 Hw Hs Hl2 Hst E1).
      pose proof (sweep_fit K mv s t s1 Hw Hf E1). by apply (IH s1 t s').
Qed.

(** The sweep under way keeps sparing [k] along a run. *)
Lemma run_spared k mvs : forall s s',
  shown k mvs -> spared k (c_sweep s) -> c_run mvs s = Some s' -> spared k (c_sweep s').
Proof.
  induction mvs as [|mv mvs IH]; intros s s' Hl Hs E; [by simplify_eq/=|].
  cbn [c_run] in E. destruct (c_step mv s) as [s1|] eqn:E1; [|done]. simpl in E.
  apply list.Forall_cons in Hl as [Hl1 Hl']. apply (IH s1 s'); [done | | done].
  destruct (is_watch mv) eqn:Hw.
  - unfold c_step in E1. rewrite Hw in E1.
    destruct (watch_step mv _ _ _) as [[[m recs] ph]|]; by simplify_eq/=.
  - eapply (sweep_same mv k s s); [done | done | by constructor | done | done].
Qed.

(** C19: the sweep beside the callbacks.  Run alone, the steps of the sweep, of an
    update and of a removal are the operations of the maps component, refused
    writes included.  In every interleaving of sweeps with pod callbacks, no step
    of a sweep touches the entry of a cgroup that each look at the tree shows,
    nor the records; and when the map has room for all keys involved, that cgroup
    ends up with the entry, and its pod with the records, that the callbacks
    alone would have left. *)
Theorem sweep_race :
  (forall fs s w, CgroupParams_open (st_maps s) = true ->
     c_run (sweep_moves fs (cgroup_params_map (st_bpf s))) (shared_of s w SIdle) =
     Some (shared_of (CleanStaleCgroupIDs base del_ok iterate fs s).2 w SIdle)) /\
  (forall proc now fs s pod sp sw,
     TaskParams_open (st_maps s) = true -> CgroupParams_open (st_maps s) = true ->
     resolvePodCgroupIDs base fs (pod_UID pod) <> [] ->
     c_run (update_moves (pod_UID pod) (TaskParams_of sp) fs) (shared_of s WIdle sw) =
     Some (shared_of (UpdatePodParams base proc put_ok now fs s (Some pod) (Some sp)).2 WIdle sw)) /\
  (forall proc now fs s pod sw,
     TaskParams_open (st_maps s) = true -> CgroupParams_open (st_maps s) = true ->
     c_run (remove_moves (pod_UID pod) fs (podCgroupIDs (st_maps s))) (shared_of s WIdle sw) =
     Some (shared_of (RemovePodParams base proc del_ok now fs s (Some pod)) WIdle sw)) /\
  (forall k pre mv s s1 s2, shown k (pre ++ [mv]) -> spared k (c_sweep s) ->
     c_run pre s = Some s1 -> is_watch mv = false -> c_step mv s1 = Some s2 ->
     c_map s2 !! k = c_map s1 !! k /\ c_records s2 = c_records s1) /\
  (forall k mvs s s', shown k mvs -> spared k (c_sweep s) ->
     (size (involved mvs s) <= cgroup_max_entries)%nat -> c_run mvs s = Some s' ->
     exists t, c_run (filter (fun mv => is_watch mv = true) mvs) s = Some t /\
       c_map s' !! k = c_map t !! k /\ c_records s' = c_records t).
Proof.
  split_and!.
  - apply sweep_uninterrupted.
  - apply update_uninterrupted.
  - apply remove_uninterrupted.
  - intros k pre mv s s1 s2 [Hl1 Hl2]%Forall_app Hs E1 Hw E2.
    destruct (sweep_same mv k s1 s1 s2) as [[Hm Hr _] _]; [done | | done | done | done | done].
    exact (run_spared k pre s s1 Hl1 Hs E1).
  - intros k mvs s s' Hl Hs HK E.
    assert (Hin : dom (c_map s) ⊆ involved mvs s /\ pending (c_watch s) ⊆ involved mvs s /\
      ⋃ (touched <$> mvs) ⊆ involved mvs s) by (unfold involved; set_solver).
    destruct Hin as (H1 & H2 & H3).
    destruct (sweep_invisible (involved mvs s) k mvs s s s') as (t & Et & [Hm Hr _]);
      [done | done | by split | done | done | done | done |]. by exists t.
Qed.
End Race.

(** ** Two interleavings on the demo node *)

#[local] Abbreviation demo_run := (c_run "/sys/fs/cgroup" ref_put_ok ref_del_ok ref_iterate).

(** The concrete kernel takes 16384 entries. *)
Lemma ref_put_room m k :
  (size (dom m ∪ {[k]}) <= cgroup_max_entries)%nat -> ref_put_ok CgroupMap m k = true.
Proof.
  unfold ref_put_ok. intros Hs. apply orb_true_iff.
  destruct (decide (is_Some (m !! k))) as [Hk|Hk]; [left; by apply bool_decide_eq_true | right].
  apply Nat.ltb_lt. rewrite size_union, size_singleton, size_dom in Hs; [unfold cgroup_max_entries in Hs;
    change (ref_capacity CgroupMap) with (Z.to_nat 16384); lia|].
  apply disjoint_singleton_r. by rewrite elem_of_dom.
Qed.

Definition before : shared := Shared {[ 99 := TaskParams 1 0 ]} ∅ WIdle SIdle.
Definition new_params : task_params := TaskParams 9000 2000000.

(** The pod's cgroups are there before the sweep looks; the sweep iterates while
    the update is between its two writes. *)
Definition harmless : list move :=
  [SLook demo_fs; WUpdate "a-b" new_params demo_fs; WNext; SIterate; WNext; SNext; WNext; SNext].
Definition after_harmless : shared := default before (demo_run harmless before).

Lemma sweep_race_witness :
  c_map after_harmless !! 101 = Some new_params /\
  c_records after_harmless !! "a-b" = Some [100; 101].
Proof.
  destruct (sweep_race "/sys/fs/cgroup" ref_put_ok ref_del_ok ref_iterate ref_put_room ref_del_law)
    as (_ & _ & _ & _ & H).
  destruct (H 101 harmless before after_harmless) as (t & Et & Hm & Hr).
  - repeat (constructor; [first [exact I |
      apply (bool_decide_unpack _); vm_compute; exact I]|]). constructor.
  - exact I.
  - apply Nat.leb_le. vm_compute. reflexivity.
  - vm_compute. reflexivity.
  - rewrite Hm, Hr. vm_compute in Et. injection Et as <-. vm_compute. split; reflexivity.
Defined.

(** The container restarts after the sweep's look, and the update writes the new
    cgroup 102 before the sweep iterates: the sweep deletes the fresh entry of a
    live cgroup.  The records still list it, and no later sweep restores it. *)
Definition harmful : list move :=
  [SLook demo_fs; WUpdate "a-b" new_params demo_fs2; WNext; WNext; WNext;
   SIterate; SNext; SNext; SNext] ++ [SLook demo_fs2; SIterate; SNext].

Example fresh_entry_swept :
  let s := default before (demo_run harmful before) in
  102 ∈ liveKubepodsCgroupIDs "/sys/fs/cgroup" demo_fs2 /\
  c_watch s = WIdle /\ c_sweep s = SIdle /\ c_records s !! "a-b" = Some [100; 102] /\
  c_map s !! 100 = Some new_params /\ c_map s !! 102 = None.
Proof.
  split; [apply (bool_decide_unpack _); vm_compute; exact I|]. vm_compute. split_and!; reflexivity.
Qed.
