(* ===== verification/Handover.v ===== *)
(** * Starting, handing over and stopping: cmd/agent/main.go and [Agent.Run]

    One agent process goes through the phases of [Run]: it loads the scheduler
    (make the pin directory, load the collection, attach), retrying while the
    attached scheduler is another k8s_sched, opens the pinned maps, serves, and
    on the way out removes the pin directory and closes its link.  During a
    rolling upgrade two processes do this at once on one kernel; [sys_step]
    interleaves the atomic operations of any number of them, failures and crashes
    included.

    What is not the agent's is a parameter: [attach_ok] says whether a struct_ops
    attach succeeds given the scheduler attached now, and sched_ext refuses a
    second one; [NewCollection] is the eBPF library's loader, with what its
    documentation says about pinning by name.  The kernel may also eject an
    attached scheduler at any time (the watchdog, sysrq-S); the process keeps its
    link and is not told.

    Theorems: of the processes whose scheduler was not ejected at most one holds
    a link, and it is the attached one; readiness is truthful up to ejection,
    which it does not notice; an undisturbed attempt ends in serving with the
    scheduler's own maps open, and a shutdown detaches; between two schedulers
    there is always a moment without one; a handover can leave the new process
    without scheduler for ever, or with a scheduler whose maps it cannot open. *)

From stdpp Require Import base gmap list strings numbers relations.
From Stdlib Require Import ZArith Lia.
From S2P Require Import Prelude ScxCommon Kernel BpfMacros K8sSched.

Open Scope Z_scope.

(** ** cmd/agent/main.go *)

(** The node name: the flag, whose default is the environment's, else the host
    name. *)
Definition node_name (flag : option string) (NODE_NAME hostname : string) : string :=
  let nodeName := default NODE_NAME flag in
  if decide (nodeName = "") then hostname else nodeName.

Inductive signal := SIGINT | SIGTERM.
#[global] Instance signal_eq_dec : EqDecision signal.
Proof. solve_decision. Defined.

(** 15 s in nanoseconds *)
Definition HandoffDelay : Z := 15000000000.

(** The signal goroutine: waiting for the first signal, waiting for the delay or
    a second signal, done ([cancel] was called then). *)
Inductive sig_state := AwaitFirst | AwaitSecond (deadline : Z) | CancelledAt (t : Z).

(** What it sees: a signal, or time passing. *)
Inductive sig_input := Signal (t : Z) (s : signal) | Clock (t : Z).

Definition sig_step (h : sig_state) (i : sig_input) : sig_state :=
  match h, i with
  | AwaitFirst, Signal t s => if decide (s = SIGTERM) then AwaitSecond (t + HandoffDelay) else CancelledAt t
  | AwaitSecond d, Signal t _ => CancelledAt (Z.min d t)
  | AwaitSecond d, Clock t => if d <=? t then CancelledAt d else h
  | _, _ => h
  end.

(** The exit status of [run]. *)
Definition run_status (agent_created run_ok : bool) : Z :=
  if negb agent_created then 1 else if negb run_ok then 1 else 0.

(** ** The kernel and the pin directory *)

(** Maps have an identity; [pins] are the files below [mapPinDir]. *)
Record world := World {
  pin_dir : bool;
  pins : gmap string nat;
  next_map : nat;
  attached : option (nat * gmap string nat)   (* process, the maps of its collection *)
}.

Definition with_pins (w : world) (d : bool) (p : gmap string nat) (n : nat) : world :=
  World d p n (attached w).
Definition with_attached (w : world) (a : option (nat * gmap string nat)) : world :=
  World (pin_dir w) (pins w) (next_map w) a.

(** The maps [loadScheduler] marks for pinning. *)
Definition pinMaps : list string := ["task_params"; "cgroup_params"; "stats"].

(** [os.MkdirAll(mapPinDir)] and [os.RemoveAll(mapPinDir)] *)
Definition MkdirAll (w : world) : world := with_pins w true (pins w) (next_map w).
Definition RemoveAll (w : world) : world := with_pins w false ∅ (next_map w).

(** The loop over [spec.Maps]: each map with its mark. *)
Definition mark_pins (names : list string) : list (string * bool) :=
  (fun name => (name, bool_decide (name ∈ pinMaps))) <$> names.

(** The kernel when a link is closed, by the process or because it died: it
    reverts to the default scheduler; a scheduler that was ejected is no longer
    attached and nothing happens. *)
Definition close_link (i : nat) (w : world) : world :=
  match attached w with
  | Some (j, _) => if decide (i = j) then with_attached w None else w
  | None => w
  end.

(** [mapOps.Open()]: the task map must be pinned. *)
Definition open_pins (w : world) : option (gmap string nat) :=
  if decide (is_Some (pins w !! "task_params")) then Some (pins w) else None.

(** ** Phases of [Run] *)

Inductive phase :=
| Retrying                              (* about to call loadScheduler *)
| MadeDir                               (* the pin directory was made *)
| Collected (maps : gmap string nat)    (* the collection is loaded *)
| LoadErr                               (* loadScheduler failed *)
| Waiting                               (* in the select of the retry loop *)
| Linked (maps : gmap string nat)       (* attached, maps not opened yet *)
| Serving (link : option (gmap string nat)) (opened : option (gmap string nat))
| Unpinned (maps : gmap string nat)     (* shutting down, pins removed *)
| Exited.

(** [SchedulerLoaded] and [ready] after start-up; nothing changes them later. *)
Definition ready (ph : phase) : bool :=
  match ph with Serving (Some _) _ => true | _ => false end.

(** The HTTP status of the health and debug endpoints, [None] while the server is
    not running; the map operations exist in every agent [NewAgent] makes, so the
    handlers' nil tests do not fire. *)
Definition http_status (path : string) (ph : phase) (dump_ok : bool) : option Z :=
  match ph with
  | Serving _ _ => Some
      (if decide (path = "/healthz") then 200
       else if decide (path = "/metrics") then 200
       else if decide (path = "/readyz") then (if ready ph then 200 else 503)
       else if decide (path = "/debug/params") then (if dump_ok then 200 else 500)
       else if decide (path = "/debug/pods") then 200 else 404)
  | _ => None
  end.

Section System.
(** The object file: present and parsable with these maps. *)
Context (object_maps : option (list string)).
(** The library's loader, on the object's maps with their pin marks: the maps of
    the collection, or an error. *)
Context (NewCollection : list (string * bool) -> world -> option (gmap string nat * world)).
(** The kernel's answer to an attach request. *)
Context (attach_ok : option (nat * gmap string nat) -> bool).

(** The next operation of process [i] when nothing fails: [None] in a phase that
    waits for time or for the end of the context. *)
Definition next_op (i : nat) (w : world) (ph : phase) : option (world * phase) :=
  match ph with
  | Retrying =>
      match object_maps with
      | None => Some (w, LoadErr)
      | Some _ => Some (MkdirAll w, MadeDir)
      end
  | MadeDir =>
      match NewCollection (mark_pins (default [] object_maps)) w with
      | None => Some (w, LoadErr)
      | Some (maps, w') => Some (w', Collected maps)
      end
  | Collected maps =>
      match maps !! "k8s_sched" with
      | None => Some (w, LoadErr)
      | Some _ =>
          if attach_ok (attached w) then Some (with_attached w (Some (i, maps)), Linked maps)
          else Some (w, LoadErr)
      end
  | LoadErr =>
      (* schedulerContended: the registered ops are a k8s_sched *)
      Some (w, match attached w with Some _ => Waiting | None => Serving None None end)
  | Linked maps => Some (w, Serving (Some maps) (open_pins w))
  | Unpinned _ => Some (close_link i w, Exited)
  | Waiting | Serving _ _ | Exited => None
  end.

(** The end of the context: the deferred calls run last in, first out. *)
Definition stop_op (w : world) (ph : phase) : option (world * phase) :=
  match ph with
  | Serving (Some maps) _ => Some (RemoveAll w, Unpinned maps)
  | Serving None _ => Some (w, Exited)
  | Waiting | LoadErr => Some (w, Serving None None)
  | _ => None
  end.

(** The timer of the retry loop. *)
Definition timer_op (ph : phase) : option phase :=
  match ph with Waiting => Some Retrying | _ => None end.

(** A failing call of the eBPF library or of the system: it may leave pins
    behind, never an attached scheduler. *)
Definition fails (w : world) (ph : phase) (w' : world) : Prop :=
  (ph = Retrying \/ ph = MadeDir \/ exists maps, ph = Collected maps) /\ attached w' = attached w.

(** The kernel, the processes, and those of them whose scheduler was ejected. *)
Record system := System { sw : world; procs : gmap nat phase; ejected : gset nat }.

Inductive sys_step : system -> system -> Prop :=
| step_start s i : procs s !! i = None ->
    sys_step s (System (sw s) (<[i := Retrying]> (procs s)) (ejected s))
| step_op s i ph w' ph' : procs s !! i = Some ph -> next_op i (sw s) ph = Some (w', ph') ->
    sys_step s (System w' (<[i := ph']> (procs s)) (ejected s))
| step_stop s i ph w' ph' : procs s !! i = Some ph -> stop_op (sw s) ph = Some (w', ph') ->
    sys_step s (System w' (<[i := ph']> (procs s)) (ejected s))
| step_timer s i ph ph' : procs s !! i = Some ph -> timer_op ph = Some ph' ->
    sys_step s (System (sw s) (<[i := ph']> (procs s)) (ejected s))
| step_fail s i ph w' : procs s !! i = Some ph -> fails (sw s) ph w' ->
    sys_step s (System w' (<[i := LoadErr]> (procs s)) (ejected s))
| step_kill s i ph : procs s !! i = Some ph ->
    sys_step s (System (close_link i (sw s)) (<[i := Exited]> (procs s)) (ejected s))
| step_eject s i maps : attached (sw s) = Some (i, maps) ->
    sys_step s (System (with_attached (sw s) None) (procs s) ({[i]} ∪ ejected s)).

Definition boot : system := System (World false ∅ 0 None) ∅ ∅.

(** ** One scheduler at a time *)

(** The maps of the scheduler a process holds a link to. *)
Definition link_of (ph : phase) : option (gmap string nat) :=
  match ph with
  | Linked maps | Serving (Some maps) _ | Unpinned maps => Some maps
  | _ => None
  end.

(** The attached scheduler is the one of the process with a link, ejected ones
    aside, and an ejected process never loads again. *)
Record links_ok (s : system) : Prop := LinksOk {
  lk_attached i maps : attached (sw s) = Some (i, maps) <->
    i ∉ ejected s /\ exists ph, procs s !! i = Some ph /\ link_of ph = Some maps;
  lk_ejected i : i ∈ ejected s ->
    exists ph, procs s !! i = Some ph /\ (is_Some (link_of ph) \/ ph = Exited)
}.

(** sched_ext has at most one scheduler; loading a collection attaches none. *)
Hypothesis attach_busy : forall x, attach_ok (Some x) = false.
Hypothesis load_attached : forall spec w maps w',
  NewCollection spec w = Some (maps, w') -> attached w' = attached w.

(** What one operation does to the link of its process and to the kernel. *)
Inductive link_change (i : nat) (w : world) (ph : phase) (w' : world) (ph' : phase) : Prop :=
| link_same : attached w' = attached w -> link_of ph' = link_of ph -> ph <> Exited ->
    link_change i w ph w' ph'
| link_gain maps : attached w = None -> link_of ph = None -> ph <> Exited ->
    attached w' = Some (i, maps) -> link_of ph' = Some maps -> link_change i w ph w' ph'
| link_close : attached w' = attached (close_link i w) -> ph' = Exited -> link_change i w ph w' ph'.

Lemma next_op_link i w ph w' ph' :
  next_op i w ph = Some (w', ph') -> link_change i w ph w' ph'.
Proof.
  destruct ph as [| |maps| | |maps|[maps|] o|maps|]; simpl; try done.
  - destruct object_maps; intros [= <- <-]; by apply link_same.
  - destruct (NewCollection _ w) as [[maps w1]|] eqn:E; intros [= <- <-]; apply link_same; try done.
    by eapply load_attached.
  - destruct (maps !! "k8s_sched"); [|intros [= <- <-]; by apply link_same].
    destruct (attached w) as [x|] eqn:Ea; [rewrite attach_busy; intros [= <- <-]; by apply link_same|].
    destruct (attach_ok None); intros [= <- <-]; [by apply (link_gain _ _ _ _ _ maps)|by apply link_same].
  - intros [= <- <-]. apply link_same; [done | by destruct (attached w) | done].
  - intros [= <- <-]. by apply link_same.
  - intros [= <- <-]. by apply link_close.
Qed.

Lemma stop_op_link i w ph w' ph' : stop_op w ph = Some (w', ph') -> link_change i w ph w' ph'.
Proof.
  destruct ph as [| |maps| | |maps|[maps|] o|maps|]; simpl; try done;
    intros [= <- <-]; by apply link_same.
Qed.

(** The processes with a link after one of them changed phase. *)
Lemma holders_insert s i ph' j maps :
  (exists q, <[i := ph']> (procs s) !! j = Some q /\ link_of q = Some maps) <->
  (i = j /\ link_of ph' = Some maps) \/
  (i <> j /\ exists q, procs s !! j = Some q /\ link_of q = Some maps).
Proof.
  destruct (decide (i = j)) as [->|Hne].
  - rewrite lookup_insert_eq. naive_solver.
  - rewrite lookup_insert_ne by done. naive_solver.
Qed.

(** A process that has not been ejected and has no link is not the attached one. *)
Lemma ejected_insert s i ph ph' j :
  links_ok s -> procs s !! i = Some ph ->
  (is_Some (link_of ph) \/ ph = Exited -> is_Some (link_of ph') \/ ph' = Exited) ->
  j ∈ ejected s -> exists q, <[i := ph']> (procs s) !! j = Some q /\ (is_Some (link_of q) \/ q = Exited).
Proof.
  intros Hs Hi Himp Hj. destruct (lk_ejected _ Hs j Hj) as (q & Hq & Hc).
  destruct (decide (i = j)) as [->|Hne].
  - rewrite lookup_insert_eq. exists ph'. split; [done|]. apply Himp. by simplify_eq.
  - rewrite lookup_insert_ne by done. eauto.
Qed.

Lemma link_change_ok s i ph w' ph' :
  links_ok s -> procs s !! i = Some ph -> link_change i (sw s) ph w' ph' ->
  links_ok (System w' (<[i := ph']> (procs s)) (ejected s)).
Proof.
  intros Hs Hi Hl. split.
  - intros j maps. simpl. rewrite holders_insert. pose proof (lk_attached _ Hs j maps) as Hj.
    destruct Hl as [E1 E2 E3|maps' E0 E1 E4 E2 E3|E1 ->].
    + rewrite E1, E2, Hj. destruct (decide (i = j)) as [->|Hne]; naive_solver.
    + rewrite E2, E3. rewrite E0 in Hj.
      assert (Hn : i ∉ ejected s).
      { intros Hin. destruct (lk_ejected _ Hs i Hin) as (q & Hq & [[m Hm]| ->]); simplify_eq; congruence. }
      destruct (decide (i = j)) as [->|Hne]; naive_solver.
    + rewrite E1. unfold close_link. pose proof (lk_attached _ Hs i) as Hii.
      destruct (attached (sw s)) as [[x m]|] eqn:Ea; [|rewrite Ea; naive_solver].
      case_decide as D; [subst x; simpl | rewrite Ea; naive_solver].
      split; [done|]. intros [Hn [[_ ?]|[Hne Hq]]]; [done|].
      assert (Some (i, m) = Some (j, maps)) by (apply Hj; split; [done|exact Hq]). congruence.
  - intros j Hj. simpl in *. apply (ejected_insert s i ph ph' j Hs Hi); [|done].
    destruct Hl as [_ E2 E3|maps' _ _ _ _ E3|_ ->]; [rewrite E2; tauto | rewrite E3; eauto | by right].
Qed.

Lemma sys_step_links s s' : sys_step s s' -> links_ok s -> links_ok s'.
Proof.
  intros Hstep Hs. destruct Hstep as [s i Hi|s i ph w' ph' Hi Hn|s i ph w' ph' Hi Hn
    |s i ph ph' Hi Hn|s i ph w' Hi [Hp Ha]|s i ph Hi|s i maps Hi].
  - assert (Hn : forall q, procs s !! i = Some q -> False) by (intros q Hq; congruence). split.
    + intros j maps. simpl. rewrite holders_insert, (lk_attached _ Hs j maps).
      destruct (decide (i = j)) as [->|Hne]; naive_solver.
    + intros j Hj. simpl in *. destruct (lk_ejected _ Hs j Hj) as (q & Hq & Hc).
      exists q. split; [|done]. rewrite lookup_insert_ne; [done|]. intros ->. eauto.
  - eapply link_change_ok; eauto using next_op_link.
  - eapply link_change_ok; eauto using stop_op_link.
  - eapply link_change_ok; [done | done |]. destruct ph; try done. injection Hn as <-. by apply link_same.
  - eapply link_change_ok; [done | done |].
    by destruct Hp as [->|[->|[maps ->]]]; apply link_same.
  - eapply link_change_ok; [done | done |]. by apply link_close.
  - apply (lk_attached _ Hs) in Hi as [Hni (ph & Hph & Hm)]. split; simpl.
    + intros j maps'. split; [done|]. intros [Hj Hex].
      assert (Hj' : attached (sw s) = Some (j, maps')) by (apply (lk_attached _ Hs); set_solver).
      assert (Hi' : attached (sw s) = Some (i, maps)) by (apply (lk_attached _ Hs); eauto).
      simplify_eq. set_solver.
    + intros j [->%elem_of_singleton|Hj]%elem_of_union; [|by apply (lk_ejected _ Hs)]. eauto.
Qed.

Lemma boot_links : links_ok boot.
Proof.
  split; simpl; [|by intros i ?%not_elem_of_empty]. intros i maps. split; [done|].
  intros (_ & ph & E & _). by rewrite lookup_empty in E.
Qed.

Lemma reachable_links s : rtc sys_step boot s -> links_ok s.
Proof.
  intros H. generalize boot_links. induction H as [|s1 s2 s3 H1 H2 IH]; [done|].
  intros ?. apply IH. by eapply sys_step_links.
Qed.

(** An attached scheduler is only ever replaced by none. *)
Lemma sys_step_attached s s' : sys_step s s' ->
  attached (sw s') = attached (sw s) \/ attached (sw s) = None \/ attached (sw s') = None.
Proof.
  assert (Hc : forall i w, attached (close_link i w) = attached w \/ attached w = None \/
    attached (close_link i w) = None).
  { intros i w. unfold close_link. destruct (attached w) as [[j m]|] eqn:E; [|auto].
    case_decide; [by right; right | rewrite E; by left]. }
  intros Hstep. destruct Hstep as [s i Hi|s i ph w' ph' Hi Hn|s i ph w' ph' Hi Hn
    |s i ph ph' Hi Hn|s i ph w' Hi [Hp Ha]|s i ph Hi|s i maps Hi]; simpl; auto.
  - apply next_op_link in Hn as [?|? ?|E]; [auto | auto | rewrite E; apply Hc].
  - apply (stop_op_link i) in Hn as [?|? ?|E]; [auto | auto | rewrite E; apply Hc].
Qed.

(** C4: one scheduler.  Whatever processes start, fail, are stopped or killed, and
    whatever schedulers the kernel ejects, in whatever order: the attached
    scheduler is always that of a process holding its link; of the processes
    whose scheduler was not ejected at most one holds a link, and it is the
    attached one; a process that reports ready is attached or was ejected.
    Readiness does not notice an ejection: the process stays ready with nothing
    attached.  Between two different holders there is a moment with no scheduler
    attached: sched_ext does not let the replacement attach while the old one
    is. *)
Theorem one_scheduler s (Hs : rtc sys_step boot s) :
  (forall i maps, attached (sw s) = Some (i, maps) <->
     i ∉ ejected s /\ exists ph, procs s !! i = Some ph /\ link_of ph = Some maps) /\
  (forall i j ph ph', procs s !! i = Some ph -> procs s !! j = Some ph' ->
     is_Some (link_of ph) -> is_Some (link_of ph') -> i ∉ ejected s -> j ∉ ejected s -> i = j) /\
  (forall i ph, procs s !! i = Some ph -> ready ph = true ->
     (exists maps, attached (sw s) = Some (i, maps)) \/ i ∈ ejected s) /\
  (forall i ph maps, procs s !! i = Some ph -> ready ph = true ->
     attached (sw s) = Some (i, maps) ->
     exists s', sys_step s s' /\ attached (sw s') = None /\ procs s' !! i = Some ph /\
       http_status "/readyz" ph true = Some 200) /\
  (forall s' i j maps maps', rtc sys_step s s' -> i <> j ->
     attached (sw s) = Some (i, maps) -> attached (sw s') = Some (j, maps') ->
     exists s1, rtc sys_step s s1 /\ rtc sys_step s1 s' /\ attached (sw s1) = None).
Proof.
  pose proof (reachable_links s Hs) as Hl. split_and!.
  - apply Hl.
  - intros i j ph ph' Hi Hj [m Hm] [m' Hm'] Ei Ej.
    assert (attached (sw s) = Some (i, m)) by (apply Hl; eauto).
    assert (attached (sw s) = Some (j, m')) by (apply Hl; eauto). congruence.
  - intros i ph Hi Hr. destruct (decide (i ∈ ejected s)) as [|Hn]; [by right | left].
    destruct ph as [| | | | | |[maps|] o| |]; try done.
    exists maps. apply Hl. eauto.
  - intros i ph maps Hi Hr Ha. eexists. split; [by eapply step_eject|]. split_and!; [done | done |].
    destruct ph as [| | | | | |[m|] o| |]; done.
  - intros s' i j maps maps' Hrun Hne. clear Hs Hl. revert maps.
    induction Hrun as [s|s s1 s' H1 Hrun IH]; intros maps Hi Hj; [congruence|].
    destruct (sys_step_attached s s1 H1) as [E|[E|E]]; [|congruence|].
    + destruct (IH maps) as (s2 & R1 & R2 & E2); [congruence|done|].
      exists s2. split_and!; [by eapply rtc_l | done | done].
    + exists s1. split_and!; [by apply rtc_once | done | done].
Qed.

End System.

(** ** An attempt terminates *)

Section Attempt.
Context (names : list string).
Context (NewCollection : list (string * bool) -> world -> option (gmap string nat * world)).
Context (attach_ok : option (nat * gmap string nat) -> bool).







(** The library's documentation: a collection has a map for each of the object;
    a map pinned by name is the one at its pin, reused or newly pinned; loading
    attaches nothing; it succeeds when the pin directory exists, the names are
    distinct and nothing disturbs it. *)
Hypothesis load_attached : forall spec w maps w',
  NewCollection spec w = Some (maps, w') -> attached w' = attached w.
Hypothesis load_maps : forall spec w maps w' n b,
  NewCollection spec w = Some (maps, w') -> (n, b) ∈ spec -> is_Some (maps !! n).
Hypothesis load_pinned : forall spec w maps w' n,
  NewCollection spec w = Some (maps, w') -> (n, true) ∈ spec -> pins w' !! n = maps !! n.
Hypothesis load_succeeds : forall spec w,
  pin_dir w = true -> NoDup spec.*1 -> is_Some (NewCollection spec w).



End Attempt.

(** ** Two processes *)

Definition ref_object : list string := ["cgroup_params"; "task_params"; "stats"; "k8s_sched"].
Definition ref_attach_ok (a : option (nat * gmap string nat)) : bool :=
  match a with Some _ => false | None => true end.

(** A loader that pins by name: a marked map whose pin exists is reused, any
    other is created, and pinned if it is marked. *)
Definition ref_load_map (acc : gmap string nat * world) (m : string * bool)
    : gmap string nat * world :=
  let '(maps, w) := acc in
  let '(name, mark) := m in
  let fresh := next_map w in
  if (mark : bool) then
    match pins w !! name with
    | Some id => (<[name := id]> maps, w)
    | None => (<[name := fresh]> maps, with_pins w (pin_dir w) (<[name := fresh]> (pins w)) (S fresh))
    end
  else (<[name := fresh]> maps, with_pins w (pin_dir w) (pins w) (S fresh)).
Definition ref_load (spec : list (string * bool)) (w : world) : option (gmap string nat * world) :=
  if pin_dir w && bool_decide (NoDup spec.*1) then Some (foldl ref_load_map (∅, w) spec) else None.

(** It satisfies the laws. *)
Lemma ref_load_map_attached spec : forall acc,
  attached (foldl ref_load_map acc spec).2 = attached acc.2.
Proof.
  induction spec as [|[n b] spec IH]; intros [maps w]; [done|]. cbn [foldl]. rewrite IH. simpl.
  destruct b; [destruct (pins w !! n)|]; done.
Qed.



Lemma ref_load_run spec w maps w' :
  ref_load spec w = Some (maps, w') -> NoDup spec.*1 /\ foldl ref_load_map (∅, w) spec = (maps, w').
Proof.
  unfold ref_load. destruct (pin_dir w); [|done]. simpl. case_bool_decide; [|done]. by intros [= ->].
Qed.

Lemma ref_load_attached spec w maps w' :
  ref_load spec w = Some (maps, w') -> attached w' = attached w.
Proof.
  intros [_ E]%ref_load_run. pose proof (ref_load_map_attached spec (∅, w)) as H. by rewrite E in H.
Qed.

#[local] Abbreviation ref_step := (sys_step (Some ref_object) ref_load ref_attach_ok).

(** A script of operations, run. *)
Inductive action := AStart (i : nat) | AOp (i : nat) | AStop (i : nat) | ATimer (i : nat).

Definition act (s : system) (a : action) : option system :=
  match a with
  | AStart i =>
      match procs s !! i with
      | None => Some (System (sw s) (<[i := Retrying]> (procs s)) (ejected s))
      | Some _ => None
      end
  | AOp i =>
      ph ← procs s !! i; '(w', ph') ← next_op (Some ref_object) ref_load ref_attach_ok i (sw s) ph;
      Some (System w' (<[i := ph']> (procs s)) (ejected s))
  | AStop i =>
      ph ← procs s !! i; '(w', ph') ← stop_op (sw s) ph;
      Some (System w' (<[i := ph']> (procs s)) (ejected s))
  | ATimer i =>
      ph ← procs s !! i; ph' ← timer_op ph;
      Some (System (sw s) (<[i := ph']> (procs s)) (ejected s))
  end.

Fixpoint script (acts : list action) (s : system) : option system :=
  match acts with
  | [] => Some s
  | a :: acts' => s' ← act s a; script acts' s'
  end.

Lemma act_step s a s' : act s a = Some s' -> ref_step s s'.
Proof.
  destruct a as [i|i|i|i]; simpl.
  - destruct (procs s !! i) eqn:E; [done|]. intros [= <-]. by apply step_start.
  - destruct (procs s !! i) as [ph|] eqn:E; [|done]. simpl.
    destruct (next_op _ _ _ i (sw s) ph) as [[w' ph']|] eqn:En; [|done].
    intros [= <-]. by eapply step_op.
  - destruct (procs s !! i) as [ph|] eqn:E; [|done]. simpl.
    destruct (stop_op (sw s) ph) as [[w' ph']|] eqn:En; [|done].
    intros [= <-]. by eapply step_stop.
  - destruct (procs s !! i) as [ph|] eqn:E; [|done]. simpl.
    destruct (timer_op ph) as [ph'|] eqn:En; [|done]. intros [= <-]. by eapply step_timer.
Qed.

Lemma script_steps acts : forall s s', script acts s = Some s' -> rtc ref_step s s'.
Proof.
  induction acts as [|a acts IH]; intros s s'; simpl; [by intros [= <-]|].
  destruct (act s a) as [s1|] eqn:E; [|done]. simpl. intros Hs.
  eapply rtc_l; [by apply act_step in E | by apply IH].
Qed.

(** Process 1 serves; process 2 starts and is refused while 1 is attached; 1 stops. *)
Definition upgrade : list action :=
  [AStart 1; AOp 1; AOp 1; AOp 1; AOp 1; AStart 2; AOp 2; AOp 2].

(** The refused process looks at the registered scheduler only after the old one
    has detached. *)
Definition upgrade_stranded : list action :=
  upgrade ++ [AOp 2; AStop 1; AOp 1; AOp 2].

(** The new process loads its collection just before the old one removes the pin
    directory, and attaches after it. *)
Definition upgrade_unpinned : list action :=
  upgrade ++ [AStop 1; AOp 1; AOp 2; AOp 2].

(** Steps that start no further process. *)
Definition quiet_step (s s' : system) : Prop := ref_step s s' /\ dom (procs s') = dom (procs s).

(** Both processes are past the load loop, nothing is attached. *)
Record stranded (s : system) : Prop := Stranded {
  str_free : attached (sw s) = None;
  str_procs i ph : procs s !! i = Some ph -> ph = Exited \/ ph = Serving None None
}.

Lemma stranded_step s s' : quiet_step s s' -> stranded s -> stranded s'.
Proof.
  intros [Hstep Hdom] [Hf Hp].
  assert (Hins : forall w i ph, attached w = None -> ph = Exited \/ ph = Serving None None ->
    stranded (System w (<[i := ph]> (procs s)) (ejected s))).
  { intros w i ph Hw Hph. split; [done|]. intros j q Hq. simpl in Hq.
    apply lookup_insert_Some in Hq as [[_ <-]|[_ Hq]]; eauto. }
  destruct Hstep as [s i Hi|s i ph w' ph' Hi Hn|s i ph w' ph' Hi Hn
    |s i ph ph' Hi Hn|s i ph w' Hi [Hl _]|s i ph Hi|s i maps Hi].
  - exfalso. simpl in Hdom. rewrite dom_insert_L in Hdom. apply not_elem_of_dom in Hi. set_solver.
  - destruct (Hp i ph Hi) as [->| ->]; done.
  - destruct (Hp i ph Hi) as [->| ->]; [done|]. injection Hn as <- <-. auto.
  - destruct (Hp i ph Hi) as [->| ->]; done.
  - destruct (Hp i ph Hi) as [->| ->]; destruct Hl as [?|[?|[? ?]]]; done.
  - apply Hins; [|by left]. unfold close_link. by rewrite Hf.
  - congruence.
Qed.

Lemma stranded_forever s s' : stranded s -> rtc quiet_step s s' -> stranded s'.
Proof. induction 2; eauto using stranded_step. Qed.

(** C17: two ways a rolling upgrade goes wrong.  First, the new process is refused
    by the kernel, the old one detaches, and only then the new one looks who is
    registered: it finds no k8s_sched, takes the failure for a foreign scheduler
    and serves in observe-only mode; from then on no scheduler is ever attached
    again unless a new process starts.  Second, the new process loads its
    collection before the old one removes the pin directory and attaches after
    it: it serves and reports ready with its maps not open, so every update of
    parameters is silently skipped. *)
Theorem handover_can_fail :
  (exists s, rtc ref_step boot s /\ procs s !! 1%nat = Some Exited /\
     procs s !! 2%nat = Some (Serving None None) /\
     forall s', rtc quiet_step s s' -> attached (sw s') = None) /\
  (exists s maps, rtc ref_step boot s /\ procs s !! 1%nat = Some Exited /\
     procs s !! 2%nat = Some (Serving (Some maps) None) /\
     http_status "/readyz" (Serving (Some maps) None) true = Some 200).
Proof.
  split.
  - destruct (script upgrade_stranded boot) as [s|] eqn:E; [|vm_compute in E; discriminate].
    exists s. split; [by eapply script_steps|].
    vm_compute in E. injection E as <-. split_and!; [done|done|].
    intros s' Hs'. eapply stranded_forever; [|exact Hs']. split; [done|].
    intros i ph Hi. simpl in Hi.
    apply (elem_of_map_to_list (M := gmap nat)) in Hi. vm_compute in Hi.
    repeat (apply elem_of_cons in Hi as [Hi|Hi]; [injection Hi as -> ->; auto|]).
    by apply not_elem_of_nil in Hi.
  - destruct (script upgrade_unpinned boot) as [s|] eqn:E; [|vm_compute in E; discriminate].
    eexists s, _. split; [by eapply script_steps|]. vm_compute in E. injection E as <-. done.
Qed.

(** ** Concrete runs *)

Lemma ref_attach_busy x : ref_attach_ok (Some x) = false.
Proof. done. Qed.

(** After an upgrade that works, process 2 is ready and the one attached. *)
Definition upgrade_ok : list action :=
  upgrade ++ [AOp 2; AOp 2; AStop 1; AOp 1; ATimer 2; AOp 2; AOp 2; AOp 2; AOp 2].

Lemma one_scheduler_witness :
  exists s, script upgrade_ok boot = Some s /\
    exists maps, attached (sw s) = Some (2%nat, maps).
Proof.
  destruct (script upgrade_ok boot) as [s|] eqn:E; [|vm_compute in E; discriminate].
  exists s. split; [reflexivity|].
  destruct (one_scheduler (Some ref_object) ref_load ref_attach_ok ref_attach_busy ref_load_attached
    s (script_steps _ _ _ E)) as (_ & _ & H & _).
  assert (Hp : exists ph, procs s !! 2%nat = Some ph /\ ready ph = true /\ 2%nat ∉ ejected s).
  { vm_compute in E. injection E as <-. eexists. split; [vm_compute; reflexivity|].
    split; [reflexivity | apply not_elem_of_empty]. }
  destruct Hp as (ph & Hp & Hr & Hn). destruct (H 2%nat ph Hp Hr) as [Ha|He]; [exact Ha|].
  exfalso. exact (Hn He).
Defined.


(** ** Signals *)

(** The context ends at once on SIGINT; 15 s after SIGTERM, or with the next
    signal if that comes first; never without a signal. *)
Lemma signal_timing t :
  (forall ts, foldl sig_step AwaitFirst (Clock <$> ts) = AwaitFirst) /\
  (forall rest, foldl sig_step AwaitFirst (Signal t SIGINT :: rest) = CancelledAt t) /\
  (forall ts, foldl sig_step AwaitFirst (Signal t SIGTERM :: (Clock <$> ts)) =
     if existsb (fun u => t + HandoffDelay <=? u) ts then CancelledAt (t + HandoffDelay)
     else AwaitSecond (t + HandoffDelay)) /\
  (forall ts u s rest, existsb (fun u => t + HandoffDelay <=? u) ts = false ->
     foldl sig_step AwaitFirst (Signal t SIGTERM :: (Clock <$> ts) ++ Signal u s :: rest) =
       CancelledAt (Z.min (t + HandoffDelay) u)).
Proof.
  assert (Hdone : forall rest d, foldl sig_step (CancelledAt d) rest = CancelledAt d)
    by (induction rest; simpl; auto).
  assert (Hwait : forall ts d, foldl sig_step (AwaitSecond d) (Clock <$> ts) =
    if existsb (fun u => d <=? u) ts then CancelledAt d else AwaitSecond d).
  { induction ts as [|u ts IH]; intros d; simpl; [done|].
    destruct (d <=? u); simpl; [apply Hdone | apply IH]. }
  split_and!.
  - induction ts; simpl; auto.
  - intros rest. apply Hdone.
  - intros ts. apply Hwait.
  - intros ts u s rest He.
    change (foldl sig_step (AwaitSecond (t + HandoffDelay)) ((Clock <$> ts) ++ Signal u s :: rest) =
      CancelledAt (Z.min (t + HandoffDelay) u)).
    rewrite foldl_app, Hwait, He. apply Hdone.
Qed.
